(* ===== verification/_CoqProject ===== *)
-Q . S2P
Prelude.v
Bits.v
Groups.v
IxGroups.v
GroupsV0.v
HppGroups.v
Probe.v
Spec.v
Store.v
Core.v
CoreV0.v
Ihtab.v
IhtabCorrect.v
Entry.v
IhtabProps.v
PlatformProps.v
IhtabV0.v
Ixhtab.v
IxhtabCorrect.v
IxhtabSplit.v
IxhtabRun.v
IxhtabSpread.v
EntrySpread.v
IxhtabProps.v
IxhtabReach.v
IxhtabStale.v
IxhtabV0.v
VersionProps.v
IhtabHpp.v
IxhtabHpp.v
HppV0.v
HppProps.v
HppCopies.v
Vmum.v
VmumSpec.v
VmumHash.v
VmumProps.v
Api.v
ApiTables.v
ApiCpp.v
Tests.v
TestsProps.v
Bench.v
BenchSpec.v
BenchProps.v
