(* ===== verification/Prelude.v ===== *)
(** * The hash tables ihtab and ixhtab and the hash function vmum

    The repository holds two open-addressing hash tables, each generated for
    an element type by a macro, and a hash function to use them with.

    - ihtab.h ([DEFINE_IHT]) keeps its elements in one array in insertion
      order.  Groups of eight slots hold seven-bit tags of the hashes and
      32-bit indices into that array; a bitmap marks deleted elements.  A full
      array is rebuilt, without the deleted elements and larger if needed.
    - ixhtab.h ([DEFINE_IXHT]) is extendible hashing: a directory indexed by
      the low hash bits names a bin, a small table of the same layout with
      16-bit indices.  A full bin is rebuilt in place, or split in two by the
      next hash bit, which may double the directory.
    - ihtab-v0.h and ixhtab-v0.h are the first versions of the tables, with the
      tags and the indices of a bin in two arrays; a deleted slot keeps its tag
      and is reused when an element with the same tag is inserted.
    - ihtab.hpp, ixhtab.hpp, ihtab-v0.hpp and ixhtab-v0.hpp are class templates
      of the four tables with the functions as methods and a forward iterator.
    - vmum.h hashes keys of any length by multiplications, in vector code for
      several targets or in portable code.

    A program calls [perform] with FIND, INSERT or DELETE and reads or writes
    the element through the pointer it gets; iterators run over the elements.
    The tables call the user's [Hash] and [Eq]; vmum.h is one choice of
    [Hash].

    * Files

    - [Prelude]: this header; the results of C code ([res]: a return, undefined
      behaviour with its reason, or a loop out of fuel) with their bind; heap
      blocks of cells that can be uninitialised ([arr]: malloc, calloc,
      realloc, free, memset, reads and writes); bytes and integers of either
      byte order; counted loops; wrap-around at 8 to 64 bits; shared lemmas.
    - [Bits]: trailing zeros, clearing the lowest bit, the positions of a mask.
    - [Groups]: the platform layer of ihtab.h ([SSE2], [NEON], [SWAR], with the
      intrinsics they use), the interface [GroupOps] and its laws
      [GroupLaws]: every match is reported, reported slots are live tags close
      to the one asked for, empty slots are reported exactly.
    - [Probe]: probing over groups without memory: what a slot can hold, the
      invariant [probe_inv] (an element is reached from its home group over
      groups without empty slots, indices are unique, fewer slots are used
      than there are), kept by insertion and deletion; the promises [KeyLaws]
      of [Hash] and [Eq].
    - [Spec]: the abstract table, a list of elements with distinct keys; the
      interface [Table], its contract [TableLaws] and [run_refines], which
      lifts the contract from one request to sequences.
    - [Store]: a bin over an interface [SlotStore] of slot memory (allocate,
      reallocate, clear, free, and the probe loop [bin_do_1]), for index and
      size types given by [BinConfig]; [bin_ok] relates a bin in memory to the
      slots of [Probe]; the laws [SlotLaws] of a slot store, which say what
      [bin_do_1] does in each case ([do_1_spec]); the lists of elements a bin
      holds and how they change.
    - [Core]: the slot store [packed] of ihtab.h and ixhtab.h, groups of eight
      tags followed by their indices in one byte array, with the probe loop
      [do_1]; that it meets the laws ([packed_laws]).
    - [GroupsV0], [CoreV0]: the platform layer of the first versions and their
      slot store [apart]; that it meets the laws ([apart_laws]).
    - [Ihtab], [IhtabCorrect], [IhtabProps]: ihtab.h, one definition per
      function and per loop ([iht_perform], [iht_rebuild], [iht_create], the
      iterator), over any slot store; that each acts as specified; the
      properties and their instances on the entries of tests/test_c.c
      ([Entry]).
    - [PlatformProps]: what the three mask functions denote, and that the probe
      loop gives the same result and memory on all platforms.
    - [IxGroups], [Ixhtab], [IxhtabCorrect], [IxhtabSplit], [IxhtabProps]:
      ixhtab.h in the same way; [IxhtabCorrect] has the table invariant
      [ixht_ok], which includes that the directory names a bin exactly for the
      hashes that end in its mask, and all operations without a split,
      [IxhtabSplit] the splits; [IxhtabReach] has INSERT into a bin without
      live entries and a run of requests that leads to it, [IxhtabStale] a
      split of two rounds and such a run.  [IxhtabRun] has INSERT in general,
      under the condition [split_safe] that the split it asks for, if any,
      works, and runs of such requests; [IxhtabSpread] shows that insertions of
      keys with spread hashes meet it, [EntrySpread] that the entries of the
      tests do.
    - [IhtabV0], [IxhtabV0], [VersionProps]: ihtab-v0.h and ixhtab-v0.h, whose
      functions above the slots are those of the current headers, so they are
      these over the store [apart]; the versions compared.
    - [HppGroups]: the platform layers in the namespaces of the four C++
      headers.
    - [IhtabHpp], [IxhtabHpp], [HppV0], [HppProps]: the C++ classes, again over
      any slot store, and their forward iterators.
    - [HppCopies]: objects of the classes on a heap, with the copies that the
      compiler provides.
    - [Vmum], [VmumSpec], [VmumHash], [VmumProps]: vmum.h with the choices of
      the preprocessor as [VmumConfig] and the global factors as [vmum_env]; a
      reference definition on lists of bytes ([hash_spec]); that the code
      computes it; the properties.
    - [Api]: the functions of a table as a program sees them, with element
      pointers and iterators abstract, and the laws it can rely on; pieces of C
      programs (assertions, arithmetic on [int], calls with a result pointer).
      [ApiTables], [ApiCpp]: both tables, both classes, and the classes with
      range-based [for], meet the laws.
    - [Tests], [TestsProps]: tests/test_c.c and tests/test.cpp as clients of
      [Api]; that all their assertions hold.
    - [Bench], [BenchSpec], [BenchProps]: the functions of
      benchmarks/bench_c.c as clients of [Api], with keys hashed by vmum.h;
      what they return.

    * What the theorems show

    - Refinement: a created table answers a sequence of requests as the list
      specification does ([iht_refines_spec] up to 2^31 requests of any kind,
      [ixht_refines_spec] up to 2^31 requests that ask for no split of a kind
      that goes wrong, which up to 2^14 requests never do, iteration up to
      order; [ixht_spread_inserts] for insertions of up to 2^27 keys with
      spread hashes).  [Ok] in these statements includes that no access is
      undefined and no loop runs without end.
    - Programs: the test programs succeed ([tests_pass]); the benchmark
      functions return the counts and sums they are meant to, as long as the
      sums fit into an [int] ([bench_integers], [bench_strings]: over ihtab for
      fewer than 2^31 keys, over ixhtab for 2^14 arbitrary keys, or 2^27 with
      spread hashes).
    - Objects: separate C++ objects do not interfere, and copies share their
      memory, so that destroying or rebuilding one leaves the other dangling
      ([cpp_copies]).
    - Versions: the first version of a table and the current one give the same
      answers ([versions_agree], for ixhtab to the sequences of requests that
      [ixht_refines_spec] or [ixht_spread_inserts] covers); in the first version deleting a key and
      inserting it again uses up no slot ([v0_reinsert_round_trip]).
    - Every operation on every branch: FIND, INSERT of a new and of a present
      key, DELETE, rebuilding, creation, destruction, iteration
      with the C iterator and with range-based [for] of the C++ classes.
    - Splits of ixhtab.h: a split of a bin at most one level above the
      directory, with elements on both sides of the next hash bit, keeps the
      table well-formed, and so does the insertion that asked for it.  Other
      splits go wrong: entries of the directory are not redirected
      ([ixht_split_loses_elements]), a second round uses a stale bitmap and
      drops elements ([ixht_split_forgets_element]), and the split of a bin
      without elements doubles the directory until an access leaves it
      ([ixht_drained_bin_insert]); runs of requests lead to the last two.
    - Sizes: how full an ihtab gets and how large, over whole runs
      ([iht_load_factor]).
    - vmum.h: the code computes the reference on every target that reads
      little-endian words and allows unaligned access; what it computes without
      unaligned access; which targets agree and where they differ.
    - Limits: the size loops of creation, the 32-bit index, the byte order of
      the portable group code.

    * Bounds and fuel

    Loops that are not counted take fuel: the probe loop one unit per group (it
    returns in the first round or never), the loop over a mask 65 (one more
    than the bits), the size loops of creation as many as the type has bits,
    the iterator the distance to the end, the split 65 rounds (each raises the
    depth, and a shift by 64 is undefined), the block and word loops of the
    hash the length of the key in rounds, loops of programs over an iterator
    the number of elements, [strlen] and [strcmp] the length of the block.  The
    theorems show that the results are [Ok], so the fuel is enough; where a
    loop does not end this is shown for any fuel.

    The model is that of a 64-bit target.  The fields of the test programs'
    entries are integers without a width; the tests use values in range.  Below
    2^14 elements ixhtab.h makes no split; this is the limit for arbitrary keys
    in the programs.  With more elements the theorems ask that the splits work
    ([split_safe], [safe_run]) or that the hashes are spread ([spread]).

    * Not modelled

    Failing allocation (the code does not check it), the sizes of allocations
    in bytes (blocks count elements, so the product of a number of elements and
    the size of an element does not wrap), the hints to the compiler, copy
    operations of C++ elements that are not plain data, the benchmark drivers
    bench.cpp and profile_lookup.cpp, which measure time, and the vendored
    Abseil. *)

From Stdlib Require Export ZArith Lia.
From stdpp Require Export base tactics sets list list_numbers numbers option.
#[global] Open Scope Z_scope.

(** [lia] with the equations of [/] and [mod] in the context. *)
Ltac dlia := Z.div_mod_to_equations; lia.

(** Evaluate the powers with constant base and exponent. *)
Ltac pow_consts :=
  repeat match goal with
    | H : context [Z.pow ?b ?e] |- _ =>
        let v := eval vm_compute in (Z.pow b e) in
        lazymatch v with Zpos _ => change (Z.pow b e) with v in H end
    | |- context [Z.pow ?b ?e] =>
        let v := eval vm_compute in (Z.pow b e) in
        lazymatch v with Zpos _ => change (Z.pow b e) with v end
    end.

(** * Results of running C code

    [Ok] is a normal return, [UB] an access or operation the C standard leaves
    undefined, or a failed [assert] (with the reason), [Timeout] a loop that has
    used up its fuel. *)

Inductive error :=
  | OutOfBounds
  | Uninitialised
  | UseAfterFree
  | DoubleFree
  | ShiftTooLarge
  | SignedOverflow
  | AssertionFailed.

#[export] Instance error_eq_dec : EqDecision error.
Proof. solve_decision. Defined.

Inductive res (A : Type) :=
  | Ok (a : A)
  | UB (e : error)
  | Timeout.
Arguments Ok {A} a.
Arguments UB {A} e.
Arguments Timeout {A}.

#[export] Instance res_ret : MRet res := λ A a, Ok a.
#[export] Instance res_bind : MBind res := λ A B f m,
  match m with
  | Ok a => f a
  | UB e => UB e
  | Timeout => Timeout
  end.

Lemma bind_Ok {A B} (m : res A) (f : A → res B) (b : B) :
  m ≫= f = Ok b ↔ ∃ a, m = Ok a ∧ f a = Ok b.
Proof. destruct m; cbn; naive_solver. Qed.

Lemma ok_bind {A B} (a : A) (f : A → res B) : Ok a ≫= f = f a.
Proof. reflexivity. Qed.

(** Continue after a call that returned. *)
Ltac step_ok := rewrite ok_bind; cbv beta.

(** [for (i = lo; i < hi; i++) s = f (i, s)] with effects in [res]. *)
Fixpoint fold_res {S : Type} (f : Z → S → res S) (ks : list Z) (s : S) : res S :=
  match ks with
  | [] => Ok s
  | k :: ks => s' ← f k s; fold_res f ks s'
  end.

Definition for_res {S : Type} (lo hi : Z) (f : Z → S → res S) (s : S) : res S :=
  fold_res f (seqZ lo (hi - lo)) s.

(** * Unsigned machine integers: values of [Z] reduced to their width. *)

Definition u8 (x : Z) : Z := x mod 2 ^ 8.
Definition u16 (x : Z) : Z := x mod 2 ^ 16.
Definition u32 (x : Z) : Z := x mod 2 ^ 32.
Definition u64 (x : Z) : Z := x mod 2 ^ 64.

(** Drop the reductions that do nothing, innermost first. *)
Ltac wrap_small :=
  unfold u8, u16, u32, u64;
  repeat match goal with
    | |- context [?x mod ?m] =>
        lazymatch x with context [_ mod _] => fail | _ => rewrite (Z.mod_small x m) by lia end
    end.

(** * Heap blocks

    A block is a list of cells, [None] for a cell that was never written, or
    it has been freed.  Pointers into a block are indices. *)

Inductive arr (A : Type) :=
  | Live (cells : list (option A))
  | Freed.
Arguments Live {A} cells.
Arguments Freed {A}.

Definition zlookup {A} (l : list A) (i : Z) : option A :=
  if decide (0 ≤ i) then l !! Z.to_nat i else None.

Section arrays.
Context {A : Type}.
Implicit Types (a : arr A) (x : A) (i n : Z).

Definition malloc n : arr A := Live (replicate (Z.to_nat n) None).
Definition calloc x n : arr A := Live (replicate (Z.to_nat n) (Some x)).

Definition arr_get a i : res A :=
  match a with
  | Freed => UB UseAfterFree
  | Live l =>
      match zlookup l i with
      | None => UB OutOfBounds
      | Some None => UB Uninitialised
      | Some (Some x) => Ok x
      end
  end.

Definition arr_set a i x : res (arr A) :=
  match a with
  | Freed => UB UseAfterFree
  | Live l =>
      if decide (0 ≤ i < Z.of_nat (length l))
      then Ok (Live (<[Z.to_nat i := Some x]> l))
      else UB OutOfBounds
  end.

Definition arr_free a : res (arr A) :=
  match a with Freed => UB DoubleFree | Live _ => Ok Freed end.

(** [realloc]: the common prefix is kept, a grown tail is uninitialised. *)
Definition arr_realloc a n : res (arr A) :=
  match a with
  | Freed => UB UseAfterFree
  | Live l =>
      Ok (Live (take (Z.to_nat n) l ++ replicate (Z.to_nat n - length l) None))
  end.

Fixpoint arr_gets a i (n : nat) : res (list A) :=
  match n with
  | O => Ok []
  | S n => x ← arr_get a i; xs ← arr_gets a (i + 1) n; Ok (x :: xs)
  end.

Fixpoint arr_sets a i (xs : list A) : res (arr A) :=
  match xs with
  | [] => Ok a
  | x :: xs => a' ← arr_set a i x; arr_sets a' (i + 1) xs
  end.

(** [memset]: [n] cells from [i] on are set to [x]. *)
Definition arr_memset a i x n : res (arr A) :=
  arr_sets a i (replicate (Z.to_nat n) x).
End arrays.

(** ** What a block holds: the value of a cell, or nothing. *)

Definition cellv {A} (l : list (option A)) (i : Z) : option A := mjoin (zlookup l i).

Section array_lemmas.
Context {A : Type}.
Implicit Types (l : list (option A)) (x : A) (xs : list A) (i k n : Z).

Lemma zlookup_Some {B} (m : list B) i y :
  zlookup m i = Some y ↔ 0 ≤ i ∧ m !! Z.to_nat i = Some y.
Proof. unfold zlookup. case_decide; naive_solver. Qed.

Lemma zlookup_range {B} (m : list B) i y :
  zlookup m i = Some y → 0 ≤ i < Z.of_nat (length m).
Proof. intros [? ?%lookup_lt_Some]%zlookup_Some. lia. Qed.

Lemma zlookup_is_Some {B} (m : list B) i :
  0 ≤ i < Z.of_nat (length m) → ∃ y, zlookup m i = Some y.
Proof.
  intros. unfold zlookup. rewrite decide_True by lia.
  apply lookup_lt_is_Some_2. lia.
Qed.

Lemma zlookup_cons {B} (m : list B) y i :
  0 ≤ i → zlookup (y :: m) i = if decide (i = 0) then Some y else zlookup m (i - 1).
Proof.
  intros. unfold zlookup. rewrite !decide_True by lia. case_decide; subst; [done|].
  rewrite decide_True by lia.
  replace (Z.to_nat i) with (S (Z.to_nat (i - 1))) by lia. done.
Qed.

Lemma arr_get_Ok l i x : arr_get (Live l) i = Ok x ↔ cellv l i = Some x.
Proof. unfold arr_get, cellv. destruct (zlookup l i) as [[]|]; cbn; naive_solver. Qed.

(** Reading an initialised cell by its position in the list. *)
Lemma live_get l (k : nat) x : l !! k = Some (Some x) → arr_get (Live l) (Z.of_nat k) = Ok x.
Proof. intros Hk. unfold arr_get, zlookup. rewrite decide_True, Nat2Z.id by lia. by rewrite Hk. Qed.

Lemma live_get_Z l i x : 0 ≤ i → l !! Z.to_nat i = Some (Some x) → arr_get (Live l) i = Ok x.
Proof. intros Hi Hk. rewrite <-(Z2Nat.id i) by done. by apply live_get. Qed.

Lemma cellv_range l i x : cellv l i = Some x → 0 ≤ i < Z.of_nat (length l).
Proof.
  unfold cellv. destruct (zlookup l i) eqn:E; [|done].
  intros _. by eapply zlookup_range.
Qed.

Lemma cellv_insert l i k x :
  0 ≤ i < Z.of_nat (length l) →
  cellv (<[Z.to_nat i := Some x]> l) k = if decide (k = i) then Some x else cellv l k.
Proof.
  intros. unfold cellv, zlookup. destruct (decide (0 ≤ k)) as [Hk|Hk].
  - case_decide; subst; [by rewrite list_lookup_insert_eq by lia|].
    by rewrite list_lookup_insert_ne by lia.
  - rewrite decide_False by lia. done.
Qed.

Lemma arr_set_Ok l i x :
  0 ≤ i < Z.of_nat (length l) →
  arr_set (Live l) i x = Ok (Live (<[Z.to_nat i := Some x]> l)).
Proof. intros. unfold arr_set. by rewrite decide_True. Qed.

Lemma cellv_malloc n i : cellv (replicate (Z.to_nat n) (@None A)) i = None.
Proof.
  unfold cellv. destruct (zlookup _ i) as [o|] eqn:E; [|done].
  apply zlookup_Some in E as [_ E]. by apply lookup_replicate_1 in E as [-> _].
Qed.

Lemma cellv_calloc n i x :
  0 ≤ i < n → cellv (replicate (Z.to_nat n) (Some x)) i = Some x.
Proof.
  intros. unfold cellv, zlookup. rewrite decide_True by lia.
  by rewrite lookup_replicate_2 by lia.
Qed.

(** The values of [n] consecutive cells. *)
Fixpoint cells_at l i (n : nat) : option (list A) :=
  match n with
  | O => Some []
  | S n => x ← cellv l i; xs ← cells_at l (i + 1) n; Some (x :: xs)
  end.

Lemma arr_gets_Ok l i (n : nat) xs :
  cells_at l i n = Some xs → arr_gets (Live l) i n = Ok xs.
Proof.
  revert i xs. induction n as [|n IH]; intros i xs; cbn; [congruence|].
  destruct (cellv l i) as [x|] eqn:E; [|done]. apply arr_get_Ok in E.
  cbn. intros (ys & Hys & [= <-])%bind_Some.
  change (arr_get (Live l) i = Ok x) in E. unfold arr_get in E.
  destruct (zlookup l i) as [[]|]; simplify_eq. cbn. by erewrite IH.
Qed.

Lemma cells_at_frame l l' i (n : nat) :
  (∀ k, i ≤ k < i + Z.of_nat n → cellv l' k = cellv l k) →
  cells_at l' i n = cells_at l i n.
Proof.
  revert i. induction n as [|n IH]; intros i Hc; cbn; [done|].
  rewrite Hc, IH by (intros; try apply Hc; lia). done.
Qed.

Lemma cells_at_lookup l i (n : nat) xs :
  length xs = n →
  (∀ k, i ≤ k < i + Z.of_nat n → cellv l k = zlookup xs (k - i)) →
  cells_at l i n = Some xs.
Proof.
  revert i xs. induction n as [|n IH]; intros i xs Hlen Hc.
  - by destruct xs.
  - destruct xs as [|x xs]; [done|]. cbn [cells_at].
    rewrite Hc, Z.sub_diag, zlookup_cons, decide_True by lia. cbn.
    rewrite (IH (i + 1) xs); [done|cbn in *; lia|].
    intros k Hk. rewrite Hc, zlookup_cons, decide_False by lia.
    f_equal. lia.
Qed.

Lemma length_cells_at l i (n : nat) xs : cells_at l i n = Some xs → length xs = n.
Proof.
  revert i xs. induction n as [|n IH]; intros i xs; cbn; [by intros [= <-]|].
  intros (x & _ & (ys & Hys%IH & [= <-])%bind_Some)%bind_Some. cbn. lia.
Qed.

Lemma cells_at_Some l i (n : nat) xs k :
  cells_at l i n = Some xs → 0 ≤ k < Z.of_nat n → cellv l (i + k) = zlookup xs k.
Proof.
  revert i xs k. induction n as [|n IH]; intros i xs k; cbn [cells_at]; [lia|].
  intros (x & Hx & (ys & Hys & [= <-])%bind_Some)%bind_Some Hk.
  rewrite zlookup_cons by lia. case_decide; subst; [by rewrite Z.add_0_r|].
  rewrite <-(IH (i + 1) ys) by (done || lia). f_equal. lia.
Qed.

Lemma cells_at_exists l i (n : nat) :
  (∀ k, 0 ≤ k < Z.of_nat n → ∃ x, cellv l (i + k) = Some x) →
  ∃ xs, cells_at l i n = Some xs.
Proof.
  revert i. induction n as [|n IH]; intros i Hc; cbn [cells_at]; [by eexists|].
  destruct (Hc 0) as [x Hx]; [lia|]. rewrite Z.add_0_r in Hx. rewrite Hx. cbn.
  destruct (IH (i + 1)) as [xs ->]; [|by eexists].
  intros k Hk. destruct (Hc (k + 1)) as [y Hy]; [lia|]. exists y. rewrite <-Hy.
  f_equal. lia.
Qed.

Lemma arr_sets_Ok l i xs :
  0 ≤ i → i + Z.of_nat (length xs) ≤ Z.of_nat (length l) →
  ∃ l', arr_sets (Live l) i xs = Ok (Live l') ∧ length l' = length l ∧
    ∀ k, cellv l' k =
      if decide (i ≤ k < i + Z.of_nat (length xs)) then zlookup xs (k - i) else cellv l k.
Proof.
  revert l i. induction xs as [|x xs IH]; intros l i Hi Hlen.
  - exists l. split_and!; [done..|]. intros k. rewrite decide_False; [done|cbn; lia].
  - cbn [arr_sets length] in *. rewrite arr_set_Ok by lia. cbn [mbind res_bind].
    destruct (IH (<[Z.to_nat i:=Some x]> l) (i + 1)) as (l' & -> & Hl & Hc);
      [lia|rewrite length_insert; lia|].
    exists l'. rewrite Hl, length_insert. split_and!; [done..|].
    intros k. rewrite Hc, cellv_insert by lia.
    destruct (decide (k = i)) as [->|?].
    + rewrite (decide_False (P := i + 1 ≤ i < _)) by lia.
      rewrite (decide_True (P := i ≤ i < _)) by lia.
      by rewrite zlookup_cons, decide_True by lia.
    + destruct (decide (i + 1 ≤ k < i + 1 + Z.of_nat (length xs))).
      * rewrite decide_True by lia. rewrite zlookup_cons by lia.
        rewrite decide_False by lia. f_equal. lia.
      * by rewrite decide_False by lia.
Qed.
End array_lemmas.

(** * Bytes and multi-byte integers *)

Fixpoint le_combine (bs : list Z) : Z :=
  match bs with
  | [] => 0
  | b :: bs => b + 256 * le_combine bs
  end.

Fixpoint le_split (n : nat) (v : Z) : list Z :=
  match n with
  | O => []
  | S n => v mod 256 :: le_split n (v / 256)
  end.

Inductive endian := LittleEndian | BigEndian.

(** The integer a target reads from bytes in memory order, and the bytes it
    writes. *)
Definition int_of_bytes (e : endian) (bs : list Z) : Z :=
  match e with LittleEndian => le_combine bs | BigEndian => le_combine (rev bs) end.
Definition bytes_of_int (e : endian) (n : nat) (v : Z) : list Z :=
  match e with LittleEndian => le_split n v | BigEndian => rev (le_split n v) end.

Definition load_int (e : endian) (a : arr Z) (p : Z) (n : nat) : res Z :=
  bs ← arr_gets a p n; Ok (int_of_bytes e bs).
Definition store_int (e : endian) (a : arr Z) (p : Z) (n : nat) (v : Z) : res (arr Z) :=
  arr_sets a p (bytes_of_int e n v).

Definition byte (b : Z) : Prop := 0 ≤ b < 256.

Lemma length_le_split n v : length (le_split n v) = n.
Proof. revert v. induction n; intros; cbn; auto. Qed.

Lemma le_combine_split n v : 0 ≤ v < 256 ^ Z.of_nat n → le_combine (le_split n v) = v.
Proof.
  revert v. induction n as [|n IH]; intros v Hv; cbn [le_split le_combine].
  - change (256 ^ Z.of_nat 0) with 1 in Hv. lia.
  - rewrite Nat2Z.inj_succ, Z.pow_succ_r in Hv by lia.
    rewrite IH by (split; [apply Z.div_pos; lia|apply Z.div_lt_upper_bound; lia]).
    pose proof (Z.div_mod v 256). lia.
Qed.

Lemma length_bytes_of_int e n v : length (bytes_of_int e n v) = n.
Proof. destruct e; cbn; rewrite ?length_rev; apply length_le_split. Qed.

Lemma int_of_bytes_of_int e n v :
  0 ≤ v < 256 ^ Z.of_nat n → int_of_bytes e (bytes_of_int e n v) = v.
Proof. intros. destruct e; cbn; rewrite ?rev_involutive; by apply le_combine_split. Qed.

(** The integer held by [n] cells, when they are all initialised. *)
Definition int_at (e : endian) (l : list (option Z)) (p : Z) (n : nat) : option Z :=
  int_of_bytes e <$> cells_at l p n.

Lemma load_int_Ok e l p n v :
  int_at e l p n = Some v → load_int e (Live l) p n = Ok v.
Proof.
  unfold int_at, load_int. intros (bs & Hbs & ->)%fmap_Some.
  by rewrite (arr_gets_Ok _ _ _ _ Hbs).
Qed.

Lemma int_at_frame e l l' p n :
  (∀ k, p ≤ k < p + Z.of_nat n → cellv l' k = cellv l k) →
  int_at e l' p n = int_at e l p n.
Proof. intros Hc. unfold int_at. by rewrite (cells_at_frame _ _ _ _ Hc). Qed.

Lemma store_int_Ok e l p n v :
  0 ≤ p → p + Z.of_nat n ≤ Z.of_nat (length l) → 0 ≤ v < 256 ^ Z.of_nat n →
  ∃ l', store_int e (Live l) p n v = Ok (Live l') ∧ length l' = length l ∧
    int_at e l' p n = Some v ∧
    ∀ k, ¬ p ≤ k < p + Z.of_nat n → cellv l' k = cellv l k.
Proof.
  intros Hp Hlen Hv. unfold store_int.
  destruct (arr_sets_Ok l p (bytes_of_int e n v)) as (l' & -> & Hl & Hc);
    rewrite ?length_bytes_of_int in *; [lia..|].
  exists l'. split_and!; [done..| |].
  - unfold int_at. rewrite (cells_at_lookup _ _ _ (bytes_of_int e n v)).
    + cbn. by rewrite int_of_bytes_of_int.
    + apply length_bytes_of_int.
    + intros k Hk. by rewrite Hc, decide_True by lia.
  - intros k Hk. by rewrite Hc, decide_False by lia.
Qed.

(** * Index ranges and filters *)

Lemma seqZ_snoc a n : 0 ≤ n → seqZ a (n + 1) = seqZ a n ++ [a + n].
Proof.
  intros. rewrite seqZ_app, (seqZ_cons _ 1) by lia. change (Z.pred 1) with 0.
  by rewrite (seqZ_nil (Z.succ _)) by lia.
Qed.

Lemma filter_ext_in {A} (P Q : A → Prop) `{∀ x, Decision (P x)} `{∀ x, Decision (Q x)} (l : list A) :
  (∀ x, x ∈ l → P x ↔ Q x) → filter P l = filter Q l.
Proof.
  induction l as [|x l IH]; intros Hl; [done|].
  rewrite !filter_cons, IH by (intros; apply Hl; set_solver).
  pose proof (Hl x ltac:(set_solver)). repeat case_decide; naive_solver.
Qed.

Lemma filter_nil_in {A} (P : A → Prop) `{∀ x, Decision (P x)} (l : list A) :
  (∀ x, x ∈ l → ¬ P x) → filter P l = [].
Proof.
  intros Hl. rewrite (filter_ext_in P (λ _, False)) by set_solver.
  by induction l as [|x l IH]; [|rewrite filter_cons_False by tauto; apply IH; set_solver].
Qed.

Lemma length_omap_le {A B} (f : A → option B) (l : list A) : (length (omap f l) ≤ length l)%nat.
Proof. induction l as [|x l IH]; cbn; [lia|]. case_match; cbn; lia. Qed.

Lemma filter_all_in {A} (P : A → Prop) `{∀ x, Decision (P x)} (l : list A) :
  (∀ x, x ∈ l → P x) → filter P l = l.
Proof.
  induction l as [|x l IH]; intros Hl; [done|].
  by rewrite filter_cons_True, IH by (intros; apply Hl; set_solver).
Qed.

(** The first index kept by a filter is the least one. *)
Lemma filter_seqZ_first (P : Z → Prop) `{∀ x, Decision (P x)} n x r y :
  filter P (seqZ 0 n) = x :: r → 0 ≤ y < x → ¬ P y.
Proof.
  intros E Hy HP. assert (x ∈ filter P (seqZ 0 n)) as Hx%list_elem_of_filter
    by (rewrite E; set_solver). destruct Hx as [_ Hx%elem_of_seqZ].
  replace n with (x + (n - x)) in E by lia. rewrite seqZ_app, list.filter_app in E by lia.
  assert (y ∈ filter P (seqZ 0 x)) as Hin
    by (apply list_elem_of_filter; split; [done|apply elem_of_seqZ; lia]).
  destruct (filter P (seqZ 0 x)) as [|z zs] eqn:Ez; [by apply elem_of_nil in Hin|].
  cbn in E. injection E as -> _. assert (x ∈ filter P (seqZ 0 x)) as Hx'
    by (rewrite Ez; set_solver).
  apply list_elem_of_filter in Hx' as [_ Hx'%elem_of_seqZ]. lia.
Qed.

Lemma length_filter_mono {A} (P Q : A → Prop) `{∀ x, Decision (P x)}
    `{∀ x, Decision (Q x)} (l : list A) :
  (∀ x, x ∈ l → Q x → P x) → (length (filter Q l) ≤ length (filter P l))%nat.
Proof.
  induction l as [|x l IH]; intros HPQ; [done|]. rewrite !filter_cons.
  pose proof (HPQ x ltac:(set_solver)). specialize (IH ltac:(set_solver)).
  repeat case_decide; cbn; lia || tauto.
Qed.

(** Two predicates that agree but for one element. *)
Lemma length_filter_update {A} `{EqDecision A} (P Q : A → Prop)
    `{∀ x, Decision (P x)} `{∀ x, Decision (Q x)} (l : list A) x0 :
  NoDup l → (∀ x, x ∈ l → x ≠ x0 → Q x → P x) →
  (length (filter Q l) ≤ S (length (filter P l)))%nat.
Proof.
  induction 1 as [|x l Hx Hl IH]; intros HPQ; [cbn; lia|].
  rewrite !filter_cons. destruct (decide (x = x0)) as [->|Hne].
  - pose proof (length_filter_mono P Q l ltac:(intros; apply HPQ; set_solver)).
    repeat case_decide; cbn; lia.
  - pose proof (HPQ x ltac:(set_solver) Hne).
    specialize (IH ltac:(intros; apply HPQ; set_solver)).
    repeat case_decide; cbn; tauto || lia.
Qed.

(** * Loops *)

Lemma fold_res_app {S} (f : Z → S → res S) ks1 ks2 s :
  fold_res f (ks1 ++ ks2) s = (s' ← fold_res f ks1 s; fold_res f ks2 s').
Proof.
  revert s. induction ks1 as [|k ks1 IH]; intros s; cbn; [done|].
  destruct (f k s); cbn; auto.
Qed.

(** A loop whose body keeps an invariant indexed by the counter returns. *)
Lemma for_res_inv {S} (I : Z → S → Prop) (f : Z → S → res S) lo hi s :
  lo ≤ hi → I lo s →
  (∀ k s, lo ≤ k < hi → I k s → ∃ s', f k s = Ok s' ∧ I (k + 1) s') →
  ∃ s', for_res lo hi f s = Ok s' ∧ I hi s'.
Proof.
  intros Hle Hs Hstep. unfold for_res.
  remember (Z.to_nat (hi - lo)) as n eqn:Hn.
  replace (hi - lo) with (Z.of_nat n) by lia.
  revert lo s Hle Hs Hstep Hn. induction n as [|n IH]; intros lo s Hle Hs Hstep Hn.
  - exists s. split; [done|]. by replace hi with lo by lia.
  - rewrite Nat2Z.inj_succ, seqZ_cons by lia. cbn [fold_res].
    destruct (Hstep lo s) as (s1 & -> & Hs1); [lia|done|]. cbn.
    rewrite Z.pred_succ, <-Z.add_1_r.
    apply IH; [lia|done| |lia]. intros; apply Hstep; [lia|done].
Qed.

(** A loop whose first iteration is undefined. *)
Lemma for_res_UB {S} (f : Z → S → res S) lo hi s e :
  lo < hi → f lo s = UB e → for_res lo hi f s = UB e.
Proof. intros Hlt E. unfold for_res. rewrite seqZ_cons by lia. cbn [fold_res]. by rewrite E. Qed.

(** A body that does nothing. *)
Lemma for_res_id {S} (f : Z → S → res S) lo hi s :
  (∀ k, lo ≤ k < hi → f k s = Ok s) → for_res lo hi f s = Ok s.
Proof.
  intros Hf. destruct (decide (lo ≤ hi)).
  - destruct (for_res_inv (λ _ s', s' = s) f lo hi s) as (s' & E & ->); [done..| |done].
    intros k s' Hk ->. exists s. by split; [apply Hf|].
  - unfold for_res. by rewrite seqZ_nil by lia.
Qed.
