(* ===== verification/Bits.v ===== *)
(** Bit masks: [__builtin_ctzll], clearing the lowest set bit, the positions
    of the set bits of a mask, and the bits of little-endian words. *)

From S2P Require Import Prelude.

(** [__builtin_ctzll]; its result on 0 is undefined, and the code never asks
    for it. *)
Fixpoint ctz_pos (p : positive) : Z :=
  match p with
  | xO q => Z.succ (ctz_pos q)
  | _ => 0
  end.

Definition ctzll (x : Z) : Z :=
  match x with
  | Zpos p => ctz_pos p
  | _ => 0
  end.

(** The set bits of a 64-bit mask, lowest first. *)
Definition mask_bits (m : Z) : list Z :=
  filter (λ k, Z.testbit m k = true) (seqZ 0 64).

Lemma ctzll_decompose m :
  0 < m → ∃ q, 0 ≤ q ∧ 0 ≤ ctzll m ∧ m = 2 ^ ctzll m * (2 * q + 1).
Proof.
  destruct m as [|p|p]; try lia. intros _.
  induction p as [p IH|p IH|]; cbn [ctzll ctz_pos].
  - exists (Zpos p). rewrite Z.pow_0_r. lia.
  - destruct IH as (q & Hq & Hc & E). cbn [ctzll] in *. exists q.
    rewrite Z.pow_succ_r by done. lia.
  - exists 0. rewrite Z.pow_0_r. lia.
Qed.

Lemma testbit_div a k : 0 ≤ k → Z.testbit a k = Z.odd (a / 2 ^ k).
Proof. intros. by rewrite Z.testbit_odd, Z.shiftr_div_pow2. Qed.

Lemma ctzll_testbit_low m k : 0 < m → 0 ≤ k < ctzll m → Z.testbit m k = false.
Proof.
  intros (q & Hq & Hc & E)%ctzll_decompose Hk. rewrite E at 1.
  rewrite Z.mul_comm, Z.mul_pow2_bits_low; [done|lia].
Qed.

Lemma ctzll_testbit m : 0 < m → Z.testbit m (ctzll m) = true.
Proof.
  intros (q & Hq & Hc & E)%ctzll_decompose. rewrite E at 1.
  rewrite Z.mul_comm, Z.mul_pow2_bits, Z.sub_diag by lia.
  by rewrite Z.testbit_odd_0.
Qed.

(** [m & (m - 1)] clears exactly the lowest set bit. *)
Lemma clear_lowest_testbit m k :
  0 < m → 0 ≤ k →
  Z.testbit (Z.land m (m - 1)) k = Z.testbit m k && negb (k =? ctzll m).
Proof.
  intros Hm Hk. rewrite Z.land_spec.
  destruct (Z.ltb_spec k (ctzll m)) as [Hlt|Hge].
  { by rewrite ctzll_testbit_low by lia. }
  destruct (ctzll_decompose m Hm) as (q & Hq & Hc & E).
  assert (0 < 2 ^ ctzll m) by (apply Z.pow_pos_nonneg; lia).
  set (c := ctzll m) in *. set (P := 2 ^ c) in *.
  destruct (Z.eqb_spec k c) as [->|Hne]; cbn [negb].
  - rewrite andb_false_r. apply andb_false_intro2.
    rewrite testbit_div by done. fold P.
    replace (m - 1) with (P - 1 + (2 * q) * P) by lia.
    rewrite Z.div_add, Z.div_small by lia.
    rewrite Z.add_0_l, Z.odd_mul. done.
  - rewrite andb_true_r.
    assert ((m - 1) / 2 ^ (c + 1) = m / 2 ^ (c + 1)) as Ed.
    { rewrite Z.pow_add_r by lia. fold P. change (2 ^ 1) with 2.
      replace (m - 1) with (P - 1 + q * (P * 2)) by lia.
      replace m with (P + q * (P * 2)) by lia.
      rewrite !Z.div_add, !Z.div_small by lia. done. }
    rewrite !testbit_div by done.
    replace (2 ^ k) with (2 ^ (c + 1) * 2 ^ (k - c - 1))
      by (rewrite <-Z.pow_add_r by lia; f_equal; lia).
    assert (0 < 2 ^ (c + 1)) by (apply Z.pow_pos_nonneg; lia).
    rewrite <-!Z.div_div, Ed by (try apply Z.pow_pos_nonneg; lia).
    by destruct (Z.odd _).
Qed.

Lemma ctzll_range m : 0 < m < 2 ^ 64 → 0 ≤ ctzll m < 64.
Proof.
  intros [Hm Hlt]. destruct (ctzll_decompose m Hm) as (q & Hq & Hc & E).
  split; [done|]. apply (Z.pow_lt_mono_r_iff 2); [lia..|]. nia.
Qed.

(** The loop over a mask visits its set bits: the lowest one, then the ones
    of the mask without it. *)
Lemma mask_bits_step m :
  0 < m < 2 ^ 64 → mask_bits m = ctzll m :: mask_bits (Z.land m (m - 1)).
Proof.
  intros Hm. pose proof (ctzll_range m Hm) as Hc. set (c := ctzll m) in *.
  unfold mask_bits.
  replace (seqZ 0 64) with (seqZ 0 c ++ c :: seqZ (c + 1) (63 - c)).
  2:{ replace 64 with (c + (64 - c)) by lia. rewrite seqZ_app by lia.
      rewrite (seqZ_cons _ (64 - c)) by lia.
      rewrite Z.add_0_l. by replace (Z.pred (64 - c)) with (63 - c) by lia. }
  rewrite !list.filter_app. cbn [app].
  rewrite (filter_cons_True _ c) by (apply ctzll_testbit; lia).
  rewrite (filter_cons_False _ c).
  2:{ rewrite clear_lowest_testbit by lia. fold c. rewrite Z.eqb_refl. by destruct (Z.testbit m c). }
  rewrite !(filter_nil_in _ (seqZ 0 c)).
  2-3: intros k Hk%elem_of_seqZ; rewrite ?clear_lowest_testbit by lia;
       by rewrite ctzll_testbit_low by (unfold c in *; lia).
  cbn [app]. f_equal. apply filter_ext_in. intros k Hk%elem_of_seqZ.
  rewrite clear_lowest_testbit by lia. fold c.
  destruct (Z.eqb_spec k c); [lia|]. by rewrite andb_true_r.
Qed.

Lemma mask_bits_0 : mask_bits 0 = [].
Proof. reflexivity. Qed.

Lemma elem_of_mask_bits m k : k ∈ mask_bits m ↔ 0 ≤ k < 64 ∧ Z.testbit m k = true.
Proof. unfold mask_bits. rewrite list_elem_of_filter, elem_of_seqZ. naive_solver lia. Qed.

Lemma land_range w a b : 0 ≤ w → 0 ≤ a < 2 ^ w → 0 ≤ Z.land a b < 2 ^ w.
Proof.
  intros Hw Ha. replace (Z.land a b) with (Z.land a b mod 2 ^ w).
  - apply Z.mod_pos_bound, Z.pow_pos_nonneg; lia.
  - rewrite <-Z.land_ones, <-Z.land_assoc, (Z.land_comm b), Z.land_assoc by done.
    by rewrite Z.land_ones, Z.mod_small.
Qed.

(** ** Bits of little-endian words *)

Lemma le_combine_range bs :
  Forall byte bs → 0 ≤ le_combine bs < 256 ^ Z.of_nat (length bs).
Proof.
  induction 1 as [|b bs Hb _ IH]; cbn [le_combine length].
  - change (256 ^ Z.of_nat 0) with 1. lia.
  - rewrite Nat2Z.inj_succ, Z.pow_succ_r by lia. unfold byte in *. lia.
Qed.

Lemma testbit_byte_high b k : byte b → 8 ≤ k → Z.testbit b k = false.
Proof.
  intros [??] ?. destruct (decide (b = 0)) as [->|]; [apply Z.testbit_0_l|].
  apply Z.bits_above_log2; [done|]. apply Z.log2_lt_pow2; [lia|].
  apply (Z.lt_le_trans _ (2 ^ 8)); [done|]. apply Z.pow_le_mono_r; lia.
Qed.

(** Bit [8 j + i] of a word is bit [i] of its byte [j]. *)
Lemma testbit_le_combine bs j i b :
  Forall byte bs → zlookup bs j = Some b → 0 ≤ i < 8 →
  Z.testbit (le_combine bs) (8 * j + i) = Z.testbit b i.
Proof.
  intros Hbs. revert j. induction Hbs as [|b0 bs Hb _ IH]; intros j Hj Hi.
  { apply zlookup_range in Hj. cbn in Hj. lia. }
  pose proof (zlookup_range _ _ _ Hj). cbn [le_combine]. unfold byte in Hb.
  rewrite zlookup_cons in Hj by lia. case_decide as Hj0; simplify_eq.
  - rewrite <-(Z.mod_pow2_bits_low (b + _) 8) by lia.
    change (2 ^ 8) with 256. rewrite (Z.mul_comm 256), Z.mod_add by lia.
    rewrite Z.mod_small by lia. f_equal; lia.
  - rewrite <-(IH (j - 1)) by done.
    replace (8 * j + i) with (8 * (j - 1) + i + 8) by lia.
    rewrite <-Z.div_pow2_bits by lia. change (2 ^ 8) with 256.
    rewrite (Z.mul_comm 256), Z.div_add, Z.div_small by lia. done.
Qed.

Lemma zlookup_le_split n v j :
  0 ≤ j < Z.of_nat n → zlookup (le_split n v) j = Some ((v / 256 ^ j) mod 256).
Proof.
  revert v j. induction n as [|n IH]; intros v j Hj; [lia|]. cbn [le_split].
  rewrite zlookup_cons by lia. case_decide as E; subst.
  - by rewrite Z.pow_0_r, Z.div_1_r.
  - rewrite IH, Z.div_div by (try apply Z.pow_pos_nonneg; lia).
    rewrite <-Z.pow_succ_r by lia. by replace (Z.succ (j - 1)) with j by lia.
Qed.

Lemma testbit_split_byte v j i :
  0 ≤ j → 0 ≤ i < 8 → Z.testbit ((v / 256 ^ j) mod 256) i = Z.testbit v (8 * j + i).
Proof.
  intros Hj Hi. change 256 with (2 ^ 8) at 2. rewrite Z.mod_pow2_bits_low by lia.
  change 256 with (2 ^ 8). rewrite <-Z.pow_mul_r, Z.div_pow2_bits by lia.
  f_equal. lia.
Qed.

Lemma le_split_combine bs : Forall byte bs → le_split (length bs) (le_combine bs) = bs.
Proof.
  induction 1 as [|b bs Hb _ IH]; cbn [le_split le_combine length]; [done|].
  unfold byte in Hb. rewrite (Z.mul_comm 256), Z.mod_add, Z.div_add by lia.
  by rewrite Z.mod_small, Z.div_small, Z.add_0_l, IH by lia.
Qed.

(** ** Masks that encode a predicate on eight slots *)

Lemma mask_bits_plain m (f : Z → bool) :
  (∀ k, 0 ≤ k < 64 → Z.testbit m k = (k <? 8) && f k) →
  mask_bits m = filter (λ j, f j = true) (seqZ 0 8).
Proof.
  intros Hm. unfold mask_bits.
  rewrite (filter_ext_in _ (λ k, (k <? 8) && f k = true)).
  2:{ intros k Hk%elem_of_seqZ. rewrite Hm by lia. done. }
  change (seqZ 0 64) with (seqZ 0 8 ++ seqZ 8 56).
  rewrite list.filter_app, (filter_nil_in _ (seqZ 8 56)), app_nil_r.
  2:{ intros k Hk%elem_of_seqZ. destruct (Z.ltb_spec k 8); [lia|done]. }
  apply filter_ext_in. intros k Hk%elem_of_seqZ. by destruct (Z.ltb_spec k 8); [|lia].
Qed.

Lemma filter_scaled (f : Z → bool) n :
  0 ≤ n →
  (λ k, k / 8) <$> filter (λ k, (k mod 8 =? 7) && f (k / 8) = true) (seqZ 0 (8 * n)) =
  filter (λ j, f j = true) (seqZ 0 n).
Proof.
  intros Hn. pattern n. apply natlike_ind; [done| |done]. clear n Hn. intros n Hn IH.
  replace (8 * Z.succ n) with (8 * n + (7 + 1)) by lia. rewrite <-Z.add_1_r.
  rewrite !seqZ_app, !list.filter_app, fmap_app, IH by lia. f_equal.
  rewrite (filter_nil_in _ (seqZ _ 7)).
  2:{ intros k Hk%elem_of_seqZ. destruct (Z.eqb_spec (k mod 8) 7); [|done]. exfalso. dlia. }
  rewrite !(seqZ_cons _ 1) by lia. change (Z.pred 1) with 0.
  rewrite (seqZ_nil (Z.succ (0 + 8 * n + 7)) 0), (seqZ_nil (Z.succ (0 + n)) 0) by lia.
  rewrite !filter_cons.
  assert ((0 + 8 * n + 7) mod 8 = 7) as -> by dlia.
  assert ((0 + 8 * n + 7) / 8 = 0 + n) as E by dlia. rewrite E.
  cbn [Z.eqb Pos.eqb andb]. case_decide; [|done]. cbn -[Z.div]. by rewrite E.
Qed.

Lemma mask_bits_scaled m (f : Z → bool) :
  (∀ k, 0 ≤ k < 64 → Z.testbit m k = (k mod 8 =? 7) && f (k / 8)) →
  (λ k, k / 8) <$> mask_bits m = filter (λ j, f j = true) (seqZ 0 8).
Proof.
  intros Hm. rewrite <-(filter_scaled f 8) by lia. f_equal. unfold mask_bits.
  apply filter_ext_in. intros k Hk%elem_of_seqZ. by rewrite Hm by lia.
Qed.
