(* ===== verification/Groups.v ===== *)
(** Tag groups: the three implementations of [iht_group_load],
    [iht_match_mask] and [iht_match_empty] that ihtab.h selects by platform
    (SSE2, NEON, portable SWAR), the interface [GroupOps] the probe loop uses
    them through, and the laws [GroupLaws] each of them satisfies. *)

From S2P Require Import Prelude Bits.

Definition IHT_GROUP_SIZE : Z := 8.
Definition IHT_EMPTY_H7 : Z := 0xc0.
Definition IHT_DELETED_H7 : Z := 0x80.

(** * Vector intrinsics, on lists of byte lanes *)

Module Intrinsics.
Definition mm_cvtsi64_si128 (x : Z) : list Z := le_split 8 x ++ replicate 8 0.
Definition mm_set1_epi8 (c : Z) : list Z := replicate 16 (u8 c).
Definition mm_cmpeq_epi8 : list Z → list Z → list Z :=
  zip_with (λ a b, if a =? b then 0xff else 0).
Definition mm_and_si128 : list Z → list Z → list Z := zip_with Z.land.
(** Bit [i] of the result is the top bit of byte [i]. *)
Fixpoint mm_movemask_epi8 (v : list Z) : Z :=
  match v with
  | [] => 0
  | b :: v => Z.shiftr b 7 + 2 * mm_movemask_epi8 v
  end.
(** Each 64-bit lane is shifted on its own. *)
Definition mm_slli_epi64 (v : list Z) (n : Z) : list Z :=
  le_split 8 (u64 (Z.shiftl (le_combine (take 8 v)) n)) ++
  le_split 8 (u64 (Z.shiftl (le_combine (drop 8 v)) n)).

Definition vcreate_u8 (x : Z) : list Z := le_split 8 x.
Definition vdup_n_u8 (c : Z) : list Z := replicate 8 (u8 c).
Definition vceq_u8 : list Z → list Z → list Z :=
  zip_with (λ a b, if a =? b then 0xff else 0).
Definition vand_u8 : list Z → list Z → list Z := zip_with Z.land.
Definition vaddv_u8 (v : list Z) : Z := u8 (foldr Z.add 0 v).
End Intrinsics.
Import Intrinsics.

(** * The platform interface *)

Class GroupOps := {
  MASK_SCALE : bool;
  target : endian;
  group_t : Type;
  (** what [group_load] makes of the eight tag bytes read as one integer *)
  group_of : Z → group_t;
  match_mask : group_t → Z → Z;
  match_empty : group_t → Z
}.

Definition iht_group_load {G : GroupOps} (groups : arr Z) (p : Z) : res group_t :=
  w ← load_int target groups p 8; Ok (group_of w).

Module SSE2.
Definition iht_group_of (w : Z) : list Z := mm_cvtsi64_si128 w.
Definition iht_match_mask (g : list Z) (h7_val : Z) : Z :=
  let h7_vec := mm_set1_epi8 h7_val in
  Z.land (mm_movemask_epi8 (mm_cmpeq_epi8 g h7_vec)) 0xff.
Definition iht_match_empty (g : list Z) : Z :=
  Z.land (mm_movemask_epi8 (mm_and_si128 g (mm_slli_epi64 g 1))) 0xff.
#[export] Instance ops : GroupOps :=
  { MASK_SCALE := false; target := LittleEndian; group_of := iht_group_of;
    match_mask := iht_match_mask; match_empty := iht_match_empty }.
End SSE2.

Module NEON.
Definition bit_mask : list Z := [1; 2; 4; 8; 16; 32; 64; 128].
Definition iht_match_mask (g : Z) (h7_val : Z) : Z :=
  let group := vcreate_u8 g in
  let match_eq := vceq_u8 group (vdup_n_u8 h7_val) in
  vaddv_u8 (vand_u8 match_eq bit_mask).
Definition iht_match_empty (g : Z) : Z := iht_match_mask g IHT_EMPTY_H7.
#[export] Instance ops : GroupOps :=
  { MASK_SCALE := false; target := LittleEndian; group_of := λ w, w;
    match_mask := iht_match_mask; match_empty := iht_match_empty }.
End NEON.

Module SWAR.
Definition IHT_SWAR_LSB : Z := 0x0101010101010101.
Definition IHT_SWAR_MSB : Z := 0x8080808080808080.
Definition iht_match_mask (g : Z) (h7_val : Z) : Z :=
  let cmp := Z.lxor g (u64 (IHT_SWAR_LSB * h7_val)) in
  Z.land (Z.land (u64 (cmp - IHT_SWAR_LSB)) (u64 (Z.lnot cmp))) IHT_SWAR_MSB.
Definition iht_match_empty (g : Z) : Z :=
  Z.land (Z.land g IHT_SWAR_MSB) (u64 (Z.shiftl g 1)).
(** The portable code on a target of the given byte order. *)
Definition ops_on (e : endian) : GroupOps :=
  {| MASK_SCALE := true; target := e; group_of := λ w, w;
     match_mask := iht_match_mask; match_empty := iht_match_empty |}.
#[export] Instance ops : GroupOps := ops_on LittleEndian.
End SWAR.

(** The slot number the code derives from a mask bit. *)
Definition mask_pos {G : GroupOps} (bit : Z) : Z := if MASK_SCALE then bit / 8 else bit.

(** The slots a mask denotes, in the order the loops visit them. *)
Definition mask_slots {G : GroupOps} (m : Z) : list Z := mask_pos <$> mask_bits m.

(** A round of the loop over a mask. *)
Lemma mask_slots_step {G : GroupOps} m :
  0 < m < 2 ^ 64 →
  mask_slots m = mask_pos (ctzll m) :: mask_slots (Z.land m (m - 1)) ∧ 0 ≤ Z.land m (m - 1) < 2 ^ 64 ∧
  length (mask_bits m) = S (length (mask_bits (Z.land m (m - 1)))).
Proof.
  intros Hm. pose proof (mask_bits_step m ltac:(lia)) as Hstep. unfold mask_slots. rewrite Hstep.
  split; [done|]. split; [apply land_range; lia|done].
Qed.

Lemma mask_slots_0 {G : GroupOps} j : j ∉ mask_slots 0.
Proof. unfold mask_slots. rewrite mask_bits_0. apply not_elem_of_nil. Qed.

(** A tag byte is a 7-bit fingerprint, the empty mark or the deleted mark. *)
Definition valid_tag (t : Z) : Prop :=
  0 ≤ t < 0x80 ∨ t = IHT_DELETED_H7 ∨ t = IHT_EMPTY_H7.

#[export] Instance valid_tag_dec t : Decision (valid_tag t).
Proof. unfold valid_tag. apply _. Defined.

(** The group a platform loads from eight tag bytes. *)
Definition group_of_tags {G : GroupOps} (tags : list Z) : group_t :=
  group_of (int_of_bytes target tags).

(** What the probe loop relies on, for groups of tags that are [valid], where
    [empty] marks a slot never used: the values of these differ between the
    versions of the headers. *)
Class TagLaws (empty : Z) (valid : Z → Prop) (G : GroupOps) := {
  match_mask_range tags h7 :
    length tags = 8%nat → Forall valid tags → 0 ≤ h7 < 0x80 →
    0 ≤ match_mask (group_of_tags tags) h7 < 2 ^ 64;
  match_mask_live tags h7 j :
    length tags = 8%nat → Forall valid tags → 0 ≤ h7 < 0x80 →
    j ∈ mask_slots (match_mask (group_of_tags tags) h7) →
    ∃ t, zlookup tags j = Some t ∧ 0 ≤ t < 0x80;
  match_mask_complete tags h7 j :
    length tags = 8%nat → Forall valid tags → 0 ≤ h7 < 0x80 →
    zlookup tags j = Some h7 →
    j ∈ mask_slots (match_mask (group_of_tags tags) h7);
  match_empty_range tags :
    length tags = 8%nat → Forall valid tags →
    0 ≤ match_empty (group_of_tags tags) < 2 ^ 64;
  match_empty_slots tags :
    length tags = 8%nat → Forall valid tags →
    mask_slots (match_empty (group_of_tags tags)) =
    filter (λ j, zlookup tags j = Some empty) (seqZ 0 8)
}.

Abbreviation GroupLaws := (TagLaws IHT_EMPTY_H7 valid_tag).

(** * Proofs of the laws *)

Lemma valid_tag_byte t : valid_tag t → byte t.
Proof. unfold valid_tag, byte, IHT_DELETED_H7, IHT_EMPTY_H7. lia. Qed.

Lemma valid_tags_bytes tags : Forall valid_tag tags → Forall byte tags.
Proof. apply Forall_impl, valid_tag_byte. Qed.

(** The top two bits of a valid tag are set exactly in the empty mark. *)
Lemma valid_tag_top_bits t :
  valid_tag t → Z.testbit t 7 && Z.testbit t 6 = bool_decide (t = IHT_EMPTY_H7).
Proof.
  intros [Ht|[->| ->]]; [|done..]. rewrite bool_decide_false by (unfold IHT_EMPTY_H7; lia).
  apply andb_false_intro1. rewrite testbit_div by lia. rewrite Z.div_small by lia. done.
Qed.

Lemma valid_tag_bit7 t : valid_tag t → Z.testbit t 7 = false → 0 ≤ t < 0x80.
Proof. by intros [Ht|[->| ->]]. Qed.

(** Slot [j] holds the tag [c]. *)
Definition tag_is (tags : list Z) (c j : Z) : bool := bool_decide (zlookup tags j = Some c).

Lemma filter_tag_is (tags : list Z) c :
  filter (λ j, tag_is tags c j = true) (seqZ 0 8) =
  filter (λ j, zlookup tags j = Some c) (seqZ 0 8).
Proof. apply filter_ext_in. intros j _. unfold tag_is. by rewrite bool_decide_eq_true. Qed.

Lemma elem_of_tag_is (tags : list Z) c j :
  length tags = 8%nat →
  j ∈ filter (λ j, zlookup tags j = Some c) (seqZ 0 8) ↔ zlookup tags j = Some c.
Proof.
  intros Hlen. rewrite list_elem_of_filter, elem_of_seqZ. split; [naive_solver|].
  intros Hj. pose proof (zlookup_range _ _ _ Hj). split; [done|lia].
Qed.

Section sse2.
Lemma movemask_range v :
  Forall byte v → 0 ≤ mm_movemask_epi8 v < 2 ^ Z.of_nat (length v).
Proof.
  induction 1 as [|b v Hb _ IH]; cbn [mm_movemask_epi8 length].
  - change (2 ^ Z.of_nat 0) with 1. lia.
  - rewrite Nat2Z.inj_succ, Z.pow_succ_r by lia.
    rewrite Z.shiftr_div_pow2 by lia. unfold byte in Hb. dlia.
Qed.

Lemma testbit_movemask v k :
  Forall byte v → 0 ≤ k →
  Z.testbit (mm_movemask_epi8 v) k =
  match zlookup v k with Some b => Z.testbit b 7 | None => false end.
Proof.
  intros Hv. revert k. induction Hv as [|b v Hb _ IH]; intros k Hk.
  { unfold zlookup. rewrite decide_True by done. cbn. apply Z.testbit_0_l. }
  cbn [mm_movemask_epi8]. rewrite zlookup_cons by done. unfold byte in Hb.
  assert (Z.shiftr b 7 = Z.b2z (Z.testbit b 7)) as ->.
  { rewrite testbit_div, Z.shiftr_div_pow2 by lia.
    assert (b / 2 ^ 7 = 0 ∨ b / 2 ^ 7 = 1) as [-> | ->] by dlia; done. }
  rewrite Z.add_comm. case_decide; subst.
  - apply Z.testbit_0_r.
  - replace k with (Z.succ (k - 1)) by lia. rewrite Z.testbit_succ_r by lia.
    rewrite IH by lia. by replace (Z.succ (k - 1) - 1) with (k - 1) by lia.
Qed.

Lemma zlookup_zip_with {A B C} (f : A → B → C) a b k x y :
  zlookup a k = Some x → zlookup b k = Some y →
  zlookup (zip_with f a b) k = Some (f x y).
Proof.
  intros [??]%zlookup_Some [??]%zlookup_Some. apply zlookup_Some. split; [done|].
  rewrite lookup_zip_with. by simplify_option_eq.
Qed.

Lemma zlookup_app_l {A} (a b : list A) k x :
  zlookup a k = Some x → zlookup (a ++ b) k = Some x.
Proof. rewrite !zlookup_Some. intros [??]. split; [done|]. by apply lookup_app_l_Some. Qed.

Lemma cvtsi64_combine tags :
  length tags = 8%nat → Forall byte tags →
  mm_cvtsi64_si128 (le_combine tags) = tags ++ replicate 8 0.
Proof.
  intros Hlen Hb. unfold mm_cvtsi64_si128. f_equal. rewrite <-Hlen.
  by apply le_split_combine.
Qed.

Lemma testbit_movemask_low v b k :
  Forall byte v → zlookup v k = Some b →
  Z.testbit (Z.land (mm_movemask_epi8 v) 0xff) k = (k <? 8) && Z.testbit b 7.
Proof.
  intros Hv Hk. pose proof (zlookup_range _ _ _ Hk).
  rewrite Z.land_spec, testbit_movemask, Hk by (done || lia).
  change 0xff with (Z.ones 8). rewrite Z.testbit_ones_nonneg by lia. apply andb_comm.
Qed.

Lemma testbit_movemask_high v k :
  8 ≤ k → Z.testbit (Z.land (mm_movemask_epi8 v) 0xff) k = false.
Proof.
  intros. rewrite Z.land_spec. change 0xff with (Z.ones 8).
  rewrite Z.testbit_ones_nonneg by lia. destruct (Z.ltb_spec k 8); [lia|].
  apply andb_false_r.
Qed.

(** A movemask whose first eight bytes have the top bit [f] denotes [f]. *)
Lemma movemask_slots v (f : Z → bool) :
  Forall byte v →
  (∀ k, 0 ≤ k < 8 → ∃ b, zlookup v k = Some b ∧ Z.testbit b 7 = f k) →
  mask_bits (Z.land (mm_movemask_epi8 v) 0xff) = filter (λ j, f j = true) (seqZ 0 8).
Proof.
  intros Hv Hf. apply mask_bits_plain. intros k Hk.
  destruct (Z.ltb_spec k 8) as [Hlt|Hge]; cbn [andb].
  - destruct (Hf k) as (b & Hb & <-); [lia|]. erewrite testbit_movemask_low by done.
    by rewrite (proj2 (Z.ltb_lt k 8)) by lia.
  - by apply testbit_movemask_high.
Qed.

Lemma Forall_zip_with_byte {A B} (f : A → B → Z) a b :
  (∀ x y, x ∈ a → y ∈ b → byte (f x y)) → Forall byte (zip_with f a b).
Proof.
  intros Hf. apply list.Forall_forall. intros z Hz%elem_of_lookup_zip_with.
  destruct Hz as (k & x & y & -> & Hx & Hy).
  apply Hf; eapply list_elem_of_lookup_2; eauto.
Qed.

Lemma sse2_match_slots tags h7 :
  length tags = 8%nat → Forall valid_tag tags → 0 ≤ h7 < 0x80 →
  mask_bits (SSE2.iht_match_mask (SSE2.iht_group_of (le_combine tags)) h7) =
  filter (λ j, zlookup tags j = Some h7) (seqZ 0 8).
Proof.
  intros Hlen Hv Hh. rewrite <-filter_tag_is.
  unfold SSE2.iht_match_mask, SSE2.iht_group_of, mm_set1_epi8, mm_cmpeq_epi8, u8.
  rewrite cvtsi64_combine, Z.mod_small by (try apply valid_tags_bytes; done || lia).
  apply movemask_slots.
  - apply Forall_zip_with_byte. intros x y _ _. case_match; done.
  - intros k Hk. destruct (zlookup_is_Some tags k) as [t Ht]; [lia|].
    eexists. split.
    + apply zlookup_zip_with; [by apply zlookup_app_l|].
      apply zlookup_Some. split; [lia|]. apply lookup_replicate_2. lia.
    + unfold tag_is. rewrite Ht. destruct (Z.eqb_spec t h7) as [->|Hne].
      * by rewrite bool_decide_true.
      * rewrite bool_decide_false by congruence. done.
Qed.

Lemma testbit_shiftl_1 w k : 0 < k → Z.testbit (Z.shiftl w 1) k = Z.testbit w (k - 1).
Proof. intros. by rewrite Z.shiftl_spec by lia. Qed.

Lemma testbit_u64 x k : 0 ≤ k < 64 → Z.testbit (u64 x) k = Z.testbit x k.
Proof. intros. unfold u64. by rewrite Z.mod_pow2_bits_low by lia. Qed.

Lemma sse2_empty_slots tags :
  length tags = 8%nat → Forall valid_tag tags →
  mask_bits (SSE2.iht_match_empty (SSE2.iht_group_of (le_combine tags))) =
  filter (λ j, zlookup tags j = Some IHT_EMPTY_H7) (seqZ 0 8).
Proof.
  intros Hlen Hv. rewrite <-filter_tag_is.
  pose proof (valid_tags_bytes _ Hv) as Hb.
  unfold SSE2.iht_match_empty, SSE2.iht_group_of, mm_and_si128, mm_slli_epi64.
  rewrite cvtsi64_combine by done.
  rewrite take_app_le, drop_app_ge, firstn_all2 by lia.
  apply movemask_slots.
  - apply Forall_zip_with_byte. intros x y Hx _.
    assert (byte x) as Hxb.
    { apply elem_of_app in Hx as [Hx|Hx]; [by eapply list.Forall_forall in Hx|].
      apply elem_of_replicate in Hx as [-> _]. done. }
    unfold byte in *. change 256 with (2 ^ 8). apply land_range; [lia|done].
  - intros k Hk. destruct (zlookup_is_Some tags k) as [t Ht]; [lia|].
    eexists. split.
    + apply zlookup_zip_with; [by apply zlookup_app_l|].
      apply zlookup_app_l, zlookup_le_split. lia.
    + rewrite Z.land_spec, testbit_split_byte, testbit_u64, testbit_shiftl_1 by lia.
      replace (8 * k + 7 - 1) with (8 * k + 6) by lia.
      rewrite (testbit_le_combine _ _ _ t) by (done || lia).
      rewrite valid_tag_top_bits.
      * unfold tag_is. rewrite Ht. apply bool_decide_ext. naive_solver.
      * apply zlookup_Some in Ht as [_ Ht]. by eapply Forall_lookup_1 in Ht.
Qed.

End sse2.

(** A platform whose masks denote exactly the matching slots. *)
Lemma exact_laws (G : GroupOps) :
  (∀ tags h7, length tags = 8%nat → Forall valid_tag tags → 0 ≤ h7 < 0x80 →
    0 ≤ match_mask (group_of_tags tags) h7 < 2 ^ 64 ∧
    mask_slots (match_mask (group_of_tags tags) h7) =
    filter (λ j, zlookup tags j = Some h7) (seqZ 0 8)) →
  (∀ tags, length tags = 8%nat → Forall valid_tag tags →
    0 ≤ match_empty (group_of_tags tags) < 2 ^ 64 ∧
    mask_slots (match_empty (group_of_tags tags)) =
    filter (λ j, zlookup tags j = Some IHT_EMPTY_H7) (seqZ 0 8)) →
  GroupLaws G.
Proof.
  intros Hm He. split.
  - intros. by apply Hm.
  - intros tags h7 j Hlen Hv Hh. destruct (Hm tags h7) as [_ ->]; [done..|].
    rewrite elem_of_tag_is by done. eauto.
  - intros tags h7 j Hlen Hv Hh. destruct (Hm tags h7) as [_ ->]; [done..|].
    by rewrite elem_of_tag_is.
  - intros. by apply He.
  - intros. by apply He.
Qed.

Lemma land_ff_range x : 0 ≤ Z.land x 0xff < 2 ^ 64.
Proof. rewrite Z.land_comm. by apply land_range; [|split]. Qed.

#[export] Instance SSE2_laws : GroupLaws SSE2.ops.
Proof.
  apply exact_laws; intros; (split; [apply land_ff_range|]);
    unfold mask_slots, mask_pos; cbn [MASK_SCALE SSE2.ops]; rewrite list_fmap_id.
  - by apply sse2_match_slots.
  - by apply sse2_empty_slots.
Qed.

Lemma u8_range x : 0 ≤ u8 x < 2 ^ 64.
Proof. unfold u8. pose proof (Z.mod_pos_bound x (2 ^ 8)). lia. Qed.

Section neon.
Lemma neon_match_slots tags c :
  length tags = 8%nat → Forall byte tags → byte c →
  mask_bits (NEON.iht_match_mask (le_combine tags) c) =
  filter (λ j, zlookup tags j = Some c) (seqZ 0 8).
Proof.
  intros Hlen Hb Hc. unfold NEON.iht_match_mask, vcreate_u8, vdup_n_u8.
  rewrite <-Hlen at 1. rewrite le_split_combine by done.
  unfold u8 at 1. rewrite Z.mod_small by (unfold byte in Hc; lia).
  rewrite (filter_ext_in _ (λ j, zlookup ((λ t, t =? c) <$> tags) j = Some true)).
  2:{ intros j _. unfold zlookup. case_decide; [|naive_solver]. rewrite list_lookup_fmap.
      destruct (tags !! _) as [t|]; cbn; [|naive_solver].
      destruct (Z.eqb_spec t c); naive_solver. }
  replace (vceq_u8 tags (replicate 8 c))
    with ((λ b : bool, if b then 0xff else 0) <$> ((λ t, t =? c) <$> tags)).
  2:{ unfold vceq_u8. rewrite <-Hlen. clear. induction tags; cbn; [done|]. by f_equal. }
  remember ((λ t, t =? c) <$> tags) as bs eqn:Ebs.
  assert (length bs = 8%nat) as Hbs by (subst; by rewrite length_fmap). clear -Hbs.
  do 8 (destruct bs as [|[] bs]; [done| |]); by destruct bs.
Qed.
End neon.

#[export] Instance NEON_laws : GroupLaws NEON.ops.
Proof.
  apply exact_laws; intros; (split; [apply u8_range|]);
    unfold mask_slots, mask_pos; cbn [MASK_SCALE NEON.ops]; rewrite list_fmap_id;
    apply neon_match_slots; try done; try by apply valid_tags_bytes.
  unfold byte. lia.
Qed.

Section swar.
Import SWAR.

Lemma testbit_MSB k : 0 ≤ k < 64 → Z.testbit IHT_SWAR_MSB k = (k mod 8 =? 7).
Proof.
  intros Hk. assert (forallb (λ k, Bool.eqb (Z.testbit IHT_SWAR_MSB k) (k mod 8 =? 7))
    (seqZ 0 64) = true) as Hall by reflexivity.
  rewrite forallb_forall in Hall. apply eqb_prop, Hall, list_elem_of_In, elem_of_seqZ. lia.
Qed.

Lemma MSB_range x : 0 ≤ Z.land x IHT_SWAR_MSB < 2 ^ 64.
Proof. rewrite Z.land_comm. by apply land_range; [|split]. Qed.

(** Only bits [8 j + 7] of a mask can be set. *)
Lemma swar_slots x :
  mask_slots (G := ops) (Z.land x IHT_SWAR_MSB) =
  filter (λ j, Z.testbit x (8 * j + 7) = true) (seqZ 0 8).
Proof.
  unfold mask_slots, mask_pos. cbn [MASK_SCALE ops ops_on].
  apply (mask_bits_scaled _ (λ j, Z.testbit x (8 * j + 7))). intros k Hk.
  rewrite Z.land_spec, testbit_MSB by lia. rewrite andb_comm.
  destruct (Z.eqb_spec (k mod 8) 7) as [Hm|]; [|done]. cbn [andb]. f_equal. dlia.
Qed.

Lemma swar_empty_slots tags :
  length tags = 8%nat → Forall valid_tag tags →
  mask_slots (G := ops) (iht_match_empty (le_combine tags)) =
  filter (λ j, zlookup tags j = Some IHT_EMPTY_H7) (seqZ 0 8).
Proof.
  intros Hlen Hv. pose proof (valid_tags_bytes _ Hv) as Hb. unfold iht_match_empty.
  rewrite <-Z.land_assoc, (Z.land_comm IHT_SWAR_MSB), Z.land_assoc, swar_slots.
  apply filter_ext_in. intros j Hj%elem_of_seqZ.
  destruct (zlookup_is_Some tags j) as [t Ht]; [lia|].
  rewrite Z.land_spec, testbit_u64, testbit_shiftl_1 by lia.
  replace (8 * j + 7 - 1) with (8 * j + 6) by lia.
  rewrite !(testbit_le_combine _ _ _ t) by (done || lia).
  rewrite valid_tag_top_bits, bool_decide_eq_true, Ht; [naive_solver|].
  apply zlookup_Some in Ht as [_ Ht]. by eapply Forall_lookup_1 in Ht.
Qed.

(** The compare word: byte [j] is the xor of tag [j] and the fingerprint. *)
Lemma testbit_cmp tags h7 j t i :
  Forall valid_tag tags → length tags = 8%nat → 0 ≤ h7 < 0x80 →
  zlookup tags j = Some t → 0 ≤ i < 8 →
  Z.testbit (Z.lxor (le_combine tags) (u64 (IHT_SWAR_LSB * h7))) (8 * j + i) =
  xorb (Z.testbit t i) (Z.testbit h7 i).
Proof.
  intros Hv Hlen Hh Ht Hi. pose proof (zlookup_range _ _ _ Ht).
  rewrite Z.lxor_spec, (testbit_le_combine _ _ _ t) by (try apply valid_tags_bytes; done).
  f_equal. replace (u64 (IHT_SWAR_LSB * h7)) with (le_combine (replicate 8 h7)).
  - apply testbit_le_combine; [|apply zlookup_Some; split; [lia|]|done].
    + apply Forall_replicate. unfold byte. lia.
    + apply lookup_replicate_2. lia.
  - unfold u64, IHT_SWAR_LSB. rewrite Z.mod_small by lia. cbn [replicate le_combine]. lia.
Qed.

(** Subtracting one from every byte sets the top bit of a zero byte, with or
    without a borrow from below. *)
Lemma sub_LSB_zero_byte cmp j :
  0 ≤ j < 8 → (cmp / 256 ^ j) mod 256 = 0 →
  Z.testbit (cmp - IHT_SWAR_LSB) (8 * j + 7) = true.
Proof.
  intros Hj. rewrite testbit_div by lia. rewrite Zodd_mod. unfold IHT_SWAR_LSB.
  assert (j = 0 ∨ j = 1 ∨ j = 2 ∨ j = 3 ∨ j = 4 ∨ j = 5 ∨ j = 6 ∨ j = 7) as Hjs by lia.
  destruct Hjs as [->|[->|[->|[->|[->|[->|[->| ->]]]]]]]; 
    intros H; apply Z.eqb_eq; pow_consts; dlia.
Qed.

Lemma match_bit tags h7 j t :
  length tags = 8%nat → Forall valid_tag tags → 0 ≤ h7 < 0x80 →
  zlookup tags j = Some t →
  let cmp := Z.lxor (le_combine tags) (u64 (IHT_SWAR_LSB * h7)) in
  Z.testbit (Z.land (u64 (cmp - IHT_SWAR_LSB)) (u64 (Z.lnot cmp))) (8 * j + 7) =
  Z.testbit (cmp - IHT_SWAR_LSB) (8 * j + 7) && negb (Z.testbit t 7).
Proof.
  intros Hlen Hv Hh Ht cmp. pose proof (zlookup_range _ _ _ Ht).
  rewrite Z.land_spec, !testbit_u64, Z.lnot_spec by lia. f_equal. f_equal.
  unfold cmp. rewrite (testbit_cmp _ _ _ t) by (done || lia).
  rewrite (testbit_div h7), Z.div_small by lia. by destruct (Z.testbit t 7).
Qed.

Lemma cmp_zero_byte tags h7 j :
  length tags = 8%nat → Forall valid_tag tags → 0 ≤ h7 < 0x80 →
  zlookup tags j = Some h7 →
  (Z.lxor (le_combine tags) (u64 (IHT_SWAR_LSB * h7)) / 256 ^ j) mod 256 = 0.
Proof.
  intros Hlen Hv Hh Ht. pose proof (zlookup_range _ _ _ Ht).
  apply Z.bits_inj'. intros k Hk. rewrite Z.testbit_0_l.
  destruct (Z.ltb_spec k 8).
  - rewrite testbit_split_byte, (testbit_cmp _ _ _ h7) by (done || lia).
    apply xorb_nilpotent.
  - change 256 with (2 ^ 8) at 2. by rewrite Z.mod_pow2_bits_high by lia.
Qed.
End swar.

#[export] Instance SWAR_laws : GroupLaws SWAR.ops.
Proof.
  split; unfold group_of_tags; cbn [target group_of match_mask match_empty SWAR.ops SWAR.ops_on
    int_of_bytes]; unfold SWAR.iht_match_mask.
  - intros. apply MSB_range.
  - intros tags h7 j Hlen Hv Hh. rewrite swar_slots, list_elem_of_filter, elem_of_seqZ.
    intros [Hf Hj]. destruct (zlookup_is_Some tags j) as [t Ht]; [lia|].
    rewrite (match_bit _ _ _ t) in Hf by done. apply andb_true_iff in Hf as [_ Hf].
    exists t. split; [done|]. apply valid_tag_bit7; [|by destruct (Z.testbit t 7)].
    apply zlookup_Some in Ht as [_ Ht]. by eapply Forall_lookup_1 in Ht.
  - intros tags h7 j Hlen Hv Hh Ht. pose proof (zlookup_range _ _ _ Ht).
    rewrite swar_slots, list_elem_of_filter, elem_of_seqZ. split; [|lia].
    rewrite (match_bit _ _ _ h7), sub_LSB_zero_byte by (done || lia || by apply cmp_zero_byte).
    by rewrite testbit_div, Z.div_small by lia.
  - intros tags Hlen Hv. unfold SWAR.iht_match_empty. rewrite <-Z.land_assoc.
    apply land_range; [lia|].
    pose proof (le_combine_range tags (valid_tags_bytes _ Hv)) as Hr.
    rewrite Hlen in Hr. exact Hr.
  - intros. by apply swar_empty_slots.
Qed.
