(* ===== verification/IxGroups.v ===== *)
(** The tag groups of ixhtab.h: the platform code of this header, whose masks
    have the type [unsigned int] on SSE2 and NEON, and that it meets the laws
    the probe loop needs. *)

From S2P Require Import Prelude Bits Groups.
Import Intrinsics.

Definition IXHT_GROUP_SIZE : Z := 8.
Definition IXHT_EMPTY_H7 : Z := 0xc0.
Definition IXHT_DELETED_H7 : Z := 0x80.

Module IxSSE2.
Definition ixht_group_of (w : Z) : list Z := mm_cvtsi64_si128 w.
Definition ixht_match_mask (g : list Z) (h7_val : Z) : Z :=
  let h7_vec := mm_set1_epi8 h7_val in
  Z.land (u32 (mm_movemask_epi8 (mm_cmpeq_epi8 g h7_vec))) 0xff.
Definition ixht_match_empty (g : list Z) : Z :=
  Z.land (u32 (mm_movemask_epi8 (mm_and_si128 g (mm_slli_epi64 g 1)))) 0xff.
#[export] Instance ops : GroupOps :=
  { MASK_SCALE := false; target := LittleEndian; group_of := ixht_group_of;
    match_mask := ixht_match_mask; match_empty := ixht_match_empty }.
End IxSSE2.

Module IxNEON.
Definition bit_mask : list Z := [1; 2; 4; 8; 16; 32; 64; 128].
Definition ixht_match_mask (g : Z) (h7_val : Z) : Z :=
  let group := vcreate_u8 g in
  let match_eq := vceq_u8 group (vdup_n_u8 h7_val) in
  u32 (vaddv_u8 (vand_u8 match_eq bit_mask)).
Definition ixht_match_empty (g : Z) : Z := ixht_match_mask g IXHT_EMPTY_H7.
#[export] Instance ops : GroupOps :=
  { MASK_SCALE := false; target := LittleEndian; group_of := λ w, w;
    match_mask := ixht_match_mask; match_empty := ixht_match_empty }.
End IxNEON.

Module IxSWAR.
Definition IXHT_SWAR_LSB : Z := 0x0101010101010101.
Definition IXHT_SWAR_MSB : Z := 0x8080808080808080.
Definition ixht_match_mask (g : Z) (h7_val : Z) : Z :=
  let cmp := Z.lxor g (u64 (IXHT_SWAR_LSB * h7_val)) in
  Z.land (Z.land (u64 (cmp - IXHT_SWAR_LSB)) (u64 (Z.lnot cmp))) IXHT_SWAR_MSB.
Definition ixht_match_empty (g : Z) : Z :=
  Z.land (Z.land g IXHT_SWAR_MSB) (u64 (Z.shiftl g 1)).
Definition ops_on (e : endian) : GroupOps :=
  {| MASK_SCALE := true; target := e; group_of := λ w, w;
     match_mask := ixht_match_mask; match_empty := ixht_match_empty |}.
#[export] Instance ops : GroupOps := ops_on LittleEndian.
End IxSWAR.

(** * The laws, from those of ihtab.h *)

Lemma land_u32_ff x : Z.land (u32 x) 0xff = Z.land x 0xff.
Proof.
  apply Z.bits_inj'. intros k Hk. rewrite !Z.land_spec. change 0xff with (Z.ones 8).
  rewrite Z.testbit_ones_nonneg by lia. destruct (Z.ltb_spec k 8); [|by rewrite !andb_false_r].
  unfold u32. by rewrite Z.mod_pow2_bits_low by lia.
Qed.

Lemma u32_u8 x : u32 (u8 x) = u8 x.
Proof. unfold u32, u8. apply Z.mod_small. pose proof (Z.mod_pos_bound x (2 ^ 8)). lia. Qed.

(** Two platforms with the same masks meet the same laws. *)
Lemma same_masks_laws (ms : bool) (e : endian) (gt : Type) (go : Z → gt)
    (mm mm' : gt → Z → Z) (me me' : gt → Z) :
  (∀ g h, mm' g h = mm g h) → (∀ g, me' g = me g) →
  GroupLaws {| MASK_SCALE := ms; target := e; group_of := go; match_mask := mm; match_empty := me |} →
  GroupLaws {| MASK_SCALE := ms; target := e; group_of := go; match_mask := mm'; match_empty := me' |}.
Proof.
  intros Hm He [H1 H2 H3 H4 H5]. split; unfold group_of_tags, mask_slots, mask_pos in *;
    cbn [MASK_SCALE target group_of match_mask match_empty] in *; intros *;
    rewrite ?Hm, ?He; eauto.
Qed.

#[export] Instance IxSSE2_laws : GroupLaws IxSSE2.ops.
Proof.
  apply (same_masks_laws _ _ _ _ SSE2.iht_match_mask _ SSE2.iht_match_empty);
    [intros; apply land_u32_ff|intros; apply land_u32_ff|apply SSE2_laws].
Qed.

#[export] Instance IxNEON_laws : GroupLaws IxNEON.ops.
Proof.
  apply (same_masks_laws _ _ _ _ NEON.iht_match_mask _ NEON.iht_match_empty);
    [intros; apply u32_u8|intros; apply u32_u8|apply NEON_laws].
Qed.

#[export] Instance IxSWAR_laws : GroupLaws IxSWAR.ops.
Proof. by apply (same_masks_laws _ _ _ _ SWAR.iht_match_mask _ SWAR.iht_match_empty), SWAR_laws. Qed.
