(* ===== verification/GroupsV0.v ===== *)
(** The tag groups of the first versions ihtab-v0.h and ixhtab-v0.h: a slot is
    empty or holds the tag of a hash, there is no mark for deleted slots, and
    the empty mark is the one tag byte with its top bit set.  The loops over
    masks are those of the current headers. *)

From S2P Require Import Prelude Bits Groups IxGroups.
Import Intrinsics.

Definition V0_EMPTY_H7 : Z := 0x80.

(** * ihtab-v0.h *)

Module V0SSE2.
Definition iht_group_of (w : Z) : list Z := mm_cvtsi64_si128 w.
Definition iht_match_mask (g : list Z) (h7_val : Z) : Z :=
  let h7_vec := mm_set1_epi8 h7_val in
  Z.land (mm_movemask_epi8 (mm_cmpeq_epi8 g h7_vec)) 0xff.
Definition iht_match_empty (g : list Z) : Z :=
  let mask := mm_set1_epi8 0x80 in
  Z.land (mm_movemask_epi8 (mm_and_si128 g mask)) 0xff.
Definition ops : GroupOps :=
  {| MASK_SCALE := false; target := LittleEndian; group_of := iht_group_of;
     match_mask := iht_match_mask; match_empty := iht_match_empty |}.
End V0SSE2.

Module V0NEON.
Definition iht_match_mask (g : Z) (h7_val : Z) : Z :=
  let group := vcreate_u8 g in
  let match_eq := vceq_u8 group (vdup_n_u8 h7_val) in
  vaddv_u8 (vand_u8 match_eq [1; 2; 4; 8; 16; 32; 64; 128]).
Definition iht_match_empty (g : Z) : Z := iht_match_mask g V0_EMPTY_H7.
Definition ops : GroupOps :=
  {| MASK_SCALE := false; target := LittleEndian; group_of := λ w, w;
     match_mask := iht_match_mask; match_empty := iht_match_empty |}.
End V0NEON.

Module V0SWAR.
Definition iht_match_mask (g : Z) (h7_val : Z) : Z :=
  let cmp := Z.lxor g (u64 (0x0101010101010101 * h7_val)) in
  Z.land (Z.land (u64 (cmp - 0x0101010101010101)) (u64 (Z.lnot cmp))) 0x8080808080808080.
Definition iht_match_empty (g : Z) : Z := Z.land g 0x8080808080808080.
Definition ops : GroupOps :=
  {| MASK_SCALE := true; target := LittleEndian; group_of := λ w, w;
     match_mask := iht_match_mask; match_empty := iht_match_empty |}.
End V0SWAR.

(** * ixhtab-v0.h *)

Module V0IxSSE2.
Definition ixht_group_of (w : Z) : list Z := mm_cvtsi64_si128 w.
Definition ixht_match_mask (g : list Z) (h7_val : Z) : Z :=
  let h7_vec := mm_set1_epi8 h7_val in
  Z.land (u32 (mm_movemask_epi8 (mm_cmpeq_epi8 g h7_vec))) 0xff.
Definition ixht_match_empty (g : list Z) : Z := Z.land (u32 (mm_movemask_epi8 g)) 0xff.
Definition ops : GroupOps :=
  {| MASK_SCALE := false; target := LittleEndian; group_of := ixht_group_of;
     match_mask := ixht_match_mask; match_empty := ixht_match_empty |}.
End V0IxSSE2.

Module V0IxNEON.
Definition ixht_match_mask (g : Z) (h7_val : Z) : Z :=
  let group := vcreate_u8 g in
  let match_eq := vceq_u8 group (vdup_n_u8 h7_val) in
  u32 (vaddv_u8 (vand_u8 match_eq [1; 2; 4; 8; 16; 32; 64; 128])).
Definition ixht_match_empty (g : Z) : Z := ixht_match_mask g V0_EMPTY_H7.
Definition ops : GroupOps :=
  {| MASK_SCALE := false; target := LittleEndian; group_of := λ w, w;
     match_mask := ixht_match_mask; match_empty := ixht_match_empty |}.
End V0IxNEON.

Module V0IxSWAR.
Definition ixht_match_mask (g : Z) (h7_val : Z) : Z :=
  let cmp := Z.lxor g (u64 (0x0101010101010101 * h7_val)) in
  Z.land (Z.land (u64 (cmp - 0x0101010101010101)) (u64 (Z.lnot cmp))) 0x8080808080808080.
Definition ixht_match_empty (g : Z) : Z := Z.land g 0x8080808080808080.
Definition ops : GroupOps :=
  {| MASK_SCALE := true; target := LittleEndian; group_of := λ w, w;
     match_mask := ixht_match_mask; match_empty := ixht_match_empty |}.
End V0IxSWAR.

(** * The laws *)

(** A tag byte is a 7-bit fingerprint or the empty mark. *)
Definition valid_tag_v0 (t : Z) : Prop := 0 ≤ t < 0x80 ∨ t = V0_EMPTY_H7.

Abbreviation GroupLawsV0 := (TagLaws V0_EMPTY_H7 valid_tag_v0).

Lemma valid_tags_v0 tags : Forall valid_tag_v0 tags → Forall valid_tag tags.
Proof.
  intros Hv. eapply list.Forall_impl; [exact Hv|]. intros t [Ht| ->]; [by left|by right; left].
Qed.

Lemma valid_tag_v0_bit7 t : valid_tag_v0 t → Z.testbit t 7 = bool_decide (t = V0_EMPTY_H7).
Proof.
  intros [Ht| ->]; [|done]. rewrite bool_decide_false by (unfold V0_EMPTY_H7; lia).
  by rewrite testbit_div, Z.div_small by lia.
Qed.

(** A platform with the masks of one of the current headers, whose empty mask
    names the slots with the mark of this version. *)
Lemma v0_laws (ms : bool) (e : endian) (gt : Type) (go : Z → gt) (mm mm' : gt → Z → Z)
    (me me' : gt → Z) :
  let G := {| MASK_SCALE := ms; target := e; group_of := go; match_mask := mm; match_empty := me |} in
  let G' :=
    {| MASK_SCALE := ms; target := e; group_of := go; match_mask := mm'; match_empty := me' |} in
  GroupLaws G → (∀ g h, mm' g h = mm g h) →
  (∀ tags, length tags = 8%nat → Forall valid_tag_v0 tags →
    0 ≤ me' (go (int_of_bytes e tags)) < 2 ^ 64 ∧
    mask_slots (G := G') (me' (go (int_of_bytes e tags))) =
    filter (λ j, zlookup tags j = Some V0_EMPTY_H7) (seqZ 0 8)) →
  GroupLawsV0 G'.
Proof.
  intros G G' [H1 H2 H3 _ _] Hm He. unfold group_of_tags, mask_slots, mask_pos in *.
  cbn [MASK_SCALE target group_of match_mask match_empty G G'] in *.
  split; unfold group_of_tags, mask_slots, mask_pos;
    cbn [MASK_SCALE target group_of match_mask match_empty G G']; intros *; rewrite ?Hm;
    eauto using valid_tags_v0; intros Hlen Hv; by apply He.
Qed.

(** The bytes of a word whose top bit is set hold the empty mark. *)
Lemma v0_top_bits tags j t :
  Forall valid_tag_v0 tags → zlookup tags j = Some t →
  Z.testbit t 7 = tag_is tags V0_EMPTY_H7 j.
Proof.
  intros Hv Ht. unfold tag_is. rewrite Ht, valid_tag_v0_bit7.
  - apply bool_decide_ext. naive_solver.
  - apply zlookup_Some in Ht as [_ Ht]. by eapply Forall_lookup_1 in Ht.
Qed.

Lemma v0_sse2_movemask v tags :
  length tags = 8%nat → Forall valid_tag_v0 tags → Forall byte v →
  (∀ k t, zlookup tags k = Some t → ∃ b, zlookup v k = Some b ∧ Z.testbit b 7 = Z.testbit t 7) →
  mask_bits (Z.land (mm_movemask_epi8 v) 0xff) =
  filter (λ j, zlookup tags j = Some V0_EMPTY_H7) (seqZ 0 8).
Proof.
  intros Hlen Hv Hb Hbits. rewrite <-filter_tag_is. apply movemask_slots; [done|].
  intros k Hk. destruct (zlookup_is_Some tags k) as [t Ht]; [lia|].
  destruct (Hbits k t Ht) as (b & Hlb & Hb7). exists b. split; [done|].
  rewrite Hb7. by apply v0_top_bits.
Qed.

Lemma tags_lanes_bytes tags :
  Forall valid_tag_v0 tags → Forall byte (tags ++ replicate 8 0).
Proof.
  intros Hv. apply list.Forall_app. split; [by apply valid_tags_bytes, valid_tags_v0|].
  apply Forall_replicate. unfold byte. lia.
Qed.

#[export] Instance V0SSE2_laws : GroupLawsV0 V0SSE2.ops.
Proof.
  apply (v0_laws _ _ _ _ SSE2.iht_match_mask _ SSE2.iht_match_empty); [apply SSE2_laws|done|].
  intros tags Hlen Hv. split; [apply land_ff_range|].
  unfold mask_slots, mask_pos. cbn [MASK_SCALE]. rewrite list_fmap_id.
  unfold V0SSE2.iht_match_empty, V0SSE2.iht_group_of, mm_and_si128, mm_set1_epi8.
  rewrite cvtsi64_combine by (done || by apply valid_tags_bytes, valid_tags_v0).
  apply v0_sse2_movemask; [done|done| |].
  - apply Forall_zip_with_byte. intros x y Hx _.
    assert (byte x) as Hb by (by eapply list.Forall_forall; [by apply tags_lanes_bytes|]).
    unfold byte in *. change 256 with (2 ^ 8). apply land_range; [lia|done].
  - intros k t Ht. pose proof (zlookup_range _ _ _ Ht). exists (Z.land t 0x80). split.
    + apply zlookup_zip_with; [by apply zlookup_app_l|].
      apply zlookup_Some. split; [lia|]. apply lookup_replicate_2. lia.
    + rewrite Z.land_spec. apply andb_true_r.
Qed.

#[export] Instance V0IxSSE2_laws : GroupLawsV0 V0IxSSE2.ops.
Proof.
  apply (v0_laws _ _ _ _ IxSSE2.ixht_match_mask _ IxSSE2.ixht_match_empty); [apply IxSSE2_laws|done|].
  intros tags Hlen Hv. split; [apply land_ff_range|].
  unfold mask_slots, mask_pos. cbn [MASK_SCALE]. rewrite list_fmap_id.
  unfold V0IxSSE2.ixht_match_empty, V0IxSSE2.ixht_group_of. rewrite land_u32_ff.
  rewrite cvtsi64_combine by (done || by apply valid_tags_bytes, valid_tags_v0).
  apply v0_sse2_movemask; [done|done|by apply tags_lanes_bytes|].
  intros k t Ht. exists t. split; [|done]. by apply zlookup_app_l.
Qed.

#[export] Instance V0NEON_laws : GroupLawsV0 V0NEON.ops.
Proof.
  apply (v0_laws _ _ _ _ NEON.iht_match_mask _ NEON.iht_match_empty); [apply NEON_laws|done|].
  intros tags Hlen Hv. split; [apply u8_range|].
  unfold mask_slots, mask_pos. cbn [MASK_SCALE]. rewrite list_fmap_id.
  apply neon_match_slots; [done|by apply valid_tags_bytes, valid_tags_v0|done].
Qed.

#[export] Instance V0IxNEON_laws : GroupLawsV0 V0IxNEON.ops.
Proof.
  apply (v0_laws _ _ _ _ IxNEON.ixht_match_mask _ IxNEON.ixht_match_empty);
    [apply IxNEON_laws|done|].
  intros tags Hlen Hv. unfold V0IxNEON.ixht_match_empty, V0IxNEON.ixht_match_mask.
  unfold vaddv_u8. rewrite u32_u8. split; [apply u8_range|].
  unfold mask_slots, mask_pos. cbn [MASK_SCALE]. rewrite list_fmap_id.
  apply (neon_match_slots tags V0_EMPTY_H7); [done|by apply valid_tags_bytes, valid_tags_v0|done].
Qed.

(** The masks of the portable code are those of the current header. *)
Lemma v0_swar_empty tags :
  length tags = 8%nat → Forall valid_tag_v0 tags →
  0 ≤ Z.land (le_combine tags) SWAR.IHT_SWAR_MSB < 2 ^ 64 ∧
  mask_slots (G := SWAR.ops) (Z.land (le_combine tags) SWAR.IHT_SWAR_MSB) =
  filter (λ j, zlookup tags j = Some V0_EMPTY_H7) (seqZ 0 8).
Proof.
  intros Hlen Hv. split; [apply MSB_range|]. rewrite swar_slots, <-filter_tag_is.
  apply filter_ext_in. intros j Hj%elem_of_seqZ.
  destruct (zlookup_is_Some tags j) as [t Ht]; [lia|].
  rewrite (testbit_le_combine _ _ _ t) by (done || by apply valid_tags_bytes, valid_tags_v0).
  by rewrite (v0_top_bits tags j t).
Qed.

#[export] Instance V0SWAR_laws : GroupLawsV0 V0SWAR.ops.
Proof.
  apply (v0_laws _ _ _ _ SWAR.iht_match_mask _ SWAR.iht_match_empty); [apply SWAR_laws|done|].
  exact v0_swar_empty.
Qed.

#[export] Instance V0IxSWAR_laws : GroupLawsV0 V0IxSWAR.ops.
Proof.
  apply (v0_laws _ _ _ _ SWAR.iht_match_mask _ SWAR.iht_match_empty); [apply SWAR_laws|done|].
  exact v0_swar_empty.
Qed.
