(* ===== verification/HppGroups.v ===== *)
(** The tag groups of the C++ headers.  Each header has its own copy of the
    platform layer in its namespace; the four modules are these copies, with
    the laws the probe loop needs: those of the C headers, whose masks they
    compute. *)

From S2P Require Import Prelude Bits Groups IxGroups GroupsV0.
Import Intrinsics.

(** * ihtab.hpp, namespace iht *)

Module IhtHpp.
Definition GROUP_SIZE : Z := 8.
Definition GROUP_BYTES : Z := GROUP_SIZE * (1 + 4).
Definition EMPTY_H7 : Z := 0xc0.
Definition DELETED_H7 : Z := 0x80.
Definition LF_FACTOR : Z := 1.
Definition LF_DIVISOR : Z := 2.
End IhtHpp.

Module IhtHppSSE2.
Definition group_load (w : Z) : list Z := mm_cvtsi64_si128 w.
Definition match_mask (g : list Z) (h7_val : Z) : Z :=
  let h7_vec := mm_set1_epi8 h7_val in
  Z.land (mm_movemask_epi8 (mm_cmpeq_epi8 g h7_vec)) 0xff.
Definition match_empty (g : list Z) : Z :=
  Z.land (mm_movemask_epi8 (mm_and_si128 g (mm_slli_epi64 g 1))) 0xff.
Definition ops : GroupOps :=
  {| MASK_SCALE := false; target := LittleEndian; group_of := group_load;
     Groups.match_mask := match_mask; Groups.match_empty := match_empty |}.
End IhtHppSSE2.

Module IhtHppNEON.
Definition group_load (w : Z) : Z := w.
Definition match_mask (g : Z) (h7_val : Z) : Z :=
  let group := vcreate_u8 g in
  let match_eq := vceq_u8 group (vdup_n_u8 h7_val) in
  let bit_mask := [1; 2; 4; 8; 16; 32; 64; 128] in
  vaddv_u8 (vand_u8 match_eq bit_mask).
Definition match_empty (g : Z) : Z := match_mask g IhtHpp.EMPTY_H7.
Definition ops : GroupOps :=
  {| MASK_SCALE := false; target := LittleEndian; group_of := group_load;
     Groups.match_mask := match_mask; Groups.match_empty := match_empty |}.
End IhtHppNEON.

Module IhtHppSWAR.
Definition SWAR_LSB : Z := 0x0101010101010101.
Definition SWAR_MSB : Z := 0x8080808080808080.
Definition group_load (w : Z) : Z := w.
Definition match_mask (g : Z) (h7_val : Z) : Z :=
  let cmp := Z.lxor g (u64 (SWAR_LSB * h7_val)) in
  Z.land (Z.land (u64 (cmp - SWAR_LSB)) (u64 (Z.lnot cmp))) SWAR_MSB.
Definition match_empty (g : Z) : Z := Z.land (Z.land g SWAR_MSB) (u64 (Z.shiftl g 1)).
Definition ops : GroupOps :=
  {| MASK_SCALE := true; target := LittleEndian; group_of := group_load;
     Groups.match_mask := match_mask; Groups.match_empty := match_empty |}.
End IhtHppSWAR.

(** * ixhtab.hpp, namespace ixht *)

Module IxhtHpp.
Definition GROUP_SIZE : Z := 8.
Definition GROUP_BYTES : Z := GROUP_SIZE * (1 + 2).
Definition EMPTY_H7 : Z := 0xc0.
Definition DELETED_H7 : Z := 0x80.
Definition MAX_BIN_SIZE_POWER : Z := 15.
End IxhtHpp.

Module IxhtHppSSE2.
Definition group_load (w : Z) : list Z := mm_cvtsi64_si128 w.
Definition match_mask (g : list Z) (h7_val : Z) : Z :=
  let h7_vec := mm_set1_epi8 h7_val in
  Z.land (u32 (mm_movemask_epi8 (mm_cmpeq_epi8 g h7_vec))) 0xff.
Definition match_empty (g : list Z) : Z :=
  Z.land (u32 (mm_movemask_epi8 (mm_and_si128 g (mm_slli_epi64 g 1)))) 0xff.
Definition ops : GroupOps :=
  {| MASK_SCALE := false; target := LittleEndian; group_of := group_load;
     Groups.match_mask := match_mask; Groups.match_empty := match_empty |}.
End IxhtHppSSE2.

Module IxhtHppNEON.
Definition group_load (w : Z) : Z := w.
Definition match_mask (g : Z) (h7_val : Z) : Z :=
  let group := vcreate_u8 g in
  let match_eq := vceq_u8 group (vdup_n_u8 h7_val) in
  let bit_mask := [1; 2; 4; 8; 16; 32; 64; 128] in
  u32 (vaddv_u8 (vand_u8 match_eq bit_mask)).
Definition match_empty (g : Z) : Z := match_mask g IxhtHpp.EMPTY_H7.
Definition ops : GroupOps :=
  {| MASK_SCALE := false; target := LittleEndian; group_of := group_load;
     Groups.match_mask := match_mask; Groups.match_empty := match_empty |}.
End IxhtHppNEON.

Module IxhtHppSWAR.
Definition SWAR_LSB : Z := 0x0101010101010101.
Definition SWAR_MSB : Z := 0x8080808080808080.
Definition group_load (w : Z) : Z := w.
Definition match_mask (g : Z) (h7_val : Z) : Z :=
  let cmp := Z.lxor g (u64 (SWAR_LSB * h7_val)) in
  Z.land (Z.land (u64 (cmp - SWAR_LSB)) (u64 (Z.lnot cmp))) SWAR_MSB.
Definition match_empty (g : Z) : Z := Z.land (Z.land g SWAR_MSB) (u64 (Z.shiftl g 1)).
Definition ops : GroupOps :=
  {| MASK_SCALE := true; target := LittleEndian; group_of := group_load;
     Groups.match_mask := match_mask; Groups.match_empty := match_empty |}.
End IxhtHppSWAR.

(** * ihtab-v0.hpp, namespace iht *)

Module IhtV0Hpp.
Definition GROUP_SIZE : Z := 8.
Definition EMPTY_H7 : Z := 0x80.
Definition INDEX_DELETED : Z := u32 (Z.lnot 0).
Definition LF_FACTOR : Z := 1.
Definition LF_DIVISOR : Z := 2.
End IhtV0Hpp.

Module IhtV0HppSSE2.
Definition group_load (w : Z) : list Z := mm_cvtsi64_si128 w.
Definition match_mask (g : list Z) (h7_val : Z) : Z :=
  let h7_vec := mm_set1_epi8 h7_val in
  Z.land (mm_movemask_epi8 (mm_cmpeq_epi8 g h7_vec)) 0xff.
Definition EMPTY_MASK : list Z := mm_set1_epi8 0x80.
Definition match_empty (g : list Z) : Z :=
  Z.land (mm_movemask_epi8 (mm_and_si128 g EMPTY_MASK)) 0xff.
Definition ops : GroupOps :=
  {| MASK_SCALE := false; target := LittleEndian; group_of := group_load;
     Groups.match_mask := match_mask; Groups.match_empty := match_empty |}.
End IhtV0HppSSE2.

Module IhtV0HppNEON.
Definition group_load (w : Z) : Z := w.
Definition match_mask (g : Z) (h7_val : Z) : Z :=
  let group := vcreate_u8 g in
  let match_eq := vceq_u8 group (vdup_n_u8 h7_val) in
  let bit_mask := [1; 2; 4; 8; 16; 32; 64; 128] in
  vaddv_u8 (vand_u8 match_eq bit_mask).
Definition match_empty (g : Z) : Z := match_mask g IhtV0Hpp.EMPTY_H7.
Definition ops : GroupOps :=
  {| MASK_SCALE := false; target := LittleEndian; group_of := group_load;
     Groups.match_mask := match_mask; Groups.match_empty := match_empty |}.
End IhtV0HppNEON.

Module IhtV0HppSWAR.
Definition SWAR_LSB : Z := 0x0101010101010101.
Definition SWAR_MSB : Z := 0x8080808080808080.
Definition group_load (w : Z) : Z := w.
Definition match_mask (g : Z) (h7_val : Z) : Z :=
  let cmp := Z.lxor g (u64 (SWAR_LSB * h7_val)) in
  Z.land (Z.land (u64 (cmp - SWAR_LSB)) (u64 (Z.lnot cmp))) SWAR_MSB.
Definition match_empty (g : Z) : Z := Z.land g SWAR_MSB.
Definition ops : GroupOps :=
  {| MASK_SCALE := true; target := LittleEndian; group_of := group_load;
     Groups.match_mask := match_mask; Groups.match_empty := match_empty |}.
End IhtV0HppSWAR.

(** * ixhtab-v0.hpp, namespace ixht *)

Module IxhtV0Hpp.
Definition GROUP_SIZE : Z := 8.
Definition EMPTY_H7 : Z := 0x80.
Definition INDEX_DELETED : Z := u16 (Z.lnot 0).
Definition MAX_BIN_SIZE_POWER : Z := 15.
End IxhtV0Hpp.

Module IxhtV0HppSSE2.
Definition group_load (w : Z) : list Z := mm_cvtsi64_si128 w.
Definition match_mask (g : list Z) (h7_val : Z) : Z :=
  let h7_vec := mm_set1_epi8 h7_val in
  Z.land (u32 (mm_movemask_epi8 (mm_cmpeq_epi8 g h7_vec))) 0xff.
Definition match_empty (g : list Z) : Z := Z.land (u32 (mm_movemask_epi8 g)) 0xff.
Definition ops : GroupOps :=
  {| MASK_SCALE := false; target := LittleEndian; group_of := group_load;
     Groups.match_mask := match_mask; Groups.match_empty := match_empty |}.
End IxhtV0HppSSE2.

Module IxhtV0HppNEON.
Definition group_load (w : Z) : Z := w.
Definition match_mask (g : Z) (h7_val : Z) : Z :=
  let group := vcreate_u8 g in
  let match_eq := vceq_u8 group (vdup_n_u8 h7_val) in
  let bit_mask := [1; 2; 4; 8; 16; 32; 64; 128] in
  u32 (vaddv_u8 (vand_u8 match_eq bit_mask)).
Definition match_empty (g : Z) : Z := match_mask g IxhtV0Hpp.EMPTY_H7.
Definition ops : GroupOps :=
  {| MASK_SCALE := false; target := LittleEndian; group_of := group_load;
     Groups.match_mask := match_mask; Groups.match_empty := match_empty |}.
End IxhtV0HppNEON.

Module IxhtV0HppSWAR.
Definition SWAR_LSB : Z := 0x0101010101010101.
Definition SWAR_MSB : Z := 0x8080808080808080.
Definition group_load (w : Z) : Z := w.
Definition match_mask (g : Z) (h7_val : Z) : Z :=
  let cmp := Z.lxor g (u64 (SWAR_LSB * h7_val)) in
  Z.land (Z.land (u64 (cmp - SWAR_LSB)) (u64 (Z.lnot cmp))) SWAR_MSB.
Definition match_empty (g : Z) : Z := Z.land g SWAR_MSB.
Definition ops : GroupOps :=
  {| MASK_SCALE := true; target := LittleEndian; group_of := group_load;
     Groups.match_mask := match_mask; Groups.match_empty := match_empty |}.
End IxhtV0HppSWAR.

(** * The laws, from those of the C headers *)

#[export] Instance IhtHpp_SSE2_laws : GroupLaws IhtHppSSE2.ops := SSE2_laws.
#[export] Instance IhtHpp_NEON_laws : GroupLaws IhtHppNEON.ops := NEON_laws.
#[export] Instance IhtHpp_SWAR_laws : GroupLaws IhtHppSWAR.ops := SWAR_laws.
#[export] Instance IxhtHpp_SSE2_laws : GroupLaws IxhtHppSSE2.ops := IxSSE2_laws.
#[export] Instance IxhtHpp_NEON_laws : GroupLaws IxhtHppNEON.ops := IxNEON_laws.
#[export] Instance IxhtHpp_SWAR_laws : GroupLaws IxhtHppSWAR.ops := IxSWAR_laws.
#[export] Instance IhtV0Hpp_SSE2_laws : GroupLawsV0 IhtV0HppSSE2.ops := V0SSE2_laws.
#[export] Instance IhtV0Hpp_NEON_laws : GroupLawsV0 IhtV0HppNEON.ops := V0NEON_laws.
#[export] Instance IhtV0Hpp_SWAR_laws : GroupLawsV0 IhtV0HppSWAR.ops := V0SWAR_laws.
#[export] Instance IxhtV0Hpp_SSE2_laws : GroupLawsV0 IxhtV0HppSSE2.ops := V0IxSSE2_laws.
#[export] Instance IxhtV0Hpp_NEON_laws : GroupLawsV0 IxhtV0HppNEON.ops := V0IxNEON_laws.
#[export] Instance IxhtV0Hpp_SWAR_laws : GroupLawsV0 IxhtV0HppSWAR.ops := V0IxSWAR_laws.
