(* ===== verification/Probe.v ===== *)
(** Open addressing over groups of eight slots, free of any memory layout:
    what a slot can hold, the invariant that makes linear probing over groups
    correct, and its preservation by insertion and deletion.  The tables of
    the library are related to this level by a view of their memory. *)

From S2P Require Import Prelude.

Inductive slot :=
  | SEmpty                    (** never used since the bin was initialised *)
  | SDead                     (** held an element that was deleted *)
  | SLive (tag idx : Z).      (** fingerprint and element index *)

#[export] Instance slot_eq_dec : EqDecision slot.
Proof. solve_decision. Defined.

(** What the user of a table promises about the [Hash] and [Eq] arguments. *)
Class KeyLaws {El : Type} (Hash : El → Z) (Eq : El → El → bool) := {
  hash_range e : 0 ≤ Hash e < 2 ^ 64;
  key_refl e : Eq e e = true;
  key_sym e1 e2 : Eq e1 e2 = true → Eq e2 e1 = true;
  key_trans e1 e2 e3 : Eq e1 e2 = true → Eq e2 e3 = true → Eq e1 e3 = true;
  key_hash e1 e2 : Eq e1 e2 = true → Hash e1 = Hash e2
}.

(** [(hash >> (sizeof (size_t) * 8 - 7)) & 0x7f] *)
Definition h7_of (hash : Z) : Z := Z.land (Z.shiftr hash 57) 0x7f.

Lemma h7_range hash : 0 ≤ h7_of hash < 0x80.
Proof.
  unfold h7_of. change 0x7f with (Z.ones 7). rewrite Z.land_ones by lia.
  by apply Z.mod_pos_bound.
Qed.

Section probe.
Context {El : Type} (Hash : El → Z) (Eq : El → El → bool).
Context `{!KeyLaws Hash Eq}.
Implicit Types (st : Z → Z → slot) (live : Z → option El) (e : El).
Implicit Types (ng g j t i d bound : Z).

(** The group [d] steps after the home group of a hash. *)
Definition grp ng (hash d : Z) : Z := (hash / 8 + d) mod ng.

Definition full st g : Prop := ∀ j, 0 ≤ j < 8 → st g j ≠ SEmpty.

(** The number of slots that are not empty; slot [s] is slot [s mod 8] of
    group [s / 8]. *)
Definition nonempty ng st : Z :=
  Z.of_nat (length (filter (λ s, st (s / 8) (s mod 8) ≠ SEmpty) (seqZ 0 (8 * ng)))).

Record probe_inv ng st live bound : Prop := {
  pi_ng : 0 < ng;
  pi_live g j t i :
    0 ≤ g < ng → 0 ≤ j < 8 → st g j = SLive t i →
    ∃ e d, live i = Some e ∧ t = h7_of (Hash e) ∧ 0 ≤ d < ng ∧ g = grp ng (Hash e) d ∧
      ∀ d', 0 ≤ d' < d → full st (grp ng (Hash e) d');
  pi_slot i e :
    live i = Some e → ∃ g j t, 0 ≤ g < ng ∧ 0 ≤ j < 8 ∧ st g j = SLive t i;
  pi_inj g j t g' j' t' i :
    0 ≤ g < ng → 0 ≤ j < 8 → 0 ≤ g' < ng → 0 ≤ j' < 8 →
    st g j = SLive t i → st g' j' = SLive t' i → g = g' ∧ j = j';
  pi_nodup i e i' e' :
    live i = Some e → live i' = Some e' → Eq e e' = true → i = i';
  pi_bound i e : live i = Some e → 0 ≤ i < bound;
  pi_count : nonempty ng st ≤ bound
}.
Arguments pi_ng {ng st live bound} _.
Arguments pi_live {ng st live bound} _.
Arguments pi_slot {ng st live bound} _.
Arguments pi_inj {ng st live bound} _.
Arguments pi_nodup {ng st live bound} _.
Arguments pi_bound {ng st live bound} _.
Arguments pi_count {ng st live bound} _.

(** Insertion and deletion at this level. *)
Definition upd st g j (x : slot) : Z → Z → slot :=
  λ g' j', if decide (g' = g ∧ j' = j) then x else st g' j'.
Definition updl live i (x : option El) : Z → option El :=
  λ i', if decide (i' = i) then x else live i'.

Lemma grp_range ng hash d : 0 < ng → 0 ≤ grp ng hash d < ng.
Proof. intros. by apply Z.mod_pos_bound. Qed.

Lemma grp_succ ng hash d : 0 < ng → (grp ng hash d + 1) mod ng = grp ng hash (d + 1).
Proof. intros. unfold grp. rewrite Z.add_mod_idemp_l by lia. f_equal. lia. Qed.

(** Probing visits every group. *)
Lemma grp_surj ng hash g : 0 ≤ g < ng → ∃ d, 0 ≤ d < ng ∧ g = grp ng hash d.
Proof.
  intros Hg. exists ((g - hash / 8) mod ng). split; [apply Z.mod_pos_bound; lia|].
  unfold grp. rewrite Z.add_mod_idemp_r by lia.
  replace (hash / 8 + (g - hash / 8)) with g by lia. by rewrite Z.mod_small.
Qed.

Lemma full_dec st g : full st g ∨ ∃ j, 0 ≤ j < 8 ∧ st g j = SEmpty.
Proof.
  destruct (decide (Exists (λ j, st g j = SEmpty) (seqZ 0 8))) as [H|H].
  - right. apply Exists_exists in H as (j & Hj%list_elem_of_In%elem_of_seqZ & ?).
    exists j. split; [lia|done].
  - left. intros j Hj Hst. apply H, Exists_exists. exists j.
    split; [apply list_elem_of_In, elem_of_seqZ; lia|done].
Qed.

Lemma upd_eq st g j x : upd st g j x g j = x.
Proof. unfold upd. by rewrite decide_True. Qed.
Lemma upd_ne st g j x g' j' : ¬ (g' = g ∧ j' = j) → upd st g j x g' j' = st g' j'.
Proof. intros. unfold upd. by rewrite decide_False. Qed.

(** ** Counting *)

Lemma nonempty_upd ng st g j x :
  0 ≤ j < 8 → nonempty ng (upd st g j x) ≤ nonempty ng st + 1.
Proof.
  intros Hj. unfold nonempty. rewrite Z.add_1_r, <-Nat2Z.inj_succ. apply inj_le.
  apply (length_filter_update _ _ _ (8 * g + j)); [apply NoDup_seqZ|].
  intros s _ Hs. rewrite upd_ne; [done|]. intros [<- <-]. apply Hs. dlia.
Qed.

Lemma nonempty_le ng st st' :
  (∀ g j, st' g j ≠ SEmpty → st g j ≠ SEmpty) → nonempty ng st' ≤ nonempty ng st.
Proof.
  intros Hle. unfold nonempty. apply inj_le, length_filter_mono. intros s _. apply Hle.
Qed.

(** ** The invariant *)

Lemma probe_inv_init ng st live :
  0 < ng → (∀ g j, 0 ≤ g < ng → 0 ≤ j < 8 → st g j = SEmpty) → (∀ i, live i = None) →
  probe_inv ng st live 0.
Proof.
  intros Hng Hst Hl. split; [done|..]; intros *; rewrite ?Hl; try done.
  - intros Hg Hj. by rewrite Hst.
  - intros Hg Hj _ _. by rewrite Hst.
  - unfold nonempty. rewrite filter_nil_in; [done|].
    intros s Hs%elem_of_seqZ. rewrite Hst by dlia. naive_solver.
Qed.

Lemma nonempty_ext ng st st' :
  (∀ g j, 0 ≤ g < ng → 0 ≤ j < 8 → st g j = st' g j) → nonempty ng st = nonempty ng st'.
Proof.
  intros E. unfold nonempty. do 2 f_equal. apply filter_ext_in.
  intros s Hs%elem_of_seqZ. by rewrite E by dlia.
Qed.

(** The invariant only depends on the slots of the table. *)
Lemma probe_inv_ext ng st st' live live' bound :
  (∀ g j, 0 ≤ g < ng → 0 ≤ j < 8 → st g j = st' g j) → (∀ i, live i = live' i) →
  probe_inv ng st live bound → probe_inv ng st' live' bound.
Proof.
  intros Es El' I. pose proof (pi_ng I) as Hng. split; [done|..].
  - intros g j t i Hg Hj. rewrite <-Es by done. intros Hst.
    destruct (pi_live I g j t i) as (e & d & He & ? & ? & ? & Hf); [done..|].
    exists e, d. rewrite <-El'. split_and!; auto; try lia.
    intros d' Hd' j' Hj'. rewrite <-Es; [by apply Hf|by apply grp_range|done].
  - intros i e. rewrite <-El'. intros (g & j & t & Hg & Hj & Hst)%(pi_slot I).
    exists g, j, t. by rewrite <-Es.
  - intros g j t g' j' t' i ????. rewrite <-!Es by done. by apply (pi_inj I).
  - intros i e i' e'. rewrite <-!El'. apply (pi_nodup I).
  - intros i e. rewrite <-El'. apply (pi_bound I).
  - rewrite <-(nonempty_ext _ _ _ Es). apply (pi_count I).
Qed.

(** A table with fewer non-empty slots than slots has a group with room. *)
Lemma room_exists ng st :
  nonempty ng st < 8 * ng → ∃ g, 0 ≤ g < ng ∧ ¬ full st g.
Proof.
  intros Hlt. destruct (decide (Exists (λ s, st (s / 8) (s mod 8) = SEmpty)
    (seqZ 0 (8 * ng)))) as [H|H].
  - apply Exists_exists in H as (s & Hs%list_elem_of_In%elem_of_seqZ & E).
    exists (s / 8). split; [dlia|]. intros Hf. apply (Hf (s mod 8)); [dlia|done].
  - exfalso. unfold nonempty in Hlt.
    rewrite filter_all_in, length_seqZ in Hlt; [lia|].
    intros s Hs E. apply H, Exists_exists.
    exists s. split; [by apply list_elem_of_In|done].
Qed.

(** Searching is complete: when the groups before a group with room hold no
    equal element, no element of the table is equal. *)
Lemma search_complete ng st live bound el d :
  probe_inv ng st live bound → 0 ≤ d →
  ¬ full st (grp ng (Hash el) d) →
  (∀ d' j t i e, 0 ≤ d' ≤ d → 0 ≤ j < 8 → st (grp ng (Hash el) d') j = SLive t i →
    t = h7_of (Hash el) → live i = Some e → Eq e el = false) →
  ∀ i e, live i = Some e → Eq e el = false.
Proof.
  intros I Hd Hroom Hno i e He. destruct (Eq e el) eqn:E; [|done].
  destruct (pi_slot I i e He) as (g & j & t & Hg & Hj & Hst).
  destruct (pi_live I g j t i) as (e' & d0 & He' & -> & Hd0 & -> & Hfull); [done..|].
  rewrite He in He'. injection He' as <-. pose proof (key_hash e el E) as Eh. rewrite Eh in *.
  destruct (decide (d0 ≤ d)).
  - rewrite <-E. eapply Hno; [|done..]. lia.
  - exfalso. apply Hroom, Hfull. lia.
Qed.

Lemma full_upd st g j x g' :
  x ≠ SEmpty → full st g' → full (upd st g j x) g'.
Proof. intros Hx Hf j' Hj'. unfold upd. case_decide; [done|by apply Hf]. Qed.

(** Insertion into a free slot of the probe sequence. *)
Lemma probe_inv_insert ng st live bound el el' d j :
  probe_inv ng st live bound → 0 ≤ d < ng → 0 ≤ j < 8 →
  (∀ t i, st (grp ng (Hash el) d) j ≠ SLive t i) →
  (∀ d', 0 ≤ d' < d → full st (grp ng (Hash el) d')) →
  (∀ i e, live i = Some e → Eq e el = false) → Eq el' el = true →
  probe_inv ng (upd st (grp ng (Hash el) d) j (SLive (h7_of (Hash el)) bound))
    (updl live bound (Some el')) (bound + 1).
Proof.
  intros I Hd Hj Hfree Hfull Hno Hel. pose proof (pi_ng I) as Hng.
  set (g := grp ng (Hash el) d) in *.
  pose proof (grp_range ng (Hash el) d Hng) as Hg. fold g in Hg.
  assert (live bound = None) as Hb.
  { destruct (live bound) eqn:E; [|done]. apply (pi_bound I) in E. lia. }
  assert (∀ i e, live i = Some e → Eq e el' = false) as Hno'.
  { intros i e He. destruct (Eq e el') eqn:E; [|done].
    pose proof (key_trans (Eq := Eq) e el' el E Hel). pose proof (Hno i e He). congruence. }
  assert (∀ g' j' t, 0 ≤ g' < ng → 0 ≤ j' < 8 → st g' j' ≠ SLive t bound) as Hnb.
  { intros g' j' t Hg' Hj' E. eapply (pi_live I) in E as (?&?&?&_); congruence. }
  pose proof (λ h g', full_upd st g j (SLive h bound) g' ltac:(done)) as Hfu.
  pose proof (key_hash (Hash := Hash) (Eq := Eq) el' el Hel) as Eh.
  split; [done|..].
  - intros g' j' t i Hg' Hj'. unfold upd at 1. case_decide as E.
    + destruct E as [-> ->]. intros [= <- <-]. exists el', d. unfold updl.
      rewrite decide_True by done. rewrite Eh. split_and!; auto; lia.
    + intros Hst. destruct (pi_live I g' j' t i) as (e & d0 & He & -> & ? & ? & Hf);
        [done..|]. exists e, d0. unfold updl. rewrite decide_False by congruence.
      split_and!; auto; lia.
  - intros i e. unfold updl. case_decide as E; subst.
    + intros _. eexists g, j, _. rewrite upd_eq. done.
    + intros (g' & j' & t & Hg' & Hj' & Hst)%(pi_slot I). exists g', j', t.
      rewrite upd_ne; [done|]. intros [-> ->]. by eapply Hfree.
  - intros g1 j1 t1 g2 j2 t2 i ????. unfold upd.
    case_decide as E1; case_decide as E2; intros F1 F2.
    + destruct E1, E2. by subst.
    + injection F1 as <- <-. by eapply Hnb in F2.
    + injection F2 as <- <-. by eapply Hnb in F1.
    + by eapply (pi_inj I).
  - intros i e i' e'. unfold updl. case_decide; case_decide; intros; simplify_eq; try done.
    + match goal with H : live _ = Some _, E : Eq _ _ = true |- _ =>
        apply Hno' in H; apply (key_sym (Hash := Hash) (Eq := Eq)) in E; congruence end.
    + match goal with H : live _ = Some _, E : Eq _ _ = true |- _ =>
        apply Hno' in H; congruence end.
    + by eapply (pi_nodup I).
  - intros i e. unfold updl. case_decide; subst.
    + intros _. pose proof (pi_count I). unfold nonempty in *. lia.
    + intros ?%(pi_bound I). lia.
  - pose proof (nonempty_upd ng st g j (SLive (h7_of (Hash el)) bound) Hj).
    pose proof (pi_count I). lia.
Qed.

(** Deletion of the element a live slot refers to. *)
Lemma probe_inv_delete ng st live bound g j t i :
  probe_inv ng st live bound → 0 ≤ g < ng → 0 ≤ j < 8 → st g j = SLive t i →
  probe_inv ng (upd st g j SDead) (updl live i None) bound.
Proof.
  intros I Hg Hj Hst.
  pose proof (λ g', full_upd st g j SDead g' ltac:(done)) as Hfu.
  split; [apply (pi_ng I)|..].
  - intros g' j' t' i' Hg' Hj'. unfold upd at 1. case_decide as E; [done|]. intros Hst'.
    destruct (pi_live I g' j' t' i') as (e & d & He & -> & ? & ? & Hf); [done..|].
    exists e, d. unfold updl. rewrite decide_False; [split_and!; auto; lia|].
    intros ->. apply E. by eapply (pi_inj I).
  - intros i' e'. unfold updl. case_decide as E; [done|].
    intros (g' & j' & t' & Hg' & Hj' & Hst')%(pi_slot I). exists g', j', t'.
    rewrite upd_ne; [done|]. intros [-> ->]. congruence.
  - intros g1 j1 t1 g2 j2 t2 i' ????. unfold upd.
    case_decide; [done|]. case_decide; [done|]. intros. by eapply (pi_inj I).
  - intros i1 e1 i2 e2. unfold updl. repeat case_decide; try done. apply (pi_nodup I).
  - intros i' e'. unfold updl. case_decide; [done|]. apply (pi_bound I).
  - transitivity (nonempty ng st); [|apply (pi_count I)].
    apply nonempty_le. intros g' j'. unfold upd. case_decide as E; [|done].
    destruct E as [-> ->]. congruence.
Qed.

(** Overwriting an element with one of the same key. *)
Lemma probe_inv_replace ng st live bound i e el :
  probe_inv ng st live bound → live i = Some e → Eq el e = true →
  probe_inv ng st (updl live i (Some el)) bound.
Proof.
  intros I He HE. pose proof (key_hash (Hash := Hash) (Eq := Eq) el e HE) as Eh.
  assert (∀ i' e', updl live i (Some el) i' = Some e' →
    ∃ e0, live i' = Some e0 ∧ Eq e' e0 = true ∧ Hash e' = Hash e0) as Hback.
  { intros i' e'. unfold updl. case_decide; subst; intros; simplify_eq; [by eauto|].
    exists e'. split_and!; [done|apply (key_refl (Hash := Hash))|done]. }
  split; [apply (pi_ng I)|..].
  - intros g j t i' Hg Hj Hst.
    destruct (pi_live I g j t i') as (e' & d & He' & -> & ? & ? & Hf); [done..|].
    destruct (decide (i' = i)) as [->|Hne].
    + rewrite He in He'. injection He' as <-. exists el, d. unfold updl.
      rewrite decide_True by done. rewrite Eh. split_and!; auto; lia.
    + exists e', d. unfold updl. rewrite decide_False by done. split_and!; auto; lia.
  - intros i' e' (e0 & He0 & _)%Hback. by eapply (pi_slot I).
  - apply (pi_inj I).
  - intros i1 e1 i2 e2 (e1' & H1 & Q1 & _)%Hback (e2' & H2 & Q2 & _)%Hback HE'.
    eapply (pi_nodup I); [done..|].
    apply (key_trans (Hash := Hash) (Eq := Eq) _ e1); [by apply (key_sym (Hash := Hash))|].
    by apply (key_trans (Hash := Hash) (Eq := Eq) _ e2).
  - intros i' e' (e0 & He0 & _)%Hback. by eapply (pi_bound I).
  - apply (pi_count I).
Qed.
End probe.
Arguments pi_ng {El Hash Eq ng st live bound} _.
Arguments pi_live {El Hash Eq ng st live bound} _.
Arguments pi_slot {El Hash Eq ng st live bound} _.
Arguments pi_inj {El Hash Eq ng st live bound} _.
Arguments pi_nodup {El Hash Eq ng st live bound} _.
Arguments pi_bound {El Hash Eq ng st live bound} _.
Arguments pi_count {El Hash Eq ng st live bound} _.
