(* ===== verification/Spec.v ===== *)
(** What a table promises: the abstract state is the list of its elements in
    insertion order, with pairwise different keys.  [Table] is the interface of
    a table implementation, [TableLaws] its contract, and [run_refines] lifts
    the contract to sequences of operations. *)

From S2P Require Import Prelude.

(** * The specification *)

(** The element of a collection equal to [el]. *)
Definition lookup_key {El} (Eq : El → El → bool) (el : El) (l : list El) : option El :=
  List.find (λ e, Eq e el) l.

(** The collection without the element equal to [el]. *)
Definition remove_key {El} (Eq : El → El → bool) (el : El) (l : list El) : list El :=
  filter (λ e, Eq e el = false) l.

(** The collection with the element equal to [el] overwritten by [el]. *)
Definition replace_key {El} (Eq : El → El → bool) (el : El) (l : list El) : list El :=
  (λ e, if Eq e el then el else e) <$> l.

Lemma lookup_key_None {El} (Eq : El → El → bool) (el : El) (l : list El) :
  (∀ e, e ∈ l → Eq e el = false) → lookup_key Eq el l = None.
Proof.
  intros Hl. induction l as [|e l IH]; [done|]. cbn. rewrite Hl by left. apply IH. intros e' He'.
  apply Hl. by right.
Qed.

Lemma lookup_key_app {El} (Eq : El → El → bool) (el : El) (l l' : list El) :
  lookup_key Eq el (l ++ l') =
  match lookup_key Eq el l with Some e => Some e | None => lookup_key Eq el l' end.
Proof. induction l as [|e l IH]; [done|]. cbn. by destruct (Eq e el). Qed.

(** The keys of the elements [els], added to [l] one after the other, are new. *)
Fixpoint new_keys {El} (Eq : El → El → bool) (l els : list El) : Prop :=
  match els with
  | [] => True
  | el :: els => lookup_key Eq el l = None ∧ new_keys Eq (l ++ [el]) els
  end.

Inductive op (El : Type) :=
  | OpFind (el : El)
  | OpInsert (el : El)      (** keep an equal element that is present *)
  | OpReplace (el : El)     (** overwrite an equal element that is present *)
  | OpDelete (el : El)
  | OpCount
  | OpElements.
Arguments OpFind {El} el.
Arguments OpInsert {El} el.
Arguments OpReplace {El} el.
Arguments OpDelete {El} el.
Arguments OpCount {El}.
Arguments OpElements {El}.

Inductive out (El : Type) :=
  | OutFind (r : option El)
  | OutFlag (found : bool)
  | OutCount (n : Z)
  | OutElements (l : list El).
Arguments OutFind {El} r.
Arguments OutFlag {El} found.
Arguments OutCount {El} n.
Arguments OutElements {El} l.

Definition spec_step {El} (Eq : El → El → bool) (o : op El) (l : list El) : out El * list El :=
  match o with
  | OpFind el => (OutFind (lookup_key Eq el l), l)
  | OpInsert el =>
      match lookup_key Eq el l with
      | Some _ => (OutFlag true, l)
      | None => (OutFlag false, l ++ [el])
      end
  | OpReplace el =>
      match lookup_key Eq el l with
      | Some _ => (OutFlag true, replace_key Eq el l)
      | None => (OutFlag false, l ++ [el])
      end
  | OpDelete el =>
      match lookup_key Eq el l with
      | Some _ => (OutFlag true, remove_key Eq el l)
      | None => (OutFlag false, l)
      end
  | OpCount => (OutCount (Z.of_nat (length l)), l)
  | OpElements => (OutElements l, l)
  end.

Fixpoint spec_run {El} (Eq : El → El → bool) (ops : list (op El)) (l : list El) :
    list (out El) * list El :=
  match ops with
  | [] => ([], l)
  | o :: ops =>
      let '(r, l1) := spec_step Eq o l in
      let '(rs, l2) := spec_run Eq ops l1 in (r :: rs, l2)
  end.

(** The largest number of elements during a sequence of operations. *)
Fixpoint peak {El} (Eq : El → El → bool) (ops : list (op El)) (l : list El) : nat :=
  match ops with
  | [] => length l
  | o :: ops => Nat.max (length l) (peak Eq ops (spec_step Eq o l).2)
  end.

(** * The interface *)

Class Table (El T : Type) := {
  tab_find : T → El → res (option El);
  tab_insert : T → El → res (bool * T);
  tab_replace : T → El → res (bool * T);
  tab_delete : T → El → res (bool * T);
  tab_count : T → Z;
  tab_elements : T → res (list El)
}.

(** [tab_rep t l]: [t] is well-formed and holds [l].  [tab_limit] is the
    number of elements up to which insertion is guaranteed to work.
    [tab_order] relates the order of iteration to the order of insertion. *)
Class TableLaws {El T : Type} (Eq : El → El → bool) (I : Table El T) := {
  tab_rep : T → list El → Prop;
  tab_limit : Z;
  tab_order : list El → list El → Prop;
  tab_find_ok t l el : tab_rep t l → tab_find t el = Ok (lookup_key Eq el l);
  tab_insert_ok t l el :
    tab_rep t l → Z.of_nat (length l) < tab_limit →
    ∃ t', tab_insert t el = Ok (match lookup_key Eq el l with Some _ => true | None => false end, t') ∧
      tab_rep t' (match lookup_key Eq el l with Some _ => l | None => l ++ [el] end);
  tab_replace_ok t l el :
    tab_rep t l → Z.of_nat (length l) < tab_limit →
    ∃ t', tab_replace t el = Ok (match lookup_key Eq el l with Some _ => true | None => false end, t') ∧
      tab_rep t' (match lookup_key Eq el l with Some _ => replace_key Eq el l | None => l ++ [el] end);
  tab_delete_ok t l el :
    tab_rep t l →
    ∃ t', tab_delete t el = Ok (match lookup_key Eq el l with Some _ => true | None => false end, t') ∧
      tab_rep t' (match lookup_key Eq el l with Some _ => remove_key Eq el l | None => l end);
  tab_count_ok t l : tab_rep t l → tab_count t = Z.of_nat (length l);
  tab_elements_ok t l : tab_rep t l → ∃ l', tab_elements t = Ok l' ∧ tab_order l' l
}.

(** Answers agree up to the order of iteration. *)
Inductive out_rel {El} (order : list El → list El → Prop) : out El → out El → Prop :=
  | rel_find r : out_rel order (OutFind r) (OutFind r)
  | rel_flag f : out_rel order (OutFlag f) (OutFlag f)
  | rel_count n : out_rel order (OutCount n) (OutCount n)
  | rel_elements l l' : order l l' → out_rel order (OutElements l) (OutElements l').

Lemma out_rel_eq {El} (rs rs' : list (out El)) : Forall2 (out_rel eq) rs rs' → rs = rs'.
Proof. induction 1 as [|r r' rs rs' Hr _ IH]; [done|]. by destruct Hr; subst. Qed.

(** Two lists of answers that agree with a third one agree. *)
Lemma out_rel_join {El} (order : list El → list El → Prop) `{!Equivalence order} rs rs' ss :
  Forall2 (out_rel order) rs ss → Forall2 (out_rel order) rs' ss → Forall2 (out_rel order) rs rs'.
Proof.
  intros H1. revert rs'. induction H1 as [|r s rs ss Hr _ IH]; intros rs' H2.
  - by apply Forall2_nil_inv_r in H2 as ->.
  - apply Forall2_cons_inv_r in H2 as (r' & rs2 & Hr' & H2 & ->). constructor; [|by apply IH].
    destruct Hr; inversion Hr'; subst; constructor. etransitivity; [done|by symmetry].
Qed.

Section run.
Context {El T : Type} {Eq : El → El → bool} {I : Table El T} `{!TableLaws Eq I}.

Definition step (o : op El) (t : T) : res (out El * T) :=
  match o with
  | OpFind el => r ← tab_find t el; Ok (OutFind r, t)
  | OpInsert el => '(f, t') ← tab_insert t el; Ok (OutFlag f, t')
  | OpReplace el => '(f, t') ← tab_replace t el; Ok (OutFlag f, t')
  | OpDelete el => '(f, t') ← tab_delete t el; Ok (OutFlag f, t')
  | OpCount => Ok (OutCount (tab_count t), t)
  | OpElements => l ← tab_elements t; Ok (OutElements l, t)
  end.

Fixpoint run (ops : list (op El)) (t : T) : res (list (out El) * T) :=
  match ops with
  | [] => Ok ([], t)
  | o :: ops =>
      '(r, t1) ← step o t;
      '(rs, t2) ← run ops t1;
      Ok (r :: rs, t2)
  end.

Lemma length_spec_step o l :
  (length (spec_step Eq o l).2 ≤ S (length l))%nat.
Proof.
  destruct o; cbn [spec_step]; try (cbn; lia);
    destruct (lookup_key Eq _ l); cbn; rewrite ?length_app; cbn; try lia.
  - unfold replace_key. rewrite length_fmap. lia.
  - unfold remove_key. etransitivity; [apply length_filter|lia].
Qed.

Lemma step_refines o t l :
  tab_rep t l → Z.of_nat (length l) < tab_limit →
  ∃ r t', step o t = Ok (r, t') ∧ out_rel tab_order r (spec_step Eq o l).1 ∧
    tab_rep t' (spec_step Eq o l).2.
Proof.
  intros Ht Hl. destruct o as [el|el|el|el| |]; cbn [step spec_step].
  - rewrite (tab_find_ok t l el Ht). eexists _, t. split; [done|]. split; [constructor|done].
  - destruct (tab_insert_ok t l el Ht Hl) as (t' & -> & Ht').
    eexists _, t'. split; [done|]. destruct (lookup_key Eq el l); split; try done; constructor.
  - destruct (tab_replace_ok t l el Ht Hl) as (t' & -> & Ht').
    eexists _, t'. split; [done|]. destruct (lookup_key Eq el l); split; try done; constructor.
  - destruct (tab_delete_ok t l el Ht) as (t' & -> & Ht').
    eexists _, t'. split; [done|]. destruct (lookup_key Eq el l); split; try done; constructor.
  - rewrite (tab_count_ok t l Ht). eexists _, t. split; [done|]. split; [constructor|done].
  - destruct (tab_elements_ok t l Ht) as (l' & -> & Ho).
    eexists _, t. split; [done|]. split; [by constructor|done].
Qed.

(** Any sequence of operations gives the answers of the specification. *)
Lemma run_refines ops t l :
  tab_rep t l → Z.of_nat (length l) + Z.of_nat (length ops) ≤ tab_limit →
  ∃ rs t', run ops t = Ok (rs, t') ∧ Forall2 (out_rel tab_order) rs (spec_run Eq ops l).1 ∧
    tab_rep t' (spec_run Eq ops l).2.
Proof.
  revert t l. induction ops as [|o ops IH]; intros t l Ht Hl; cbn [run spec_run length] in *.
  - by exists [], t.
  - destruct (step_refines o t l Ht) as (r & t1 & -> & Hr & Ht1); [lia|]. step_ok.
    pose proof (length_spec_step o l). destruct (spec_step Eq o l) as [r' l1]. cbn in *.
    destruct (IH t1 l1 Ht1) as (rs & t2 & -> & Hrs & Ht2); [lia|]. step_ok.
    destruct (spec_run Eq ops l1) as [rs' l2]. exists (r :: rs), t2. by split_and!; [|constructor|].
Qed.
End run.
