(* ===== verification/Store.v ===== *)
(** The bin shared by the tables: element array, deleted bitmap and the slots
    that lead from hashes to elements.  How the slots are kept in memory and
    searched is the business of a slot store ([SlotStore]), of which the
    repository has two: interleaved tag/index groups ([Core], ihtab.h and
    ixhtab.h) and separate tag and index arrays ([CoreV0], the first
    versions).  The tables use a store through this interface, and their
    theorems rest on its laws [SlotLaws].

    The second half derives, from the laws, what [bin_do_1] does to the list
    of elements a bin holds. *)

From S2P Require Import Prelude Bits Probe Spec.

(** * Model *)

Inductive action := FIND | DELETE | INSERT.

#[export] Instance action_eq_dec : EqDecision action.
Proof. solve_decision. Defined.

(** The enumeration values, for [action >= INSERT]. *)
Definition action_code (a : action) : Z :=
  match a with FIND => 0 | DELETE => 1 | INSERT => 2 end.

Class BinConfig := {
  ind_bytes : nat;      (** [sizeof (ind_t)] *)
  size_bits : Z         (** width of the size type *)
}.

Definition size_wrap {C : BinConfig} (x : Z) : Z := x mod 2 ^ size_bits.
Definition ind_wrap {C : BinConfig} (x : Z) : Z := x mod 256 ^ Z.of_nat ind_bytes.
Definition GROUP_SIZE : Z := 8.

(** [groups] is the memory of the slots, of the type [S] that depends on the
    version: the array [groups], or the arrays [h7] and [indexes]. *)
Record hbin (S El : Type) := mk_hbin {
  els_bound : Z;
  els : arr El;
  deleted : arr Z;
  groups : S;
  groups_mask : Z
}.
Arguments mk_hbin {S El} _ _ _ _ _.
Arguments els_bound {S El} _.
Arguments els {S El} _.
Arguments deleted {S El} _.
Arguments groups {S El} _.
Arguments groups_mask {S El} _.

(** The result of [do_1]: the returned flag, what was stored through [res]
    (an index into [b->els]), the table's element count and the bin. *)
Definition do_result (S El : Type) : Type := bool * option Z * Z * hbin S El.

(** The slot memory of a bin. *)
Class SlotStore := {
  slots : Type;
  (** allocation for [indexes_size] slots, all of them marked empty *)
  slots_alloc : Z → res slots;
  (** reallocation for [indexes_size] slots, all of them marked empty *)
  slots_realloc : slots → Z → res slots;
  (** mark the slots of [groups_mask + 1] groups empty *)
  slots_clear : slots → Z → res slots;
  slots_free : slots → res slots;
  (** the probe loop, given the count of the table, the bin and the hash *)
  bin_do_1 {El : Type} :
    (El → El → bool) → Z → hbin slots El → Z → El → action → res (do_result slots El)
}.

Section model.
Context {S El : Type}.
Implicit Types (b : hbin S El) (el : El).

(** [deleted[i / 8] & (1 << (i % 8))] *)
Definition is_deleted b (i : Z) : res bool :=
  byte ← arr_get (deleted b) (i / 8);
  Ok (negb (Z.land byte (Z.shiftl 1 (i mod 8)) =? 0)).

(** [deleted[i / 8] |= 1 << (i % 8)] *)
Definition mark_deleted (d : arr Z) (i : Z) : res (arr Z) :=
  byte ← arr_get d (i / 8);
  arr_set d (i / 8) (u8 (Z.lor byte (Z.shiftl 1 (i mod 8)))).

(** [*r = el] for a result pointer of [do_1]. *)
Definition store_el b (r : Z) el : res (hbin S El) :=
  els' ← arr_set (els b) r el;
  Ok (mk_hbin (els_bound b) els' (deleted b) (groups b) (groups_mask b)).

Definition with_deleted b (d : arr Z) : hbin S El :=
  mk_hbin (els_bound b) (els b) d (groups b) (groups_mask b).
End model.

(** * Well-formed bins *)

(** The widths are large enough for bins whose element indices fit the index
    type. *)
Class ConfigLaws (C : BinConfig) := {
  ind_bytes_pos : (0 < ind_bytes)%nat;
  size_bits_le : 0 ≤ size_bits ≤ 64;
  size_fits : 4 * 256 ^ Z.of_nat ind_bytes < 2 ^ size_bits;
  groups_fit : 2 * (1 + Z.of_nat ind_bytes) * 256 ^ Z.of_nat ind_bytes < 2 ^ 64
}.

(** The number of groups whose elements can be numbered. *)
Definition max_groups {C : BinConfig} : Z := 256 ^ Z.of_nat ind_bytes / 4.

Lemma land_mask x k : 0 ≤ k → Z.land x (2 ^ k - 1) = x mod 2 ^ k.
Proof. intros. rewrite <-Z.land_ones by done. by rewrite Z.ones_equiv. Qed.

Lemma mod_pow2_range x k : 0 ≤ k → 0 ≤ x mod 2 ^ k < 2 ^ k.
Proof. intros. by apply Z.mod_pos_bound, Z.pow_pos_nonneg. Qed.

Lemma mod_pow2_mod x s k : 0 ≤ k ≤ s → (x mod 2 ^ s) mod 2 ^ k = x mod 2 ^ k.
Proof.
  intros. apply Z.bits_inj'. intros n Hn. destruct (Z.ltb_spec n k).
  - by rewrite !Z.mod_pow2_bits_low by lia.
  - by rewrite !Z.mod_pow2_bits_high by lia.
Qed.

(** What the slot memory of a bin with [ng] groups stands for at the level of
    [Probe], and the memory after it has been freed. *)
Class SlotView (K : SlotStore) := {
  slots_ok : Z → slots → (Z → Z → slot) → Prop;
  slots_freed : slots → Prop
}.

Section wf.
Context {C : BinConfig} {K : SlotStore} {V : SlotView K}.
Context {El : Type} (Hash : El → Z) (Eq : El → El → bool).
Implicit Types (b : hbin slots El) (el e : El) (ng g j t i : Z) (st : Z → Z → slot).
Implicit Types (ec : list (option El)) (dc : list (option Z)).

Definition dead_bit dc i : bool :=
  match cellv dc (i / 8) with Some byte => Z.testbit byte (i mod 8) | None => true end.

(** The elements of the table by index: those below the bound that are not
    marked deleted. *)
Definition live_at ec dc (bound i : Z) : option El :=
  if decide (0 ≤ i < bound) then if dead_bit dc i then None else cellv ec i else None.

Record bin_ok ng ec dc st b : Prop := {
  bo_els : els b = Live ec;
  bo_deleted : deleted b = Live dc;
  bo_slots : slots_ok ng (groups b) st;
  bo_pow : ∃ k, 0 ≤ k ∧ ng = 2 ^ k;
  bo_mask : groups_mask b = ng - 1;
  bo_max : ng ≤ max_groups;
  bo_len_els : Z.of_nat (length ec) = 4 * ng;
  bo_len_del : Z.of_nat (length dc) = (4 * ng + 7) / 8;
  bo_del i : 0 ≤ i < Z.of_nat (length dc) → ∃ byte, cellv dc i = Some byte ∧ 0 ≤ byte < 256;
  bo_bound : 0 ≤ els_bound b ≤ 4 * ng;
  bo_init i : 0 ≤ i < els_bound b → ∃ e, cellv ec i = Some e;
  bo_fresh i : els_bound b ≤ i < 4 * ng → dead_bit dc i = false;
  bo_inv : probe_inv Hash Eq ng st (live_at ec dc (els_bound b)) (els_bound b)
}.

(** The elements of a bin in the order of their indices. *)
Definition live_list ec dc (bound : Z) : list El :=
  omap (live_at ec dc bound) (seqZ 0 bound).

(** What [bin_do_1] may answer on a bin: an equal element is found, and for
    DELETE its slot and its bit in the bitmap are marked; or there is none,
    and INSERT takes the next index and a slot of the probe sequence that is
    not in use, no group before it having an empty slot. *)
Inductive do_1_spec ng ec dc st b (el : El) (n : Z) : action → res (do_result slots El) → Prop :=
  | spec_present act i e :
      live_at ec dc (els_bound b) i = Some e → Eq e el = true → act ≠ DELETE →
      do_1_spec ng ec dc st b el n act (Ok (true, Some i, n, b))
  | spec_delete g j t i e d' s' :
      0 ≤ g < ng → 0 ≤ j < 8 → st g j = SLive t i →
      live_at ec dc (els_bound b) i = Some e → Eq e el = true →
      mark_deleted (deleted b) i = Ok d' → slots_ok ng s' (upd st g j SDead) →
      do_1_spec ng ec dc st b el n DELETE
        (Ok (true, None, size_wrap (n - 1), mk_hbin (els_bound b) (els b) d' s' (groups_mask b)))
  | spec_missing act :
      (∀ i e, live_at ec dc (els_bound b) i = Some e → Eq e el = false) → act ≠ INSERT →
      do_1_spec ng ec dc st b el n act (Ok (false, None, n, b))
  | spec_insert d j s' :
      (∀ i e, live_at ec dc (els_bound b) i = Some e → Eq e el = false) →
      0 ≤ d < ng → 0 ≤ j < 8 → (∀ t i, st (grp ng (Hash el) d) j ≠ SLive t i) →
      (∀ d', 0 ≤ d' < d → full st (grp ng (Hash el) d')) →
      slots_ok ng s' (upd st (grp ng (Hash el) d) j (SLive (h7_of (Hash el)) (els_bound b))) →
      do_1_spec ng ec dc st b el n INSERT
        (Ok (false, Some (els_bound b), size_wrap (n + 1),
             mk_hbin (els_bound b + 1) (els b) (deleted b) s' (groups_mask b))).
End wf.
Arguments bo_els {C K V El Hash Eq ng ec dc st b} _.
Arguments bo_deleted {C K V El Hash Eq ng ec dc st b} _.
Arguments bo_slots {C K V El Hash Eq ng ec dc st b} _.
Arguments bo_pow {C K V El Hash Eq ng ec dc st b} _.
Arguments bo_mask {C K V El Hash Eq ng ec dc st b} _.
Arguments bo_max {C K V El Hash Eq ng ec dc st b} _.
Arguments bo_len_els {C K V El Hash Eq ng ec dc st b} _.
Arguments bo_len_del {C K V El Hash Eq ng ec dc st b} _.
Arguments bo_del {C K V El Hash Eq ng ec dc st b} _.
Arguments bo_bound {C K V El Hash Eq ng ec dc st b} _.
Arguments bo_init {C K V El Hash Eq ng ec dc st b} _.
Arguments bo_fresh {C K V El Hash Eq ng ec dc st b} _.
Arguments bo_inv {C K V El Hash Eq ng ec dc st b} _.

(** What the tables rely on. *)
Class SlotLaws (C : BinConfig) (K : SlotStore) (V : SlotView K) := {
  slots_alloc_ok ng k :
    ng = 2 ^ k → 0 ≤ k → ng ≤ max_groups →
    ∃ s, slots_alloc (8 * ng) = Ok s ∧ slots_ok ng s (λ _ _, SEmpty);
  slots_realloc_ok ng s st ng' k :
    slots_ok ng s st → ng' = 2 ^ k → 0 ≤ k → ng ≤ ng' ≤ max_groups →
    ∃ s', slots_realloc s (8 * ng') = Ok s' ∧ slots_ok ng' s' (λ _ _, SEmpty);
  slots_clear_ok ng s st :
    slots_ok ng s st → 0 < ng ≤ max_groups →
    ∃ s', slots_clear s (ng - 1) = Ok s' ∧ slots_ok ng s' (λ _ _, SEmpty);
  slots_free_ok ng s st :
    slots_ok ng s st → ∃ s', slots_free s = Ok s' ∧ slots_freed s';
  slots_free_freed s : slots_freed s → slots_free s = UB DoubleFree;
  bin_do_1_freed {El : Type} (Eq : El → El → bool) n b hash el act :
    slots_freed (groups b) → 0 ≤ groups_mask b →
    bin_do_1 Eq n b hash el act = UB UseAfterFree;
  bin_do_1_ok {El : Type} (Hash : El → Z) (Eq : El → El → bool) `{!KeyLaws Hash Eq}
      ng ec dc st b el n act :
    bin_ok Hash Eq ng ec dc st b →
    (act = INSERT → els_bound b < 256 ^ Z.of_nat ind_bytes - 1) →
    do_1_spec Hash Eq ng ec dc st b el n act (bin_do_1 Eq n b (Hash el) el act);
  (** on any bin: elements and mask stay, and without DELETE the bitmap *)
  bin_do_1_frame {El : Type} (Eq : El → El → bool) n b hash el act f r n' b' :
    bin_do_1 Eq n b hash el act = Ok (f, r, n', b') →
    els b' = els b ∧ groups_mask b' = groups_mask b ∧ (act ≠ DELETE → deleted b' = deleted b);
  (** an insertion does not depend on the bitmap *)
  bin_do_1_bitmap {El : Type} (Eq : El → El → bool) n b d hash el f r n' b' :
    bin_do_1 Eq n (with_deleted b d) hash el INSERT = Ok (f, r, n', b') →
    bin_do_1 Eq n b hash el INSERT = Ok (f, r, n', with_deleted b' (deleted b))
}.

(** * The probe sequence *)

(** [(group_ind + 1) & groups_mask] is the next group of the sequence. *)
Lemma probe_next {C : BinConfig} ng k hash d :
  ng = 2 ^ k → 0 ≤ k → ng < 2 ^ size_bits →
  Z.land (size_wrap (grp ng hash d + 1)) (ng - 1) = grp ng hash (d + 1).
Proof.
  intros Ek Hk Hsz. assert (0 < ng) by (rewrite Ek; by apply Z.pow_pos_nonneg).
  pose proof (grp_range ng hash d ltac:(done)). unfold size_wrap. rewrite Z.mod_small by lia.
  rewrite <-grp_succ by done. rewrite Ek at 2. rewrite land_mask by done. by rewrite <-Ek.
Qed.

(** [(hash / GROUP_SIZE) & groups_mask] is its first group. *)
Lemma probe_home {C : BinConfig} `{!ConfigLaws C} ng k hash :
  ng = 2 ^ k → 0 ≤ k → ng < 2 ^ size_bits →
  Z.land (size_wrap (hash / GROUP_SIZE)) (ng - 1) = grp ng hash 0.
Proof.
  intros Ek Hk Hsz. rewrite Ek, land_mask by done.
  unfold size_wrap, grp, GROUP_SIZE. rewrite Z.add_0_r.
  apply mod_pow2_mod. split; [done|]. pose proof size_bits_le.
  apply (Z.pow_le_mono_r_iff 2); lia.
Qed.

(** * The deleted bitmap *)

Lemma land_bit_zero a k : 0 ≤ k → (Z.land a (Z.shiftl 1 k) =? 0) = negb (Z.testbit a k).
Proof.
  intros Hk. destruct (Z.testbit a k) eqn:E; cbn.
  - apply Z.eqb_neq. intros H. apply (f_equal (λ x, Z.testbit x k)) in H.
    rewrite Z.land_spec, E, Z.shiftl_spec, Z.sub_diag, Z.testbit_0_l in H by done.
    done.
  - apply Z.eqb_eq, Z.bits_inj'. intros n Hn. rewrite Z.land_spec, Z.testbit_0_l.
    destruct (decide (n = k)) as [->|]; [by rewrite E|].
    rewrite Z.shiftl_1_l, Z.pow2_bits_false by lia. apply andb_false_r.
Qed.

Lemma dead_bit_set dc i byte i' :
  cellv dc (i / 8) = Some byte → 0 ≤ byte < 256 → 0 ≤ i → 0 ≤ i' →
  dead_bit (<[Z.to_nat (i / 8) := Some (u8 (Z.lor byte (Z.shiftl 1 (i mod 8))))]> dc) i' =
  if decide (i' = i) then true else dead_bit dc i'.
Proof.
  intros Hb Hr Hi Hi'. unfold dead_bit.
  rewrite cellv_insert by (by eapply cellv_range). case_decide as E.
  - rewrite E. assert (0 ≤ i' mod 8 < 8) as Hm by (by apply Z.mod_pos_bound).
    assert (0 ≤ i mod 8 < 8) as Hm' by (by apply Z.mod_pos_bound).
    unfold u8. rewrite Z.mod_pow2_bits_low, Z.lor_spec, Z.shiftl_1_l by lia.
    case_decide as E'; [subst i'; rewrite Z.pow2_bits_true by lia; apply orb_true_r|].
    rewrite Hb, Z.pow2_bits_false, orb_false_r by dlia. done.
  - rewrite decide_False; [done|]. by intros ->.
Qed.

Lemma u8_dead_range byte k : 0 ≤ u8 (Z.lor byte k) < 256.
Proof. by apply Z.mod_pos_bound. Qed.

Section outcomes.
Context {C : BinConfig} {K : SlotStore} {V : SlotView K} `{!ConfigLaws C} `{!SlotLaws C K V}.
Context {El : Type} (Hash : El → Z) (Eq : El → El → bool) `{!KeyLaws Hash Eq}.
Implicit Types (b : hbin slots El) (el e : El) (ng g j t i : Z) (l : list El).
Implicit Types (ec : list (option El)) (dc : list (option Z)) (st : Z → Z → slot).

Lemma live_at_Some ec dc bound i e :
  live_at ec dc bound i = Some e ↔
  0 ≤ i < bound ∧ dead_bit dc i = false ∧ cellv ec i = Some e.
Proof. unfold live_at. case_decide; [destruct (dead_bit dc i)|]; naive_solver. Qed.

Lemma ng_bounds ng ec dc st b :
  bin_ok Hash Eq ng ec dc st b →
  0 < ng ∧ 4 * ng ≤ 256 ^ Z.of_nat ind_bytes ∧ 4 * ng < 2 ^ size_bits.
Proof.
  intros Hok. pose proof (pi_ng (bo_inv Hok)).
  pose proof (bo_max Hok) as Hmax. unfold max_groups in Hmax.
  pose proof size_fits. split_and!; [done| |]; dlia.
Qed.

(** The bin [b] with [ng] groups is well-formed and holds the elements [l],
    in the order of their indices. *)
Definition bin_rep ng b l : Prop :=
  ∃ ec dc st, bin_ok Hash Eq ng ec dc st b ∧ l = live_list ec dc (els_bound b).

Lemma elem_of_live_list ec dc bound e :
  e ∈ live_list ec dc bound ↔ ∃ i, live_at ec dc bound i = Some e.
Proof.
  unfold live_list. rewrite list_elem_of_omap. split.
  - intros (i & _ & Hi). eauto.
  - intros (i & Hi). exists i. split; [|done]. apply elem_of_seqZ.
    apply live_at_Some in Hi as [? _]. lia.
Qed.

Lemma lookup_key_live ng ec dc st b el i e :
  bin_ok Hash Eq ng ec dc st b →
  live_at ec dc (els_bound b) i = Some e → Eq e el = true →
  lookup_key Eq el (live_list ec dc (els_bound b)) = Some e.
Proof.
  intros Hok He HE. unfold lookup_key. destruct (List.find _ _) as [e'|] eqn:F.
  - apply List.find_some in F as [Hin HE']. apply list_elem_of_In, elem_of_live_list in Hin.
    destruct Hin as [i' Hi'].
    assert (i = i') as <-; [|congruence].
    eapply (pi_nodup (bo_inv Hok)); [done..|].
    apply (key_trans (Hash := Hash) (Eq := Eq) _ el); [done|].
    by apply (key_sym (Hash := Hash) (Eq := Eq)).
  - eapply List.find_none in F; [|apply list_elem_of_In, elem_of_live_list; by exists i].
    congruence.
Qed.

Lemma lookup_key_none l el :
  lookup_key Eq el l = None ↔ ∀ e, e ∈ l → Eq e el = false.
Proof.
  unfold lookup_key. split.
  - intros F e He. eapply (List.find_none _ _ F). by apply list_elem_of_In.
  - intros Hno. destruct (List.find _ l) as [e|] eqn:F; [|done].
    apply List.find_some in F as [Hin HE]. rewrite Hno in HE; [done|].
    by apply list_elem_of_In.
Qed.

Lemma lookup_key_no ec dc bound el :
  (∀ i e, live_at ec dc bound i = Some e → Eq e el = false) →
  lookup_key Eq el (live_list ec dc bound) = None.
Proof. intros Hno. apply lookup_key_none. intros e (i & Hi)%elem_of_live_list. by eapply Hno. Qed.

Lemma omap_filter {A B} (f f' : A → option B) (P : B → Prop) `{∀ x, Decision (P x)} (l : list A) :
  (∀ x, x ∈ l → f' x = match f x with
    Some y => if decide (P y) then Some y else None | None => None end) →
  omap f' l = filter P (omap f l).
Proof.
  induction l as [|x l IH]; intros Hf; [done|].
  cbn [omap list_omap]. rewrite Hf, IH by (try intros; try apply Hf; set_solver).
  destruct (f x) as [y|]; [|done]. rewrite filter_cons. by case_decide.
Qed.

Lemma omap_ext_in {A B} (f f' : A → option B) (l : list A) :
  (∀ x, x ∈ l → f x = f' x) → omap f l = omap f' l.
Proof.
  induction l as [|x l IH]; intros Hf; [done|]. cbn.
  by rewrite Hf, IH by (try intros; try apply Hf; set_solver).
Qed.

(** ** Deletion *)

Lemma mark_deleted_Ok ng ec dc st b i :
  bin_ok Hash Eq ng ec dc st b → 0 ≤ i < 4 * ng →
  ∃ byte, cellv dc (i / 8) = Some byte ∧ 0 ≤ byte < 256 ∧ mark_deleted (deleted b) i =
    Ok (Live (<[Z.to_nat (i / 8) := Some (u8 (Z.lor byte (Z.shiftl 1 (i mod 8))))]> dc)).
Proof.
  intros Hok Hi. pose proof (bo_len_del Hok).
  assert (0 ≤ i / 8 < Z.of_nat (length dc)) as Hi8 by dlia.
  destruct (bo_del Hok (i / 8) Hi8) as (byte & Hbyte & Hr). exists byte.
  split; [done|]. split; [done|]. unfold mark_deleted. rewrite (bo_deleted Hok). apply arr_get_Ok in Hbyte as ->. step_ok.
  by apply arr_set_Ok.
Qed.

Lemma delete_ok ng ec dc st b g j t i e el d' s' :
  bin_ok Hash Eq ng ec dc st b → 0 ≤ g < ng → 0 ≤ j < 8 →
  st g j = SLive t i → live_at ec dc (els_bound b) i = Some e → Eq e el = true →
  mark_deleted (deleted b) i = Ok d' → slots_ok ng s' (upd st g j SDead) →
  ∃ dc', bin_ok Hash Eq ng ec dc' (upd st g j SDead)
    (mk_hbin (els_bound b) (els b) d' s' (groups_mask b)) ∧
  live_list ec dc' (els_bound b) = remove_key Eq el (live_list ec dc (els_bound b)).
Proof.
  intros Hok Hg Hj Hst He HE Hmark Hs'.
  pose proof (bo_inv Hok) as I.
  pose proof (proj1 (live_at_Some _ _ _ _ _) He) as (Hi & Hdead & Hc).
  destruct (mark_deleted_Ok _ _ _ _ _ i Hok) as (byte & Hbyte & Hr & E);
    [pose proof (bo_bound Hok); lia|].
  rewrite E in Hmark. injection Hmark as <-.
  set (dc' := <[_ := _]> dc). exists dc'.
  assert (∀ i', 0 ≤ i' → dead_bit dc' i' = if decide (i' = i) then true else dead_bit dc i')
    as Hdc by (intros; apply dead_bit_set; (done || lia)).
  assert (∀ i', updl (live_at ec dc (els_bound b)) i None i' = live_at ec dc' (els_bound b) i')
    as Hlive.
  { intros i'. unfold updl, live_at. destruct (decide (0 ≤ i' < els_bound b)).
    - rewrite Hdc by lia. by case_decide.
    - by case_decide. }
  split; [split; cbn; try apply Hok; try done|].
  - unfold dc'. rewrite length_insert. apply Hok.
  - intros k Hk. unfold dc' in Hk |- *. rewrite length_insert in Hk.
    rewrite cellv_insert by (by eapply cellv_range). case_decide.
    + eexists. split; [done|]. apply u8_dead_range.
    + by apply (bo_del Hok).
  - intros k Hk. rewrite Hdc by (pose proof (bo_bound Hok); lia).
    rewrite decide_False by lia. by apply (bo_fresh Hok).
  - eapply probe_inv_ext; [done|exact Hlive|by eapply (probe_inv_delete _ _ _ _ _ _ g j t i I)].
  - unfold live_list, remove_key. apply omap_filter. intros i' _. rewrite <-Hlive.
    unfold updl. case_decide as Ei; subst.
    + rewrite He. by rewrite decide_False by congruence.
    + destruct (live_at ec dc (els_bound b) i') as [e'|] eqn:E'; [|done].
      rewrite decide_True; [done|]. destruct (Eq e' el) eqn:HE'; [|done].
      exfalso. apply Ei. eapply (pi_nodup I); [done..|].
      apply (key_trans (Hash := Hash) (Eq := Eq) _ el); [done|].
      by apply (key_sym (Hash := Hash) (Eq := Eq)).
Qed.

(** ** Insertion *)

(** The bin once the new element has been written through [res]. *)
Lemma insert_ok ng ec dc st b el el' d j s' :
  bin_ok Hash Eq ng ec dc st b → els_bound b < 4 * ng → 0 ≤ d < ng → 0 ≤ j < 8 →
  (∀ t i, st (grp ng (Hash el) d) j ≠ SLive t i) →
  (∀ d', 0 ≤ d' < d → full st (grp ng (Hash el) d')) →
  (∀ i e, live_at ec dc (els_bound b) i = Some e → Eq e el = false) → Eq el' el = true →
  let st' := upd st (grp ng (Hash el) d) j (SLive (h7_of (Hash el)) (els_bound b)) in
  slots_ok ng s' st' →
  let ec' := <[Z.to_nat (els_bound b) := Some el']> ec in
  bin_ok Hash Eq ng ec' dc st'
    (mk_hbin (els_bound b + 1) (Live ec') (deleted b) s' (groups_mask b)) ∧
  live_list ec' dc (els_bound b + 1) = live_list ec dc (els_bound b) ++ [el'].
Proof.
  intros Hok Hbound Hd Hj Hst Hfull Hno HE st' Hs' ec'.
  pose proof (bo_inv Hok) as I.
  pose proof (bo_bound Hok) as Hb0.
  pose proof (bo_len_els Hok) as Hlen.
  assert (∀ k, cellv ec' k = if decide (k = els_bound b) then Some el' else cellv ec k) as Hec
    by (intros k; unfold ec'; apply cellv_insert; lia).
  assert (∀ i', updl (live_at ec dc (els_bound b)) (els_bound b) (Some el') i' =
    live_at ec' dc (els_bound b + 1) i') as Hlive.
  { intros i'. unfold updl, live_at. case_decide as E; subst.
    - rewrite decide_True, (bo_fresh Hok), Hec, decide_True by lia. done.
    - destruct (decide (0 ≤ i' < els_bound b)).
      + by rewrite decide_True, Hec, decide_False by lia.
      + by rewrite decide_False by lia. }
  split; [split; cbn; try apply Hok; try done; try lia|].
  - unfold ec'. by rewrite length_insert.
  - intros k Hk. rewrite Hec. case_decide; [by eauto|].
    apply (bo_init Hok). lia.
  - intros k Hk. apply (bo_fresh Hok). lia.
  - eapply probe_inv_ext; [done|exact Hlive|].
    by apply (probe_inv_insert _ _ _ _ _ _ el el' d j I).
  - unfold live_list. rewrite seqZ_snoc, omap_app by lia. f_equal.
    + apply omap_ext_in. intros k Hk%elem_of_seqZ. rewrite <-Hlive. unfold updl.
      by rewrite decide_False by lia.
    + cbn [omap list_omap]. rewrite <-Hlive. unfold updl. by rewrite decide_True by lia.
Qed.

(** ** Overwriting *)

Lemma omap_fmap_ext {A B} (f f' : A → option B) (h : B → B) (l : list A) :
  (∀ x, x ∈ l → f' x = h <$> f x) → omap f' l = h <$> omap f l.
Proof.
  induction l as [|x l IH]; intros Hf; [done|].
  cbn [omap list_omap]. rewrite Hf, IH by (try intros; try apply Hf; set_solver).
  by destruct (f x).
Qed.

Lemma replace_ok ng ec dc st b i e el :
  bin_ok Hash Eq ng ec dc st b → live_at ec dc (els_bound b) i = Some e → Eq e el = true →
  let ec' := <[Z.to_nat i := Some el]> ec in
  bin_ok Hash Eq ng ec' dc st
    (mk_hbin (els_bound b) (Live ec') (deleted b) (groups b) (groups_mask b)) ∧
  live_list ec' dc (els_bound b) = replace_key Eq el (live_list ec dc (els_bound b)).
Proof.
  intros Hok He HE ec'. pose proof (bo_inv Hok) as I.
  pose proof (proj1 (live_at_Some _ _ _ _ _) He) as (Hi & Hdead & Hc).
  assert (∀ k, cellv ec' k = if decide (k = i) then Some el else cellv ec k) as Hec
    by (intros k; apply cellv_insert; by eapply cellv_range).
  assert (∀ i', updl (live_at ec dc (els_bound b)) i (Some el) i' =
    live_at ec' dc (els_bound b) i') as Hlive.
  { intros i'. unfold updl, live_at. rewrite Hec. case_decide as E; subst; [|done].
    by rewrite decide_True, Hdead. }
  split; [split; cbn; try apply Hok; try done|].
  - unfold ec'. rewrite length_insert. apply Hok.
  - intros k Hk. rewrite Hec. case_decide; [by eauto|]. by apply (bo_init Hok).
  - eapply probe_inv_ext; [done|exact Hlive|].
    eapply (probe_inv_replace _ _ _ _ _ _ i e el I); [done|].
    by apply (key_sym (Hash := Hash)).
  - unfold live_list, replace_key. apply omap_fmap_ext. intros i' _. rewrite <-Hlive.
    unfold updl. case_decide as Ei; subst; [by rewrite He; cbn; rewrite HE|].
    destruct (live_at ec dc (els_bound b) i') as [e'|] eqn:E'; [|done]. cbn.
    destruct (Eq e' el) eqn:HE'; [|done]. exfalso. apply Ei.
    eapply (pi_nodup I); [done..|].
    apply (key_trans (Hash := Hash) (Eq := Eq) _ el); [done|].
    by apply (key_sym (Hash := Hash) (Eq := Eq)).
Qed.

(** ** [bin_do_1] by action *)

(** An equal element is in the bin: FIND and INSERT return its address, and
    an element with that key can be written there. *)
Lemma do_1_present ng b l el e n act :
  bin_rep ng b l → lookup_key Eq el l = Some e → act ≠ DELETE →
  (act = INSERT → els_bound b < 256 ^ Z.of_nat ind_bytes - 1) →
  ∃ i, bin_do_1 Eq n b (Hash el) el act = Ok (true, Some i, n, b) ∧
    arr_get (els b) i = Ok e ∧
    ∃ b', store_el b i el = Ok b' ∧ bin_rep ng b' (replace_key Eq el l) ∧
      els_bound b' = els_bound b ∧ groups_mask b' = groups_mask b.
Proof.
  intros (ec & dc & st & Hok & ->) Hl Hact Hlim.
  pose proof (bin_do_1_ok Hash Eq ng ec dc st b el n act Hok Hlim) as Hspec.
  destruct Hspec as [act i e' He' HE| |act Hno _|d j s' Hno]; [|done|..].
  - rewrite (lookup_key_live _ _ _ _ _ _ _ _ Hok He' HE) in Hl. injection Hl as <-.
    destruct (replace_ok _ _ _ _ _ _ _ _ Hok He' HE) as [Hok' Hlist].
    pose proof (proj1 (live_at_Some _ _ _ _ _) He') as (Hi & _ & Hc).
    exists i. split; [done|]. unfold store_el.
    rewrite (bo_els Hok), arr_set_Ok by (by eapply cellv_range).
    step_ok. split; [by apply arr_get_Ok|]. eexists. split; [done|]. split; [|done].
    eexists _, _, _. split; [exact Hok'|]. by symmetry.
  - exfalso. by rewrite (lookup_key_no _ _ _ _ Hno) in Hl.
  - exfalso. by rewrite (lookup_key_no _ _ _ _ Hno) in Hl.
Qed.

(** No equal element is in the bin: FIND and DELETE change nothing. *)
Lemma do_1_missing ng b l el n act :
  bin_rep ng b l → lookup_key Eq el l = None → act ≠ INSERT →
  bin_do_1 Eq n b (Hash el) el act = Ok (false, None, n, b).
Proof.
  intros (ec & dc & st & Hok & ->) Hl Hact.
  pose proof (bin_do_1_ok Hash Eq ng ec dc st b el n act Hok ltac:(done)) as Hspec.
  destruct Hspec as [act i e He HE|g j t i e d' s' _ _ _ He HE| |]; [..|done|done];
    by rewrite (lookup_key_live _ _ _ _ _ _ _ _ Hok He HE) in Hl.
Qed.

(** DELETE of a present element removes it and nothing else. *)
Lemma do_1_delete ng b l el e n :
  bin_rep ng b l → lookup_key Eq el l = Some e →
  ∃ b', bin_do_1 Eq n b (Hash el) el DELETE = Ok (true, None, size_wrap (n - 1), b') ∧
    bin_rep ng b' (remove_key Eq el l) ∧ els_bound b' = els_bound b ∧ els b' = els b.
Proof.
  intros (ec & dc & st & Hok & ->) Hl.
  pose proof (bin_do_1_ok Hash Eq ng ec dc st b el n DELETE Hok ltac:(done)) as Hspec.
  inversion Hspec as [| |act Hno|]; subst; [done| |by rewrite (lookup_key_no _ _ _ _ Hno) in Hl].
  destruct (delete_ok ng ec dc st b g j t i e0 el d' s') as (dc' & Hok' & Hlist); [done..|].
  eexists. split; [done|]. split; [|done]. exists ec, dc'. eexists. by split.
Qed.

(** INSERT of a new element reserves the next index; once an element with
    that key is written there, the bin holds it last. *)
Lemma do_1_insert ng b l el n :
  bin_rep ng b l → lookup_key Eq el l = None → els_bound b < 4 * ng →
  els_bound b < 256 ^ Z.of_nat ind_bytes - 1 →
  ∃ b', bin_do_1 Eq n b (Hash el) el INSERT =
      Ok (false, Some (els_bound b), size_wrap (n + 1), b') ∧
    els_bound b' = els_bound b + 1 ∧
    ∀ el', Eq el' el = true →
      ∃ b'', store_el b' (els_bound b) el' = Ok b'' ∧ bin_rep ng b'' (l ++ [el']) ∧
        els_bound b'' = els_bound b + 1 ∧ groups_mask b'' = groups_mask b.
Proof.
  intros (ec & dc & st & Hok & ->) Hl Hbound Hlim.
  pose proof (bin_do_1_ok Hash Eq ng ec dc st b el n INSERT Hok ltac:(done)) as Hspec.
  inversion Hspec as [act i e He HE| | |d j s' Hno Hd Hj Hfree Hfull Hs']; subst; [|done|].
  { by rewrite (lookup_key_live _ _ _ _ _ _ _ _ Hok He HE) in Hl. }
  eexists. split; [done|]. split; [done|]. intros el' HE.
  destruct (insert_ok ng ec dc st b el el' d j s') as [Hok' Hlist]; [done..|].
  pose proof (bo_bound Hok).
  unfold store_el. cbn [els els_bound deleted groups groups_mask].
  rewrite (bo_els Hok), arr_set_Ok by (rewrite (bo_len_els Hok); lia). step_ok.
  eexists. split; [done|]. split; [|done]. eexists _, _, _. split; [exact Hok'|]. by symmetry.
Qed.

(** ** Distinct keys *)

Lemma length_remove_key l el e :
  (∀ (i i' : nat) a a', l !! i = Some a → l !! i' = Some a' → Eq a a' = true → i = i') →
  lookup_key Eq el l = Some e →
  S (length (remove_key Eq el l)) = length l.
Proof.
  unfold lookup_key, remove_key. induction l as [|a l IH]; intros Hnd Hl; [done|].
  rewrite filter_cons. cbn in Hl. destruct (Eq a el) eqn:HE.
  - injection Hl as ->. rewrite decide_False by done. cbn. f_equal.
    rewrite filter_all_in; [done|]. intros x Hx%list_elem_of_lookup. destruct Hx as [n Hn].
    destruct (Eq x el) eqn:HE'; [|done]. exfalso.
    enough (O = S n) by done. apply (Hnd O (S n) e x); [done..|].
    apply (key_trans (Hash := Hash) (Eq := Eq) _ el); [done|].
    by apply (key_sym (Hash := Hash)).
  - rewrite decide_True by done. cbn. f_equal. apply IH; [|done].
    intros i i' x x' Hx Hx' HEx. enough (S i = S i') by lia. by eapply Hnd.
Qed.

(** The elements of a bin have pairwise different keys. *)
Lemma live_list_nodup ng b l (i i' : nat) a a' :
  bin_rep ng b l → l !! i = Some a → l !! i' = Some a' → Eq a a' = true → i = i'.
Proof.
  intros (ec & dc & st & Hok & ->). unfold live_list.
  pose proof (pi_nodup (bo_inv Hok)) as Hnd.
  pose proof (NoDup_seqZ 0 (els_bound b)) as Hs. revert i i'.
  induction Hs as [|k ks Hk _ IH]; intros i i'; [done|]. cbn.
  destruct (live_at ec dc (els_bound b) k) as [e|] eqn:Ek; [|by apply IH].
  assert (∀ n x, omap (live_at ec dc (els_bound b)) ks !! n = Some x →
    Eq e x = true ∨ Eq x e = true → False) as Hcons.
  { intros n x Hn HE. apply list_elem_of_lookup_2, list_elem_of_omap in Hn as (k' & Hk' & Hx).
    assert (k = k'); [|congruence]. destruct HE; [by eapply Hnd|symmetry; by eapply Hnd]. }
  destruct i as [|i], i' as [|i']; cbn; intros Ha Ha' HE; simplify_eq; [done| | |].
  - exfalso. by eapply Hcons; [|left].
  - exfalso. by eapply Hcons; [|right].
  - f_equal. by eapply IH.
Qed.

End outcomes.

(** * Fresh bins *)

Section fresh.
Context {C : BinConfig} {K : SlotStore} {V : SlotView K}.
Context {El : Type} (Hash : El → Z) (Eq : El → El → bool).
Implicit Types (b : hbin slots El) (ng g j i : Z).
Implicit Types (ec : list (option El)) (dc : list (option Z)) (st : Z → Z → slot).

(** A bin with all slots empty and a zeroed bitmap holds no elements. *)
Lemma bin_ok_init ng k ec s :
  ng = 2 ^ k → 0 ≤ k → ng ≤ max_groups →
  Z.of_nat (length ec) = 4 * ng → slots_ok ng s (λ _ _, SEmpty) →
  bin_ok Hash Eq ng ec (replicate (Z.to_nat ((4 * ng + 7) / 8)) (Some 0)) (λ _ _, SEmpty)
    (mk_hbin 0 (Live ec) (calloc 0 ((4 * ng + 7) / 8)) s (ng - 1)).
Proof.
  intros Ek Hk Hmax Hec Hs.
  assert (0 < ng) by (rewrite Ek; by apply Z.pow_pos_nonneg).
  split; cbn [els deleted groups els_bound groups_mask]; try done; try lia.
  - by exists k.
  - rewrite length_replicate. dlia.
  - intros i Hi. rewrite length_replicate in Hi. exists 0. split; [|done].
    apply cellv_calloc. lia.
  - intros i Hi. unfold dead_bit. rewrite cellv_calloc by dlia. apply Z.testbit_0_l.
  - apply probe_inv_init; [done|done|].
    intros i. unfold live_at. by rewrite decide_False by lia.
Qed.

Lemma is_deleted_Ok ng ec dc st b i :
  bin_ok Hash Eq ng ec dc st b → 0 ≤ i < 4 * ng → is_deleted b i = Ok (dead_bit dc i).
Proof.
  intros Hok Hi. unfold is_deleted, dead_bit. rewrite (bo_deleted Hok).
  pose proof (bo_len_del Hok).
  destruct (bo_del Hok (i / 8)) as (byte & Hb & _); [dlia|].
  rewrite Hb. apply arr_get_Ok in Hb as ->. step_ok. rewrite land_bit_zero by dlia.
  by rewrite negb_involutive.
Qed.

Lemma length_live_list ec dc bound :
  0 ≤ bound → Z.of_nat (length (live_list ec dc bound)) ≤ bound.
Proof.
  intros. unfold live_list.
  pose proof (length_omap_le (live_at ec dc bound) (seqZ 0 bound)). rewrite length_seqZ in *. lia.
Qed.

(** The elements of a bin with an index of at least [i]. *)
Definition live_from (ec : list (option El)) dc (bound i : Z) : list El :=
  omap (live_at ec dc bound) (seqZ i (bound - i)).

Lemma live_from_step ec dc bound i :
  0 ≤ i < bound → live_from ec dc bound i =
    match live_at ec dc bound i with
    | Some e => e :: live_from ec dc bound (i + 1)
    | None => live_from ec dc bound (i + 1)
    end.
Proof.
  intros Hi. unfold live_from. rewrite seqZ_cons by lia. cbn [omap list_omap].
  replace (Z.pred (bound - i)) with (bound - (i + 1)) by lia. by rewrite <-Z.add_1_r.
Qed.
End fresh.
