(* ===== verification/Core.v ===== *)
(** The slots of ihtab.h and ixhtab.h: groups of eight tags followed by eight
    indices in one block of memory, the mark DELETED for a slot whose element
    was deleted, and the probe loop [do_1] over them.  The two headers differ
    in the width of the indices and of the size type, the parameters of
    [BinConfig].

    The second half relates this memory to the abstract slots of [Probe] and
    shows that it meets the laws of a slot store. *)

From S2P Require Import Prelude Bits Groups Probe Spec Store.

(** * Model *)

Definition GROUP_BYTES {C : BinConfig} : Z := GROUP_SIZE * (1 + Z.of_nat ind_bytes).

Section model.
Context {C : BinConfig} {G : GroupOps}.

(** [&group_indexes[bit]] *)
Definition index_addr (group_base bit : Z) : Z :=
  group_base + GROUP_SIZE + Z.of_nat ind_bytes * bit.

(** The loop that marks the slots of all groups empty. *)
Definition clear_groups (a : arr Z) (num_groups : Z) : res (arr Z) :=
  for_res 0 num_groups
    (λ i a, arr_memset a (u64 (i * GROUP_BYTES)) IHT_EMPTY_H7 GROUP_SIZE) a.

Definition groups_alloc (indexes_size : Z) : res (arr Z) :=
  let num_groups := indexes_size / GROUP_SIZE in
  clear_groups (malloc (u64 (num_groups * GROUP_BYTES))) num_groups.

Definition groups_realloc (a : arr Z) (indexes_size : Z) : res (arr Z) :=
  let num_groups := indexes_size / GROUP_SIZE in
  a' ← arr_realloc a (u64 (num_groups * GROUP_BYTES));
  clear_groups a' num_groups.

Definition groups_clear (a : arr Z) (groups_mask : Z) : res (arr Z) :=
  clear_groups a (size_wrap (groups_mask + 1)).

Context {El : Type} (Eq : El → El → bool).
Implicit Types (b : hbin (arr Z) El) (el : El).

(** [while (mmask) { ... mmask &= mmask - 1; }]: the slot and the element
    index of the first element equal to [el] among the slots of the mask.
    A 64-bit mask has at most 64 set bits. *)
Fixpoint match_loop (fuel : nat) b (group_base : Z) el (mmask : Z) : res (option (Z * Z)) :=
  match fuel with
  | O => Timeout
  | S fuel =>
      if mmask =? 0 then Ok None
      else
        let bit := mask_pos (ctzll mmask) in
        el_ind ← load_int target (groups b) (index_addr group_base bit) ind_bytes;
        e ← arr_get (els b) el_ind;
        if Eq e el then Ok (Some (bit, el_ind))
        else match_loop fuel b group_base el (Z.land mmask (mmask - 1))
  end.

(** An equal element was found in slot [bit] of the group. *)
Definition do_found (els_num : Z) b (group_base bit el_ind : Z) (act : action) :
    res (do_result (arr Z) El) :=
  if negb (action_code act =? action_code DELETE) then
    Ok (true, Some el_ind, els_num, b)
  else
    deleted' ← mark_deleted (deleted b) el_ind;
    groups' ← arr_set (groups b) (group_base + bit) IHT_DELETED_H7;
    Ok (true, None, size_wrap (els_num - 1),
        mk_hbin (els_bound b) (els b) deleted' groups' (groups_mask b)).

(** The group has an empty slot and no equal element was found. *)
Definition do_absent (els_num : Z) b (group_base emask h7_val : Z) (act : action) :
    res (do_result (arr Z) El) :=
  if action_code INSERT <=? action_code act then
    let bit := mask_pos (ctzll emask) in
    groups1 ← arr_set (groups b) (group_base + bit) h7_val;
    groups2 ← store_int target groups1 (index_addr group_base bit) ind_bytes
                (ind_wrap (els_bound b));
    Ok (false, Some (els_bound b), size_wrap (els_num + 1),
        mk_hbin (size_wrap (els_bound b + 1)) (els b) (deleted b) groups2 (groups_mask b))
  else Ok (false, None, els_num, b).

(** [for (;;) { ... group_ind = (group_ind + 1) & groups_mask; }] *)
Fixpoint probe_loop (fuel : nat) (els_num : Z) b el (act : action) (h7_val group_ind : Z) :
    res (do_result (arr Z) El) :=
  match fuel with
  | O => Timeout
  | S fuel =>
      let group_base := u64 (group_ind * GROUP_BYTES) in
      group ← iht_group_load (groups b) group_base;
      m ← match_loop 65 b group_base el (match_mask group h7_val);
      match m with
      | Some (bit, el_ind) => do_found els_num b group_base bit el_ind act
      | None =>
          let emask := match_empty group in
          if negb (emask =? 0) then do_absent els_num b group_base emask h7_val act
          else probe_loop fuel els_num b el act h7_val
                 (Z.land (size_wrap (group_ind + 1)) (groups_mask b))
      end
  end.

(** One iteration per group is enough: the loop returns in the first round
    over the groups or never. *)
Definition probe_fuel b : nat := Z.to_nat (groups_mask b + 1).

Definition do_1 (els_num : Z) b (hash : Z) el (act : action) :
    res (do_result (arr Z) El) :=
  let h7_val := Z.land (Z.shiftr hash 57) 0x7f in
  let group_ind := Z.land (size_wrap (hash / GROUP_SIZE)) (groups_mask b) in
  probe_loop (probe_fuel b) els_num b el act h7_val group_ind.

End model.

(** The slot store of ihtab.h and ixhtab.h. *)
Definition packed {C : BinConfig} (G : GroupOps) : SlotStore :=
  {| slots := arr Z; slots_alloc := groups_alloc; slots_realloc := groups_realloc;
     slots_clear := groups_clear; slots_free := arr_free; bin_do_1 := @do_1 C G |}.

(** * The abstract slots *)

Section view.
Context {C : BinConfig} {G : GroupOps}.
Implicit Types (ng g j t i : Z) (gc : list (option Z)).

Definition tag_at gc g j : option Z := cellv gc (g * GROUP_BYTES + j).
Definition index_at gc g j : option Z :=
  int_at target gc (index_addr (g * GROUP_BYTES) j) ind_bytes.

(** The abstract slot that the bytes of a group encode. *)
Definition slot_at gc g j : slot :=
  match tag_at gc g j with
  | None => SEmpty
  | Some t =>
      if decide (t = IHT_EMPTY_H7) then SEmpty
      else if decide (t = IHT_DELETED_H7) then SDead
      else match index_at gc g j with Some i => SLive t i | None => SDead end
  end.

Record groups_ok ng gc : Prop := {
  go_len : Z.of_nat (length gc) = ng * GROUP_BYTES;
  go_tag g j : 0 ≤ g < ng → 0 ≤ j < 8 → ∃ t, tag_at gc g j = Some t ∧ valid_tag t;
  go_index g j t :
    0 ≤ g < ng → 0 ≤ j < 8 → tag_at gc g j = Some t → 0 ≤ t < 0x80 →
    ∃ i, index_at gc g j = Some i
}.

End view.
Arguments go_len {C G ng gc} _.
Arguments go_tag {C G ng gc} _.
Arguments go_index {C G ng gc} _.

(** The bytes of the groups encode the slots [st]. *)
#[export] Instance packed_view {C : BinConfig} (G : GroupOps) : SlotView (packed G) :=
  Build_SlotView (packed G)
    (λ ng (s : arr Z) st, ∃ gc, s = Live gc ∧ groups_ok ng gc ∧
       ∀ g j, 0 ≤ g < ng → 0 ≤ j < 8 → slot_at gc g j = st g j)
    (λ s : arr Z, s = Freed).

Section views.
Context {C : BinConfig} {G : GroupOps} `{!ConfigLaws C}.
Implicit Types (ng g j t i : Z) (gc dc : list (option Z)).

Lemma GROUP_BYTES_pos : 8 < GROUP_BYTES.
Proof. unfold GROUP_BYTES, GROUP_SIZE. pose proof ind_bytes_pos. lia. Qed.

Lemma group_base_small ng g :
  0 ≤ g < ng → ng ≤ max_groups → u64 (g * GROUP_BYTES) = g * GROUP_BYTES.
Proof.
  intros Hg Hmax. unfold u64. apply Z.mod_small.
  pose proof groups_fit. pose proof GROUP_BYTES_pos as Hp. unfold max_groups in Hmax.
  set (X := 256 ^ Z.of_nat ind_bytes) in *.
  assert (4 * ng ≤ X) by (Z.div_mod_to_equations; lia).
  split; [nia|]. unfold GROUP_BYTES, GROUP_SIZE in *. nia.
Qed.

(** Addresses of different slots do not overlap. *)
Lemma addr_ranges ng g j :
  0 ≤ g < ng → 0 ≤ j < 8 →
  0 ≤ g * GROUP_BYTES + j < ng * GROUP_BYTES ∧
  0 ≤ index_addr (g * GROUP_BYTES) j ∧
  index_addr (g * GROUP_BYTES) j + Z.of_nat ind_bytes ≤ ng * GROUP_BYTES.
Proof.
  intros Hg Hj. pose proof ind_bytes_pos.
  unfold index_addr, GROUP_BYTES, GROUP_SIZE. nia.
Qed.

Lemma tag_tag_disjoint g j g' j' :
  0 ≤ g → 0 ≤ g' → 0 ≤ j < 8 → 0 ≤ j' < 8 →
  g * GROUP_BYTES + j = g' * GROUP_BYTES + j' → g = g' ∧ j = j'.
Proof. pose proof GROUP_BYTES_pos. intros. assert (g = g') by nia. lia. Qed.

Lemma tag_index_disjoint g j g' j' k :
  0 ≤ g → 0 ≤ g' → 0 ≤ j < 8 → 0 ≤ j' < 8 →
  0 ≤ k < Z.of_nat ind_bytes →
  g * GROUP_BYTES + j ≠ index_addr (g' * GROUP_BYTES) j' + k.
Proof.
  intros ????? E. unfold index_addr, GROUP_BYTES, GROUP_SIZE in E.
  set (w := Z.of_nat ind_bytes) in *.
  assert (g = g') by nia. subst. nia.
Qed.

Lemma index_index_disjoint g j g' j' k k' :
  0 ≤ g → 0 ≤ g' → 0 ≤ j < 8 → 0 ≤ j' < 8 →
  0 ≤ k < Z.of_nat ind_bytes → 0 ≤ k' < Z.of_nat ind_bytes →
  index_addr (g * GROUP_BYTES) j + k = index_addr (g' * GROUP_BYTES) j' + k' →
  g = g' ∧ j = j'.
Proof.
  intros ?????? E. unfold index_addr, GROUP_BYTES, GROUP_SIZE in E.
  set (w := Z.of_nat ind_bytes) in *.
  assert (g = g') by nia. subst. split; [done|]. nia.
Qed.

(** ** Writing a tag *)

Lemma tag_at_set_tag ng gc g j t g' j' :
  Z.of_nat (length gc) = ng * GROUP_BYTES →
  0 ≤ g < ng → 0 ≤ j < 8 → 0 ≤ g' < ng → 0 ≤ j' < 8 →
  tag_at (<[Z.to_nat (g * GROUP_BYTES + j) := Some t]> gc) g' j' =
  if decide (g' = g ∧ j' = j) then Some t else tag_at gc g' j'.
Proof.
  intros Hlen ????. destruct (addr_ranges ng g j) as [? _]; [done..|].
  unfold tag_at. rewrite cellv_insert by lia.
  destruct (decide (g' = g ∧ j' = j)) as [[-> ->]|Hne]; [by rewrite decide_True|].
  rewrite decide_False; [done|]. intros E%tag_tag_disjoint; lia.
Qed.

Lemma index_at_set_tag ng gc g j t g' j' :
  Z.of_nat (length gc) = ng * GROUP_BYTES →
  0 ≤ g < ng → 0 ≤ j < 8 → 0 ≤ g' < ng → 0 ≤ j' < 8 →
  index_at (<[Z.to_nat (g * GROUP_BYTES + j) := Some t]> gc) g' j' = index_at gc g' j'.
Proof.
  intros Hlen ????. destruct (addr_ranges ng g j) as [? _]; [done..|].
  unfold index_at. apply int_at_frame. intros k Hk. rewrite cellv_insert by lia.
  rewrite decide_False; [done|]. intros ->.
  apply (tag_index_disjoint g j g' j'
    (g * GROUP_BYTES + j - index_addr (g' * GROUP_BYTES) j')); lia.
Qed.

(** ** Writing an index *)

Lemma store_index ng gc g j v :
  Z.of_nat (length gc) = ng * GROUP_BYTES → 0 ≤ g < ng → 0 ≤ j < 8 →
  0 ≤ v < 256 ^ Z.of_nat ind_bytes →
  ∃ gc', store_int target (Live gc) (index_addr (g * GROUP_BYTES) j) ind_bytes v =
      Ok (Live gc') ∧
    length gc' = length gc ∧
    (∀ g' j', 0 ≤ g' < ng → 0 ≤ j' < 8 → tag_at gc' g' j' = tag_at gc g' j') ∧
    (∀ g' j', 0 ≤ g' < ng → 0 ≤ j' < 8 →
      index_at gc' g' j' = if decide (g' = g ∧ j' = j) then Some v else index_at gc g' j').
Proof.
  intros Hlen Hg Hj Hv. destruct (addr_ranges ng g j) as (_ & ? & ?); [done..|].
  edestruct (store_int_Ok target gc) as (gc' & E & Hlen' & Hv' & Hframe);
    [done| |exact Hv|]; [lia|].
  exists gc'. split_and!; [done..| |].
  - intros g' j' Hg' Hj'. unfold tag_at. apply Hframe. intros [??].
    apply (tag_index_disjoint g' j' g j
      (g' * GROUP_BYTES + j' - index_addr (g * GROUP_BYTES) j)); lia.
  - intros g' j' Hg' Hj'. case_decide as E'; [by destruct E' as [-> ->]|].
    unfold index_at. apply int_at_frame. intros k Hk. apply Hframe. intros [??].
    apply E'. apply (index_index_disjoint g' j' g j (k - index_addr (g' * GROUP_BYTES) j')
      (k - index_addr (g * GROUP_BYTES) j)); lia.
Qed.

(** ** Loading a group *)

Lemma group_load_Ok ng gc g :
  groups_ok ng gc → 0 ≤ g < ng →
  ∃ tags, iht_group_load (Live gc) (g * GROUP_BYTES) = Ok (group_of_tags tags) ∧
    length tags = 8%nat ∧ Forall valid_tag tags ∧
    ∀ j, 0 ≤ j < 8 → zlookup tags j = tag_at gc g j.
Proof.
  intros Hok Hg. destruct (cells_at_exists gc (g * GROUP_BYTES) 8) as [tags Htags].
  { intros k Hk. destruct (go_tag Hok g k) as (t & Ht & _); [lia..|]. eauto. }
  assert (∀ j, 0 ≤ j < 8 → zlookup tags j = tag_at gc g j) as Hz.
  { intros j Hj. unfold tag_at. symmetry. apply (cells_at_Some _ _ _ _ _ Htags). lia. }
  pose proof (length_cells_at _ _ _ _ Htags) as Hlen.
  exists tags. split_and!; [|done| |done].
  - unfold iht_group_load, group_of_tags.
    rewrite (load_int_Ok _ _ _ _ (int_of_bytes target tags)); [done|].
    unfold int_at. by rewrite Htags.
  - apply Forall_lookup. intros k t Hk. pose proof (lookup_lt_Some _ _ _ Hk).
    destruct (go_tag Hok g (Z.of_nat k)) as (t' & Ht & Hv); [lia..|].
    rewrite <-Hz in Ht by lia. apply zlookup_Some in Ht as [_ Ht].
    rewrite Nat2Z.id in Ht. by simplify_eq.
Qed.

(** ** Slots *)

Lemma slot_at_live gc g j t i :
  slot_at gc g j = SLive t i →
  tag_at gc g j = Some t ∧ index_at gc g j = Some i ∧ t ≠ IHT_EMPTY_H7 ∧ t ≠ IHT_DELETED_H7.
Proof. unfold slot_at. repeat case_match; naive_solver. Qed.

Lemma slot_at_tag ng gc g j t :
  groups_ok ng gc → 0 ≤ g < ng → 0 ≤ j < 8 → tag_at gc g j = Some t → 0 ≤ t < 0x80 →
  ∃ i, slot_at gc g j = SLive t i.
Proof.
  intros Hok Hg Hj Ht Hr. destruct (go_index Hok g j t) as [i Hi]; [done..|].
  exists i. unfold slot_at. rewrite Ht, Hi.
  rewrite !decide_False by (unfold IHT_EMPTY_H7, IHT_DELETED_H7; lia). done.
Qed.

Lemma slot_at_empty ng gc g j :
  groups_ok ng gc → 0 ≤ g < ng → 0 ≤ j < 8 →
  slot_at gc g j = SEmpty ↔ tag_at gc g j = Some IHT_EMPTY_H7.
Proof.
  intros Hok Hg Hj. unfold slot_at.
  destruct (go_tag Hok g j) as (t & -> & _); [done..|].
  repeat case_match; naive_solver.
Qed.

Lemma delete_slot ng gc g j :
  groups_ok ng gc → 0 ≤ g < ng → 0 ≤ j < 8 →
  let gc' := <[Z.to_nat (g * GROUP_BYTES + j) := Some IHT_DELETED_H7]> gc in
  groups_ok ng gc' ∧
  ∀ g' j', 0 ≤ g' < ng → 0 ≤ j' < 8 →
    slot_at gc' g' j' = upd (slot_at gc) g j SDead g' j'.
Proof.
  intros Hok Hg Hj gc'. pose proof (go_len Hok) as Hlen. split.
  - split.
    + unfold gc'. by rewrite length_insert.
    + intros g' j' Hg' Hj'. unfold gc'. rewrite (tag_at_set_tag ng) by done. case_decide.
      * eexists. split; [done|]. by right; left.
      * by apply (go_tag Hok).
    + intros g' j' t Hg' Hj'. unfold gc'.
      rewrite (tag_at_set_tag ng), (index_at_set_tag ng) by done. case_decide.
      * intros [= <-] [_ ?]. done.
      * by apply (go_index Hok).
  - intros g' j' Hg' Hj'. unfold slot_at at 1, gc', upd.
    rewrite (tag_at_set_tag ng), (index_at_set_tag ng) by done. by case_decide.
Qed.

Lemma insert_slot ng gc g j h7 v :
  groups_ok ng gc → 0 ≤ g < ng → 0 ≤ j < 8 → 0 ≤ h7 < 0x80 →
  0 ≤ v < 256 ^ Z.of_nat ind_bytes →
  ∃ gc1 gc', arr_set (Live gc) (g * GROUP_BYTES + j) h7 = Ok (Live gc1) ∧
    store_int target (Live gc1) (index_addr (g * GROUP_BYTES) j) ind_bytes v = Ok (Live gc') ∧
    groups_ok ng gc' ∧
    ∀ g' j', 0 ≤ g' < ng → 0 ≤ j' < 8 →
      slot_at gc' g' j' = upd (slot_at gc) g j (SLive h7 v) g' j'.
Proof.
  intros Hok Hg Hj Hh Hv. pose proof (go_len Hok) as Hlen.
  destruct (addr_ranges ng g j) as (Ha & _); [done..|].
  rewrite arr_set_Ok by lia. set (gc1 := <[_ := Some h7]> gc).
  assert (length gc1 = length gc) as Hlen1 by apply length_insert.
  destruct (store_index ng gc1 g j v) as (gc' & E & Hlen' & Htag & Hidx);
    [by rewrite Hlen1|done..|].
  exists gc1, gc'. split; [done|]. split; [done|].
  assert (∀ g' j', 0 ≤ g' < ng → 0 ≤ j' < 8 → tag_at gc' g' j' =
    if decide (g' = g ∧ j' = j) then Some h7 else tag_at gc g' j') as Htag'.
  { intros g' j' Hg' Hj'. rewrite Htag by done. by apply (tag_at_set_tag ng). }
  assert (∀ g' j', 0 ≤ g' < ng → 0 ≤ j' < 8 → index_at gc' g' j' =
    if decide (g' = g ∧ j' = j) then Some v else index_at gc g' j') as Hidx'.
  { intros g' j' Hg' Hj'. rewrite Hidx by done. case_decide; [done|].
    by apply (index_at_set_tag ng). }
  split; [split|].
  - by rewrite Hlen', Hlen1.
  - intros g' j' Hg' Hj'. rewrite Htag' by done. case_decide.
    + eexists. split; [done|]. by left.
    + by apply (go_tag Hok).
  - intros g' j' t Hg' Hj'. rewrite Htag', Hidx' by done. case_decide; [by eauto|].
    by apply (go_index Hok).
  - intros g' j' Hg' Hj'. unfold slot_at at 1, upd. rewrite Htag', Hidx' by done.
    case_decide; [|done].
    by rewrite !decide_False by (unfold IHT_EMPTY_H7, IHT_DELETED_H7; lia).
Qed.

End views.

(** * The probe loop on a well-formed bin *)

Section search.
Context {C : BinConfig} {G : GroupOps} `{!ConfigLaws C} `{!GroupLaws G}.
Context {El : Type} (Hash : El → Z) (Eq : El → El → bool) `{!KeyLaws Hash Eq}.
Implicit Types (b : hbin (arr Z) El) (el e : El) (ng g j t i : Z).
Implicit Types (ec : list (option El)) (dc gc : list (option Z)).

(** A bin whose groups have the bytes [gc]. *)
Record packed_ok ng ec dc gc b : Prop := {
  po_bin : bin_ok (K := packed G) Hash Eq ng ec dc (slot_at gc) b;
  po_groups : groups b = Live gc;
  po_gok : groups_ok ng gc
}.
Arguments po_bin {ng ec dc gc b} _.
Arguments po_groups {ng ec dc gc b} _.
Arguments po_gok {ng ec dc gc b} _.

Lemma po_els ng ec dc gc b : packed_ok ng ec dc gc b → els b = Live ec.
Proof. intros Hok. exact (bo_els (po_bin Hok)). Qed.
Lemma po_mask ng ec dc gc b : packed_ok ng ec dc gc b → groups_mask b = ng - 1.
Proof. intros Hok. exact (bo_mask (po_bin Hok)). Qed.
Lemma po_bound ng ec dc gc b : packed_ok ng ec dc gc b → 0 ≤ els_bound b ≤ 4 * ng.
Proof. intros Hok. exact (bo_bound (po_bin Hok)). Qed.
Lemma po_inv ng ec dc gc b :
  packed_ok ng ec dc gc b →
  probe_inv Hash Eq ng (slot_at gc) (live_at ec dc (els_bound b)) (els_bound b).
Proof. intros Hok. exact (bo_inv (po_bin Hok)). Qed.

Lemma packed_ok_view ng ec dc st b :
  bin_ok (K := packed G) Hash Eq ng ec dc st b →
  ∃ gc, packed_ok ng ec dc gc b ∧ ∀ g j, 0 ≤ g < ng → 0 ≤ j < 8 → slot_at gc g j = st g j.
Proof.
  intros Hok. pose proof (bo_slots Hok) as (gc & Hb & Hgok & Hst). exists gc. split; [|done].
  split; [|done..]. destruct Hok. split; try done.
  - by exists gc.
  - eapply probe_inv_ext; [|done..]. intros. by rewrite Hst.
Qed.

(** A live slot leads to an element. *)
Lemma slot_element ng ec dc gc b g j t i :
  packed_ok ng ec dc gc b → 0 ≤ g < ng → 0 ≤ j < 8 → slot_at gc g j = SLive t i →
  ∃ e, live_at ec dc (els_bound b) i = Some e ∧ cellv ec i = Some e ∧
    t = h7_of (Hash e).
Proof.
  intros Hok Hg Hj Hst.
  destruct (pi_live (po_inv _ _ _ _ _ Hok) g j t i)
    as (e & d & He & -> & _); [done..|].
  exists e. split_and!; [done| |done]. by apply live_at_Some in He as (_ & _ & ?).
Qed.

Lemma length_mask_bits m : (length (mask_bits m) ≤ 64)%nat.
Proof.
  unfold mask_bits. pose proof (length_filter (λ k, Z.testbit m k = true) (seqZ 0 64)).
  rewrite length_seqZ in *. lia.
Qed.

(** The inner loop finds an equal element among the slots of a mask when
    there is one. *)
Lemma match_loop_spec ng ec dc gc b g el m fuel :
  packed_ok ng ec dc gc b → 0 ≤ g < ng → 0 ≤ m < 2 ^ 64 →
  (length (mask_bits m) < fuel)%nat →
  (∀ j, j ∈ mask_slots m → 0 ≤ j < 8 ∧ ∃ t i, slot_at gc g j = SLive t i) →
  (∃ j t i e, match_loop Eq fuel b (g * GROUP_BYTES) el m = Ok (Some (j, i)) ∧
    0 ≤ j < 8 ∧ slot_at gc g j = SLive t i ∧
    live_at ec dc (els_bound b) i = Some e ∧ Eq e el = true) ∨
  (match_loop Eq fuel b (g * GROUP_BYTES) el m = Ok None ∧
    ∀ j t i e, j ∈ mask_slots m → slot_at gc g j = SLive t i →
      live_at ec dc (els_bound b) i = Some e → Eq e el = false).
Proof.
  intros Hok Hg. revert m. induction fuel as [|fuel IH]; intros m Hm Hfuel Hlive; [lia|].
  cbn [match_loop]. destruct (Z.eqb_spec m 0) as [->|Hm0].
  { right. split; [done|]. intros j t i e; by intros ?%mask_slots_0. }
  destruct (mask_slots_step m) as (Hslots & Hm' & Hlen); [lia|].
  set (bit := mask_pos (ctzll m)) in *.
  destruct (Hlive bit) as (Hj & t & i & Hst); [rewrite Hslots; set_solver|].
  destruct (slot_at_live _ _ _ _ _ Hst) as (_ & Hi & _).
  destruct (slot_element _ _ _ _ _ _ _ _ _ Hok Hg Hj Hst) as (e & He & Hc & _).
  rewrite (po_groups Hok), (po_els _ _ _ _ _ Hok).
  rewrite (load_int_Ok _ _ _ _ _ Hi). cbn [mbind res_bind].
  apply arr_get_Ok in Hc as Hget. rewrite Hget. cbn [mbind res_bind].
  destruct (Eq e el) eqn:E.
  { left. exists bit, t, i, e. done. }
  destruct (IH (Z.land m (m - 1))) as [Hfound|[Hnone Hno]].
  - done.
  - lia.
  - intros j Hj'. apply Hlive. rewrite Hslots. set_solver.
  - left. exact Hfound.
  - right. split; [done|]. intros j' t' i' e' Hj' Hst' He'. rewrite Hslots in Hj'.
    apply elem_of_cons in Hj' as [->|Hj']; [|exact (Hno j' t' i' e' Hj' Hst' He')].
    rewrite Hst in Hst'. injection Hst' as <- <-. congruence.
Qed.

(** Where the probe loop stops: at an equal element, or in the first group
    of the probe sequence with an empty slot when there is no equal one. *)
Inductive stop ng ec dc gc b el : bool → Z → Z → Z → Prop :=
  | stop_found g j t i e :
      0 ≤ g < ng → 0 ≤ j < 8 → slot_at gc g j = SLive t i →
      live_at ec dc (els_bound b) i = Some e → Eq e el = true →
      stop ng ec dc gc b el true g j i
  | stop_absent d j :
      0 ≤ d < ng → 0 ≤ j < 8 → slot_at gc (grp ng (Hash el) d) j = SEmpty →
      (∀ j', 0 ≤ j' < j → slot_at gc (grp ng (Hash el) d) j' ≠ SEmpty) →
      (∀ d', 0 ≤ d' < d → full (slot_at gc) (grp ng (Hash el) d')) →
      (∀ i e, live_at ec dc (els_bound b) i = Some e → Eq e el = false) →
      stop ng ec dc gc b el false (grp ng (Hash el) d) j 0.

Definition stop_result els_num b act h7 (found : bool) g j i : res (do_result (arr Z) El) :=
  if found then do_found els_num b (g * GROUP_BYTES) j i act
  else
    if action_code INSERT <=? action_code act then
      groups1 ← arr_set (groups b) (g * GROUP_BYTES + j) h7;
      groups2 ← store_int target groups1 (index_addr (g * GROUP_BYTES) j) ind_bytes
                  (ind_wrap (els_bound b));
      Ok (false, Some (els_bound b), size_wrap (els_num + 1),
          mk_hbin (size_wrap (els_bound b + 1)) (els b) (deleted b) groups2 (groups_mask b))
    else Ok (false, None, els_num, b).

Lemma probe_loop_S fuel els_num b el act h7 gi :
  probe_loop Eq (S fuel) els_num b el act h7 gi =
  (let group_base := u64 (gi * GROUP_BYTES) in
   group ← iht_group_load (groups b) group_base;
   m ← match_loop Eq 65 b group_base el (match_mask group h7);
   match m with
   | Some (bit, el_ind) => do_found els_num b group_base bit el_ind act
   | None =>
       let emask := match_empty group in
       if negb (emask =? 0) then do_absent els_num b group_base emask h7 act
       else probe_loop Eq fuel els_num b el act h7
              (Z.land (size_wrap (gi + 1)) (groups_mask b))
   end).
Proof. reflexivity. Qed.

(** [(group_ind + 1) & groups_mask] is the next group of the sequence. *)
Lemma next_group ng ec dc gc b hash d :
  packed_ok ng ec dc gc b →
  Z.land (size_wrap (grp ng hash d + 1)) (groups_mask b) = grp ng hash (d + 1).
Proof.
  intros Hok. destruct (ng_bounds _ _ _ _ _ _ _ (po_bin Hok)) as (Hng & _ & Hsz).
  destruct (bo_pow (po_bin Hok)) as (k & Hk & Ek). rewrite (po_mask _ _ _ _ _ Hok).
  apply (probe_next ng k); [done|done|lia].
Qed.

Lemma home_group ng ec dc gc b hash :
  packed_ok ng ec dc gc b →
  Z.land (size_wrap (hash / GROUP_SIZE)) (groups_mask b) = grp ng hash 0.
Proof.
  intros Hok. destruct (ng_bounds _ _ _ _ _ _ _ (po_bin Hok)) as (Hng & _ & Hsz).
  destruct (bo_pow (po_bin Hok)) as (k & Hk & Ek). rewrite (po_mask _ _ _ _ _ Hok).
  apply (probe_home ng k); [done|done|lia].
Qed.

(** The slots of the mask of a loaded group. *)
Lemma match_slots_live ng gc g h7 tags j :
  groups_ok ng gc → 0 ≤ g < ng → 0 ≤ h7 < 0x80 →
  length tags = 8%nat → Forall valid_tag tags →
  (∀ j, 0 ≤ j < 8 → zlookup tags j = tag_at gc g j) →
  j ∈ mask_slots (match_mask (group_of_tags tags) h7) →
  0 ≤ j < 8 ∧ ∃ t i, slot_at gc g j = SLive t i.
Proof.
  intros Hok Hg Hh Hlen Hv Hz Hj.
  destruct (match_mask_live tags h7 j) as (t & Ht & Hr); [done..|].
  pose proof (zlookup_range _ _ _ Ht). split; [lia|]. rewrite Hz in Ht by lia.
  destruct (slot_at_tag ng gc g j t) as [i Hi]; [done|done|lia|done|done|]. eauto.
Qed.

Lemma empty_mask_slot ng gc g tags :
  groups_ok ng gc → 0 ≤ g < ng → length tags = 8%nat → Forall valid_tag tags →
  (∀ j, 0 ≤ j < 8 → zlookup tags j = tag_at gc g j) →
  let emask := match_empty (group_of_tags tags) in
  (emask ≠ 0 → 0 ≤ mask_pos (ctzll emask) < 8 ∧
    slot_at gc g (mask_pos (ctzll emask)) = SEmpty ∧
    ∀ j, 0 ≤ j < mask_pos (ctzll emask) → slot_at gc g j ≠ SEmpty) ∧
  (emask = 0 → full (slot_at gc) g).
Proof.
  intros Hok Hg Hlen Hv Hz emask.
  pose proof (match_empty_slots tags Hlen Hv) as Hs. fold emask in Hs.
  pose proof (match_empty_range tags Hlen Hv) as Hr. fold emask in Hr. split.
  - intros Hne. unfold mask_slots in Hs. rewrite mask_bits_step in Hs by lia.
    assert (mask_pos (ctzll emask) ∈ filter (λ j, zlookup tags j = Some IHT_EMPTY_H7)
      (seqZ 0 8)) as He%list_elem_of_filter by (rewrite <-Hs; cbn; set_solver).
    destruct He as [He Hj%elem_of_seqZ]. split; [lia|]. split.
    + apply (slot_at_empty ng); [done|done|lia|]. by rewrite <-Hz by lia.
    + intros j Hj' E. apply (slot_at_empty ng) in E; [|done|done|lia].
      rewrite <-Hz in E by lia. by eapply (filter_seqZ_first _ 8).
  - intros E j Hj He. rewrite E in Hs. unfold mask_slots in Hs. rewrite mask_bits_0 in Hs.
    apply (slot_at_empty ng) in He; [|done..]. rewrite <-Hz in He by done.
    assert (j ∈ filter (λ j, zlookup tags j = Some IHT_EMPTY_H7) (seqZ 0 8)) as Hin
      by (apply list_elem_of_filter; split; [done|apply elem_of_seqZ; lia]).
    rewrite <-Hs in Hin. by apply elem_of_nil in Hin.
Qed.

Lemma probe_loop_spec ng ec dc gc b el els_num act fuel d D :
  packed_ok ng ec dc gc b → 0 ≤ d ≤ D → D < ng →
  ¬ full (slot_at gc) (grp ng (Hash el) D) → (Z.to_nat (D - d) < fuel)%nat →
  (∀ d', 0 ≤ d' < d → full (slot_at gc) (grp ng (Hash el) d')) →
  (∀ d' j t i e, 0 ≤ d' < d → 0 ≤ j < 8 → slot_at gc (grp ng (Hash el) d') j = SLive t i →
    t = h7_of (Hash el) → live_at ec dc (els_bound b) i = Some e → Eq e el = false) →
  ∃ found g j i, stop ng ec dc gc b el found g j i ∧
    probe_loop Eq fuel els_num b el act (h7_of (Hash el)) (grp ng (Hash el) d) =
    stop_result els_num b act (h7_of (Hash el)) found g j i.
Proof.
  intros Hok. revert d. induction fuel as [|fuel IH]; intros d Hd HD Hroom Hfuel Hfull Hno; [lia|].
  destruct (ng_bounds _ _ _ _ _ _ _ (po_bin Hok)) as (Hng & _ & _).
  pose proof (po_gok Hok) as Hgok.
  pose proof (grp_range ng (Hash el) d Hng) as Hg.
  pose proof (h7_range (Hash el)) as Hh.
  pose proof (next_group _ _ _ _ _ (Hash el) d Hok) as Hnext.
  remember (grp ng (Hash el) d) as g eqn:Eg. remember (h7_of (Hash el)) as h7 eqn:Eh.
  rewrite probe_loop_S. cbv zeta.
  rewrite (group_base_small ng) by (done || apply (bo_max (po_bin Hok))).
  destruct (group_load_Ok ng gc g Hgok Hg) as (tags & Hload & Hlen & Hv & Hz).
  rewrite (po_groups Hok), Hload. step_ok.
  destruct (match_loop_spec ng ec dc gc b g el (match_mask (group_of_tags tags) h7) 65)
    as [(j & t & i & e & -> & Hj & Hst & He & HE)|[-> Hnone]]; [done|done| | | | |].
  { by apply match_mask_range. }
  { pose proof (length_mask_bits (match_mask (group_of_tags tags) h7)). lia. }
  { intros j Hj. by eapply match_slots_live. }
  { step_ok. exists true, g, j, i. split; [by econstructor|done]. }
  step_ok.
  destruct (empty_mask_slot ng gc g tags) as [Hempty Hfullg]; [done..|].
  assert (∀ d' j t i e, 0 ≤ d' < d + 1 → 0 ≤ j < 8 →
    slot_at gc (grp ng (Hash el) d') j = SLive t i →
    t = h7 → live_at ec dc (els_bound b) i = Some e → Eq e el = false) as Hno'.
  { intros d' j t i e Hd' Hj Hst -> He. destruct (decide (d' = d)) as [->|Hne].
    - rewrite <-Eg in Hst. apply (Hnone j h7 i e); [|done|done]. apply match_mask_complete; [done..|].
      rewrite Hz by done. by apply slot_at_live in Hst as [? _].
    - eapply (Hno d' j); [lia|done..]. }
  destruct (Z.eqb_spec (match_empty (group_of_tags tags)) 0) as [E|E]; cbn [negb].
  - assert (d ≠ D) by (intros ->; rewrite <-Eg in Hroom; by apply Hroom, Hfullg).
    rewrite Hnext.
    apply IH; [lia|done|done|lia| |done]. intros d' Hd'.
    destruct (decide (d' = d)) as [->|]; [rewrite <-Eg; by apply Hfullg|apply Hfull; lia].
  - destruct (Hempty E) as (Hj & Hst & Hfirst).
    exists false, g, (mask_pos (ctzll (match_empty (group_of_tags tags)))), 0.
    split; [|unfold stop_result, do_absent; by rewrite (po_groups Hok)].
    rewrite Eg in Hst, Hfirst |- *. constructor; [lia|done|done|done|done|].
    eapply (search_complete _ _ ng (slot_at gc) _ _ _ d (po_inv _ _ _ _ _ Hok)); [lia| |].
    + intros Hf. by eapply Hf.
    + intros d' j t i e Hd'. rewrite <-Eh. apply Hno'. lia.
Qed.

(** [do_1] always stops: the fuel of one round over the groups is enough. *)
Lemma do_1_stop ng ec dc gc b el els_num act :
  packed_ok ng ec dc gc b →
  ∃ found g j i, stop ng ec dc gc b el found g j i ∧
    do_1 Eq els_num b (Hash el) el act =
    stop_result els_num b act (h7_of (Hash el)) found g j i.
Proof.
  intros Hok. destruct (ng_bounds _ _ _ _ _ _ _ (po_bin Hok)) as (Hng & _ & _).
  pose proof (po_inv _ _ _ _ _ Hok) as I.
  destruct (room_exists ng (slot_at gc)) as (g & Hg & Hroom).
  { pose proof (pi_count I). pose proof (po_bound _ _ _ _ _ Hok). lia. }
  destruct (grp_surj ng (Hash el) g Hg) as (D & HD & ->).
  unfold do_1. rewrite (home_group _ _ _ _ _ _ Hok).
  eapply (probe_loop_spec ng ec dc gc b el els_num act _ 0 D); [done|lia|lia|done| |lia|lia].
  unfold probe_fuel. rewrite (po_mask _ _ _ _ _ Hok). lia.
Qed.

(** Where the loop stops is determined by the bin, not by the platform. *)
Lemma stop_unique ng ec dc gc b el f1 g1 j1 i1 f2 g2 j2 i2 :
  packed_ok ng ec dc gc b →
  stop ng ec dc gc b el f1 g1 j1 i1 → stop ng ec dc gc b el f2 g2 j2 i2 →
  f1 = f2 ∧ g1 = g2 ∧ j1 = j2 ∧ i1 = i2.
Proof.
  intros Hok. pose proof (po_inv _ _ _ _ _ Hok) as I.
  destruct 1 as [g j t i e Hg Hj Hst He HE|d j Hd Hj Hst Hfirst Hfull Hno];
    destruct 1 as [g' j' t' i' e' Hg' Hj' Hst' He' HE'|d' j' Hd' Hj' Hst' Hfirst' Hfull' Hno'].
  - assert (i = i') as <-.
    { eapply (pi_nodup I); [done..|].
      apply (key_trans (Hash := Hash) (Eq := Eq) _ el); [done|].
      by apply (key_sym (Hash := Hash)). }
    destruct (pi_inj I g j t g' j' t' i) as [-> ->]; done.
  - pose proof (Hno' i e He). congruence.
  - pose proof (Hno i' e' He'). congruence.
  - assert (d = d') as <-.
    { destruct (Z.lt_trichotomy d d') as [H|[H|H]]; [|done|]; exfalso.
      - by apply (Hfull' d ltac:(lia) j Hj).
      - by apply (Hfull d' ltac:(lia) j' Hj'). }
    assert (j = j') as <-; [|done].
    destruct (Z.lt_trichotomy j j') as [H|[H|H]]; [|done|]; exfalso.
    + by apply (Hfirst' j ltac:(lia)).
    + by apply (Hfirst j' ltac:(lia)).
Qed.
End search.
Arguments po_bin {C G El Hash Eq ng ec dc gc b} _.
Arguments po_groups {C G El Hash Eq ng ec dc gc b} _.
Arguments po_gok {C G El Hash Eq ng ec dc gc b} _.
Arguments po_els {C G El Hash Eq ng ec dc gc b} _.
Arguments po_mask {C G El Hash Eq ng ec dc gc b} _.
Arguments po_bound {C G El Hash Eq ng ec dc gc b} _.
Arguments po_inv {C G El Hash Eq ng ec dc gc b} _.

(** * The laws of a slot store *)

Section fresh.
Context {C : BinConfig} {G : GroupOps} `{!ConfigLaws C}.
Implicit Types (ng g j i : Z) (gc : list (option Z)).

Lemma clear_groups_Ok ng gc :
  0 ≤ ng ≤ max_groups → Z.of_nat (length gc) = ng * GROUP_BYTES →
  ∃ gc', clear_groups (Live gc) ng = Ok (Live gc') ∧ length gc' = length gc ∧
    (∀ g j, 0 ≤ g < ng → 0 ≤ j < 8 → tag_at gc' g j = Some IHT_EMPTY_H7) ∧
    (∀ k, 8 ≤ k mod GROUP_BYTES → cellv gc' k = cellv gc k).
Proof.
  intros Hng Hlen. pose proof GROUP_BYTES_pos.
  destruct (for_res_inv (λ n a, ∃ gc', a = Live gc' ∧ length gc' = length gc ∧
      (∀ g j, 0 ≤ g < n → 0 ≤ j < 8 → tag_at gc' g j = Some IHT_EMPTY_H7) ∧
      (∀ k, 8 ≤ k mod GROUP_BYTES → cellv gc' k = cellv gc k))
    (λ i a, arr_memset a (u64 (i * GROUP_BYTES)) IHT_EMPTY_H7 GROUP_SIZE) 0 ng (Live gc))
    as (a & E & gc' & -> & Hlen' & Htags & Hrest).
  - lia.
  - exists gc. split_and!; [done..|lia|done].
  - intros g a Hg (gc1 & -> & Hlen1 & Htags1 & Hrest1). unfold arr_memset.
    rewrite (group_base_small ng) by lia.
    destruct (arr_sets_Ok gc1 (g * GROUP_BYTES) (replicate (Z.to_nat GROUP_SIZE) IHT_EMPTY_H7))
      as (gc2 & E & Hlen2 & Hc);
      [nia|rewrite length_replicate; change (Z.of_nat (Z.to_nat GROUP_SIZE)) with 8; nia|].
    rewrite length_replicate in Hc. change (Z.of_nat (Z.to_nat GROUP_SIZE)) with 8 in Hc.
    exists (Live gc2). split; [exact E|]. exists gc2. split_and!; [done|lia|..].
    + intros g' j Hg' Hj. unfold tag_at. rewrite Hc. destruct (decide (g' = g)) as [->|Hne].
      * rewrite decide_True by lia. apply zlookup_Some. split; [lia|].
        apply lookup_replicate_2. change (Z.to_nat GROUP_SIZE) with 8%nat. lia.
      * rewrite decide_False by nia. apply Htags1; lia.
    + intros k Hk. rewrite Hc, decide_False; [by apply Hrest1|]. intros Hin.
      rewrite (Z.mod_eq k GROUP_BYTES) in Hk by lia. rewrite <-(Z.div_unique k GROUP_BYTES g (k - g * GROUP_BYTES)) in Hk; lia.
  - exists gc'. split_and!; [exact E|done..].
Qed.

Lemma groups_ok_clear ng gc :
  Z.of_nat (length gc) = ng * GROUP_BYTES →
  (∀ g j, 0 ≤ g < ng → 0 ≤ j < 8 → tag_at gc g j = Some IHT_EMPTY_H7) → groups_ok ng gc.
Proof.
  intros Hlen Htags. split; [done| |].
  - intros g j Hg Hj. exists IHT_EMPTY_H7. split; [by apply Htags|]. by right; right.
  - intros g j t Hg Hj. rewrite Htags by done. intros [= <-] [_ ?]. done.
Qed.

(** Groups that have been cleared hold the empty slots. *)
Lemma clear_view ng gc :
  0 ≤ ng ≤ max_groups → Z.of_nat (length gc) = ng * GROUP_BYTES →
  ∃ s, clear_groups (Live gc) ng = Ok s ∧
    slots_ok (SlotView := packed_view G) ng s (λ _ _, SEmpty).
Proof.
  intros Hng Hlen. destruct (clear_groups_Ok ng gc Hng Hlen) as (gc' & E & Hlen' & Htags & _).
  exists (Live gc'). split; [done|].
  assert (groups_ok ng gc') as Hgok by (apply groups_ok_clear; [by rewrite Hlen'|done]).
  exists gc'. split_and!; [done|done|]. intros g j Hg Hj. by apply (slot_at_empty ng), Htags.
Qed.

Lemma groups_size_small ng : 0 ≤ ng ≤ max_groups → u64 (ng * GROUP_BYTES) = ng * GROUP_BYTES.
Proof.
  intros Hng. pose proof groups_fit. pose proof GROUP_BYTES_pos. unfold max_groups in Hng.
  unfold u64, GROUP_BYTES, GROUP_SIZE in *. apply Z.mod_small.
  set (X := 256 ^ Z.of_nat ind_bytes) in *.
  assert (4 * ng ≤ X) by (Z.div_mod_to_equations; lia). nia.
Qed.

Lemma groups_alloc_Ok ng :
  0 ≤ ng ≤ max_groups →
  ∃ s, groups_alloc (8 * ng) = Ok s ∧ slots_ok (SlotView := packed_view G) ng s (λ _ _, SEmpty).
Proof.
  intros Hng. unfold groups_alloc, GROUP_SIZE. replace (8 * ng / 8) with ng by dlia.
  rewrite groups_size_small by done. apply clear_view; [done|].
  rewrite length_replicate. pose proof GROUP_BYTES_pos. nia.
Qed.

Lemma groups_realloc_Ok ng s st ng' :
  slots_ok (SlotView := packed_view G) ng s st → 0 ≤ ng' ≤ max_groups →
  ∃ s', groups_realloc s (8 * ng') = Ok s' ∧
    slots_ok (SlotView := packed_view G) ng' s' (λ _ _, SEmpty).
Proof.
  intros (gc & -> & Hgok & _) Hng. unfold groups_realloc, GROUP_SIZE.
  replace (8 * ng' / 8) with ng' by dlia.
  rewrite groups_size_small by done. unfold arr_realloc at 1. step_ok. apply clear_view; [done|].
  pose proof GROUP_BYTES_pos. rewrite length_app, length_take, length_replicate. nia.
Qed.

Lemma groups_clear_Ok ng s st :
  slots_ok (SlotView := packed_view G) ng s st → 0 < ng ≤ max_groups →
  ∃ s', groups_clear s (ng - 1) = Ok s' ∧
    slots_ok (SlotView := packed_view G) ng s' (λ _ _, SEmpty).
Proof.
  intros (gc & -> & Hgok & _) Hng. unfold groups_clear, size_wrap.
  pose proof size_fits. unfold max_groups in Hng.
  rewrite Z.mod_small by dlia. replace (ng - 1 + 1) with ng by lia.
  apply clear_view; [unfold max_groups; lia|apply Hgok].
Qed.

Lemma do_1_frame {El : Type} (Eq : El → El → bool) n (b : hbin (arr Z) El) hash el act f r n' b' :
  do_1 Eq n b hash el act = Ok (f, r, n', b') →
  els b' = els b ∧ groups_mask b' = groups_mask b ∧ (act ≠ DELETE → deleted b' = deleted b).
Proof.
  unfold do_1. generalize (probe_fuel b) as fuel, (Z.land (Z.shiftr hash 57) 0x7f) as h7,
    (Z.land (size_wrap (hash / GROUP_SIZE)) (groups_mask b)) as gi.
  intros fuel h7. induction fuel as [|fuel IH]; intros gi; [done|]. rewrite probe_loop_S.
  intros (gr & _ & E)%bind_Ok. apply bind_Ok in E as ([[bit i]|] & _ & E).
  - unfold do_found in E. destruct (negb _) eqn:Ea in E; [by simplify_eq|].
    apply bind_Ok in E as (x & _ & E). apply bind_Ok in E as (y & _ & E).
    simplify_eq. split_and!; [done..|]. by destruct act.
  - cbv zeta in E. destruct (negb _) in E; [|by eapply IH].
    unfold do_absent in E. destruct (_ <=? _) in E; [|by simplify_eq].
    apply bind_Ok in E as (x & _ & E). apply bind_Ok in E as (y & _ & E). by simplify_eq.
Qed.
Lemma match_loop_deleted {El : Type} (Eq : El → El → bool) fuel (b : hbin (arr Z) El) d gb el m :
  match_loop Eq fuel (with_deleted b d) gb el m = match_loop Eq fuel b gb el m.
Proof.
  revert m. induction fuel as [|fuel IH]; intros m; [done|]. cbn [match_loop].
  case_match; [done|]. cbn [groups els with_deleted].
  destruct (load_int _ _ _ _) as [i| |]; [|done..]. cbn.
  destruct (arr_get (els b) i) as [e| |]; [|done..]. cbn. case_match; [done|]. apply IH.
Qed.

Lemma do_1_deleted {El : Type} (Eq : El → El → bool) n (b : hbin (arr Z) El) d hash el f r n' b' :
  do_1 Eq n (with_deleted b d) hash el INSERT = Ok (f, r, n', b') →
  do_1 Eq n b hash el INSERT = Ok (f, r, n', with_deleted b' (deleted b)).
Proof.
  unfold do_1. cbn [groups_mask with_deleted]. change (probe_fuel (with_deleted b d)) with (probe_fuel b).
  generalize (probe_fuel b) as fuel, (Z.land (Z.shiftr hash 57) 0x7f) as h7,
    (Z.land (size_wrap (hash / GROUP_SIZE)) (groups_mask b)) as gi.
  intros fuel h7. induction fuel as [|fuel IH]; intros gi; [done|].
  rewrite !probe_loop_S. cbv zeta. cbn [groups with_deleted].
  destruct (iht_group_load _ _) as [g| |]; [|done..]. rewrite !ok_bind, match_loop_deleted.
  destruct (match_loop _ _ _ _ _ _) as [[[bit i]|]| |]; [| |done..]; rewrite !ok_bind.
  - unfold do_found. cbn. intros [= <- <- <- <-]. by destruct b.
  - destruct (negb (match_empty g =? 0)); [|by apply IH].
    unfold do_absent. cbn [action_code Z.leb Z.compare Pos.compare Pos.compare_cont groups with_deleted
      els els_bound groups_mask].
    destruct (arr_set _ _ _) as [g1| |]; [|done..]. rewrite !ok_bind.
    destruct (store_int _ _ _ _ _) as [g2| |]; [|done..]. rewrite !ok_bind.
    by intros [= <- <- <- <-].
Qed.
End fresh.

Section answers.
Context {C : BinConfig} {G : GroupOps} `{!ConfigLaws C} `{!GroupLaws G}.
Context {El : Type} (Hash : El → Z) (Eq : El → El → bool) `{!KeyLaws Hash Eq}.
Implicit Types (b : hbin (arr Z) El) (el e : El) (ng : Z) (st : Z → Z → slot).

(** The answers of the probe loop on a well-formed bin. *)
Lemma do_1_ok ng ec dc st b el n act :
  bin_ok (K := packed G) Hash Eq ng ec dc st b →
  (act = INSERT → els_bound b < 256 ^ Z.of_nat ind_bytes - 1) →
  do_1_spec (K := packed G) Hash Eq ng ec dc st b el n act (do_1 Eq n b (Hash el) el act).
Proof.
  intros Hb Hlim. destruct (packed_ok_view _ _ _ _ _ _ _ Hb) as (gc & Hok & Hst).
  destruct (ng_bounds _ _ _ _ _ _ _ Hb) as (Hng & Hmax & Hsz).
  destruct (do_1_stop Hash Eq ng ec dc gc b el n act Hok) as (f & g & j & i & Hstop & ->).
  pose proof (po_gok Hok) as Hgok. pose proof (po_bound Hok) as Hbound.
  destruct Hstop as [g j t i e Hg Hj Hs He HE|d j Hd Hj Hs Hfirst Hfull Hno].
  - unfold stop_result, do_found. destruct (decide (act = DELETE)) as [->|Hact].
    + cbn [negb action_code Z.eqb Pos.eqb].
      pose proof (proj1 (live_at_Some _ _ _ _ _) He) as (Hi & _).
      destruct (mark_deleted_Ok (K := packed G) Hash Eq ng ec dc st b i Hb) as (byte & _ & _ & E); [lia|].
      cbn [slots packed] in E. rewrite E. step_ok.
      destruct (addr_ranges ng g j) as [Ha _]; [done..|].
      rewrite (po_groups Hok), arr_set_Ok by (rewrite (go_len Hgok); lia). step_ok.
      destruct (delete_slot ng gc g j) as [Hgok' Hslots]; [done..|].
      eapply (spec_delete (K := packed G) Hash Eq ng ec dc st b el n g j t i e);
        [done|done|by rewrite <-Hst|done|done|exact E|].
      eexists. split; [done|]. split; [done|]. intros g' j' Hg' Hj'. rewrite Hslots by done.
      unfold upd. case_decide; [done|]. by apply Hst.
    + assert (negb (action_code act =? action_code DELETE) = true) as -> by (by destruct act).
      by eapply (spec_present (K := packed G)).
  - unfold stop_result. destruct (decide (act = INSERT)) as [->|Hact].
    + specialize (Hlim eq_refl).
      destruct (insert_slot ng gc (grp ng (Hash el) d) j (h7_of (Hash el)) (els_bound b))
        as (gc1 & gc' & E1 & E2 & Hgok' & Hslots);
        [done|by apply grp_range|done|apply h7_range|lia|].
      cbn [action_code Z.leb Z.compare Pos.compare Pos.compare_cont].
      rewrite (po_groups Hok), E1. step_ok.
      unfold ind_wrap. rewrite (Z.mod_small (els_bound b)) by lia. rewrite E2. step_ok.
      unfold size_wrap at 2. pose proof size_fits.
      rewrite (Z.mod_small (els_bound b + 1)) by lia.
      eapply (spec_insert (K := packed G) Hash Eq ng ec dc st b el n d j);
        [done|done|done| | |].
      * intros t i. rewrite <-Hst, Hs by (done || by apply grp_range). done.
      * intros d' Hd' j' Hj'. rewrite <-Hst by (done || by apply grp_range). by apply Hfull.
      * eexists. split; [done|]. split; [done|]. intros g' j' Hg' Hj'. rewrite Hslots by done.
        unfold upd. case_decide; [done|]. by apply Hst.
    + assert ((action_code INSERT <=? action_code act) = false) as -> by (by destruct act).
      by apply (spec_missing (K := packed G)).
Qed.
End answers.

#[export] Instance packed_laws {C : BinConfig} (G : GroupOps) :
  ConfigLaws C → GroupLaws G → SlotLaws C (packed G) (packed_view G).
Proof.
  intros HC HG. split.
  - intros ng k Ek Hk Hmax. apply groups_alloc_Ok. split; [rewrite Ek; by apply Z.pow_nonneg|done].
  - intros ng s st ng' k Hs Ek Hk [_ Hmax]. eapply groups_realloc_Ok; [done|].
    split; [rewrite Ek; by apply Z.pow_nonneg|done].
  - intros ng s st. apply groups_clear_Ok.
  - intros ng s st (gc & -> & _). by exists Freed.
  - intros s ->. done.
  - intros El Eq n b hash el act Hf Hm. cbn [bin_do_1 packed]. unfold do_1, probe_fuel.
    cbn [slots packed slots_freed packed_view] in *.
    destruct (Z.to_nat (groups_mask b + 1)) as [|k] eqn:En; [lia|].
    rewrite probe_loop_S. cbv zeta. unfold iht_group_load. by rewrite Hf.
  - intros El Hash Eq HK ng ec dc st b el n act. apply (do_1_ok Hash Eq).
  - intros El Eq n b hash el act f r n' b'. apply do_1_frame.
  - intros El Eq n b d hash el f r n' b'. apply do_1_deleted.
Qed.
