(* ===== verification/CoreV0.v ===== *)
(** The slots of ihtab-v0.h and ixhtab-v0.h: the tags in one array, [h7], and
    the indices in another, [indexes].  Deletion keeps the tag and overwrites
    the index by the mark INDEX_DELETED; the probe loop remembers the first
    such slot it sees with a matching tag, and an insertion reuses it.

    The second half shows that these arrays meet the laws of a slot store, so
    that what is proved of the tables holds for their first versions too. *)

From S2P Require Import Prelude Bits Groups GroupsV0 Probe Spec Store Core.

(** * Model *)

Record v0_slots := mk_v0 { h7 : arr Z; indexes : arr Z }.

Section model.
Context {C : BinConfig} {G : GroupOps}.

(** [~(ind_t) 0] and [~(size_t) 0] *)
Definition INDEX_DELETED : Z := ind_wrap (Z.lnot 0).
Definition NO_SLOT : Z := size_wrap (Z.lnot 0).

(** Allocation, reallocation and marking of all slots as empty; the indices
    are left as they are. *)
Definition v0_alloc (indexes_size : Z) : res v0_slots :=
  h7' ← arr_memset (malloc indexes_size) 0 V0_EMPTY_H7 indexes_size;
  Ok (mk_v0 h7' (malloc indexes_size)).

Definition v0_realloc (s : v0_slots) (indexes_size : Z) : res v0_slots :=
  h1 ← arr_realloc (h7 s) indexes_size;
  h2 ← arr_memset h1 0 V0_EMPTY_H7 indexes_size;
  indexes' ← arr_realloc (indexes s) indexes_size;
  Ok (mk_v0 h2 indexes').

Definition v0_clear (s : v0_slots) (groups_mask : Z) : res v0_slots :=
  let indexes_size := size_wrap (size_wrap (groups_mask + 1) * GROUP_SIZE) in
  h7' ← arr_memset (h7 s) 0 V0_EMPTY_H7 indexes_size;
  Ok (mk_v0 h7' (indexes s)).

Definition v0_free (s : v0_slots) : res v0_slots :=
  h7' ← arr_free (h7 s);
  indexes' ← arr_free (indexes s);
  Ok (mk_v0 h7' indexes').

Context {El : Type} (Eq : El → El → bool).
Implicit Types (b : hbin v0_slots El) (el : El).

(** [while (mmask) { ... mmask &= mmask - 1; }]: the remembered slot, and the
    slot and the element index of the first element equal to [el] among the
    slots of the mask. *)
Fixpoint v0_match_loop (fuel : nat) b (group_ind : Z) el (mmask first_deleted_slot : Z) :
    res (Z * option (Z * Z)) :=
  match fuel with
  | O => Timeout
  | S fuel =>
      if mmask =? 0 then Ok (first_deleted_slot, None)
      else
        let bit := mask_pos (ctzll mmask) in
        let slot := size_wrap (size_wrap (group_ind * GROUP_SIZE) + bit) in
        el_ind ← arr_get (indexes (groups b)) slot;
        if el_ind =? INDEX_DELETED then
          v0_match_loop fuel b group_ind el (Z.land mmask (mmask - 1))
            (if first_deleted_slot =? NO_SLOT then slot else first_deleted_slot)
        else
          e ← arr_get (els b) el_ind;
          if Eq e el then Ok (first_deleted_slot, Some (slot, el_ind))
          else v0_match_loop fuel b group_ind el (Z.land mmask (mmask - 1)) first_deleted_slot
  end.

(** An equal element was found in slot [slot]. *)
Definition v0_found (els_num : Z) b (slot el_ind : Z) (act : action) :
    res (do_result v0_slots El) :=
  if negb (action_code act =? action_code DELETE) then
    Ok (true, Some el_ind, els_num, b)
  else
    deleted' ← mark_deleted (deleted b) el_ind;
    indexes' ← arr_set (indexes (groups b)) slot INDEX_DELETED;
    Ok (true, None, size_wrap (els_num - 1),
        mk_hbin (els_bound b) (els b) deleted' (mk_v0 (h7 (groups b)) indexes') (groups_mask b)).

(** The group has an empty slot and no equal element was found. *)
Definition v0_absent (els_num : Z) b (group_ind emask h7_val first_deleted_slot : Z)
    (act : action) : res (do_result v0_slots El) :=
  if action_code INSERT <=? action_code act then
    let slot :=
      if negb (first_deleted_slot =? NO_SLOT) then first_deleted_slot
      else size_wrap (size_wrap (group_ind * GROUP_SIZE) + mask_pos (ctzll emask)) in
    h7' ← arr_set (h7 (groups b)) slot h7_val;
    indexes' ← arr_set (indexes (groups b)) slot (ind_wrap (els_bound b));
    Ok (false, Some (els_bound b), size_wrap (els_num + 1),
        mk_hbin (size_wrap (els_bound b + 1)) (els b) (deleted b) (mk_v0 h7' indexes')
          (groups_mask b))
  else Ok (false, None, els_num, b).

(** [for (;;) { ... group_ind = (group_ind + 1) & groups_mask; }] *)
Fixpoint v0_probe_loop (fuel : nat) (els_num : Z) b el (act : action)
    (h7_val group_ind first_deleted_slot : Z) : res (do_result v0_slots El) :=
  match fuel with
  | O => Timeout
  | S fuel =>
      group ← iht_group_load (h7 (groups b)) (size_wrap (group_ind * GROUP_SIZE));
      '(first_deleted_slot, m) ←
        v0_match_loop 65 b group_ind el (match_mask group h7_val) first_deleted_slot;
      match m with
      | Some (slot, el_ind) => v0_found els_num b slot el_ind act
      | None =>
          let emask := match_empty group in
          if negb (emask =? 0) then
            v0_absent els_num b group_ind emask h7_val first_deleted_slot act
          else v0_probe_loop fuel els_num b el act h7_val
                 (Z.land (size_wrap (group_ind + 1)) (groups_mask b)) first_deleted_slot
      end
  end.

Definition v0_do_1 (els_num : Z) b (hash : Z) el (act : action) : res (do_result v0_slots El) :=
  let h7_val := Z.land (Z.shiftr hash 57) 0x7f in
  let group_ind := Z.land (size_wrap (hash / GROUP_SIZE)) (groups_mask b) in
  v0_probe_loop (Z.to_nat (groups_mask b + 1)) els_num b el act h7_val group_ind NO_SLOT.
End model.

(** The slot store of ihtab-v0.h and ixhtab-v0.h. *)
Definition apart {C : BinConfig} (G : GroupOps) : SlotStore :=
  {| slots := v0_slots; slots_alloc := v0_alloc; slots_realloc := v0_realloc;
     slots_clear := v0_clear; slots_free := v0_free; bin_do_1 := @v0_do_1 C G |}.

(** * The abstract slots *)

Section view.
Context {C : BinConfig}.
Implicit Types (ng g j t i : Z) (hc ic : list (option Z)).

(** The abstract slot that a tag and an index encode. *)
Definition v0_slot_at hc ic g j : slot :=
  match cellv hc (8 * g + j) with
  | None => SEmpty
  | Some t =>
      if decide (t = V0_EMPTY_H7) then SEmpty
      else match cellv ic (8 * g + j) with
           | Some i => if decide (i = INDEX_DELETED) then SDead else SLive t i
           | None => SDead
           end
  end.

Record arrays_ok ng hc ic : Prop := {
  ao_len : Z.of_nat (length hc) = 8 * ng;
  ao_len_ind : Z.of_nat (length ic) = 8 * ng;
  ao_tag s : 0 ≤ s < 8 * ng → ∃ t, cellv hc s = Some t ∧ valid_tag_v0 t;
  ao_index s t : 0 ≤ s < 8 * ng → cellv hc s = Some t → t ≠ V0_EMPTY_H7 →
    ∃ i, cellv ic s = Some i
}.
End view.
Arguments ao_len {ng hc ic} _.
Arguments ao_len_ind {ng hc ic} _.
Arguments ao_tag {ng hc ic} _.
Arguments ao_index {ng hc ic} _.

#[export] Instance apart_view {C : BinConfig} (G : GroupOps) : SlotView (apart G) :=
  Build_SlotView (apart G)
    (λ ng (s : v0_slots) st, ∃ hc ic, s = mk_v0 (Live hc) (Live ic) ∧ arrays_ok ng hc ic ∧
       ∀ g j, 0 ≤ g < ng → 0 ≤ j < 8 → v0_slot_at hc ic g j = st g j)
    (λ s : v0_slots, s = mk_v0 Freed Freed).

Section slots.
Context {C : BinConfig} `{!ConfigLaws C}.
Implicit Types (ng g j t i : Z) (hc ic : list (option Z)).

Lemma INDEX_DELETED_eq : INDEX_DELETED = 256 ^ Z.of_nat ind_bytes - 1.
Proof.
  unfold INDEX_DELETED, ind_wrap. change (Z.lnot 0) with (-1).
  set (X := 256 ^ Z.of_nat ind_bytes). assert (0 < X) by (by apply Z.pow_pos_nonneg; lia).
  rewrite <-(Z_mod_plus_full (-1) 1), Z.mod_small by lia. lia.
Qed.

Lemma NO_SLOT_eq : NO_SLOT = 2 ^ size_bits - 1.
Proof.
  unfold NO_SLOT, size_wrap. change (Z.lnot 0) with (-1). pose proof size_bits_le.
  set (X := 2 ^ size_bits). assert (0 < X) by (apply Z.pow_pos_nonneg; lia).
  rewrite <-(Z_mod_plus_full (-1) 1), Z.mod_small by lia. lia.
Qed.

(** The numbers of the slots of a bin fit the size type, and none is [NO_SLOT]. *)
Lemma slot_small ng g j :
  0 ≤ g < ng → 0 ≤ j < 8 → ng ≤ max_groups →
  size_wrap (size_wrap (g * GROUP_SIZE) + j) = 8 * g + j ∧
  size_wrap (g * GROUP_SIZE) = 8 * g ∧ 8 * g + j < NO_SLOT.
Proof.
  intros Hg Hj Hmax. rewrite NO_SLOT_eq. pose proof size_fits as Hf. unfold max_groups in Hmax.
  assert (0 < 256 ^ Z.of_nat ind_bytes) by (by apply Z.pow_pos_nonneg; lia).
  assert (8 * ng < 2 ^ size_bits - 1) by dlia.
  unfold size_wrap, GROUP_SIZE. rewrite !Z.mod_small by (rewrite ?Z.mod_small; lia). lia.
Qed.

Lemma v0_slot_at_live hc ic g j t i :
  v0_slot_at hc ic g j = SLive t i →
  cellv hc (8 * g + j) = Some t ∧ cellv ic (8 * g + j) = Some i ∧ i ≠ INDEX_DELETED ∧
  t ≠ V0_EMPTY_H7.
Proof. unfold v0_slot_at. repeat case_match; naive_solver. Qed.

Lemma v0_slot_at_empty ng hc ic g j :
  arrays_ok ng hc ic → 0 ≤ g < ng → 0 ≤ j < 8 →
  v0_slot_at hc ic g j = SEmpty ↔ cellv hc (8 * g + j) = Some V0_EMPTY_H7.
Proof.
  intros Hok Hg Hj. unfold v0_slot_at.
  destruct (ao_tag Hok (8 * g + j)) as (t & -> & _); [lia|]. repeat case_match; naive_solver.
Qed.

(** The slot number tells group and position. *)
Lemma slot_number g j g' j' :
  0 ≤ j < 8 → 0 ≤ j' < 8 → 8 * g + j = 8 * g' + j' ↔ g = g' ∧ j = j'.
Proof. intros. lia. Qed.

(** Overwriting the index of a used slot by the mark. *)
Lemma v0_delete_slot ng hc ic g j t i :
  arrays_ok ng hc ic → 0 ≤ g < ng → 0 ≤ j < 8 → v0_slot_at hc ic g j = SLive t i →
  let ic' := <[Z.to_nat (8 * g + j) := Some INDEX_DELETED]> ic in
  arrays_ok ng hc ic' ∧
  ∀ g' j', 0 ≤ g' < ng → 0 ≤ j' < 8 →
    v0_slot_at hc ic' g' j' = upd (v0_slot_at hc ic) g j SDead g' j'.
Proof.
  intros Hok Hg Hj Hst ic'. pose proof (ao_len_ind Hok) as Hlen.
  assert (∀ s, cellv ic' s = if decide (s = 8 * g + j) then Some INDEX_DELETED else cellv ic s)
    as Hic by (intros s; apply cellv_insert; lia).
  split.
  - split; [apply Hok|unfold ic'; by rewrite length_insert|apply Hok|].
    intros s t' Hs Ht Hne. rewrite Hic. case_decide; [by eauto|]. by eapply (ao_index Hok).
  - intros g' j' Hg' Hj'. unfold v0_slot_at at 1, upd. rewrite Hic. case_decide as E.
    + apply slot_number in E as [-> ->]; [|done..]. rewrite (decide_True _ _ (conj eq_refl eq_refl)).
      apply v0_slot_at_live in Hst as (Ht & _ & _ & Hne).
      by rewrite Ht, decide_False, decide_True.
    + rewrite decide_False; [done|]. intros [-> ->]. by apply E.
Qed.

(** Writing a tag and an index. *)
Lemma v0_insert_slot ng hc ic g j hv v :
  arrays_ok ng hc ic → 0 ≤ g < ng → 0 ≤ j < 8 → 0 ≤ hv < 0x80 → v ≠ INDEX_DELETED →
  let hc' := <[Z.to_nat (8 * g + j) := Some hv]> hc in
  let ic' := <[Z.to_nat (8 * g + j) := Some v]> ic in
  arrays_ok ng hc' ic' ∧
  ∀ g' j', 0 ≤ g' < ng → 0 ≤ j' < 8 →
    v0_slot_at hc' ic' g' j' = upd (v0_slot_at hc ic) g j (SLive hv v) g' j'.
Proof.
  intros Hok Hg Hj Hh Hv hc' ic'. pose proof (ao_len Hok) as Hlh. pose proof (ao_len_ind Hok) as Hli.
  assert (∀ s, cellv hc' s = if decide (s = 8 * g + j) then Some hv else cellv hc s)
    as Hhc by (intros s; apply cellv_insert; lia).
  assert (∀ s, cellv ic' s = if decide (s = 8 * g + j) then Some v else cellv ic s)
    as Hic by (intros s; apply cellv_insert; lia).
  split.
  - split; [unfold hc'; by rewrite length_insert|unfold ic'; by rewrite length_insert| |].
    + intros s Hs. rewrite Hhc. case_decide; [by eexists; split; [|left]|by apply (ao_tag Hok)].
    + intros s t Hs. rewrite Hhc, Hic. case_decide; [by eauto|]. by apply (ao_index Hok).
  - intros g' j' Hg' Hj'. unfold v0_slot_at at 1, upd. rewrite Hhc, Hic. case_decide as E.
    + apply slot_number in E as [-> ->]; [|done..]. rewrite (decide_True _ _ (conj eq_refl eq_refl)).
      by rewrite !decide_False by (unfold V0_EMPTY_H7; done || lia).
    + rewrite decide_False; [done|]. intros [-> ->]. by apply E.
Qed.

(** Arrays whose tags are all the empty mark. *)
Lemma v0_memset_empty (G : GroupOps) ng hc ic :
  0 ≤ ng → Z.of_nat (length hc) = 8 * ng → Z.of_nat (length ic) = 8 * ng →
  ∃ h', arr_memset (Live hc) 0 V0_EMPTY_H7 (8 * ng) = Ok h' ∧
    slots_ok (SlotView := apart_view G) ng (mk_v0 h' (Live ic)) (λ _ _, SEmpty).
Proof.
  intros Hng Hlh Hli. unfold arr_memset.
  destruct (arr_sets_Ok hc 0 (replicate (Z.to_nat (8 * ng)) V0_EMPTY_H7))
    as (hc' & -> & Hlen & Hc); [lia|rewrite length_replicate; lia|].
  exists (Live hc'). split; [done|].
  assert (∀ s, 0 ≤ s < 8 * ng → cellv hc' s = Some V0_EMPTY_H7) as Htags.
  { intros s Hs. rewrite Hc, length_replicate, decide_True by lia.
    apply zlookup_Some. split; [lia|]. apply lookup_replicate_2. lia. }
  assert (arrays_ok ng hc' ic) as Hok.
  { split; [lia|done| |].
    - intros s Hs. exists V0_EMPTY_H7. split; [by apply Htags|by right].
    - intros s t Hs. rewrite Htags by done. by intros [= <-]. }
  exists hc', ic. split_and!; [done|done|]. intros g j Hg Hj.
  apply (v0_slot_at_empty ng); [done..|]. apply Htags. lia.
Qed.
End slots.

(** * The probe loop on a well-formed bin *)

Section search.
Context {C : BinConfig} {G : GroupOps} `{!ConfigLaws C} `{!GroupLawsV0 G}.
Context {El : Type} (Hash : El → Z) (Eq : El → El → bool) `{!KeyLaws Hash Eq}.
Implicit Types (b : hbin v0_slots El) (el e : El) (ng g j t i f : Z).
Implicit Types (ec : list (option El)) (dc hc ic : list (option Z)).

(** A bin whose arrays have the contents [hc] and [ic]. *)
Record apart_ok ng ec dc hc ic b : Prop := {
  pa_bin : bin_ok (K := apart G) Hash Eq ng ec dc (v0_slot_at hc ic) b;
  pa_groups : groups b = mk_v0 (Live hc) (Live ic);
  pa_arrays : arrays_ok ng hc ic;
  pa_els : els b = Live ec;
  pa_mask : groups_mask b = ng - 1;
  pa_bound : 0 ≤ els_bound b ≤ 4 * ng;
  pa_inv : probe_inv Hash Eq ng (v0_slot_at hc ic) (live_at ec dc (els_bound b)) (els_bound b)
}.
Arguments pa_bin {ng ec dc hc ic b} _.
Arguments pa_groups {ng ec dc hc ic b} _.
Arguments pa_arrays {ng ec dc hc ic b} _.
Arguments pa_els {ng ec dc hc ic b} _.
Arguments pa_mask {ng ec dc hc ic b} _.
Arguments pa_bound {ng ec dc hc ic b} _.
Arguments pa_inv {ng ec dc hc ic b} _.

Lemma apart_ok_view ng ec dc st b :
  bin_ok (K := apart G) Hash Eq ng ec dc st b →
  ∃ hc ic, apart_ok ng ec dc hc ic b ∧
    ∀ g j, 0 ≤ g < ng → 0 ≤ j < 8 → v0_slot_at hc ic g j = st g j.
Proof.
  intros Hok. pose proof (bo_slots Hok) as (hc & ic & Hb & Ha & Hst). exists hc, ic.
  split; [|done].
  assert (probe_inv Hash Eq ng (v0_slot_at hc ic) (live_at ec dc (els_bound b)) (els_bound b)).
  { eapply probe_inv_ext; [|done|exact (bo_inv Hok)]. intros. by rewrite Hst. }
  destruct Hok. split; try done. split; try done. by exists hc, ic.
Qed.

(** A live slot leads to an element. *)
Lemma v0_slot_element ng ec dc hc ic b g j t i :
  apart_ok ng ec dc hc ic b → 0 ≤ g < ng → 0 ≤ j < 8 → v0_slot_at hc ic g j = SLive t i →
  ∃ e, live_at ec dc (els_bound b) i = Some e ∧ cellv ec i = Some e.
Proof.
  intros Hok Hg Hj Hst. destruct (pi_live (pa_inv Hok) g j t i) as (e & d & He & _); [done..|].
  exists e. split; [done|]. by apply live_at_Some in He as (_ & _ & ?).
Qed.

(** The slot the loop remembers: none, or one whose element was deleted in a
    group of the probe sequence before [d]. *)
Definition remembered ng hc ic hash d f : Prop :=
  f = NO_SLOT ∨ ∃ d' j, 0 ≤ d' < d ∧ 0 ≤ j < 8 ∧ f = 8 * grp ng hash d' + j ∧
    v0_slot_at hc ic (grp ng hash d') j = SDead.

(** No slot with the tag of the hash has lost its element in the groups of
    the probe sequence before [d]. *)
Definition none_dead ng hc ic hash d : Prop :=
  ∀ d' j, 0 ≤ d' < d → 0 ≤ j < 8 → cellv hc (8 * grp ng hash d' + j) = Some (h7_of hash) →
    v0_slot_at hc ic (grp ng hash d') j ≠ SDead.

(** The tag and the index of a slot in use. *)
Lemma v0_used_slot ng ec dc hc ic b g j :
  apart_ok ng ec dc hc ic b → 0 ≤ g < ng → 0 ≤ j < 8 → v0_slot_at hc ic g j ≠ SEmpty →
  ∃ t i, cellv ic (8 * g + j) = Some i ∧ v0_slot_at hc ic g j = if decide (i = INDEX_DELETED) then SDead else SLive t i.
Proof.
  intros Hok Hg Hj Hst. destruct (ao_tag (pa_arrays Hok) (8 * g + j)) as (t & Ht & _); [lia|].
  assert (t ≠ V0_EMPTY_H7) as Hte.
  { intros ->. apply Hst. by apply (v0_slot_at_empty ng); [apply Hok| | |]. }
  destruct (ao_index (pa_arrays Hok) (8 * g + j) t) as (i & Hi); [lia|done|done|].
  exists t, i. split; [done|]. unfold v0_slot_at. by rewrite Ht, Hi, (decide_False _ _ Hte).
Qed.

(** The inner loop finds an equal element among the slots of a mask when
    there is one, and remembers the first deleted slot otherwise. *)
Lemma v0_match_loop_spec ng ec dc hc ic b hash d el m f fuel :
  let g := grp ng hash d in
  apart_ok ng ec dc hc ic b → 0 ≤ d → 0 ≤ m < 2 ^ 64 → (length (mask_bits m) < fuel)%nat →
  remembered ng hc ic hash (d + 1) f →
  (∀ j, j ∈ mask_slots m → 0 ≤ j < 8 ∧ v0_slot_at hc ic g j ≠ SEmpty) →
  (∃ f' j t i e, v0_match_loop Eq fuel b g el m f = Ok (f', Some (8 * g + j, i)) ∧
    0 ≤ j < 8 ∧ v0_slot_at hc ic g j = SLive t i ∧
    live_at ec dc (els_bound b) i = Some e ∧ Eq e el = true) ∨
  (∃ f', v0_match_loop Eq fuel b g el m f = Ok (f', None) ∧
    remembered ng hc ic hash (d + 1) f' ∧
    (f' = NO_SLOT → f = NO_SLOT ∧ ∀ j, j ∈ mask_slots m → v0_slot_at hc ic g j ≠ SDead) ∧
    ∀ j t i e, j ∈ mask_slots m → v0_slot_at hc ic g j = SLive t i →
      live_at ec dc (els_bound b) i = Some e → Eq e el = false).
Proof.
  intros g Hok Hd. pose proof (pi_ng (pa_inv Hok)) as Hng.
  pose proof (grp_range ng hash d Hng) as Hg. fold g in Hg.
  revert m f. induction fuel as [|fuel IH]; intros m f Hm Hfuel Hf Hused; [lia|].
  cbn [v0_match_loop]. destruct (Z.eqb_spec m 0) as [->|Hm0].
  { right. exists f. split; [done|]. split; [done|].
    split; [intros ->; split; [done|]|]; intros j *; by intros Hj%mask_slots_0. }
  destruct (mask_slots_step m) as (Hslots & Hm' & Hlen); [lia|].
  set (bit := mask_pos (ctzll m)) in *. set (m' := Z.land m (m - 1)) in *.
  assert (length (mask_bits m') < fuel)%nat as Hfuel' by lia.
  assert (∀ j, j ∈ mask_slots m' → 0 ≤ j < 8 ∧ v0_slot_at hc ic g j ≠ SEmpty) as Hused'
    by (intros j Hj; apply Hused; rewrite Hslots; set_solver).
  destruct (Hused bit) as (Hj & Hst); [rewrite Hslots; set_solver|].
  destruct (slot_small ng g bit Hg Hj (bo_max (pa_bin Hok))) as (-> & _ & Hsn).
  destruct (v0_used_slot ng ec dc hc ic b g bit Hok Hg Hj Hst) as (t & i & Hi & Hslot).
  rewrite (pa_groups Hok), (pa_els Hok). cbn [indexes].
  rewrite (proj2 (arr_get_Ok _ _ _) Hi). step_ok.
  destruct (Z.eqb_spec i INDEX_DELETED) as [Ei|Ei].
  - rewrite decide_True in Hslot by done.
    destruct (IH m' (if f =? NO_SLOT then 8 * g + bit else f)) as [?|(f' & E & Hf' & Hd' & Hno)];
      [done|done| |done|by left|].
    { destruct (Z.eqb_spec f NO_SLOT); [|done]. right. exists d, bit.
      split_and!; [lia..|done|done]. }
    right. exists f'. split; [done|]. split; [done|]. split.
    { intros [Hf0 _]%Hd'. destruct (Z.eqb_spec f NO_SLOT) in Hf0; lia. }
    intros j t' i' e' Hj' Hst'. rewrite Hslots in Hj'. apply elem_of_cons in Hj' as [->|Hj']; [congruence|by eapply Hno].
  - rewrite decide_False in Hslot by done.
    destruct (v0_slot_element _ _ _ _ _ _ _ _ _ _ Hok Hg Hj Hslot) as (e & He & Hc).
    rewrite (proj2 (arr_get_Ok _ _ _) Hc). step_ok.
    destruct (Eq e el) eqn:HE; [left; by exists f, bit, t, i, e|].
    destruct (IH m' f) as [?|(f' & E & Hf' & Hd' & Hno)]; [done..|by left|].
    right. exists f'. split; [done|]. split; [done|]. split.
    { intros [Hf0 Hnd]%Hd'. split; [done|]. intros j Hj'. rewrite Hslots in Hj'.
      apply elem_of_cons in Hj' as [->|Hj']; [by rewrite Hslot|by apply Hnd]. }
    intros j t' i' e' Hj' Hst' He'.
    rewrite Hslots in Hj'. apply elem_of_cons in Hj' as [->|Hj']; [|by eapply Hno].
    rewrite Hslot in Hst'. injection Hst' as <- <-. congruence.
Qed.

Lemma v0_group_load_Ok ng hc ic g :
  arrays_ok ng hc ic → 0 ≤ g < ng →
  ∃ tags, iht_group_load (Live hc) (8 * g) = Ok (group_of_tags tags) ∧
    length tags = 8%nat ∧ Forall valid_tag_v0 tags ∧
    ∀ j, 0 ≤ j < 8 → zlookup tags j = cellv hc (8 * g + j).
Proof.
  intros Hok Hg. destruct (cells_at_exists hc (8 * g) 8) as [tags Htags].
  { intros k Hk. destruct (ao_tag Hok (8 * g + k)) as (t & Ht & _); [lia|]. eauto. }
  assert (∀ j, 0 ≤ j < 8 → zlookup tags j = cellv hc (8 * g + j)) as Hz.
  { intros j Hj. symmetry. apply (cells_at_Some _ _ _ _ _ Htags). lia. }
  pose proof (length_cells_at _ _ _ _ Htags) as Hlen.
  exists tags. split_and!; [|done| |done].
  - unfold iht_group_load, group_of_tags.
    rewrite (load_int_Ok _ _ _ _ (int_of_bytes target tags)); [done|].
    unfold int_at. by rewrite Htags.
  - apply Forall_lookup. intros k t Hk. pose proof (lookup_lt_Some _ _ _ Hk).
    destruct (ao_tag Hok (8 * g + Z.of_nat k)) as (t' & Ht & Hv); [lia|].
    rewrite <-Hz in Ht by lia. apply zlookup_Some in Ht as [_ Ht].
    rewrite Nat2Z.id in Ht. by simplify_eq.
Qed.

Lemma v0_empty_mask_slot ng hc ic g tags :
  arrays_ok ng hc ic → 0 ≤ g < ng → length tags = 8%nat → Forall valid_tag_v0 tags →
  (∀ j, 0 ≤ j < 8 → zlookup tags j = cellv hc (8 * g + j)) →
  let emask := match_empty (group_of_tags tags) in
  (emask ≠ 0 → 0 ≤ mask_pos (ctzll emask) < 8 ∧
    v0_slot_at hc ic g (mask_pos (ctzll emask)) = SEmpty) ∧
  (emask = 0 → full (v0_slot_at hc ic) g).
Proof.
  intros Hok Hg Hlen Hv Hz emask.
  pose proof (match_empty_slots tags Hlen Hv) as Hs. fold emask in Hs.
  pose proof (match_empty_range tags Hlen Hv) as Hr. fold emask in Hr. split.
  - intros Hne. unfold mask_slots in Hs. rewrite mask_bits_step in Hs by lia.
    assert (mask_pos (ctzll emask) ∈ filter (λ j, zlookup tags j = Some V0_EMPTY_H7)
      (seqZ 0 8)) as He%list_elem_of_filter by (rewrite <-Hs; cbn; set_solver).
    destruct He as [He Hj%elem_of_seqZ]. split; [lia|].
    apply (v0_slot_at_empty ng); [done|done|lia|]. by rewrite <-Hz by lia.
  - intros E j Hj He. rewrite E in Hs. unfold mask_slots in Hs. rewrite mask_bits_0 in Hs.
    apply (v0_slot_at_empty ng) in He; [|done..]. rewrite <-Hz in He by done.
    assert (j ∈ filter (λ j, zlookup tags j = Some V0_EMPTY_H7) (seqZ 0 8)) as Hin
      by (apply list_elem_of_filter; split; [done|apply elem_of_seqZ; lia]).
    rewrite <-Hs in Hin. by apply elem_of_nil in Hin.
Qed.

(** Where the probe loop stops: at an equal element, or, when there is none,
    with a slot for an insertion that is not in use and has no empty slot in
    the groups before it.  An empty slot is taken only when no slot with the
    tag has lost its element up to there. *)
Inductive v0_stop ng ec dc hc ic b el : bool → Z → Z → Z → Prop :=
  | v0_stop_found g j t i e :
      0 ≤ g < ng → 0 ≤ j < 8 → v0_slot_at hc ic g j = SLive t i →
      live_at ec dc (els_bound b) i = Some e → Eq e el = true →
      v0_stop ng ec dc hc ic b el true g j i
  | v0_stop_absent d j :
      0 ≤ d < ng → 0 ≤ j < 8 →
      (∀ t i, v0_slot_at hc ic (grp ng (Hash el) d) j ≠ SLive t i) →
      (∀ d', 0 ≤ d' < d → full (v0_slot_at hc ic) (grp ng (Hash el) d')) →
      (∀ i e, live_at ec dc (els_bound b) i = Some e → Eq e el = false) →
      (v0_slot_at hc ic (grp ng (Hash el) d) j = SEmpty → none_dead ng hc ic (Hash el) (d + 1)) →
      v0_stop ng ec dc hc ic b el false (grp ng (Hash el) d) j 0.

Definition v0_stop_result n b act hv (found : bool) g j i : res (do_result v0_slots El) :=
  if found then v0_found n b (8 * g + j) i act
  else
    if action_code INSERT <=? action_code act then
      h7' ← arr_set (h7 (groups b)) (8 * g + j) hv;
      indexes' ← arr_set (indexes (groups b)) (8 * g + j) (ind_wrap (els_bound b));
      Ok (false, Some (els_bound b), size_wrap (n + 1),
          mk_hbin (size_wrap (els_bound b + 1)) (els b) (deleted b) (mk_v0 h7' indexes')
            (groups_mask b))
    else Ok (false, None, n, b).

Lemma v0_probe_loop_S fuel n b el act hv gi f :
  v0_probe_loop Eq (S fuel) n b el act hv gi f =
  (group ← iht_group_load (h7 (groups b)) (size_wrap (gi * GROUP_SIZE));
   '(f, m) ← v0_match_loop Eq 65 b gi el (match_mask group hv) f;
   match m with
   | Some (slot, el_ind) => v0_found n b slot el_ind act
   | None =>
       let emask := match_empty group in
       if negb (emask =? 0) then v0_absent n b gi emask hv f act
       else v0_probe_loop Eq fuel n b el act hv (Z.land (size_wrap (gi + 1)) (groups_mask b)) f
   end).
Proof. reflexivity. Qed.

(** The loop takes the remembered slot, or the first empty one of the group. *)
Lemma v0_absent_stop ng ec dc hc ic b el n act d j emask f :
  apart_ok ng ec dc hc ic b → 0 ≤ d < ng → j = mask_pos (ctzll emask) → 0 ≤ j < 8 →
  v0_slot_at hc ic (grp ng (Hash el) d) j = SEmpty →
  (∀ d', 0 ≤ d' < d → full (v0_slot_at hc ic) (grp ng (Hash el) d')) →
  (∀ i e, live_at ec dc (els_bound b) i = Some e → Eq e el = false) →
  remembered ng hc ic (Hash el) (d + 1) f →
  (f = NO_SLOT → none_dead ng hc ic (Hash el) (d + 1)) →
  ∃ d1 j1, v0_stop ng ec dc hc ic b el false (grp ng (Hash el) d1) j1 0 ∧
    v0_absent n b (grp ng (Hash el) d) emask (h7_of (Hash el)) f act =
    v0_stop_result n b act (h7_of (Hash el)) false (grp ng (Hash el) d1) j1 0.
Proof.
  intros Hok Hd -> Hj Hst Hfull Hno Hf Hnd. pose proof (pi_ng (pa_inv Hok)) as Hng.
  unfold v0_absent, v0_stop_result.
  destruct Hf as [->|(d' & j' & Hd' & Hj' & -> & Hdead)].
  - exists d, (mask_pos (ctzll emask)). 
    split; [constructor; try done; [intros; by rewrite Hst|by intros _; apply Hnd]|].
    rewrite Z.eqb_refl. cbn [negb].
    pose proof (grp_range ng (Hash el) d Hng) as Hg.
    by destruct (slot_small ng _ _ Hg Hj (bo_max (pa_bin Hok))) as (-> & _ & _).
  - exists d', j'. split.
    { constructor; try done; [lia|intros; by rewrite Hdead| |by rewrite Hdead].
      intros d2 Hd2. apply Hfull. lia. }
    pose proof (grp_range ng (Hash el) d' Hng) as Hg.
    destruct (slot_small ng _ _ Hg Hj' (bo_max (pa_bin Hok))) as (_ & _ & Hns).
    rewrite (proj2 (Z.eqb_neq _ _)) by lia. done.
Qed.

(** The slots that the loop has seen once it leaves group [d]. *)
Lemma v0_seen_next ng ec dc hc ic b el d tags :
  apart_ok ng ec dc hc ic b → 0 ≤ d → length tags = 8%nat → Forall valid_tag_v0 tags →
  (∀ j, 0 ≤ j < 8 → zlookup tags j = cellv hc (8 * grp ng (Hash el) d + j)) →
  let slots := mask_slots (match_mask (group_of_tags tags) (h7_of (Hash el))) in
  (∀ d' j t i e, 0 ≤ d' < d → 0 ≤ j < 8 → v0_slot_at hc ic (grp ng (Hash el) d') j = SLive t i →
     t = h7_of (Hash el) → live_at ec dc (els_bound b) i = Some e → Eq e el = false) →
  (∀ j t i e, j ∈ slots → v0_slot_at hc ic (grp ng (Hash el) d) j = SLive t i →
     live_at ec dc (els_bound b) i = Some e → Eq e el = false) →
  (∀ d' j t i e, 0 ≤ d' < d + 1 → 0 ≤ j < 8 → v0_slot_at hc ic (grp ng (Hash el) d') j = SLive t i →
     t = h7_of (Hash el) → live_at ec dc (els_bound b) i = Some e → Eq e el = false) ∧
  (none_dead ng hc ic (Hash el) d → (∀ j, j ∈ slots → v0_slot_at hc ic (grp ng (Hash el) d) j ≠ SDead) →
     none_dead ng hc ic (Hash el) (d + 1)).
Proof.
  intros Hok Hd Hlen Hv Hz slots Hno Hnone. pose proof (h7_range (Hash el)) as Hh. split.
  - intros d' j t i e Hd' Hj Hst -> He. destruct (decide (d' = d)) as [->|Hne].
    + apply (Hnone j (h7_of (Hash el)) i e); [|done|done].
      apply match_mask_complete; [done..|]. rewrite Hz by done.
      by apply v0_slot_at_live in Hst as [? _].
    + eapply (Hno d' j); [lia|done..].
  - intros Hnd Hg' d' j Hd' Hj Ht. destruct (decide (d' = d)) as [->|Hne].
    + apply Hg', match_mask_complete; [done..|]. by rewrite Hz.
    + apply Hnd; [lia|done|done].
Qed.

Lemma v0_probe_loop_spec ng ec dc hc ic b el n act fuel d D f :
  apart_ok ng ec dc hc ic b → 0 ≤ d ≤ D → D < ng →
  ¬ full (v0_slot_at hc ic) (grp ng (Hash el) D) → (Z.to_nat (D - d) < fuel)%nat →
  remembered ng hc ic (Hash el) d f → (f = NO_SLOT → none_dead ng hc ic (Hash el) d) →
  (∀ d', 0 ≤ d' < d → full (v0_slot_at hc ic) (grp ng (Hash el) d')) →
  (∀ d' j t i e, 0 ≤ d' < d → 0 ≤ j < 8 →
    v0_slot_at hc ic (grp ng (Hash el) d') j = SLive t i →
    t = h7_of (Hash el) → live_at ec dc (els_bound b) i = Some e → Eq e el = false) →
  ∃ found g j i, v0_stop ng ec dc hc ic b el found g j i ∧
    v0_probe_loop Eq fuel n b el act (h7_of (Hash el)) (grp ng (Hash el) d) f =
    v0_stop_result n b act (h7_of (Hash el)) found g j i.
Proof.
  intros Hok. revert d f.
  induction fuel as [|fuel IH]; intros d f Hd HD Hroom Hfuel Hf Hnd Hfull Hno; [lia|].
  pose proof (pi_ng (pa_inv Hok)) as Hng. pose proof (pa_arrays Hok) as Ha.
  pose proof (grp_range ng (Hash el) d Hng) as Hg. pose proof (h7_range (Hash el)) as Hh.
  rewrite v0_probe_loop_S.
  destruct (slot_small ng _ 0 Hg ltac:(lia) (bo_max (pa_bin Hok))) as (_ & -> & _).
  destruct (v0_group_load_Ok ng hc ic _ Ha Hg) as (tags & Hload & Hlen & Hv & Hz).
  rewrite (pa_groups Hok). cbn [h7]. rewrite Hload. step_ok.
  destruct (v0_match_loop_spec ng ec dc hc ic b (Hash el) d el
    (match_mask (group_of_tags tags) (h7_of (Hash el))) f 65)
    as [(f' & j & t & i & e & -> & Hj & Hst & He & HE)|(f' & -> & Hf' & Hnd' & Hnone)];
    [done|lia|by apply match_mask_range|..].
  { pose proof (length_mask_bits (match_mask (group_of_tags tags) (h7_of (Hash el)))). lia. }
  { destruct Hf as [->|(d' & j & ? & ?)]; [by left|]. right. exists d', j. split; [lia|done]. }
  { intros j Hj. destruct (match_mask_live tags (h7_of (Hash el)) j) as (t & Ht & Hr); [done..|].
    pose proof (zlookup_range _ _ _ Ht). split; [lia|]. rewrite Hz in Ht by lia.
    intros E. apply (v0_slot_at_empty ng) in E; [|done|done|lia]. rewrite Ht in E.
    injection E as ->. unfold V0_EMPTY_H7 in Hr. lia. }
  { step_ok. exists true, (grp ng (Hash el) d), j, i. split; [by econstructor|done]. }
  step_ok. destruct (v0_empty_mask_slot ng hc ic (grp ng (Hash el) d) tags) as [Hempty Hfullg];
    [done..|]. cbv zeta.
  destruct (v0_seen_next ng ec dc hc ic b el d tags Hok) as [Hno' Hnd1]; [lia|done..|].
  assert (f' = NO_SLOT → none_dead ng hc ic (Hash el) (d + 1)) as Hnd2
    by (intros [Ef Hg']%Hnd'; apply Hnd1; [by apply Hnd|done]).
  destruct (Z.eqb_spec (match_empty (group_of_tags tags)) 0) as [E|E]; cbn [negb].
  - assert (d ≠ D) by (intros ->; by apply Hroom, Hfullg).
    destruct (bo_pow (pa_bin Hok)) as (k & Hk & Ek).
    destruct (ng_bounds _ _ _ _ _ _ _ (pa_bin Hok)) as (_ & _ & Hsz).
    rewrite (pa_mask Hok), (probe_next ng k) by (done || lia).
    apply IH; [lia|done|done|lia|done|done| |done]. intros d' Hd'.
    destruct (decide (d' = d)) as [->|]; [by apply Hfullg|apply Hfull; lia].
  - destruct (Hempty E) as (Hj & Hst).
    destruct (v0_absent_stop ng ec dc hc ic b el n act d _ (match_empty (group_of_tags tags)) f'
      Hok ltac:(lia) eq_refl Hj Hst Hfull) as (d1 & j1 & Hstop & Er); [|done|done|].
    + eapply (search_complete _ _ ng (v0_slot_at hc ic) _ _ _ d (pa_inv Hok)); [lia| |].
      * intros Hfu. by eapply Hfu.
      * intros d' j t i e Hd'. apply Hno'. lia.
    + eexists false, _, j1, 0. split; [exact Hstop|exact Er].
Qed.

(** [v0_do_1] always stops: the fuel of one round over the groups is enough. *)
Lemma v0_do_1_stop ng ec dc hc ic b el n act :
  apart_ok ng ec dc hc ic b →
  ∃ found g j i, v0_stop ng ec dc hc ic b el found g j i ∧
    v0_do_1 Eq n b (Hash el) el act =
    v0_stop_result n b act (h7_of (Hash el)) found g j i.
Proof.
  intros Hok. pose proof (pa_inv Hok) as I. pose proof (pi_ng I).
  destruct (room_exists ng (v0_slot_at hc ic)) as (g & Hg & Hroom).
  { pose proof (pi_count I). pose proof (pa_bound Hok). lia. }
  destruct (grp_surj ng (Hash el) g Hg) as (D & HD & ->).
  destruct (bo_pow (pa_bin Hok)) as (k & Hk & Ek).
  destruct (ng_bounds _ _ _ _ _ _ _ (pa_bin Hok)) as (_ & _ & Hsz).
  unfold v0_do_1. rewrite (pa_mask Hok), (probe_home ng k) by (done || lia).
  eapply (v0_probe_loop_spec ng ec dc hc ic b el n act _ 0 D); [done|lia|lia|done|lia|by left| |lia|lia].
  intros _ d' j Hd'. lia.
Qed.

(** The answers of the probe loop on a well-formed bin. *)
Lemma v0_do_1_ok ng ec dc st b el n act :
  bin_ok (K := apart G) Hash Eq ng ec dc st b →
  (act = INSERT → els_bound b < 256 ^ Z.of_nat ind_bytes - 1) →
  do_1_spec (K := apart G) Hash Eq ng ec dc st b el n act (v0_do_1 Eq n b (Hash el) el act).
Proof.
  intros Hb Hlim. destruct (apart_ok_view _ _ _ _ _ Hb) as (hc & ic & Hok & Hst).
  destruct (ng_bounds _ _ _ _ _ _ _ Hb) as (Hng & Hmax & Hsz).
  destruct (v0_do_1_stop ng ec dc hc ic b el n act Hok) as (f & g & j & i & Hstop & ->).
  pose proof (pa_arrays Hok) as Ha. pose proof (pa_bound Hok) as Hbound.
  pose proof (ao_len Ha) as Hlh. pose proof (ao_len_ind Ha) as Hli.
  destruct Hstop as [g j t i e Hg Hj Hs He HE|d j Hd Hj Hs Hfull Hno _].
  - unfold v0_stop_result, v0_found. destruct (decide (act = DELETE)) as [->|Hact].
    + cbn [negb action_code Z.eqb Pos.eqb].
      pose proof (proj1 (live_at_Some _ _ _ _ _) He) as (Hi & _).
      destruct (mark_deleted_Ok (K := apart G) Hash Eq ng ec dc st b i Hb) as (byte & _ & _ & E);
        [lia|].
      cbn [slots apart] in E. rewrite E. step_ok.
      rewrite (pa_groups Hok). cbn [indexes h7]. rewrite arr_set_Ok by lia. step_ok.
      destruct (v0_delete_slot ng hc ic g j t i) as [Ha' Hslots]; [done..|].
      eapply (spec_delete (K := apart G) Hash Eq ng ec dc st b el n g j t i e);
        [done|done|by rewrite <-Hst|done|done|exact E|].
      eexists _, _. split; [done|]. split; [exact Ha'|]. intros g' j' Hg' Hj'.
      rewrite Hslots by done. unfold upd. case_decide; [done|]. by apply Hst.
    + assert (negb (action_code act =? action_code DELETE) = true) as -> by (by destruct act).
      by eapply (spec_present (K := apart G)).
  - unfold v0_stop_result. pose proof (grp_range ng (Hash el) d Hng) as Hg.
    destruct (decide (act = INSERT)) as [->|Hact].
    + specialize (Hlim eq_refl). pose proof size_fits.
      destruct (v0_insert_slot ng hc ic (grp ng (Hash el) d) j (h7_of (Hash el)) (els_bound b))
        as [Ha' Hslots]; [done..|apply h7_range|rewrite INDEX_DELETED_eq; lia|].
      cbn [action_code Z.leb Z.compare Pos.compare Pos.compare_cont].
      rewrite (pa_groups Hok). cbn [indexes h7]. rewrite !arr_set_Ok by lia. repeat step_ok.
      unfold ind_wrap. rewrite (Z.mod_small (els_bound b)) by lia.
      unfold size_wrap at 2. rewrite (Z.mod_small (els_bound b + 1)) by lia.
      eapply (spec_insert (K := apart G) Hash Eq ng ec dc st b el n d j); [done|done|done|..].
      * intros t i. by rewrite <-Hst.
      * intros d' Hd' j' Hj'. rewrite <-Hst by (done || by apply grp_range). by apply Hfull.
      * eexists _, _. split; [done|]. split; [exact Ha'|]. intros g' j' Hg' Hj'.
        rewrite Hslots by done. unfold upd. case_decide; [done|]. by apply Hst.
    + assert ((action_code INSERT <=? action_code act) = false) as -> by (by destruct act).
      by apply (spec_missing (K := apart G)).
Qed.
End search.
Arguments pa_bin {C G El Hash Eq ng ec dc hc ic b} _.
Arguments pa_groups {C G El Hash Eq ng ec dc hc ic b} _.
Arguments pa_arrays {C G El Hash Eq ng ec dc hc ic b} _.
Arguments pa_els {C G El Hash Eq ng ec dc hc ic b} _.
Arguments pa_mask {C G El Hash Eq ng ec dc hc ic b} _.
Arguments pa_bound {C G El Hash Eq ng ec dc hc ic b} _.
Arguments pa_inv {C G El Hash Eq ng ec dc hc ic b} _.

(** * The laws of a slot store *)

Section frame.
Context {C : BinConfig} {G : GroupOps} {El : Type} (Eq : El → El → bool).
Implicit Types (b : hbin v0_slots El).

Lemma v0_do_1_frame n b hash el act f r n' b' :
  v0_do_1 Eq n b hash el act = Ok (f, r, n', b') →
  els b' = els b ∧ groups_mask b' = groups_mask b ∧ (act ≠ DELETE → deleted b' = deleted b).
Proof.
  unfold v0_do_1. generalize (Z.to_nat (groups_mask b + 1)) as fuel,
    (Z.land (Z.shiftr hash 57) 0x7f) as hv,
    (Z.land (size_wrap (hash / GROUP_SIZE)) (groups_mask b)) as gi, NO_SLOT as fd.
  intros fuel hv. induction fuel as [|fuel IH]; intros gi fd; [done|]. rewrite v0_probe_loop_S.
  intros (gr & _ & E)%bind_Ok. apply bind_Ok in E as ([fd' [[s i]|]] & _ & E).
  - unfold v0_found in E. destruct (negb _) eqn:Ea in E; [by simplify_eq|].
    apply bind_Ok in E as (x & _ & E). apply bind_Ok in E as (y & _ & E).
    simplify_eq. split_and!; [done..|]. by destruct act.
  - cbv zeta in E. destruct (negb _) in E; [|by eapply IH].
    unfold v0_absent in E. destruct (_ <=? _) in E; [|by simplify_eq].
    apply bind_Ok in E as (x & _ & E). apply bind_Ok in E as (y & _ & E). by simplify_eq.
Qed.

Lemma v0_match_loop_deleted fuel b d gi el m fd :
  v0_match_loop Eq fuel (with_deleted b d) gi el m fd = v0_match_loop Eq fuel b gi el m fd.
Proof.
  revert m fd. induction fuel as [|fuel IH]; intros m fd; [done|]. cbn [v0_match_loop].
  case_match; [done|]. cbn [groups els with_deleted].
  destruct (arr_get _ _) as [i| |]; [|done..]. rewrite !ok_bind. case_match; [apply IH|].
  destruct (arr_get (els b) i) as [e| |]; [|done..]. rewrite !ok_bind. case_match; [done|]. apply IH.
Qed.

Lemma v0_do_1_deleted n b d hash el f r n' b' :
  v0_do_1 Eq n (with_deleted b d) hash el INSERT = Ok (f, r, n', b') →
  v0_do_1 Eq n b hash el INSERT = Ok (f, r, n', with_deleted b' (deleted b)).
Proof.
  unfold v0_do_1. cbn [groups_mask with_deleted].
  generalize (Z.to_nat (groups_mask b + 1)) as fuel, (Z.land (Z.shiftr hash 57) 0x7f) as hv,
    (Z.land (size_wrap (hash / GROUP_SIZE)) (groups_mask b)) as gi, NO_SLOT as fd.
  intros fuel hv. induction fuel as [|fuel IH]; intros gi fd; [done|].
  rewrite !v0_probe_loop_S. cbv zeta. cbn [groups with_deleted].
  destruct (iht_group_load _ _) as [g| |]; [|done..]. rewrite !ok_bind, v0_match_loop_deleted.
  destruct (v0_match_loop _ _ _ _ _ _ _) as [[fd' [[s i]|]]| |]; [| |done..]; rewrite !ok_bind.
  - unfold v0_found. cbn. intros [= <- <- <- <-]. by destruct b.
  - destruct (negb (match_empty g =? 0)); [|by apply IH].
    unfold v0_absent. cbn [action_code Z.leb Z.compare Pos.compare Pos.compare_cont groups
      with_deleted els els_bound groups_mask].
    destruct (arr_set (h7 _) _ _) as [g1| |]; [|done..]. rewrite !ok_bind.
    destruct (arr_set (indexes _) _ _) as [g2| |]; [|done..]. rewrite !ok_bind.
    by intros [= <- <- <- <-].
Qed.
End frame.

Section laws.
Context {C : BinConfig} {G : GroupOps} `{!ConfigLaws C}.

Lemma v0_alloc_Ok ng :
  0 ≤ ng → ∃ s, v0_alloc (8 * ng) = Ok s ∧
    slots_ok (SlotView := apart_view G) ng s (λ _ _, SEmpty).
Proof.
  intros Hng. unfold v0_alloc, malloc.
  destruct (v0_memset_empty G ng (replicate (Z.to_nat (8 * ng)) None)
    (replicate (Z.to_nat (8 * ng)) None)) as (h' & -> & Hs); [lia|rewrite length_replicate; lia..|].
  step_ok. by eexists.
Qed.

Lemma v0_realloc_Ok ng s st ng' :
  slots_ok (SlotView := apart_view G) ng s st → 0 ≤ ng' →
  ∃ s', v0_realloc s (8 * ng') = Ok s' ∧
    slots_ok (SlotView := apart_view G) ng' s' (λ _ _, SEmpty).
Proof.
  intros (hc & ic & -> & Ha & _) Hng. unfold v0_realloc, arr_realloc. cbn [h7 indexes]. step_ok.
  edestruct (v0_memset_empty G ng') as (h' & -> & Hs); [lia| | |].
  3:{ repeat step_ok. eexists. split; [done|exact Hs]. }
  all: rewrite length_app, length_take, length_replicate; lia.
Qed.

Lemma v0_clear_Ok ng s st :
  slots_ok (SlotView := apart_view G) ng s st → 0 < ng ≤ max_groups →
  ∃ s', v0_clear s (ng - 1) = Ok s' ∧
    slots_ok (SlotView := apart_view G) ng s' (λ _ _, SEmpty).
Proof.
  intros (hc & ic & -> & Ha & _) [Hng Hmax]. unfold v0_clear. cbn [h7 indexes].
  replace (ng - 1 + 1) with ng by lia. pose proof size_fits. unfold max_groups in Hmax.
  assert (0 < 256 ^ Z.of_nat ind_bytes) by (by apply Z.pow_pos_nonneg; lia).
  assert (8 * ng < 2 ^ size_bits) by dlia.
  unfold size_wrap, GROUP_SIZE. rewrite !Z.mod_small by (rewrite ?Z.mod_small; lia).
  rewrite (Z.mul_comm ng).
  destruct (v0_memset_empty G ng hc ic) as (h' & -> & Hs); [lia|apply Ha..|].
  step_ok. by eexists.
Qed.
End laws.

#[export] Instance apart_laws {C : BinConfig} (G : GroupOps) :
  ConfigLaws C → GroupLawsV0 G → SlotLaws C (apart G) (apart_view G).
Proof.
  intros HC HG. split.
  - intros ng k Ek Hk Hmax. apply v0_alloc_Ok. rewrite Ek. by apply Z.pow_nonneg.
  - intros ng s st ng' k Hs Ek Hk _. eapply v0_realloc_Ok; [done|].
    rewrite Ek. by apply Z.pow_nonneg.
  - intros ng s st. apply v0_clear_Ok.
  - intros ng s st (hc & ic & -> & _). by exists (mk_v0 Freed Freed).
  - intros s ->. done.
  - intros El Eq n b hash el act Hf Hm. cbn [bin_do_1 apart]. unfold v0_do_1.
    cbn [slots apart slots_freed apart_view] in *.
    destruct (Z.to_nat (groups_mask b + 1)) as [|k] eqn:En; [lia|].
    rewrite v0_probe_loop_S. unfold iht_group_load. by rewrite Hf.
  - intros El Hash Eq HK ng ec dc st b el n act. apply (v0_do_1_ok Hash Eq).
  - intros El Eq n b hash el act f r n' b'. apply v0_do_1_frame.
  - intros El Eq n b d hash el f r n' b'. apply v0_do_1_deleted.
Qed.

(** * Insertion after deletion *)

Section reinsert.
Context {C : BinConfig} {G : GroupOps} `{!ConfigLaws C} `{!GroupLawsV0 G}.
Context {El : Type} (Hash : El → Z) (Eq : El → El → bool) `{!KeyLaws Hash Eq}.
Implicit Types (b : hbin v0_slots El) (el e : El) (ng g j t i : Z).
Implicit Types (ec : list (option El)) (dc hc ic : list (option Z)).

(** Deleting an element leaves the tags alone; its slot keeps the tag of the
    hash and lies behind groups without empty slots. *)
Lemma v0_do_1_delete_slot ng ec dc hc ic b el i e n :
  apart_ok Hash Eq ng ec dc hc ic b → live_at ec dc (els_bound b) i = Some e → Eq e el = true →
  ∃ b1 dc1 ic1 d j, v0_do_1 Eq n b (Hash el) el DELETE = Ok (true, None, size_wrap (n - 1), b1) ∧
    apart_ok Hash Eq ng ec dc1 hc ic1 b1 ∧ els_bound b1 = els_bound b ∧
    (∀ i' e', live_at ec dc1 (els_bound b) i' = Some e' → Eq e' el = false) ∧
    0 ≤ d < ng ∧ 0 ≤ j < 8 ∧ v0_slot_at hc ic1 (grp ng (Hash el) d) j = SDead ∧
    cellv hc (8 * grp ng (Hash el) d + j) = Some (h7_of (Hash el)) ∧
    ∀ d', 0 ≤ d' < d → full (v0_slot_at hc ic1) (grp ng (Hash el) d').
Proof.
  intros Hok He HE. pose proof (pa_bin Hok) as Hb. pose proof (pa_inv Hok) as I.
  pose proof (pa_bound Hok) as Hbound.
  destruct (v0_do_1_stop Hash Eq ng ec dc hc ic b el n DELETE Hok) as (f & g & j & i' & Hstop & ->).
  destruct Hstop as [g j t i' e' Hg Hj Hst He' HE'|d j Hd Hj Hs Hfull Hno _];
    [|by rewrite (Hno i e He) in HE].
  pose proof (proj1 (live_at_Some _ _ _ _ _) He') as (Hi & _).
  destruct (mark_deleted_Ok (K := apart G) Hash Eq ng ec dc _ b i' Hb) as (byte & _ & _ & Em); [lia|].
  cbn [slots apart] in Em. unfold v0_stop_result, v0_found. cbn [negb action_code Z.eqb Pos.eqb].
  rewrite Em. step_ok. rewrite (pa_groups Hok). cbn [indexes h7].
  pose proof (ao_len_ind (pa_arrays Hok)). rewrite arr_set_Ok by lia. step_ok.
  destruct (v0_delete_slot ng hc ic g j t i' (pa_arrays Hok)) as [Ha1 Hslots]; [done..|].
  set (ic1 := <[_ := _]> ic) in *.
  assert (slots_ok (SlotView := apart_view G) ng (mk_v0 (Live hc) (Live ic1))
    (upd (v0_slot_at hc ic) g j SDead)) as Hs1 by (by exists hc, ic1).
  destruct (delete_ok (K := apart G) Hash Eq ng ec dc _ b g j t i' e' el _ _ Hb Hg Hj Hst He' HE' Em Hs1)
    as (dc1 & Hok1 & Hlist).
  destruct (apart_ok_view Hash Eq _ _ _ _ _ Hok1) as (hc2 & ic2 & Hok2 & Hst2).
  pose proof (pa_groups Hok2) as E2. cbn [groups] in E2. injection E2 as <- <-.
  destruct (pi_live I g j t i') as (e2 & d & He2 & -> & Hd & -> & Hfull); [done..|].
  rewrite He' in He2. injection He2 as <-.
  rewrite (key_hash (Hash := Hash) (Eq := Eq) e' el HE') in *.
  eexists _, dc1, ic1, d, j. split; [done|]. split; [exact Hok2|]. split; [done|]. split_and!; try lia.
  - intros i2 e2 He2. assert (e2 ∈ live_list ec dc1 (els_bound b)) as Hin
      by (apply elem_of_live_list; eauto).
    cbn [slots apart] in Hlist. rewrite Hlist in Hin. by apply list_elem_of_filter in Hin as [? _].
  - rewrite Hslots by done. apply upd_eq.
  - by apply v0_slot_at_live in Hst as [? _].
  - intros d' Hd' j' Hj'. rewrite Hslots by (done || by apply grp_range, (pi_ng I)).
    apply full_upd; [done| |done]. by apply Hfull.
Qed.

(** The insertion of an element with the hash of one just deleted uses up no
    empty slot: the slots marked empty are the same as before the deletion. *)
Lemma v0_reinsert_tags ng ec dc st b el i e n :
  bin_ok (K := apart G) Hash Eq ng ec dc st b →
  live_at ec dc (els_bound b) i = Some e → Eq e el = true →
  els_bound b < 256 ^ Z.of_nat ind_bytes - 1 →
  ∃ b1 b2, v0_do_1 Eq n b (Hash el) el DELETE = Ok (true, None, size_wrap (n - 1), b1) ∧
    els_bound b1 = els_bound b ∧ groups_mask b1 = groups_mask b ∧
    v0_do_1 Eq (size_wrap (n - 1)) b1 (Hash el) el INSERT =
      Ok (false, Some (els_bound b), size_wrap (size_wrap (n - 1) + 1), b2) ∧
    ∀ s, arr_get (h7 (groups b2)) s = Ok V0_EMPTY_H7 ↔ arr_get (h7 (groups b)) s = Ok V0_EMPTY_H7.
Proof.
  intros Hb He HE Hlim. destruct (apart_ok_view Hash Eq _ _ _ _ _ Hb) as (hc & ic & Hok & _).
  destruct (v0_do_1_delete_slot ng ec dc hc ic b el i e n Hok He HE)
    as (b1 & dc1 & ic1 & d & j & E1 & Hok1 & Hbd & Hno & Hd & Hj & Hdead & Htag & Hfull).
  pose proof (pi_ng (pa_inv Hok)) as Hng.
  exists b1. destruct (v0_do_1_stop Hash Eq ng ec dc1 hc ic1 b1 el (size_wrap (n - 1)) INSERT Hok1)
    as (f & g & j1 & i1 & Hstop & E2).
  destruct Hstop as [g j1 t i1 e1 Hg Hj1 Hs He1 HE1|d1 j1 Hd1 Hj1 Hs Hfull1 Hno1 Hre].
  { rewrite Hbd in He1. by rewrite (Hno i1 e1 He1) in HE1. }
  pose proof (grp_range ng (Hash el) d1 Hng) as Hg1.
  assert (v0_slot_at hc ic1 (grp ng (Hash el) d1) j1 ≠ SEmpty) as Hne.
  { intros Hem. destruct (decide (d ≤ d1)).
    - apply (Hre Hem d j); [lia|done|done|done].
    - apply (Hfull d1 ltac:(lia) j1 Hj1 Hem). }
  pose proof (ao_len (pa_arrays Hok1)) as Hlh. pose proof (ao_len_ind (pa_arrays Hok1)) as Hli.
  rewrite E2. unfold v0_stop_result. cbn [action_code Z.leb Z.compare Pos.compare Pos.compare_cont].
  rewrite (pa_groups Hok1), (pa_groups Hok). cbn [h7 indexes]. rewrite !arr_set_Ok by lia.
  repeat step_ok. eexists. rewrite Hbd. split; [done|]. split; [done|].
  split; [by rewrite (pa_mask Hok1), (pa_mask Hok)|]. split; [done|].
  intros s. cbn [groups h7]. rewrite !arr_get_Ok, cellv_insert by lia. case_decide as Es; [|done].
  rewrite Es. pose proof (h7_range (Hash el)). split; intros Ht.
  - injection Ht as Ht. unfold V0_EMPTY_H7 in Ht. lia.
  - exfalso. apply Hne. by apply (v0_slot_at_empty ng); [apply Hok1| | |].
Qed.
End reinsert.
