(* ===== verification/Ihtab.v ===== *)
(** Model of ihtab.h: the functions the macro [DEFINE_IHT (El, Hash, Eq)]
    generates, for a 64-bit target ([size_t] and [unsigned long] of 64 bits).
    Pointers to elements are indices into the element array; [NULL] is [None].
    Allocation succeeds, as the code assumes.

    The functions are the same in both versions of the header, which differ in
    the slot store they use: [IhtabV0] has the instances for ihtab-v0.h. *)

From S2P Require Import Prelude Bits Groups Probe Spec Store.

(** [iht_ind_t] is [uint32_t], [iht_size_t] is [unsigned long]. *)
#[export] Instance iht_config : BinConfig := { ind_bytes := 4; size_bits := 64 }.

Definition IHT_LF_FACTOR : Z := 1.
Definition IHT_LF_DIVISOR : Z := 2.

Record iht (S El : Type) := mk_iht { els_num : Z; bin : hbin S El }.
Arguments mk_iht {S El} _ _.
Arguments els_num {S El} _.
Arguments bin {S El} _.

Record iht_iter := mk_iter { el_idx : Z; ptr : option Z }.

Section ihtab.
Context {K : SlotStore}.
Context {El : Type} (Hash : El → Z) (Eq : El → El → bool).
Implicit Types (t : iht slots El) (b : hbin slots El) (el : El) (it : iht_iter).

Definition iht_destroy_bin b : res (hbin slots El) :=
  els' ← arr_free (els b);
  deleted' ← arr_free (deleted b);
  groups' ← slots_free (groups b);
  Ok (mk_hbin (els_bound b) els' deleted' groups' (groups_mask b)).

Definition iht_do_1 (t_els_num : Z) b el (act : action) : res (do_result slots El) :=
  bin_do_1 Eq t_els_num b (Hash el) el act.

(** The fresh bin that [iht_rebuild] and [iht_create] set up. *)
Definition iht_alloc_bin (indexes_size els_size : Z) : res (hbin slots El) :=
  let del_bytes := u64 (els_size + 7) / 8 in
  groups' ← slots_alloc indexes_size;
  Ok (mk_hbin 0 (malloc els_size) (calloc 0 del_bytes) groups'
        (u64 (indexes_size / IHT_GROUP_SIZE - 1))).

(** The sizes [iht_rebuild] chooses: the same or doubled. *)
Definition iht_rebuild_sizes t : Z * Z :=
  let indexes_size := u64 (u64 (groups_mask (bin t) + 1) * IHT_GROUP_SIZE) in
  let els_size := u64 (indexes_size * IHT_LF_FACTOR) / IHT_LF_DIVISOR in
  if u64 (IHT_LF_FACTOR * indexes_size) <=? u64 (2 * IHT_LF_DIVISOR * els_num t) then
    let indexes_size := u64 (indexes_size * 2) in
    (indexes_size, u64 (indexes_size * IHT_LF_FACTOR) / IHT_LF_DIVISOR)
  else (indexes_size, els_size).

(** The body of the copying loop of [iht_rebuild]; [t->els_num] is counted
    up by [iht_do_1] and restored afterwards. *)
Definition iht_rebuild_body (old : hbin slots El) (i : Z) (s : Z * hbin slots El) : res (Z * hbin slots El) :=
  let '(num, rb) := s in
  del ← is_deleted old i;
  if negb del then
    el ← arr_get (els old) i;
    '(_, r, num', rb') ← iht_do_1 num rb el INSERT;
    match r with
    | Some p => rb'' ← store_el rb' p el; Ok (num', rb'')
    | None => UB Uninitialised
    end
  else Ok (num, rb).

Definition iht_rebuild t : res (iht slots El) :=
  let '(indexes_size, els_size) := iht_rebuild_sizes t in
  rb ← iht_alloc_bin indexes_size els_size;
  let bound := els_bound (bin t) in
  let saved := els_num t in
  '(_, rb') ← for_res 0 bound (iht_rebuild_body (bin t)) (els_num t, rb);
  _ ← iht_destroy_bin (bin t);
  Ok (mk_iht saved rb').

(** [while (indexes_size * IHT_LF_FACTOR / IHT_LF_DIVISOR < min_size)
    indexes_size *= 2;] *)
Fixpoint iht_create_size (fuel : nat) (indexes_size min_size : Z) : res Z :=
  match fuel with
  | O => Timeout
  | S fuel =>
      if u64 (indexes_size * IHT_LF_FACTOR) / IHT_LF_DIVISOR <? min_size
      then iht_create_size fuel (u64 (indexes_size * 2)) min_size
      else Ok indexes_size
  end.

Definition iht_create (min_size : Z) : res (iht slots El) :=
  indexes_size ← iht_create_size 64 IHT_GROUP_SIZE min_size;
  let els_size := u64 (indexes_size * IHT_LF_FACTOR) / IHT_LF_DIVISOR in
  b ← iht_alloc_bin indexes_size els_size;
  Ok (mk_iht 0 b).

Definition iht_destroy t : res (iht slots El) :=
  b ← iht_destroy_bin (bin t); Ok (mk_iht (els_num t) b).

(** The capacity check of [iht_perform]. *)
Definition iht_make_room t : res (iht slots El) :=
  let indexes_size := u64 (u64 (groups_mask (bin t) + 1) * IHT_GROUP_SIZE) in
  let els_size := u64 (u64 (indexes_size * IHT_LF_FACTOR) / IHT_LF_DIVISOR - 1) in
  if els_size <=? els_bound (bin t) then iht_rebuild t else Ok t.

Definition iht_perform t el (act : action) : res (bool * option Z * iht slots El) :=
  t1 ← (if action_code INSERT <=? action_code act then iht_make_room t else Ok t);
  '(found, r, num, b) ← iht_do_1 (els_num t1) (bin t1) el act;
  Ok (found, r, mk_iht num b).

Definition iht_els_count t : Z := els_num t.

Definition iht_size t : Z :=
  u64 (u64 (u64 (groups_mask (bin t) + 1) * IHT_GROUP_SIZE) * IHT_LF_FACTOR) / IHT_LF_DIVISOR.

(** The loop of [iht_iter_advance]; every round moves [el_idx] up towards
    [els_bound], the fuel counts the rounds that are left. *)
Fixpoint iht_iter_loop (fuel : nat) t (idx : Z) : res iht_iter :=
  if idx <? els_bound (bin t) then
    match fuel with
    | O => Timeout
    | S fuel =>
        del ← is_deleted (bin t) idx;
        if negb del then Ok (mk_iter idx (Some idx))
        else iht_iter_loop fuel t (u64 (idx + 1))
    end
  else Ok (mk_iter idx None).

Definition iht_iter_advance t it : res iht_iter :=
  iht_iter_loop (Z.to_nat (els_bound (bin t) - el_idx it)) t (el_idx it).

Definition iht_iter_begin t : res iht_iter := iht_iter_advance t (mk_iter 0 None).

Definition iht_iter_valid it : bool :=
  match ptr it with Some _ => true | None => false end.

Definition iht_iter_next t it : res iht_iter :=
  iht_iter_advance t (mk_iter (u64 (el_idx it + 1)) (ptr it)).

(** ** The ways a program uses the table (README.md, "C Usage") *)

(** [*slot = e;] *)
Definition iht_write t (slot : Z) el : res (iht slots El) :=
  b ← store_el (bin t) slot el; Ok (mk_iht (els_num t) b).

(** [if (!iht_perform (&t, &e, IHT_INSERT, &slot)) *slot = e;] *)
Definition iht_insert t el : res (bool * iht slots El) :=
  '(found, r, t') ← iht_perform t el INSERT;
  if (found : bool) then Ok (true, t')
  else match r with
       | Some slot => t'' ← iht_write t' slot el; Ok (false, t'')
       | None => UB Uninitialised
       end.

(** [iht_perform (&t, &e, IHT_INSERT, &slot); *slot = e;] *)
Definition iht_replace t el : res (bool * iht slots El) :=
  '(found, r, t') ← iht_perform t el INSERT;
  match r with
  | Some slot => t'' ← iht_write t' slot el; Ok (found, t'')
  | None => UB Uninitialised
  end.

(** [if (iht_perform (&t, &key, IHT_FIND, &slot)) ... *slot ...] *)
Definition iht_find t el : res (option El) :=
  '(found, r, _) ← iht_perform t el FIND;
  if (found : bool) then match r with
    | Some slot => e ← arr_get (els (bin t)) slot; Ok (Some e)
    | None => UB Uninitialised
    end
  else Ok None.

Definition iht_delete t el : res (bool * iht slots El) :=
  '(found, _, t') ← iht_perform t el DELETE; Ok (found, t').

(** [while (iht_iter_valid (&it)) { ... *it.ptr ...; iht_iter_next (&t, &it); }]
    collecting the elements. *)
Fixpoint iht_collect (fuel : nat) t it : res (list El) :=
  match ptr it with
  | None => Ok []
  | Some p =>
      match fuel with
      | O => Timeout
      | S fuel =>
          e ← arr_get (els (bin t)) p;
          it' ← iht_iter_next t it;
          rest ← iht_collect fuel t it';
          Ok (e :: rest)
      end
  end.

Definition iht_elements t : res (list El) :=
  it ← iht_iter_begin t; iht_collect (Z.to_nat (els_bound (bin t))) t it.
End ihtab.
