(* ===== verification/IhtabCorrect.v ===== *)
(** Correctness of ihtab.h.  A table represents the list of its elements in
    insertion order; every operation is shown to return normally (no access
    outside an array, to uninitialised or freed memory, no loop without end)
    and to act on that list as its specification says. *)

From S2P Require Import Prelude Bits Groups Probe Spec Store Ihtab.

#[export] Instance iht_config_laws : ConfigLaws iht_config.
Proof. by split; cbn; try lia. Qed.

Lemma iht_max_groups : max_groups (C := iht_config) = 2 ^ 30.
Proof. reflexivity. Qed.

Section correct.
Context {K : SlotStore} {V : SlotView K} `{!SlotLaws iht_config K V}.
Context {El : Type} (Hash : El → Z) (Eq : El → El → bool) `{!KeyLaws Hash Eq}.
Implicit Types (t : iht slots El) (b : hbin slots El) (el e : El) (l : list El) (ng i : Z).

(** The table [t] with [ng] groups is well-formed and holds the elements [l]. *)
Definition iht_sized ng t l : Prop :=
  bin_rep (C := iht_config) Hash Eq ng (bin t) l ∧
    els_num t = Z.of_nat (length l) ∧ els_bound (bin t) ≤ 4 * ng - 1.

(** The table [t] is well-formed and holds the elements [l]. *)
Definition iht_rep t l : Prop := ∃ ng, iht_sized ng t l.

(** The number of groups after a request on a table of [l]: it is doubled only
    if a quarter of the slots have elements. *)
Definition resized ng ng' l : Prop := ng' = ng ∨ ng' = 2 * ng ∧ 2 * ng ≤ Z.of_nat (length l).

Lemma bin_rep_facts ng b l :
  bin_rep Hash Eq ng b l →
  0 < ng ≤ 2 ^ 30 ∧ groups_mask b = ng - 1 ∧ Z.of_nat (length l) ≤ els_bound b ≤ 4 * ng.
Proof.
  intros (ec & dc & st & Hok & ->). pose proof (bo_bound Hok).
  pose proof (bo_max Hok) as Hmax. rewrite iht_max_groups in Hmax.
  pose proof (pi_ng (bo_inv Hok)).
  pose proof (length_live_list ec dc (els_bound b)).
  split_and!; try lia. apply (bo_mask Hok).
Qed.

(** A bin with a free index below the last one can number another element. *)
Lemma bin_rep_limit ng b l :
  bin_rep Hash Eq ng b l → els_bound b < 4 * ng - 1 →
  els_bound b < 256 ^ Z.of_nat (ind_bytes (BinConfig := iht_config)) - 1.
Proof.
  intros (? & _ & _)%bin_rep_facts Hlt.
  change (256 ^ Z.of_nat ind_bytes) with (2 ^ 32). lia.
Qed.

(** The capacity of a table, and its test for a rebuild. *)
Lemma iht_size_eq t ng :
  groups_mask (bin t) = ng - 1 → 0 < ng ≤ 2 ^ 30 → iht_size t = 4 * ng.
Proof.
  intros Hmask Hng. unfold iht_size, IHT_GROUP_SIZE, IHT_LF_FACTOR, IHT_LF_DIVISOR.
  rewrite Hmask. replace (ng - 1 + 1) with ng by lia. wrap_small. dlia.
Qed.

Lemma iht_make_room_eq t ng :
  groups_mask (bin t) = ng - 1 → 0 < ng ≤ 2 ^ 30 →
  iht_make_room Hash Eq t =
  if 4 * ng - 1 <=? els_bound (bin t) then iht_rebuild Hash Eq t else Ok t.
Proof.
  intros Hmask Hng. unfold iht_make_room, IHT_GROUP_SIZE, IHT_LF_FACTOR, IHT_LF_DIVISOR.
  rewrite Hmask. replace (ng - 1 + 1) with ng by lia. wrap_small.
  replace (ng * 8 * 1 / 2) with (4 * ng) by dlia. by wrap_small.
Qed.

(** ** Creation *)

Lemma iht_alloc_bin_Ok ng k :
  ng = 2 ^ k → 0 ≤ k → ng ≤ 2 ^ 30 →
  ∃ b, iht_alloc_bin (8 * ng) (4 * ng) = Ok b ∧ bin_rep Hash Eq ng b [] ∧
    els_bound b = 0 ∧ groups_mask b = ng - 1.
Proof.
  intros Ek Hk Hmax. assert (0 < ng) by (rewrite Ek; by apply Z.pow_pos_nonneg).
  unfold iht_alloc_bin, IHT_GROUP_SIZE. replace (8 * ng / 8) with ng by dlia.
  unfold u64. rewrite !Z.mod_small by lia.
  destruct (slots_alloc_ok ng k) as (s & -> & Hs); [done..|by rewrite iht_max_groups|].
  step_ok. eexists. split; [done|]. split; [|done]. eexists _, _, _. split.
  - apply (bin_ok_init Hash Eq ng k); [done|done|by rewrite iht_max_groups| |done].
    rewrite length_replicate. lia.
  - done.
Qed.

(** The size loop stops at the least power of two that is large enough. *)
Lemma iht_create_size_Ok n k min_size :
  0 ≤ k → k + Z.of_nat n ≤ 60 → min_size ≤ 4 * 2 ^ (k + Z.of_nat n) →
  ∃ k', k ≤ k' ≤ k + Z.of_nat n ∧ min_size ≤ 4 * 2 ^ k' ∧
    (k' = k ∨ 2 * 2 ^ k' < min_size) ∧
    ∀ fuel, (n < fuel)%nat → iht_create_size fuel (8 * 2 ^ k) min_size = Ok (8 * 2 ^ k').
Proof.
  revert k. induction n as [|n IH]; intros k Hk Hn Hmin.
  - exists k. rewrite Z.add_0_r in *. split_and!; [lia..|done|by left|].
    intros [|fuel] Hfuel; [lia|]. cbn [iht_create_size].
    assert (2 ^ k ≤ 2 ^ 60) by (apply Z.pow_le_mono_r; lia).
    assert (0 < 2 ^ k) by (apply Z.pow_pos_nonneg; lia).
    unfold IHT_LF_FACTOR, IHT_LF_DIVISOR, u64. rewrite Z.mod_small by lia.
    replace (8 * 2 ^ k * 1 / 2) with (4 * 2 ^ k) by dlia.
    destruct (Z.ltb_spec (4 * 2 ^ k) min_size); [lia|done].
  - assert (2 ^ k ≤ 2 ^ 59) by (apply Z.pow_le_mono_r; lia).
    assert (0 < 2 ^ k) by (apply Z.pow_pos_nonneg; lia).
    destruct (IH (k + 1)) as (k' & Hk' & Hmin' & Hleast & Hres); [lia..| |].
    { by replace (k + 1 + Z.of_nat n) with (k + Z.of_nat (S n)) by lia. }
    destruct (Z.ltb_spec (4 * 2 ^ k) min_size) as [Hlt|Hge].
    + exists k'. split_and!; [lia..|done| |].
      { right. destruct Hleast as [->|]; [|done]. rewrite Z.pow_add_r by lia. lia. }
      intros [|fuel] Hfuel; [lia|].
      cbn [iht_create_size]. unfold IHT_LF_FACTOR, IHT_LF_DIVISOR, u64.
      rewrite !Z.mod_small by lia. replace (8 * 2 ^ k * 1 / 2) with (4 * 2 ^ k) by dlia.
      rewrite (proj2 (Z.ltb_lt _ _) Hlt).
      rewrite <-(Hres fuel) by lia. f_equal. rewrite Z.pow_add_r by lia. lia.
    + exists k. split_and!; [lia..|done|by left|]. intros [|fuel] Hfuel; [lia|].
      cbn [iht_create_size]. unfold IHT_LF_FACTOR, IHT_LF_DIVISOR, u64.
      rewrite !Z.mod_small by lia. replace (8 * 2 ^ k * 1 / 2) with (4 * 2 ^ k) by dlia.
      destruct (Z.ltb_spec (4 * 2 ^ k) min_size); [lia|done].
Qed.

(** Above 2^62 the doubled size wraps around to 0 before it is reached. *)
Lemma iht_create_size_wraps fuel s min_size :
  2 ^ 62 < min_size → (s = 0 ∨ ∃ k, 0 ≤ k ≤ 63 ∧ s = 2 ^ k) →
  iht_create_size fuel s min_size = Timeout.
Proof.
  intros Hmin. revert s. induction fuel as [|fuel IH]; intros s Hs; [done|].
  assert (0 ≤ s ≤ 2 ^ 63) as Hr.
  { destruct Hs as [->|(k & Hk & ->)]; [lia|].
    split; [by apply Z.pow_nonneg|]. apply Z.pow_le_mono_r; lia. }
  cbn [iht_create_size]. unfold IHT_LF_FACTOR, IHT_LF_DIVISOR, u64.
  rewrite Z.mod_small by lia.
  destruct (Z.ltb_spec (s * 1 / 2) min_size) as [_|Hge]; [|dlia]. apply IH.
  destruct Hs as [->|(k & Hk & ->)]; [by left|].
  destruct (decide (k = 63)) as [->|]; [by left|]. right. exists (k + 1).
  split; [lia|]. rewrite Z.mul_comm, <-Z.pow_succ_r by lia.
  rewrite Z.mod_small; [by rewrite Z.add_1_r|].
  split; [by apply Z.pow_nonneg|]. apply Z.pow_lt_mono_r; lia.
Qed.

Lemma iht_create_Ok min_size :
  0 ≤ min_size ≤ 2 ^ 32 →
  ∃ t, iht_create min_size = Ok t ∧ iht_rep t [] ∧ min_size ≤ iht_size t ∧
    (iht_size t = 4 ∨ iht_size t < 2 * min_size).
Proof.
  intros Hmin. destruct (iht_create_size_Ok 30 0 min_size) as (k & Hk & Hmin' & Hleast & Hres);
    [lia..|cbn; lia|].
  assert (2 ^ k ≤ 2 ^ 30) by (apply Z.pow_le_mono_r; lia).
  assert (0 < 2 ^ k) by (apply Z.pow_pos_nonneg; lia).
  unfold iht_create. change IHT_GROUP_SIZE with (8 * 2 ^ 0). rewrite Hres by lia.
  step_ok. cbv zeta. unfold IHT_LF_FACTOR, IHT_LF_DIVISOR, u64 at 1.
  rewrite Z.mod_small by lia. replace (8 * 2 ^ k * 1 / 2) with (4 * 2 ^ k) by dlia.
  destruct (iht_alloc_bin_Ok (2 ^ k) k) as (b & -> & Hb & Hbound & Hmask); [done|lia..|].
  step_ok. eexists. split; [done|]. split.
  - exists (2 ^ k). unfold iht_sized. cbn [bin els_num length]. split_and!; [done..|lia].
  - rewrite (iht_size_eq _ (2 ^ k)) by (done || lia). split; [done|]. destruct Hleast as [->|]; [by left|right; lia].
Qed.

(** ** Rebuilding *)

(** The new capacity leaves room for an insertion. *)
Lemma iht_rebuild_sizes_Ok t l ng :
  bin_rep Hash Eq ng (bin t) l → els_num t = Z.of_nat (length l) →
  els_bound (bin t) ≤ 4 * ng - 1 → Z.of_nat (length l) < 2 ^ 31 →
  ∃ ng' k, ng' = 2 ^ k ∧ 0 ≤ k ∧ ng' ≤ 2 ^ 30 ∧ Z.of_nat (length l) ≤ 4 * ng' - 2 ∧
    iht_rebuild_sizes t = (8 * ng', 4 * ng') ∧ resized ng ng' l.
Proof.
  intros Hb Hnum Hbound Hl. destruct (bin_rep_facts _ _ _ Hb) as (Hng & Hmask & Hlen).
  assert (∃ k, 0 ≤ k ∧ ng = 2 ^ k) as (k & Hk & Ek)
    by (destruct Hb as (ec & dc & st & Hok & _); apply Hok).
  unfold iht_rebuild_sizes, IHT_GROUP_SIZE, IHT_LF_FACTOR, IHT_LF_DIVISOR.
  rewrite Hmask, Hnum. replace (ng - 1 + 1) with ng by lia. wrap_small.
  destruct (Z.leb_spec (1 * (ng * 8)) (2 * 2 * Z.of_nat (length l))) as [Hgrow|Hsame].
  - exists (2 * ng), (k + 1). rewrite Z.pow_add_r, <-Ek by lia.
    assert (2 * ng ≤ 2 ^ 30).
    { assert (k < 30) by (apply (Z.pow_lt_mono_r_iff 2); lia).
      rewrite Ek, <-Z.pow_succ_r by lia. apply Z.pow_le_mono_r; lia. }
    split_and!; [lia..| |right; split; [done|lia]]. f_equal; [lia|]. dlia.
  - exists ng, k. split_and!; [done|lia..| |by left]. f_equal; [lia|]. dlia.
Qed.

(** Copying the element with index [i] extends the new bin by it, when it
    is not deleted. *)
Lemma iht_rebuild_step ng ec dc st old ng' i num rb :
  bin_ok Hash Eq ng ec dc st old → 0 ≤ i < els_bound old →
  let live := live_at ec dc (els_bound old) in
  let l := live_list ec dc (els_bound old) in
  bin_rep Hash Eq ng' rb (omap live (seqZ 0 i)) →
  els_bound rb = Z.of_nat (length (omap live (seqZ 0 i))) →
  Z.of_nat (length l) < 4 * ng' - 1 →
  ∃ num' rb', iht_rebuild_body Hash Eq old i (num, rb) = Ok (num', rb') ∧
    bin_rep Hash Eq ng' rb' (omap live (seqZ 0 (i + 1))) ∧
    els_bound rb' = Z.of_nat (length (omap live (seqZ 0 (i + 1)))).
Proof.
  intros Hok Hi live l Hrb Hbound Hroom. pose proof (bo_bound Hok).
  assert (omap live (seqZ 0 (i + 1)) = omap live (seqZ 0 i) ++ omap live [i]) as Estep.
  { by rewrite seqZ_snoc, omap_app by lia. }
  unfold iht_rebuild_body. rewrite (is_deleted_Ok _ _ _ _ _ _ _ _ Hok) by lia. step_ok.
  destruct (bo_init Hok i Hi) as [e He].
  rewrite Estep. cbn [omap list_omap].
  destruct (dead_bit dc i) eqn:Hd; cbn [negb].
  { assert (live i = None) as -> by (unfold live, live_at; by rewrite decide_True, Hd by lia).
    rewrite app_nil_r. by eexists _, _. }
  assert (live i = Some e) as Hlive by (by apply live_at_Some). rewrite Hlive.
  rewrite (bo_els Hok), (proj2 (arr_get_Ok _ _ _) He). step_ok.
  assert (els_bound rb < Z.of_nat (length l)) as Hless.
  { rewrite Hbound. apply inj_lt. unfold l, live_list. fold live.
    replace (els_bound old) with ((i + 1) + (els_bound old - (i + 1))) by lia.
    rewrite seqZ_app, omap_app, Estep, !length_app by lia. cbn. rewrite Hlive. cbn. lia. }
  destruct (do_1_insert Hash Eq ng' rb (omap live (seqZ 0 i)) e num) as (b' & E & _ & Hst).
  - done.
  - apply lookup_key_none. intros e' (i' & Hi'%elem_of_seqZ & He')%list_elem_of_omap.
    destruct (Eq e' e) eqn:HE; [|done]. exfalso. assert (i' = i); [|lia].
    by eapply (pi_nodup (bo_inv Hok)).
  - lia.
  - eapply bin_rep_limit; [done|lia].
  - destruct (Hst e) as (b'' & Hw & Hrep & Hb'' & _).
    { apply (key_refl (Hash := Hash) (Eq := Eq)). }
    unfold iht_do_1. rewrite E. step_ok. rewrite Hw. step_ok.
    eexists _, _. split; [done|]. split; [done|]. rewrite Hb'', Hbound, length_app. cbn. lia.
Qed.

Lemma iht_destroy_bin_Ok ng b l :
  bin_rep Hash Eq ng b l →
  ∃ s, iht_destroy_bin b = Ok (mk_hbin (els_bound b) Freed Freed s (groups_mask b)) ∧
    slots_freed s.
Proof.
  intros (ec & dc & st & Hok & _). unfold iht_destroy_bin.
  destruct (slots_free_ok _ _ _ (bo_slots Hok)) as (s & E & Hs). exists s.
  rewrite (bo_els Hok), (bo_deleted Hok). cbn [arr_free]. do 2 step_ok. by rewrite E.
Qed.

Lemma iht_rebuild_Ok ng t l :
  iht_sized ng t l → Z.of_nat (length l) < 2 ^ 31 →
  ∃ t' ng', iht_rebuild Hash Eq t = Ok t' ∧ bin_rep Hash Eq ng' (bin t') l ∧
    els_num t' = Z.of_nat (length l) ∧ els_bound (bin t') = Z.of_nat (length l) ∧
    els_bound (bin t') < 4 * ng' - 1 ∧ resized ng ng' l.
Proof.
  intros (Hb & Hnum & Hbound) Hl.
  destruct (iht_rebuild_sizes_Ok t l ng) as (ng' & k & Ek & Hk & Hmax & Hroom & E & Hsz); [done..|].
  destruct (iht_alloc_bin_Ok ng' k Ek Hk Hmax) as (rb & Ealloc & Hrb & Hrb0 & _).
  unfold iht_rebuild. rewrite E, Ealloc. step_ok. cbv zeta.
  destruct Hb as (ec & dc & st & Hok & El').
  destruct (for_res_inv (λ i s, bin_rep Hash Eq ng' s.2 (omap (live_at ec dc (els_bound (bin t)))
        (seqZ 0 i)) ∧ els_bound s.2 =
        Z.of_nat (length (omap (live_at ec dc (els_bound (bin t))) (seqZ 0 i))))
    (iht_rebuild_body Hash Eq (bin t)) 0 (els_bound (bin t)) (els_num t, rb))
    as ([num rb'] & -> & Hrb' & Hrbb).
  - apply (bo_bound Hok).
  - done.
  - intros i [num' rb'] Hi [Hr Hbd].
    destruct (iht_rebuild_step ng ec dc st (bin t) ng' i num' rb') as (num2 & rb2 & ? & ? & ?);
      [done..| |by exists (num2, rb2)].
    rewrite <-El'. lia.
  - step_ok. destruct (iht_destroy_bin_Ok ng (bin t) l) as (s & -> & _); [by exists ec, dc, st|]. step_ok.
    cbn [snd] in *. exists (mk_iht (els_num t) rb'), ng'.
    change (omap _ _) with (live_list ec dc (els_bound (bin t))) in Hrb', Hrbb.
    rewrite <-El' in Hrb', Hrbb. cbn [bin els_num]. split_and!; [done..|lia|done].
Qed.

(** ** [iht_perform] *)

(** The capacity check before an insertion: afterwards the table still holds
    the same elements and has a free index below the last one. *)
Lemma iht_make_room_Ok ng t l :
  iht_sized ng t l → Z.of_nat (length l) < 2 ^ 31 →
  ∃ t1 ng', iht_make_room Hash Eq t = Ok t1 ∧
    bin_rep Hash Eq ng' (bin t1) l ∧ els_num t1 = Z.of_nat (length l) ∧
    els_bound (bin t1) < 4 * ng' - 1 ∧ resized ng ng' l.
Proof.
  intros Ht Hl. pose proof Ht as (Hb & Hnum & Hbound).
  destruct (bin_rep_facts _ _ _ Hb) as (Hng & Hmask & Hlen).
  rewrite (iht_make_room_eq t ng) by done.
  destruct (Z.leb_spec (4 * ng - 1) (els_bound (bin t))).
  - destruct (iht_rebuild_Ok ng t l Ht Hl) as (t' & ng' & -> & ? & ? & _ & ? & ?). by exists t', ng'.
  - exists t, ng. split_and!; [done..|by left].
Qed.

Lemma iht_perform_nop t el act :
  act ≠ INSERT →
  iht_perform Hash Eq t el act =
  ('(found, r, num, b) ← iht_do_1 Hash Eq (els_num t) (bin t) el act;
   Ok (found, r, mk_iht num b)).
Proof. by destruct act. Qed.

Lemma iht_perform_room t el :
  iht_perform Hash Eq t el INSERT =
  (t1 ← iht_make_room Hash Eq t;
   '(found, r, num, b) ← iht_do_1 Hash Eq (els_num t1) (bin t1) el INSERT;
   Ok (found, r, mk_iht num b)).
Proof. reflexivity. Qed.

Lemma iht_perform_present t l el e :
  iht_rep t l → lookup_key Eq el l = Some e →
  ∃ i, iht_perform Hash Eq t el FIND = Ok (true, Some i, t) ∧ arr_get (els (bin t)) i = Ok e.
Proof.
  intros (ng & Hb & _) Hl.
  destruct (do_1_present Hash Eq ng (bin t) l el e (els_num t) FIND) as (i & E & He & _);
    [done..|].
  exists i. split; [|done]. rewrite iht_perform_nop by done. unfold iht_do_1.
  rewrite E. by destruct t.
Qed.

Lemma iht_perform_missing t l el act :
  iht_rep t l → lookup_key Eq el l = None → act ≠ INSERT →
  iht_perform Hash Eq t el act = Ok (false, None, t).
Proof.
  intros (ng & Hb & _) Hl Hact. rewrite iht_perform_nop by done. unfold iht_do_1.
  rewrite (do_1_missing Hash Eq ng (bin t) l) by done. by destruct t.
Qed.

Lemma iht_perform_delete_sized ng t l el e :
  iht_sized ng t l → lookup_key Eq el l = Some e →
  ∃ t', iht_perform Hash Eq t el DELETE = Ok (true, None, t') ∧
    iht_sized ng t' (remove_key Eq el l).
Proof.
  intros (Hb & Hnum & Hbound) Hl.
  destruct (bin_rep_facts _ _ _ Hb) as (Hng & _ & Hlen).
  destruct (do_1_delete Hash Eq ng (bin t) l el e (els_num t)) as (b' & E & Hb' & Hbd & _); [done..|].
  rewrite iht_perform_nop by done. unfold iht_do_1. rewrite E. step_ok.
  eexists. split; [done|]. unfold iht_sized. cbn [bin els_num]. split_and!; [done| |lia].
  pose proof (length_remove_key Hash Eq l el e
    (λ x y a a', live_list_nodup Hash Eq ng _ l x y a a' Hb) Hl).
  unfold size_wrap. cbn [size_bits iht_config]. rewrite Hnum. wrap_small. lia.
Qed.

Lemma iht_perform_delete t l el e :
  iht_rep t l → lookup_key Eq el l = Some e →
  ∃ t', iht_perform Hash Eq t el DELETE = Ok (true, None, t') ∧
    iht_rep t' (remove_key Eq el l).
Proof.
  intros [ng Ht] Hl. destruct (iht_perform_delete_sized ng t l el e Ht Hl) as (t' & E & Ht').
  exists t'. split; [done|by exists ng].
Qed.

(** INSERT when no equal element is present: the returned slot is reserved
    for an element with the given key. *)
Lemma iht_perform_insert_sized ng t l el :
  iht_sized ng t l → lookup_key Eq el l = None → Z.of_nat (length l) < 2 ^ 31 →
  ∃ i t' ng', iht_perform Hash Eq t el INSERT = Ok (false, Some i, t') ∧ resized ng ng' l ∧
    iht_els_count t' = Z.of_nat (length l) + 1 ∧
    ∀ el', Eq el' el = true → ∃ t'', iht_write t' i el' = Ok t'' ∧ iht_sized ng' t'' (l ++ [el']).
Proof.
  intros Ht Hl Hlen. rewrite iht_perform_room.
  destruct (iht_make_room_Ok ng t l Ht Hlen) as (t1 & ng' & E & Hb & Hnum & Hbound & Hsz).
  rewrite E. step_ok. destruct (bin_rep_facts _ _ _ Hb) as (Hng & _ & Hlen1).
  destruct (do_1_insert Hash Eq ng' (bin t1) l el (els_num t1)) as (b' & E' & Hb' & Hst);
    [done..|lia|by eapply bin_rep_limit|].
  unfold iht_do_1. rewrite E'. step_ok. eexists _, _, ng'. split; [done|]. split; [done|].
  unfold size_wrap. cbn [size_bits iht_config]. rewrite Hnum. wrap_small. split; [done|].
  intros el' HE. destruct (Hst el' HE) as (b'' & Hw & Hrep & Hbd & _).
  unfold iht_write. cbn [bin els_num]. rewrite Hw. step_ok. eexists. split; [done|].
  unfold iht_sized. cbn [bin els_num]. split_and!; [done| |lia]. rewrite length_app. cbn. lia.
Qed.

Lemma iht_perform_insert t l el :
  iht_rep t l → lookup_key Eq el l = None → Z.of_nat (length l) < 2 ^ 31 →
  ∃ i t', iht_perform Hash Eq t el INSERT = Ok (false, Some i, t') ∧
    iht_els_count t' = Z.of_nat (length l) + 1 ∧
    ∀ el', Eq el' el = true → ∃ t'', iht_write t' i el' = Ok t'' ∧ iht_rep t'' (l ++ [el']).
Proof.
  intros [ng Ht] Hl Hlen.
  destruct (iht_perform_insert_sized ng t l el Ht Hl Hlen) as (i & t' & ng' & E & _ & Hn & Hw).
  exists i, t'. split_and!; [done..|]. intros el' HE. destruct (Hw el' HE) as (t'' & Ew & Ht'').
  exists t''. split; [done|by exists ng'].
Qed.

(** INSERT when an equal element is present returns its slot. *)
Lemma iht_perform_insert_present_sized ng t l el e :
  iht_sized ng t l → lookup_key Eq el l = Some e → Z.of_nat (length l) < 2 ^ 31 →
  ∃ i t' ng', iht_perform Hash Eq t el INSERT = Ok (true, Some i, t') ∧ resized ng ng' l ∧
    iht_sized ng' t' l ∧ arr_get (els (bin t')) i = Ok e ∧
    ∃ t'', iht_write t' i el = Ok t'' ∧ iht_sized ng' t'' (replace_key Eq el l).
Proof.
  intros Ht Hl Hlen. rewrite iht_perform_room.
  destruct (iht_make_room_Ok ng t l Ht Hlen) as (t1 & ng' & E & Hb & Hnum & Hbound & Hsz).
  rewrite E. step_ok.
  destruct (do_1_present Hash Eq ng' (bin t1) l el e (els_num t1) INSERT)
    as (i & E' & He & b' & Hw & Hrep & Hbd & _);
    [done..|intros _; by eapply bin_rep_limit|].
  unfold iht_do_1. rewrite E'. step_ok. eexists _, _, ng'. split; [done|]. split; [done|].
  unfold iht_sized. cbn [bin els_num]. split; [split_and!; [done..|lia]|]. split; [done|].
  unfold iht_write. cbn [bin els_num]. rewrite Hw. step_ok. eexists. split; [done|].
  cbn [bin els_num]. split_and!; [done| |lia].
  unfold replace_key. by rewrite length_fmap.
Qed.

Lemma iht_perform_insert_present t l el e :
  iht_rep t l → lookup_key Eq el l = Some e → Z.of_nat (length l) < 2 ^ 31 →
  ∃ i t', iht_perform Hash Eq t el INSERT = Ok (true, Some i, t') ∧ iht_rep t' l ∧
    arr_get (els (bin t')) i = Ok e ∧
    ∃ t'', iht_write t' i el = Ok t'' ∧ iht_rep t'' (replace_key Eq el l).
Proof.
  intros [ng Ht] Hl Hlen. destruct (iht_perform_insert_present_sized ng t l el e Ht Hl Hlen)
    as (i & t' & ng' & E & _ & Ht' & Hg & t'' & Ew & Ht'').
  exists i, t'. split_and!; [done|by exists ng'|done|]. exists t''. split; [done|by exists ng'].
Qed.

(** ** Iteration *)

Section iteration.
Context (t : iht slots El) (ng : Z) (ec : list (option El)) (dc : list (option Z)) (st : Z → Z → slot).
Context (Hok : bin_ok Hash Eq ng ec dc st (bin t)).
Let bound := els_bound (bin t).
Let live := live_at ec dc bound.

Lemma bound_small : 0 ≤ bound ≤ 2 ^ 32.
Proof.
  pose proof (bo_bound Hok). pose proof (bo_max Hok) as Hm.
  rewrite iht_max_groups in Hm. unfold bound. lia.
Qed.

(** An iterator is positioned at the first element that is left. *)
Definition at_elements it (l : list El) : Prop :=
  match ptr it with
  | Some p => ∃ e, p = el_idx it ∧ 0 ≤ p < bound ∧ live p = Some e ∧ l = e :: live_from ec dc bound (p + 1)
  | None => l = []
  end.

Lemma iht_iter_loop_Ok n i :
  0 ≤ i → n = Z.to_nat (bound - i) →
  ∃ it, iht_iter_loop n t i = Ok it ∧ at_elements it (live_from ec dc bound i).
Proof.
  revert i. induction n as [|n IH]; intros i Hi Hn; cbn [iht_iter_loop];
    fold bound; destruct (Z.ltb_spec i bound) as [Hlt|Hge]; try lia.
  - exists (mk_iter i None). split; [done|]. unfold at_elements, live_from. cbn [ptr].
    by rewrite seqZ_nil by lia.
  - pose proof (bo_bound Hok) as Hb. fold bound in Hb.
    rewrite (is_deleted_Ok _ _ _ _ _ _ _ _ Hok) by lia. step_ok.
    destruct (bo_init Hok i) as [e He]; [fold bound; lia|].
    destruct (dead_bit dc i) eqn:Hd; cbn [negb].
    + pose proof bound_small. unfold u64. rewrite Z.mod_small by lia.
      destruct (IH (i + 1)) as (it & E & Hit); [lia..|]. exists it. split; [done|].
      rewrite live_from_step by lia. unfold live, live_at.
      by rewrite decide_True, Hd by lia.
    + exists (mk_iter i (Some i)). split; [done|]. exists e.
      assert (live i = Some e) as Hl by (apply live_at_Some; split_and!; [lia..|done|done]).
      cbn [el_idx]. split_and!; [done|lia..|done|]. rewrite live_from_step by lia. fold live. by rewrite Hl.
Qed.

(** One step of the iterator, and its start. *)
Lemma iht_iter_next_Ok it e l :
  at_elements it (e :: l) →
  ∃ p it', ptr it = Some p ∧ arr_get (els (bin t)) p = Ok e ∧ iht_iter_next t it = Ok it' ∧ at_elements it' l.
Proof.
  intros Hit. unfold at_elements in Hit. destruct (ptr it) as [p|] eqn:Ep; [|done].
  destruct Hit as (e' & -> & Hp & He & [= -> ->]). apply live_at_Some in He as (_ & _ & Hc).
  exists (el_idx it). rewrite (bo_els Hok), (proj2 (arr_get_Ok _ _ _) Hc).
  pose proof bound_small. unfold iht_iter_next, iht_iter_advance, u64.
  rewrite Z.mod_small by lia. cbn [el_idx]. fold bound.
  edestruct (iht_iter_loop_Ok (Z.to_nat (bound - (el_idx it + 1))) (el_idx it + 1))
    as (it' & E & Hit'); [lia|done|]. by exists it'.
Qed.

Lemma iht_iter_begin_Ok : ∃ it, iht_iter_begin t = Ok it ∧ at_elements it (live_list ec dc bound).
Proof.
  unfold iht_iter_begin, iht_iter_advance. cbn [el_idx]. fold bound.
  destruct (iht_iter_loop_Ok (Z.to_nat (bound - 0)) 0) as (it & -> & Hit); [lia|done|].
  exists it. split; [done|]. unfold live_from in Hit. by rewrite Z.sub_0_r in Hit.
Qed.

Lemma iht_at_elements_nil it : at_elements it [] → ptr it = None.
Proof. unfold at_elements. destruct (ptr it); [|done]. by intros (? & _ & _ & _ & ?). Qed.

Lemma iht_collect_Ok fuel it l :
  at_elements it l → (length l ≤ fuel)%nat → iht_collect fuel t it = Ok l.
Proof.
  revert it l. induction fuel as [|fuel IH]; intros it [|e l] Hit Hfuel; cbn [iht_collect length] in *;
    try lia; try (by rewrite (iht_at_elements_nil it Hit)).
  destruct (iht_iter_next_Ok it e l Hit) as (p & it' & -> & -> & -> & Hit').
  repeat step_ok. rewrite (IH it' _ Hit') by lia. done.
Qed.

Lemma iht_elements_live : iht_elements t = Ok (live_list ec dc bound).
Proof.
  unfold iht_elements. destruct iht_iter_begin_Ok as (it & -> & Hit). step_ok.
  apply (iht_collect_Ok _ _ _ Hit). pose proof bound_small.
  pose proof (length_live_list ec dc bound). unfold bound in *. lia.
Qed.
End iteration.

(** ** The table meets the contract *)

Lemma iht_find_rep t l el : iht_rep t l → iht_find Hash Eq t el = Ok (lookup_key Eq el l).
Proof.
  intros Ht. unfold iht_find. destruct (lookup_key Eq el l) as [e|] eqn:El'.
  - destruct (iht_perform_present t l el e Ht El') as (i & -> & He). step_ok.
    rewrite He. done.
  - by rewrite (iht_perform_missing t l el FIND Ht El').
Qed.

(** Insertion, replacement and deletion with the number of groups. *)
Lemma iht_insert_sized ng t l el :
  iht_sized ng t l → Z.of_nat (length l) < 2 ^ 31 →
  ∃ t' ng', iht_insert Hash Eq t el =
      Ok (match lookup_key Eq el l with Some _ => true | None => false end, t') ∧ resized ng ng' l ∧
    iht_sized ng' t' (match lookup_key Eq el l with Some _ => l | None => l ++ [el] end).
Proof.
  intros Ht Hl. unfold iht_insert. destruct (lookup_key Eq el l) as [e|] eqn:El'.
  - destruct (iht_perform_insert_present_sized ng t l el e Ht El' Hl) as (i & t' & ng' & -> & Hsz & Ht' & _).
    by exists t', ng'.
  - destruct (iht_perform_insert_sized ng t l el Ht El' Hl) as (i & t' & ng' & -> & Hsz & _ & Hw). step_ok.
    destruct (Hw el) as (t'' & -> & Ht''); [apply (key_refl (Hash := Hash))|]. by exists t'', ng'.
Qed.

Lemma iht_replace_sized ng t l el :
  iht_sized ng t l → Z.of_nat (length l) < 2 ^ 31 →
  ∃ t' ng', iht_replace Hash Eq t el =
      Ok (match lookup_key Eq el l with Some _ => true | None => false end, t') ∧ resized ng ng' l ∧
    iht_sized ng' t' (match lookup_key Eq el l with Some _ => replace_key Eq el l | None => l ++ [el] end).
Proof.
  intros Ht Hl. unfold iht_replace. destruct (lookup_key Eq el l) as [e|] eqn:El'.
  - destruct (iht_perform_insert_present_sized ng t l el e Ht El' Hl)
      as (i & t' & ng' & -> & Hsz & _ & _ & t'' & E & Ht''). step_ok. rewrite E. by exists t'', ng'.
  - destruct (iht_perform_insert_sized ng t l el Ht El' Hl) as (i & t' & ng' & -> & Hsz & _ & Hw). step_ok.
    destruct (Hw el) as (t'' & -> & Ht''); [apply (key_refl (Hash := Hash))|]. by exists t'', ng'.
Qed.

Lemma iht_delete_sized ng t l el :
  iht_sized ng t l →
  ∃ t', iht_delete Hash Eq t el =
      Ok (match lookup_key Eq el l with Some _ => true | None => false end, t') ∧
    iht_sized ng t' (match lookup_key Eq el l with Some _ => remove_key Eq el l | None => l end).
Proof.
  intros Ht. unfold iht_delete. destruct (lookup_key Eq el l) as [e|] eqn:El'.
  - destruct (iht_perform_delete_sized ng t l el e Ht El') as (t' & -> & Ht'). by exists t'.
  - rewrite (iht_perform_missing t l el DELETE) by (done || by exists ng). by exists t.
Qed.

Lemma iht_insert_rep t l el :
  iht_rep t l → Z.of_nat (length l) < 2 ^ 31 →
  ∃ t', iht_insert Hash Eq t el =
      Ok (match lookup_key Eq el l with Some _ => true | None => false end, t') ∧
    iht_rep t' (match lookup_key Eq el l with Some _ => l | None => l ++ [el] end).
Proof.
  intros [ng Ht] Hl. destruct (iht_insert_sized ng t l el Ht Hl) as (t' & ng' & E & _ & Ht').
  exists t'. split; [done|by exists ng'].
Qed.

Lemma iht_replace_rep t l el :
  iht_rep t l → Z.of_nat (length l) < 2 ^ 31 →
  ∃ t', iht_replace Hash Eq t el =
      Ok (match lookup_key Eq el l with Some _ => true | None => false end, t') ∧
    iht_rep t' (match lookup_key Eq el l with
      Some _ => replace_key Eq el l | None => l ++ [el] end).
Proof.
  intros [ng Ht] Hl. destruct (iht_replace_sized ng t l el Ht Hl) as (t' & ng' & E & _ & Ht').
  exists t'. split; [done|by exists ng'].
Qed.

Lemma iht_delete_rep t l el :
  iht_rep t l →
  ∃ t', iht_delete Hash Eq t el =
      Ok (match lookup_key Eq el l with Some _ => true | None => false end, t') ∧
    iht_rep t' (match lookup_key Eq el l with Some _ => remove_key Eq el l | None => l end).
Proof.
  intros [ng Ht]. destruct (iht_delete_sized ng t l el Ht) as (t' & E & Ht').
  exists t'. split; [done|by exists ng].
Qed.

Lemma iht_elements_rep t l : iht_rep t l → iht_elements t = Ok l.
Proof.
  intros (ng & (ec & dc & st & Hok & ->) & _). exact (iht_elements_live t ng ec dc st Hok).
Qed.

Lemma iht_count_rep t l : iht_rep t l → iht_els_count t = Z.of_nat (length l).
Proof. by intros (ng & _ & Hnum & _). Qed.

#[export] Instance iht_table : Table El (iht slots El) := {
  tab_find := iht_find Hash Eq;
  tab_insert := iht_insert Hash Eq;
  tab_replace := iht_replace Hash Eq;
  tab_delete := iht_delete Hash Eq;
  tab_count := iht_els_count;
  tab_elements := iht_elements
}.

#[export] Instance iht_table_laws : TableLaws Eq iht_table := {
  tab_rep := iht_rep;
  tab_limit := 2 ^ 31;
  tab_order := eq;
  tab_find_ok := iht_find_rep;
  tab_insert_ok := iht_insert_rep;
  tab_replace_ok := iht_replace_rep;
  tab_delete_ok := iht_delete_rep;
  tab_count_ok := iht_count_rep;
  tab_elements_ok t l Ht := ex_intro _ l (conj (iht_elements_rep t l Ht) eq_refl)
}.

(** ** The capacity over a sequence of requests *)

Lemma iht_step_sized ng o t l :
  iht_sized ng t l → Z.of_nat (length l) < 2 ^ 31 →
  ∃ r t' ng', step (I := iht_table) o t = Ok (r, t') ∧ resized ng ng' l ∧ iht_sized ng' t' (spec_step Eq o l).2.
Proof.
  intros Ht Hl. assert (iht_rep t l) as Hrep by (by exists ng). assert (resized ng ng l) as Hsame by (by left).
  destruct o as [el|el|el|el| |]; cbn [step spec_step tab_find tab_insert tab_replace tab_delete
    tab_count tab_elements iht_table].
  - rewrite (iht_find_rep t l el Hrep). by eexists _, t, ng.
  - destruct (iht_insert_sized ng t l el Ht Hl) as (t' & ng' & -> & Hsz & Ht'). eexists _, t', ng'.
    split; [done|]. by destruct (lookup_key Eq el l).
  - destruct (iht_replace_sized ng t l el Ht Hl) as (t' & ng' & -> & Hsz & Ht'). eexists _, t', ng'.
    split; [done|]. by destruct (lookup_key Eq el l).
  - destruct (iht_delete_sized ng t l el Ht) as (t' & -> & Ht'). eexists _, t', ng.
    split; [done|]. by destruct (lookup_key Eq el l).
  - by eexists _, t, ng.
  - rewrite (iht_elements_rep t l Hrep). by eexists _, t, ng.
Qed.

Lemma iht_run_sized ng ops t l :
  iht_sized ng t l → Z.of_nat (length l) + Z.of_nat (length ops) ≤ 2 ^ 31 →
  ∃ rs t' ng', run (I := iht_table) ops t = Ok (rs, t') ∧ iht_sized ng' t' (spec_run Eq ops l).2 ∧
    ng ≤ ng' ≤ Z.max ng (Z.of_nat (peak Eq ops l)).
Proof.
  revert ng t l. induction ops as [|o ops IH]; intros ng t l Ht Hl; cbn [run spec_run length peak] in *.
  - exists [], t, ng. split_and!; [done..|lia|lia].
  - destruct (iht_step_sized ng o t l Ht) as (r & t1 & ng1 & -> & Hsz & Ht1); [lia|]. step_ok.
    pose proof (length_spec_step (Eq := Eq) o l). destruct (spec_step Eq o l) as [r' l1]. cbn in *.
    pose proof (bin_rep_facts _ _ _ (proj1 Ht)) as (Hng & _).
    destruct (IH ng1 t1 l1 Ht1) as (rs & t2 & ng2 & -> & Ht2 & Hle); [lia|]. step_ok.
    destruct (spec_run Eq ops l1) as [rs' l2]. exists (r :: rs), t2, ng2. split_and!; [done..| |];
      destruct Hsz as [-> |[-> ?]]; lia.
Qed.
End correct.
