(* ===== verification/Entry.v ===== *)
(** The element type of the test program (tests/test_c.c): a key with a
    value, hashed by a multiplication and compared by key.  It meets the
    promises [KeyLaws] and serves as the concrete instance of the examples. *)

From S2P Require Import Prelude Probe.

Record entry := mk_entry { key : Z; value : Z }.

Definition entry_hash (e : entry) : Z := u64 (key e * 0x9E3779B97F4A7C15).
Definition entry_eq (a b : entry) : bool := key a =? key b.

#[export] Instance entry_laws : KeyLaws entry_hash entry_eq.
Proof.
  split; unfold entry_eq, entry_hash; intros *; rewrite ?Z.eqb_eq; try congruence.
  by apply Z.mod_pos_bound.
Qed.
