(* ===== verification/IhtabProps.v ===== *)
(** The properties of ihtab.h, each with an instance on concrete tables of the
    test program's entries. *)

From S2P Require Import Prelude Bits Groups Probe Spec Store Core Ihtab IhtabCorrect Entry.

(** * Concrete tables for the instances *)

Definition e1 : entry := mk_entry 42 100.
Definition e2 : entry := mk_entry 7 200.
Definition e3 : entry := mk_entry 42 300.

(** The slots of ihtab.h on the portable platform. *)
Abbreviation swar := (packed (C := iht_config) SWAR.ops).
Abbreviation tab := (iht (slots (SlotStore := swar)) entry).

(** A table built by insertions. *)
Lemma sample_table (l : list entry) :
  Z.of_nat (length l) ≤ 100 →
  ∃ t, iht_rep (K := swar) entry_hash entry_eq t (spec_run entry_eq (OpInsert <$> l) []).2.
Proof.
  intros Hl. destruct (iht_create_Ok (K := swar) entry_hash entry_eq 8) as (t & _ & Ht & _);
    [lia|].
  destruct (run_refines (TableLaws0 := iht_table_laws (K := swar) entry_hash entry_eq)
    (OpInsert <$> l) t []) as (rs & t' & _ & _ & Ht'); [done| |by exists t'].
  cbn [length tab_limit iht_table_laws]. rewrite length_fmap. lia.
Qed.

Section properties.
Context {K : SlotStore} {V : SlotView K} `{!SlotLaws iht_config K V}.
Context {El : Type} (Hash : El → Z) (Eq : El → El → bool) `{!KeyLaws Hash Eq}.
Implicit Types (t : iht slots El) (el e : El) (l : list El).

(** C1: A table created with a minimal size of at most 2^32 and then used by
    any sequence of at most 2^31 find, insert, replace, delete, count and
    iteration requests answers every request as the insertion-ordered
    list specification does, without an undefined memory access and without
    looping, and ends in a well-formed table for the specified contents. *)
Theorem iht_refines_spec min_size (ops : list (op El)) :
  0 ≤ min_size ≤ 2 ^ 32 → Z.of_nat (length ops) ≤ 2 ^ 31 →
  ∃ t t', iht_create min_size = Ok t ∧
    run (I := iht_table Hash Eq) ops t = Ok ((spec_run Eq ops []).1, t') ∧
    iht_rep Hash Eq t' (spec_run Eq ops []).2.
Proof.
  intros Hmin Hops. destruct (iht_create_Ok Hash Eq min_size Hmin) as (t & E & Ht & _).
  destruct (run_refines (TableLaws0 := iht_table_laws Hash Eq) ops t [] Ht)
    as (rs & t' & Hrun & Hrs & Ht'); [cbn; lia|].
  apply out_rel_eq in Hrs as ->. by exists t, t'.
Qed.

(** C6: INSERT into a table of fewer than 2^31 elements.  INSERT of a key that
    is present returns true and the slot of the stored element, which reads as
    that element; the contents are unchanged,
    and overwriting the slot replaces exactly that element, in place.  INSERT
    of a key that is absent returns false and a slot; the count is one higher,
    and once any element with that key has been written to the slot the table
    holds the old elements followed by the new one.  A rebuild in between, if
    the element array was full, is included. *)
Theorem iht_perform_insert_spec t l el :
  iht_rep Hash Eq t l → Z.of_nat (length l) < 2 ^ 31 →
  match lookup_key Eq el l with
  | Some e => ∃ slot t', iht_perform Hash Eq t el INSERT = Ok (true, Some slot, t') ∧
      iht_rep Hash Eq t' l ∧ arr_get (els (bin t')) slot = Ok e ∧
      ∃ t'', iht_write t' slot el = Ok t'' ∧ iht_rep Hash Eq t'' (replace_key Eq el l)
  | None => ∃ slot t', iht_perform Hash Eq t el INSERT = Ok (false, Some slot, t') ∧
      iht_els_count t' = Z.of_nat (length l) + 1 ∧
      ∀ el', Eq el' el = true →
        ∃ t'', iht_write t' slot el' = Ok t'' ∧ iht_rep Hash Eq t'' (l ++ [el'])
  end.
Proof.
  intros Ht Hl. destruct (lookup_key Eq el l) as [e|] eqn:E.
  - by apply (iht_perform_insert_present Hash Eq t l el e).
  - by apply (iht_perform_insert Hash Eq t l el).
Qed.

(** C7: FIND returns true with the address of the stored element when an
    equal element is in the table and false otherwise; it changes nothing. *)
Theorem iht_perform_find_spec t l el :
  iht_rep Hash Eq t l →
  match lookup_key Eq el l with
  | Some e => ∃ slot, iht_perform Hash Eq t el FIND = Ok (true, Some slot, t) ∧
      arr_get (els (bin t)) slot = Ok e
  | None => iht_perform Hash Eq t el FIND = Ok (false, None, t)
  end.
Proof.
  intros Ht. destruct (lookup_key Eq el l) as [e|] eqn:E.
  - by eapply iht_perform_present.
  - by apply (iht_perform_missing Hash Eq t l).
Qed.

(** C8: DELETE returns whether the key was present; it removes exactly that
    element, keeps the order of the others, decrements the count and stores
    nothing through [res]. *)
Theorem iht_perform_delete_spec t l el :
  iht_rep Hash Eq t l →
  match lookup_key Eq el l with
  | Some _ => ∃ t', iht_perform Hash Eq t el DELETE = Ok (true, None, t') ∧
      iht_rep Hash Eq t' (remove_key Eq el l) ∧ iht_els_count t' = iht_els_count t - 1
  | None => iht_perform Hash Eq t el DELETE = Ok (false, None, t)
  end.
Proof.
  intros Ht. destruct (lookup_key Eq el l) as [e|] eqn:E.
  - destruct (iht_perform_delete Hash Eq t l el e Ht E) as (t' & Hp & Ht').
    exists t'. split_and!; [done..|].
    rewrite (iht_count_rep Hash Eq _ _ Ht), (iht_count_rep Hash Eq _ _ Ht').
    destruct Ht as (ng & Hb & _).
    pose proof (length_remove_key Hash Eq l el e
      (λ x y a a', live_list_nodup Hash Eq ng _ l x y a a' Hb) E). lia.
  - by apply (iht_perform_missing Hash Eq t l).
Qed.

(** C9: A rebuild of a table of fewer than 2^31 elements keeps the elements and
    their order, drops the deleted entries (every index in use is that of an element), and leaves room for
    an insertion without another rebuild. *)
Theorem iht_rebuild_compacts t l :
  iht_rep Hash Eq t l → Z.of_nat (length l) < 2 ^ 31 →
  ∃ t', iht_rebuild Hash Eq t = Ok t' ∧ iht_rep Hash Eq t' l ∧
    els_bound (bin t') = Z.of_nat (length l) ∧ iht_make_room Hash Eq t' = Ok t'.
Proof.
  intros Ht Hl. destruct Ht as [ng0 Ht]. destruct (iht_rebuild_Ok Hash Eq ng0 t l Ht Hl) as (t' & ng & E & Hb & Hn & Hbd & Hr & _).
  exists t'. split_and!; [done| |done|]; [exists ng; split_and!; [done..|lia]|].
  destruct (bin_rep_facts Hash Eq _ _ _ Hb) as (Hng & Hmask & Hlen).
  rewrite (iht_make_room_eq Hash Eq t' ng) by done.
  by destruct (Z.leb_spec (4 * ng - 1) (els_bound (bin t'))); [lia|].
Qed.

(** C30: Creation for a minimal size up to 2^32 gives an empty table whose
    capacity is at least that size and less than twice that, or the least
    capacity of 4; its size loop ends for minimal sizes up to 2^62 and for no
    larger one: there the doubled size wraps around to 0. *)
Theorem iht_creation min_size :
  0 ≤ min_size < 2 ^ 64 →
  (min_size ≤ 2 ^ 32 → ∃ t, iht_create min_size = Ok t ∧ iht_rep Hash Eq t [] ∧
     min_size ≤ iht_size t ∧ (iht_size t = 4 ∨ iht_size t < 2 * min_size)) ∧
  (min_size ≤ 2 ^ 62 → ∃ s, iht_create_size 64 IHT_GROUP_SIZE min_size = Ok s) ∧
  (2 ^ 62 < min_size → ∀ fuel, iht_create_size fuel IHT_GROUP_SIZE min_size = Timeout).
Proof.
  intros Hmin. split_and!.
  - intros Hle. apply (iht_create_Ok Hash Eq min_size). lia.
  - intros Hle. destruct (iht_create_size_Ok 60 0 min_size) as (k & _ & _ & _ & E);
      [lia|lia|exact Hle|]. exists (8 * 2 ^ k). apply (E 64%nat). lia.
  - intros Hgt fuel. apply iht_create_size_wraps; [done|]. right. exists 3. done.
Qed.

(** C32: Destroying a table frees its blocks exactly once: a second
    destruction is a double free, and using the table is a use after free. *)
Theorem iht_destroy_frees t l el :
  iht_rep Hash Eq t l →
  ∃ t', iht_destroy t = Ok t' ∧
    els (bin t') = Freed ∧ deleted (bin t') = Freed ∧ slots_freed (groups (bin t')) ∧
    iht_destroy t' = UB DoubleFree ∧
    iht_perform Hash Eq t' el FIND = UB UseAfterFree.
Proof.
  intros (ng & Hb & _). pose proof (bin_rep_facts Hash Eq _ _ _ Hb) as (Hng & Hmask & _).
  unfold iht_destroy. destruct (iht_destroy_bin_Ok Hash Eq ng _ l Hb) as (s & -> & Hs). step_ok.
  eexists. split_and!; [done..|]. rewrite iht_perform_nop by done. unfold iht_do_1.
  rewrite bin_do_1_freed; [done|exact Hs|]. cbn [groups_mask bin]. lia.
Qed.

(** C34: How full the table gets and how large.  After creation with a minimal
    size of at most 2^32 and any run of at most 2^31 requests, fewer than half
    of the slots that the memory encodes differ from the empty slot, so that
    every search ends, and the index after the last element is below the
    capacity.  The capacity never shrinks, and a rebuild never makes it larger
    than four times the largest number of elements the table has had. *)
Theorem iht_load_factor min_size (ops : list (op El)) :
  0 ≤ min_size ≤ 2 ^ 32 → Z.of_nat (length ops) ≤ 2 ^ 31 →
  ∃ t t' rs, iht_create min_size = Ok t ∧ run (I := iht_table Hash Eq) ops t = Ok (rs, t') ∧
    (let num_groups := groups_mask (bin t') + 1 in
     ∃ st, slots_ok num_groups (groups (bin t')) st ∧
       2 * nonempty num_groups st < num_groups * IHT_GROUP_SIZE) ∧
    els_bound (bin t') < iht_size t' ∧
    iht_size t ≤ iht_size t' ≤ Z.max (iht_size t) (4 * Z.of_nat (peak Eq ops [])).
Proof.
  intros Hmin Hops. destruct (iht_create_Ok Hash Eq min_size Hmin) as (t & E & [ng Ht] & _).
  destruct (iht_run_sized Hash Eq ng ops t [] Ht) as (rs & t' & ng' & Er & (Hb' & _ & Hbd') & Hle); [cbn; lia|].
  exists t, t', rs. split; [done|]. split; [done|]. destruct Ht as (Hb & _ & _).
  pose proof (bin_rep_facts Hash Eq _ _ _ Hb) as (Hng & Hmask & _).
  pose proof (bin_rep_facts Hash Eq _ _ _ Hb') as (Hng' & Hmask' & _).
  rewrite (iht_size_eq t ng), (iht_size_eq t' ng') by done. cbv zeta. split; [|lia].
  destruct Hb' as (ec & dc & st & Hok & El'). pose proof (pi_count (bo_inv Hok)).
  rewrite Hmask'. replace (ng' - 1 + 1) with ng' by lia. exists st. split; [apply Hok|]. unfold IHT_GROUP_SIZE. lia.
Qed.
End properties.

(** * Instances on concrete tables *)

Lemma iht_refines_spec_witness :
  ∃ t t' : tab, iht_create (K := swar) 8 = Ok t ∧
    run (I := iht_table (K := swar) entry_hash entry_eq)
      [OpInsert e1; OpInsert e3; OpReplace e2; OpDelete e1; OpFind e2; OpCount; OpElements] t =
    Ok ([OutFlag false; OutFlag true; OutFlag false; OutFlag true; OutFind (Some e2);
         OutCount 1; OutElements [e2]], t').
Proof.
  destruct (iht_refines_spec (K := swar) entry_hash entry_eq 8
    [OpInsert e1; OpInsert e3; OpReplace e2; OpDelete e1; OpFind e2; OpCount; OpElements])
    as (t & t' & E1 & E2 & _); [lia|cbn; lia|].
  exists t, t'. split; [exact E1|]. exact E2.
Defined.

Lemma iht_perform_insert_spec_witness :
  ∃ (t t1 t2 : tab) slot1 slot2, iht_rep (K := swar) entry_hash entry_eq t [e1] ∧
    iht_perform (K := swar) entry_hash entry_eq t e2 INSERT = Ok (false, Some slot1, t1) ∧
    iht_els_count (K := swar) t1 = 2 ∧
    iht_perform (K := swar) entry_hash entry_eq t e3 INSERT = Ok (true, Some slot2, t2) ∧
    arr_get (els (bin t2)) slot2 = Ok e1.
Proof.
  destruct (sample_table [e1]) as [t Ht]; [cbn; lia|].
  destruct (iht_perform_insert_spec (K := swar) entry_hash entry_eq t [e1] e2 Ht)
    as (slot1 & t1 & E1 & Hn & _); [cbn; lia|].
  destruct (iht_perform_insert_spec (K := swar) entry_hash entry_eq t [e1] e3 Ht)
    as (slot2 & t2 & E2 & _ & Hg & _); [cbn; lia|].
  exists t, t1, t2, slot1, slot2. split; [exact Ht|]. split; [exact E1|]. split; [exact Hn|].
  split; [exact E2|exact Hg].
Defined.

Lemma iht_perform_find_spec_witness :
  ∃ (t : tab) slot, iht_rep (K := swar) entry_hash entry_eq t [e1; e2] ∧
    iht_perform (K := swar) entry_hash entry_eq t e3 FIND = Ok (true, Some slot, t) ∧
    arr_get (els (bin t)) slot = Ok e1.
Proof.
  destruct (sample_table [e1; e2]) as [t Ht]; [cbn; lia|].
  destruct (iht_perform_find_spec (K := swar) entry_hash entry_eq t [e1; e2] e3 Ht)
    as (slot & E & Hg). exists t, slot. split; [exact Ht|]. split; [exact E|exact Hg].
Defined.

Lemma iht_perform_delete_spec_witness :
  ∃ t t' : tab, iht_rep (K := swar) entry_hash entry_eq t [e1; e2] ∧
    iht_perform (K := swar) entry_hash entry_eq t e3 DELETE = Ok (true, None, t') ∧
    iht_rep (K := swar) entry_hash entry_eq t' [e2].
Proof.
  destruct (sample_table [e1; e2]) as [t Ht]; [cbn; lia|].
  destruct (iht_perform_delete_spec (K := swar) entry_hash entry_eq t [e1; e2] e3 Ht)
    as (t' & E & Ht' & _). exists t, t'. split; [exact Ht|]. split; [exact E|exact Ht'].
Defined.

Lemma iht_rebuild_compacts_witness :
  ∃ t t' : tab, iht_rep (K := swar) entry_hash entry_eq t [e1; e2] ∧
    iht_rebuild (K := swar) entry_hash entry_eq t = Ok t' ∧ els_bound (bin t') = 2.
Proof.
  destruct (sample_table [e1; e2]) as [t Ht]; [cbn; lia|].
  destruct (iht_rebuild_compacts (K := swar) entry_hash entry_eq t [e1; e2] Ht)
    as (t' & E & _ & Hb & _); [cbn; lia|].
  exists t, t'. split; [exact Ht|]. split; [exact E|exact Hb].
Defined.

Lemma iht_creation_witness :
  (∃ t : tab, iht_create (K := swar) 9 = Ok t ∧ 9 ≤ iht_size (K := swar) t ∧
     (iht_size (K := swar) t = 4 ∨ iht_size (K := swar) t < 18)) ∧
  (∃ s, iht_create_size 64 IHT_GROUP_SIZE (2 ^ 62) = Ok s) ∧
  ∀ fuel, iht_create_size fuel IHT_GROUP_SIZE (2 ^ 62 + 1) = Timeout.
Proof.
  split.
  - destruct (iht_creation (K := swar) entry_hash entry_eq 9) as [(t & E & _ & H1 & H2) _]; [lia|lia|].
    exists t. split; [exact E|]. split; [exact H1|exact H2].
  - split.
    + apply (iht_creation (K := swar) entry_hash entry_eq (2 ^ 62)); lia.
    + apply (iht_creation (K := swar) entry_hash entry_eq (2 ^ 62 + 1)); lia.
Defined.

Lemma iht_destroy_frees_witness :
  ∃ t t' : tab, iht_rep (K := swar) entry_hash entry_eq t [e1; e2] ∧
    iht_destroy (K := swar) t = Ok t' ∧ iht_destroy (K := swar) t' = UB DoubleFree.
Proof.
  destruct (sample_table [e1; e2]) as [t Ht]; [cbn; lia|].
  destruct (iht_destroy_frees (K := swar) entry_hash entry_eq t [e1; e2] e1 Ht)
    as (t' & E & _ & _ & _ & Hd & _).
  exists t, t'. split; [exact Ht|]. split; [exact E|exact Hd].
Defined.

(** Six insertions into a table for at least one element, which has room for
    three at first, and two deletions. *)
Lemma iht_load_factor_witness :
  let ops := (OpInsert <$> ((λ i, mk_entry i i) <$> seqZ 0 6)) ++ [OpDelete e1; OpDelete e2; OpCount] in
  ∃ (t t' : tab) rs, iht_create (K := swar) 1 = Ok t ∧
    run (I := iht_table (K := swar) entry_hash entry_eq) ops t = Ok (rs, t') ∧
    els_bound (bin t') < iht_size (K := swar) t' ∧ iht_size (K := swar) t' ≤ 24.
Proof.
  intros ops. destruct (iht_load_factor (K := swar) entry_hash entry_eq 1 ops)
    as (t & t' & rs & E & Er & _ & Hb & Hs); [lia|by vm_compute|].
  exists t, t', rs. split; [exact E|]. split; [exact Er|]. split; [exact Hb|].
  assert (iht_size (K := swar) t ≤ 24) as Ht by (vm_compute in E; injection E as <-; by vm_compute).
  change (peak entry_eq ops []) with 6%nat in Hs. lia.
Defined.
