(* ===== verification/PlatformProps.v ===== *)
(** Properties of the platform layer: what the SSE2, NEON and SWAR masks
    denote, that the probe loop gives the same result on all of them, and the
    limits of the portable code and of the index type. *)

From S2P Require Import Prelude Bits Groups Probe Spec Store Core Ihtab IhtabCorrect Entry.

(** * Which slots a SWAR mask can name by mistake *)

Lemma sub_LSB_other_byte cmp j :
  0 ≤ j < 8 → 2 ≤ (cmp / 256 ^ j) mod 256 < 128 →
  Z.testbit (cmp - SWAR.IHT_SWAR_LSB) (8 * j + 7) = false.
Proof.
  intros Hj. rewrite testbit_div by lia. rewrite Zodd_mod. unfold SWAR.IHT_SWAR_LSB.
  assert (j = 0 ∨ j = 1 ∨ j = 2 ∨ j = 3 ∨ j = 4 ∨ j = 5 ∨ j = 6 ∨ j = 7) as Hjs by lia.
  destruct Hjs as [->|[->|[->|[->|[->|[->|[->| ->]]]]]]];
    intros H; apply Z.eqb_neq; pow_consts; dlia.
Qed.

(** Byte [j] of the compare word is the xor of the tag and the fingerprint. *)
Lemma cmp_byte tags h7 j t :
  length tags = 8%nat → Forall valid_tag tags → 0 ≤ h7 < 0x80 → zlookup tags j = Some t →
  0 ≤ t < 0x80 →
  (Z.lxor (le_combine tags) (u64 (SWAR.IHT_SWAR_LSB * h7)) / 256 ^ j) mod 256 = Z.lxor t h7.
Proof.
  intros Hlen Hv Hh Ht Hr. pose proof (zlookup_range _ _ _ Ht).
  apply Z.bits_inj'. intros k Hk. rewrite Z.lxor_spec. destruct (Z.ltb_spec k 8).
  - by rewrite testbit_split_byte, (testbit_cmp _ _ _ t) by (done || lia).
  - change 256 with (2 ^ 8) at 2. rewrite Z.mod_pow2_bits_high by lia.
    by rewrite !testbit_byte_high by (unfold byte; lia).
Qed.

Lemma lxor_lt_128 a b : 0 ≤ a < 0x80 → 0 ≤ b < 0x80 → 0 ≤ Z.lxor a b < 0x80.
Proof.
  intros Ha Hb. split; [by apply Z.lxor_nonneg; lia|].
  destruct (decide (Z.lxor a b = 0)) as [->|]; [done|].
  apply (Z.log2_lt_cancel _ 0x80). change (Z.log2 0x80) with 7.
  apply (Z.le_lt_trans _ (Z.max (Z.log2 a) (Z.log2 b))); [apply Z.log2_lxor; lia|].
  assert (∀ x, 0 ≤ x < 0x80 → Z.log2 x < 7) as Hl.
  { intros x Hx. destruct (decide (x = 0)) as [->|]; [done|]. by apply Z.log2_lt_pow2; lia. }
  apply Z.max_lub_lt; by apply Hl.
Qed.

(** A slot that the SWAR mask names holds the fingerprint or differs from it in
    the lowest bit. *)
Lemma swar_match_near tags h7 j :
  length tags = 8%nat → Forall valid_tag tags → 0 ≤ h7 < 0x80 →
  j ∈ mask_slots (G := SWAR.ops) (SWAR.iht_match_mask (le_combine tags) h7) →
  zlookup tags j = Some h7 ∨ zlookup tags j = Some (Z.lxor h7 1).
Proof.
  intros Hlen Hv Hh Hj. destruct (match_mask_live (G := SWAR.ops) tags h7 j Hlen Hv Hh Hj) as (t & Ht & Hr).
  pose proof (zlookup_range _ _ _ Ht). rewrite Ht.
  unfold SWAR.iht_match_mask in Hj. rewrite swar_slots in Hj.
  apply list_elem_of_filter in Hj as [Hj _]. rewrite (match_bit _ _ _ t) in Hj by done.
  apply andb_true_iff in Hj as [Hj _].
  pose proof (lxor_lt_128 t h7 Hr Hh) as Hx.
  destruct (decide (2 ≤ Z.lxor t h7)) as [H2|H2].
  { rewrite sub_LSB_other_byte in Hj; [done|lia|]. rewrite (cmp_byte _ _ _ t) by done. lia. }
  assert (Z.lxor t h7 = 0 ∨ Z.lxor t h7 = 1) as [E|E] by lia.
  - left. f_equal. by apply Z.lxor_eq.
  - right. f_equal. by rewrite <-E, (Z.lxor_comm t), <-Z.lxor_assoc, Z.lxor_nilpotent.
Qed.

(** C18: On eight valid tags the SSE2 and NEON masks name exactly the slots
    with the wanted fingerprint.  The SWAR mask names all of them; a slot it
    names by mistake holds a live tag that differs from the fingerprint in the
    lowest bit only, never an empty or deleted mark.  All three agree on the
    empty slots. *)
Theorem match_mask_denotation tags h7 j :
  length tags = 8%nat → Forall valid_tag tags → 0 ≤ h7 < 0x80 →
  (j ∈ mask_slots (G := SSE2.ops) (SSE2.iht_match_mask (SSE2.iht_group_of (le_combine tags)) h7) ↔
    zlookup tags j = Some h7) ∧
  (j ∈ mask_slots (G := NEON.ops) (NEON.iht_match_mask (le_combine tags) h7) ↔
    zlookup tags j = Some h7) ∧
  (zlookup tags j = Some h7 →
    j ∈ mask_slots (G := SWAR.ops) (SWAR.iht_match_mask (le_combine tags) h7)) ∧
  (j ∈ mask_slots (G := SWAR.ops) (SWAR.iht_match_mask (le_combine tags) h7) →
    zlookup tags j = Some h7 ∨ zlookup tags j = Some (Z.lxor h7 1)) ∧
  (∀ s, s = mask_slots (G := SSE2.ops)
      (SSE2.iht_match_empty (SSE2.iht_group_of (le_combine tags))) →
    s = mask_slots (G := NEON.ops) (NEON.iht_match_empty (le_combine tags)) ∧
    s = mask_slots (G := SWAR.ops) (SWAR.iht_match_empty (le_combine tags)) ∧
    ∀ k, k ∈ s ↔ zlookup tags k = Some IHT_EMPTY_H7).
Proof.
  intros Hlen Hv Hh. split_and!.
  - unfold mask_slots, mask_pos. cbn [MASK_SCALE SSE2.ops].
    rewrite list_fmap_id, sse2_match_slots by done. by apply elem_of_tag_is.
  - unfold mask_slots, mask_pos. cbn [MASK_SCALE NEON.ops].
    rewrite list_fmap_id, neon_match_slots by (try apply valid_tags_bytes; unfold byte; done || lia).
    by apply elem_of_tag_is.
  - exact (match_mask_complete (G := SWAR.ops) tags h7 j Hlen Hv Hh).
  - by apply swar_match_near.
  - intros s ->.
    pose proof (match_empty_slots (G := SSE2.ops) tags Hlen Hv) as E1.
    pose proof (match_empty_slots (G := NEON.ops) tags Hlen Hv) as E2.
    pose proof (match_empty_slots (G := SWAR.ops) tags Hlen Hv) as E3.
    change (mask_slots (G := SSE2.ops) (SSE2.iht_match_empty
      (SSE2.iht_group_of (le_combine tags))) = filter (λ j, zlookup tags j = Some IHT_EMPTY_H7)
      (seqZ 0 8)) in E1.
    rewrite E1. split_and!; [by symmetry..|]. intros k. by apply elem_of_tag_is.
Qed.

Lemma match_mask_denotation_witness :
  SWAR.iht_match_mask (le_combine [5; 4; 128; 192; 5; 192; 127; 5]) 5 = 0x8000008000008080 ∧
  (1 ∈ mask_slots (G := SWAR.ops)
    (SWAR.iht_match_mask (le_combine [5; 4; 128; 192; 5; 192; 127; 5]) 5) →
   zlookup [5; 4; 128; 192; 5; 192; 127; 5] 1 = Some 5 ∨
   zlookup [5; 4; 128; 192; 5; 192; 127; 5] 1 = Some (Z.lxor 5 1)).
Proof.
  split; [reflexivity|].
  apply (match_mask_denotation [5; 4; 128; 192; 5; 192; 127; 5] 5 1); [reflexivity| |lia].
  repeat constructor; unfold valid_tag, IHT_DELETED_H7, IHT_EMPTY_H7; lia.
Defined.

(** * The same table on every platform *)

(** Whether a bin is well-formed depends on the byte order of the target
    only, not on the way the platform searches a group. *)
Section transport.
Context {C : BinConfig} {El : Type} (Hash : El → Z) (Eq : El → El → bool).

Lemma groups_ok_transport (G1 G2 : GroupOps) ng gc :
  target (GroupOps := G1) = target (GroupOps := G2) →
  groups_ok (G := G1) ng gc → groups_ok (G := G2) ng gc.
Proof. destruct G1, G2; cbn; intros ->. intros []. by split. Qed.

Lemma slot_at_transport (G1 G2 : GroupOps) gc g j :
  target (GroupOps := G1) = target (GroupOps := G2) →
  slot_at (G := G1) gc g j = slot_at (G := G2) gc g j.
Proof. by destruct G1, G2; cbn; intros ->. Qed.

Lemma bin_ok_transport (G1 G2 : GroupOps) ng ec dc st (b : hbin (arr Z) El) :
  target (GroupOps := G1) = target (GroupOps := G2) →
  bin_ok (K := packed G1) Hash Eq ng ec dc st b → bin_ok (K := packed G2) Hash Eq ng ec dc st b.
Proof.
  intros Ht [? ? (gc & Hb & Hgok & Hst)]. split; try done.
  exists gc. split; [done|]. split; [by apply (groups_ok_transport G1)|].
  intros g j Hg Hj. by rewrite <-(slot_at_transport G1 G2), Hst.
Qed.

Lemma stop_transport (G1 G2 : GroupOps) ng ec dc gc (b : hbin (arr Z) El) el f g j i :
  target (GroupOps := G1) = target (GroupOps := G2) →
  stop (G := G1) Hash Eq ng ec dc gc b el f g j i →
  stop (G := G2) Hash Eq ng ec dc gc b el f g j i.
Proof. destruct G1, G2; cbn; intros ->. by destruct 1; econstructor. Qed.

Lemma stop_result_transport (G1 G2 : GroupOps) n (b : hbin (arr Z) El) act h7 f g j i :
  target (GroupOps := G1) = target (GroupOps := G2) →
  stop_result (G := G1) n b act h7 f g j i = stop_result (G := G2) n b act h7 f g j i.
Proof. by destruct G1, G2; cbn; intros ->. Qed.
End transport.

(** C17: On a well-formed bin, for either index width, two platforms with the
    same byte order that meet the group laws compute the same result: the same
    flag, the same element address, the same count and the same bytes in
    memory.  A table can be built with the SIMD code and used by the portable
    code and vice versa. *)
Theorem do_1_platform_independent {C : BinConfig} `{!ConfigLaws C}
    (G1 G2 : GroupOps) `{!GroupLaws G1} `{!GroupLaws G2}
    {El : Type} (Hash : El → Z) (Eq : El → El → bool) `{!KeyLaws Hash Eq}
    ng ec dc st (b : hbin (arr Z) El) el n act :
  target (GroupOps := G1) = target (GroupOps := G2) →
  bin_ok (K := packed G1) Hash Eq ng ec dc st b →
  do_1 (G := G1) Eq n b (Hash el) el act = do_1 (G := G2) Eq n b (Hash el) el act.
Proof.
  intros Ht Hok. destruct (packed_ok_view Hash Eq ng ec dc st b Hok) as (gc & Hok1 & Hst).
  assert (packed_ok (G := G2) Hash Eq ng ec dc gc b) as Hok2.
  { pose proof (bin_ok_transport Hash Eq G1 G2 _ _ _ _ _ Ht (po_bin Hok1)) as Hb.
    pose proof (groups_ok_transport G1 G2 _ _ Ht (po_gok Hok1)) as Hgok.
    split; [|apply Hok1|done]. destruct Hb. split; try done.
    - exists gc. split; [apply Hok1|done].
    - eapply probe_inv_ext; [|done..]. intros g j _ _. by apply slot_at_transport. }
  destruct (do_1_stop (G := G1) Hash Eq ng ec dc gc b el n act Hok1) as (f1 & g1 & j1 & i1 & S1 & ->).
  destruct (do_1_stop (G := G2) Hash Eq ng ec dc gc b el n act Hok2) as (f2 & g2 & j2 & i2 & S2 & ->).
  apply (stop_transport Hash Eq G1 G2) in S1; [|done].
  destruct (stop_unique (G := G2) Hash Eq _ _ _ _ _ _ _ _ _ _ _ _ _ _ Hok2 S1 S2)
    as (-> & -> & -> & ->). by apply stop_result_transport.
Qed.

Lemma do_1_platform_independent_witness :
  ∃ t : iht (arr Z) entry, iht_create (K := packed SSE2.ops) 8 = Ok t ∧
    do_1 (G := SSE2.ops) entry_eq 0 (bin t) (entry_hash (mk_entry 42 100)) (mk_entry 42 100) INSERT =
    do_1 (G := SWAR.ops) entry_eq 0 (bin t) (entry_hash (mk_entry 42 100)) (mk_entry 42 100) INSERT.
Proof.
  destruct (iht_create_Ok (K := packed (C := iht_config) SSE2.ops) entry_hash entry_eq 8) as (t & E & (ng & Hb & _) & _);
    [lia|].
  exists t. split; [exact E|]. destruct Hb as (ec & dc & st & Hok & _).
  exact (do_1_platform_independent SSE2.ops SWAR.ops entry_hash entry_eq ng ec dc st (bin t)
    (mk_entry 42 100) 0 INSERT eq_refl Hok).
Defined.

(** * Limits *)

(** ** The portable code on a big-endian target *)

(** [be] is the portable code there: it loads the tags of a group in the
    opposite order. *)
Abbreviation be := (SWAR.ops_on BigEndian).
Abbreviation be_store := (packed (C := iht_config) be).

Lemma zlookup_rev (tags : list Z) j : length tags = 8%nat → 0 ≤ j < 8 → zlookup (rev tags) j = zlookup tags (7 - j).
Proof.
  intros Hlen Hj. do 8 (destruct tags as [|? tags]; [done|]). destruct tags; [|done].
  assert (j = 0 ∨ j = 1 ∨ j = 2 ∨ j = 3 ∨ j = 4 ∨ j = 5 ∨ j = 6 ∨ j = 7) as Hjs by lia.
  by destruct Hjs as [->|[->|[->|[->|[->|[->|[->| ->]]]]]]].
Qed.

(** Masks and slots do not depend on the byte order, the word does. *)
Lemma be_word tags : group_of_tags (G := be) tags = le_combine (rev tags).
Proof. done. Qed.

Lemma be_empty_slots tags j :
  length tags = 8%nat → Forall valid_tag tags → 0 ≤ j < 8 →
  j ∈ mask_slots (G := be) (SWAR.iht_match_empty (group_of_tags (G := be) tags)) ↔
  zlookup tags (7 - j) = Some IHT_EMPTY_H7.
Proof.
  intros Hlen Hv Hj. assert (length (rev tags) = 8%nat) as Hlen' by (by rewrite length_rev).
  rewrite be_word, <-zlookup_rev by done. rewrite <-(elem_of_tag_is (rev tags)) by done.
  rewrite <-(swar_empty_slots (rev tags)); [done..|]. by apply Forall_rev.
Qed.

Lemma be_match_slots tags h7 j :
  length tags = 8%nat → Forall valid_tag tags → 0 ≤ h7 < 0x80 → 0 ≤ j < 8 →
  (zlookup tags (7 - j) = Some h7 →
    j ∈ mask_slots (G := be) (SWAR.iht_match_mask (group_of_tags (G := be) tags) h7)) ∧
  (j ∈ mask_slots (G := be) (SWAR.iht_match_mask (group_of_tags (G := be) tags) h7) →
    zlookup tags (7 - j) = Some h7 ∨ zlookup tags (7 - j) = Some (Z.lxor h7 1)).
Proof.
  intros Hlen Hv Hh Hj. assert (length (rev tags) = 8%nat) as Hlen' by (by rewrite length_rev).
  assert (Forall valid_tag (rev tags)) as Hv' by (by apply Forall_rev).
  rewrite be_word, <-!zlookup_rev by done. split.
  - exact (match_mask_complete (G := SWAR.ops) (rev tags) h7 j Hlen' Hv' Hh).
  - exact (swar_match_near (rev tags) h7 j Hlen' Hv' Hh).
Qed.

(** The slots of a mask that is not 0 include the first one the code tries. *)
Lemma first_slot {G : GroupOps} m : 0 ≤ m < 2 ^ 64 → m ≠ 0 → mask_pos (ctzll m) ∈ mask_slots m.
Proof. intros Hm Hne. destruct (mask_slots_step m) as (-> & _); [lia|]. left. Qed.

(** A table as [iht_create] returns it: all tags mark empty slots and no
    element and no index has been written. *)
Definition fresh_groups (ng : Z) (gc : list (option Z)) : Prop :=
  groups_ok (C := iht_config) (G := be) ng gc ∧
  (∀ g j, 0 ≤ g < ng → 0 ≤ j < 8 → tag_at gc g j = Some IHT_EMPTY_H7) ∧
  (∀ g j, 0 ≤ g < ng → 0 ≤ j < 8 → cellv gc (index_addr (g * GROUP_BYTES) j) = None).
Definition fresh_table {El} (ng : Z) (gc : list (option Z)) : iht (arr Z) El :=
  mk_iht 0 (mk_hbin 0 (malloc (4 * ng)) (calloc 0 ((4 * ng + 7) / 8)) (Live gc) (ng - 1)).

Lemma index_addr_rest g j : 0 ≤ j < 8 → 8 ≤ index_addr (C := iht_config) (g * GROUP_BYTES) j mod GROUP_BYTES.
Proof.
  intros Hj. unfold index_addr. change (GROUP_BYTES (C := iht_config)) with 40. change GROUP_SIZE with 8.
  change (Z.of_nat ind_bytes) with 4. replace (g * 40 + 8 + 4 * j) with ((8 + 4 * j) + g * 40) by lia.
  rewrite Z.mod_add, Z.mod_small; lia.
Qed.

Lemma be_create {El} min_size :
  0 ≤ min_size ≤ 2 ^ 32 →
  ∃ k gc, 0 ≤ k ≤ 30 ∧ iht_create (K := be_store) (El := El) min_size = Ok (fresh_table (2 ^ k) gc) ∧
    fresh_groups (2 ^ k) gc.
Proof.
  intros Hmin. destruct (iht_create_size_Ok 30 0 min_size) as (k & Hk & Hmin' & _ & Hres); [lia..|cbn; lia|].
  assert (0 < 2 ^ k ≤ 2 ^ 30) as Hng by (split; [apply Z.pow_pos_nonneg|apply Z.pow_le_mono_r]; lia).
  assert (0 ≤ 2 ^ k ≤ max_groups (C := iht_config)) as Hmax by (rewrite iht_max_groups; lia).
  destruct (clear_groups_Ok (C := iht_config) (2 ^ k)
    (replicate (Z.to_nat (2 ^ k * GROUP_BYTES)) None)) as (gc & Ec & Hlen & Htags & Hrest);
    [done|rewrite length_replicate; change (GROUP_BYTES (C := iht_config)) with 40; lia|].
  rewrite length_replicate in Hlen. exists k, gc. split; [lia|]. split.
  - unfold iht_create. change IHT_GROUP_SIZE with (8 * 2 ^ 0). rewrite Hres by lia. step_ok. cbv zeta.
    unfold IHT_LF_FACTOR, IHT_LF_DIVISOR. replace (u64 (8 * 2 ^ k * 1) / 2) with (4 * 2 ^ k)
      by (unfold u64; rewrite Z.mod_small by lia; dlia).
    unfold iht_alloc_bin. cbn [slots_alloc packed]. unfold groups_alloc, GROUP_SIZE.
    replace (8 * 2 ^ k / 8) with (2 ^ k) by dlia. rewrite groups_size_small by done.
    unfold malloc. rewrite Ec. repeat step_ok. unfold fresh_table, IHT_GROUP_SIZE.
    replace (8 * 2 ^ k / 8) with (2 ^ k) by dlia. unfold u64. by rewrite !Z.mod_small by lia.
  - split; [|split; [done|]].
    + apply groups_ok_clear; [|done]. rewrite Hlen. change (GROUP_BYTES (C := iht_config)) with 40. lia.
    + intros g j Hg Hj. rewrite Hrest by (by apply index_addr_rest). apply cellv_malloc.
Qed.

(** The group of a hash. *)
Lemma be_group k hash :
  0 ≤ k ≤ 30 → 0 ≤ Z.land (size_wrap (C := iht_config) (hash / GROUP_SIZE)) (2 ^ k - 1) < 2 ^ k.
Proof. intros Hk. rewrite land_mask by lia. apply mod_pow2_range. lia. Qed.

(** No tag matches in a group of empty slots. *)
Lemma be_no_match h7 :
  0 ≤ h7 < 0x80 → SWAR.iht_match_mask (group_of_tags (G := be) (replicate 8 IHT_EMPTY_H7)) h7 = 0.
Proof.
  intros Hh. set (m := SWAR.iht_match_mask _ h7).
  assert (length (replicate 8 IHT_EMPTY_H7) = 8%nat) as Hlen by done.
  assert (Forall valid_tag (replicate 8 IHT_EMPTY_H7)) as Hv by (apply list.Forall_replicate; by right; right).
  pose proof (match_mask_range (G := SWAR.ops) (replicate 8 IHT_EMPTY_H7) h7 Hlen Hv Hh) as Hr.
  change (0 ≤ m < 2 ^ 64) in Hr. destruct (decide (m = 0)) as [|Hne]; [done|exfalso].
  destruct (match_mask_live (G := SWAR.ops) (replicate 8 IHT_EMPTY_H7) h7 (mask_pos (G := SWAR.ops) (ctzll m))
    Hlen Hv Hh) as (t & [_ Ht]%zlookup_Some & Hlt); [by apply (first_slot (G := SWAR.ops) m)|].
  apply lookup_replicate in Ht as [-> _]. unfold IHT_EMPTY_H7 in Hlt. lia.
Qed.

(** After one insertion into the group, the only match is at the other end. *)
Lemma be_one_match h7 :
  0 ≤ h7 < 0x80 →
  let m := SWAR.iht_match_mask (group_of_tags (G := be) (h7 :: replicate 7 IHT_EMPTY_H7)) h7 in
  m ≠ 0 ∧ mask_pos (G := be) (ctzll m) = 7.
Proof.
  intros Hh m. set (tags := h7 :: replicate 7 IHT_EMPTY_H7) in *.
  assert (length (rev tags) = 8%nat) as Hlen by done.
  assert (Forall valid_tag (rev tags)) as Hv.
  { apply Forall_rev. constructor; [by left|]. apply list.Forall_replicate. by right; right. }
  pose proof (match_mask_range (G := SWAR.ops) (rev tags) h7 Hlen Hv Hh) as Hr. change (0 ≤ m < 2 ^ 64) in Hr.
  pose proof (match_mask_complete (G := SWAR.ops) (rev tags) h7 7 Hlen Hv Hh eq_refl) as Hin.
  change (7 ∈ mask_slots (G := SWAR.ops) m) in Hin.
  assert (m ≠ 0) as Hne by (intros E; rewrite E in Hin; by eapply mask_slots_0). split; [done|].
  destruct (match_mask_live (G := SWAR.ops) (rev tags) h7 (mask_pos (G := SWAR.ops) (ctzll m)) Hlen Hv Hh)
    as (t & Ht & Hlt); [by apply (first_slot (G := SWAR.ops) m)|].
  pose proof (zlookup_range _ _ _ Ht) as Hj. rewrite Hlen in Hj. change (mask_pos (G := be)) with (mask_pos (G := SWAR.ops)).
  destruct (decide (mask_pos (G := SWAR.ops) (ctzll m) = 7)) as [|Hn7]; [done|exfalso].
  rewrite zlookup_rev in Ht by (done || lia). unfold tags in Ht. rewrite zlookup_cons, decide_False in Ht by lia.
  apply zlookup_Some in Ht as [_ [-> _]%lookup_replicate]. unfold IHT_EMPTY_H7 in Hlt. lia.
Qed.

Section big_endian.
Context {El : Type} (Hash : El → Z) (Eq : El → El → bool).
Implicit Types (gc : list (option Z)) (el : El).

(** The probe loop starts at the group of the hash. *)
Lemma be_do_1 k n b hash el act gc :
  0 ≤ k ≤ 30 → groups_mask b = 2 ^ k - 1 → groups b = Live gc → groups_ok (C := iht_config) (G := be) (2 ^ k) gc →
  let g := Z.land (size_wrap (C := iht_config) (hash / GROUP_SIZE)) (2 ^ k - 1) in
  let h7 := Z.land (Z.shiftr hash 57) 0x7f in
  ∃ fuel tags, do_1 (C := iht_config) (G := be) Eq n b hash el act =
      (m ← match_loop (C := iht_config) (G := be) Eq 65 b (g * GROUP_BYTES) el
             (SWAR.iht_match_mask (group_of_tags (G := be) tags) h7);
       match m with
       | Some (bit, el_ind) => do_found (C := iht_config) n b (g * GROUP_BYTES) bit el_ind act
       | None =>
           let emask := SWAR.iht_match_empty (group_of_tags (G := be) tags) in
           if negb (emask =? 0) then do_absent (C := iht_config) (G := be) n b (g * GROUP_BYTES) emask h7 act
           else probe_loop (C := iht_config) (G := be) Eq fuel n b el act h7
                  (Z.land (size_wrap (C := iht_config) (g + 1)) (groups_mask b))
       end) ∧
    length tags = 8%nat ∧ ∀ j, 0 ≤ j < 8 → zlookup tags j = tag_at gc g j.
Proof.
  intros Hk Hmask Hgr Hok g h7. pose proof (be_group k hash Hk) as Hg. fold g in Hg.
  assert (2 ^ k ≤ 2 ^ 30) by (apply Z.pow_le_mono_r; lia).
  destruct (group_load_Ok (C := iht_config) (G := be) (2 ^ k) gc g Hok Hg) as (tags & El' & Hlen & _ & Hz).
  exists (Z.to_nat (2 ^ k - 1)), tags. split; [|done]. unfold do_1, probe_fuel. rewrite Hmask. fold g h7.
  replace (Z.to_nat (2 ^ k - 1 + 1)) with (S (Z.to_nat (2 ^ k - 1))) by lia.
  rewrite probe_loop_S. cbv zeta. rewrite (group_base_small (2 ^ k)) by (done || rewrite iht_max_groups; lia).
  rewrite Hgr, El', Hmask. by step_ok.
Qed.

(** Lists of eight tags. *)
Lemma eight_tags (tags tags2 : list Z) :
  length tags = 8%nat → length tags2 = 8%nat → (∀ j, 0 ≤ j < 8 → zlookup tags j = zlookup tags2 j) → tags = tags2.
Proof.
  intros H1 H2 Hz. apply list_eq. intros i. destruct (decide (i < 8)%nat) as [Hi|Hi].
  - specialize (Hz (Z.of_nat i) ltac:(lia)). unfold zlookup in Hz. by rewrite !decide_True, Nat2Z.id in Hz by lia.
  - by rewrite !lookup_ge_None_2 by lia.
Qed.

Lemma be_insert k gc el :
  0 ≤ k ≤ 30 → fresh_groups (2 ^ k) gc →
  let g := Z.land (size_wrap (C := iht_config) (Hash el / GROUP_SIZE)) (2 ^ k - 1) in
  let h7 := Z.land (Z.shiftr (Hash el) 57) 0x7f in
  ∃ gc' els' d', iht_insert (K := be_store) Hash Eq (fresh_table (2 ^ k) gc) el =
      Ok (false, mk_iht 1 (mk_hbin 1 els' d' (Live gc') (2 ^ k - 1))) ∧
    groups_ok (C := iht_config) (G := be) (2 ^ k) gc' ∧
    (∀ j, 0 ≤ j < 8 → tag_at gc' g j = zlookup (h7 :: replicate 7 IHT_EMPTY_H7) j) ∧
    cellv gc' (index_addr (g * GROUP_BYTES) 7) = None.
Proof.
  intros Hk (Hok & Htags & Hidx) g h7. pose proof (be_group k (Hash el) Hk) as Hg. fold g in Hg.
  pose proof (h7_range (Hash el)) as Hh. unfold h7_of in Hh. fold h7 in Hh.
  assert (0 < 2 ^ k ≤ 2 ^ 30) as Hng by (split; [apply Z.pow_pos_nonneg|apply Z.pow_le_mono_r]; lia).
  destruct (insert_slot (C := iht_config) (G := be) (2 ^ k) gc g 0 h7 0 Hok Hg)
    as (gc1 & gc' & E1 & E2 & Hok' & _); [lia|done|done|].
  exists gc', (Live (<[0%nat := Some el]> (replicate (Z.to_nat (4 * 2 ^ k)) None))), (calloc 0 ((4 * 2 ^ k + 7) / 8)).
  pose proof (go_len Hok) as Hlen. pose proof (addr_ranges (C := iht_config) (2 ^ k) g 0 Hg ltac:(lia)) as (Ha & Hb & Hc).
  assert (gc1 = <[Z.to_nat (g * GROUP_BYTES + 0) := Some h7]> gc) as Egc1.
  { rewrite arr_set_Ok in E1 by lia. by injection E1 as <-. }
  assert (length gc1 = length gc) as Hlen1 by (rewrite Egc1; apply length_insert).
  destruct (store_int_Ok BigEndian gc1 (index_addr (g * GROUP_BYTES) 0) 4 0) as (gc2 & E2' & _ & _ & Hframe);
    [done|rewrite Hlen1; change (Z.of_nat ind_bytes) with 4 in Hc; lia|done|].
  change (target (GroupOps := be)) with BigEndian in E2. change ind_bytes with 4%nat in E2.
  rewrite E2 in E2'. injection E2' as <-. split; [|split; [done|split]].
  - unfold iht_insert. rewrite iht_perform_room, (iht_make_room_eq Hash Eq _ (2 ^ k)) by done.
    cbn [bin els_bound fresh_table]. rewrite (proj2 (Z.leb_gt _ _)) by lia. step_ok.
    unfold iht_do_1. cbn [bin_do_1 packed].
    destruct (be_do_1 k 0 (bin (fresh_table (2 ^ k) gc)) (Hash el) el INSERT gc) as (fuel & tags & Ed & Hl & Hz); [done..|].
    cbn [bin els_num fresh_table] in Ed |- *. rewrite Ed. fold g h7.
    rewrite (eight_tags tags (replicate 8 IHT_EMPTY_H7)); [|done|done|].
    2:{ intros j Hj. rewrite Hz by done. fold g. rewrite Htags by done. symmetry. apply zlookup_Some.
        split; [lia|]. apply lookup_replicate_2. lia. }
    rewrite be_no_match by done. cbn [match_loop Z.eqb]. step_ok. cbv zeta.
    change (SWAR.iht_match_empty _) with 0x8080808080808080. cbn [negb Z.eqb].
    unfold do_absent. cbn [action_code Z.leb Z.compare Pos.compare Pos.compare_cont].
    change (mask_pos (G := be) (ctzll 0x8080808080808080)) with 0. cbn [bin groups els_bound fresh_table].
    rewrite E1. step_ok. change (ind_wrap (C := iht_config) 0) with 0. change ind_bytes with 4%nat.
    change (target (GroupOps := be)) with BigEndian. rewrite E2. repeat step_ok. cbn [els deleted groups_mask].
    unfold iht_write, store_el. cbn [bin els]. unfold malloc. rewrite arr_set_Ok by (rewrite length_replicate; lia).
    by repeat step_ok.
  - intros j Hj. unfold tag_at. rewrite Hframe.
    2:{ intros [H1 H2]. apply (tag_index_disjoint (C := iht_config) g j g 0
          (g * GROUP_BYTES + j - index_addr (g * GROUP_BYTES) 0)); change (Z.of_nat ind_bytes) with 4; lia. }
    fold (tag_at (C := iht_config) gc1 g j). rewrite Egc1, (tag_at_set_tag (2 ^ k)) by (done || lia).
    rewrite zlookup_cons by lia. destruct (decide (j = 0)) as [->|Hne]; [by rewrite decide_True|].
    rewrite decide_False by lia. rewrite Htags by done. symmetry. apply zlookup_Some.
    split; [lia|]. apply lookup_replicate_2. lia.
  - rewrite Hframe.
    2:{ unfold index_addr. change (Z.of_nat ind_bytes) with 4. lia. }
    rewrite Egc1, cellv_insert by lia. rewrite decide_False by (unfold index_addr, GROUP_SIZE; lia). by apply Hidx.
Qed.

(** A round of the loop over the matching slots. *)
Lemma be_match_loop_S fuel (b : hbin (arr Z) El) base el m :
  m ≠ 0 →
  match_loop (C := iht_config) (G := be) Eq (S fuel) b base el m =
  (el_ind ← load_int BigEndian (groups b) (index_addr base (mask_pos (G := be) (ctzll m))) ind_bytes;
   e ← arr_get (els b) el_ind;
   if Eq e el then Ok (Some (mask_pos (G := be) (ctzll m), el_ind))
   else match_loop (C := iht_config) (G := be) Eq fuel b base el (Z.land m (m - 1))).
Proof. intros Hne. cbn [match_loop]. by rewrite (proj2 (Z.eqb_neq _ _) Hne). Qed.

Lemma be_find k gc el (t : iht (arr Z) El) :
  0 ≤ k ≤ 30 → groups_mask (bin t) = 2 ^ k - 1 → groups (bin t) = Live gc →
  groups_ok (C := iht_config) (G := be) (2 ^ k) gc →
  let g := Z.land (size_wrap (C := iht_config) (Hash el / GROUP_SIZE)) (2 ^ k - 1) in
  let h7 := Z.land (Z.shiftr (Hash el) 57) 0x7f in
  (∀ j, 0 ≤ j < 8 → tag_at gc g j = zlookup (h7 :: replicate 7 IHT_EMPTY_H7) j) →
  cellv gc (index_addr (g * GROUP_BYTES) 7) = None →
  iht_find (K := be_store) Hash Eq t el = UB Uninitialised.
Proof.
  intros Hk Hmask Hgr Hok g h7 Htags Hidx. pose proof (be_group k (Hash el) Hk) as Hg. fold g in Hg.
  pose proof (h7_range (Hash el)) as Hh. unfold h7_of in Hh. fold h7 in Hh. pose proof (go_len Hok) as Hlen.
  pose proof (addr_ranges (C := iht_config) (2 ^ k) g 7 Hg ltac:(lia)) as (_ & Hb & Hc).
  unfold iht_find. rewrite iht_perform_nop by done. unfold iht_do_1. cbn [bin_do_1 packed slots].
  destruct (be_do_1 k (els_num t) (bin t) (Hash el) el FIND gc) as (fuel & tags & -> & Hl & Hz); [done..|].
  fold g h7. rewrite (eight_tags tags (h7 :: replicate 7 IHT_EMPTY_H7)); [|done|done|].
  2:{ intros j Hj. rewrite Hz by done. by apply Htags. }
  destruct (be_one_match h7 Hh) as [Hne Hpos].
  set (m := SWAR.iht_match_mask _ h7) in *. rewrite (be_match_loop_S 64) by done.
  rewrite Hpos. unfold load_int. change ind_bytes with 4%nat. cbn [arr_gets]. rewrite Hgr.
  assert (arr_get (Live gc) (index_addr (g * GROUP_BYTES) 7) = UB Uninitialised) as ->; [|done].
  destruct (zlookup_is_Some gc (index_addr (g * GROUP_BYTES) 7)) as [o Ho].
  { change (Z.of_nat ind_bytes) with 4 in Hc. lia. }
  unfold arr_get. unfold cellv in Hidx. rewrite Ho in *. by destruct o.
Qed.
End big_endian.

(** Two entries whose tags share a group. *)
Definition insert_then_find {G : GroupOps} (ins : list entry) (q : entry) : res (option entry) :=
  t ← iht_create (K := packed G) 8;
  t' ← fold_left (λ r e, t ← r; '(_, t') ← iht_insert entry_hash entry_eq t e; Ok t') ins (Ok t);
  iht_find entry_hash entry_eq t' q.

(** C35: The portable code numbers the bytes of a group from the low end of
    the loaded word, which is right only on a little-endian target.  On a
    big-endian one the masks name the mirrored slots: for eight valid tags
    slot [j] is named as empty exactly if slot [7 - j] is, and named as a
    match if slot [7 - j] has the fingerprint, and only if it has it up to the
    lowest bit.  So looking up an element just inserted into a new table,
    whatever the element, its hash and the size of the table (for a minimal
    size of up to 2^32), reads an index that was never written; after two
    insertions it can also miss. *)
Theorem swar_needs_little_endian {El : Type} (Hash : El → Z) (Eq : El → El → bool) min_size el :
  0 ≤ min_size ≤ 2 ^ 32 →
  (∀ tags h7 j, length tags = 8%nat → Forall valid_tag tags → 0 ≤ h7 < 0x80 → 0 ≤ j < 8 →
    let word := group_of_tags (G := SWAR.ops_on BigEndian) tags in
    let named m := j ∈ mask_slots (G := SWAR.ops_on BigEndian) m in
    (named (SWAR.iht_match_empty word) ↔ zlookup tags (7 - j) = Some IHT_EMPTY_H7) ∧
    (zlookup tags (7 - j) = Some h7 → named (SWAR.iht_match_mask word h7)) ∧
    (named (SWAR.iht_match_mask word h7) →
      zlookup tags (7 - j) = Some h7 ∨ zlookup tags (7 - j) = Some (Z.lxor h7 1))) ∧
  (∃ t t', iht_create (K := packed (C := iht_config) (SWAR.ops_on BigEndian)) min_size = Ok t ∧
    iht_insert (K := packed (C := iht_config) (SWAR.ops_on BigEndian)) Hash Eq t el = Ok (false, t') ∧
    iht_find (K := packed (C := iht_config) (SWAR.ops_on BigEndian)) Hash Eq t' el = UB Uninitialised) ∧
  (∃ a b, insert_then_find (G := SWAR.ops_on LittleEndian) [a; b] a = Ok (Some a) ∧
    insert_then_find (G := SWAR.ops_on BigEndian) [a; b] a = Ok None).
Proof.
  intros Hmin. split_and!.
  - intros tags h7 j Hlen Hv Hh Hj word named. split; [by apply be_empty_slots|by apply be_match_slots].
  - destruct (be_create (El := El) min_size Hmin) as (k & gc & Hk & Ec & Hf).
    destruct (be_insert Hash Eq k gc el Hk Hf) as (gc' & els' & d' & Ei & Hok & Htags & Hidx).
    eexists _, _. split; [exact Ec|]. split; [exact Ei|]. by apply (be_find Hash Eq k gc').
  - exists (mk_entry 0 1), (mk_entry 55 2). by vm_compute.
Qed.

Lemma swar_needs_little_endian_witness :
  (7 ∈ mask_slots (G := SWAR.ops_on BigEndian) (SWAR.iht_match_mask
    (group_of_tags (G := SWAR.ops_on BigEndian) [5; 192; 192; 192; 192; 192; 192; 192]) 5)) ∧
  ∃ t t' : iht (arr Z) entry,
    iht_create (K := packed (C := iht_config) (SWAR.ops_on BigEndian)) 1000 = Ok t ∧
    iht_insert (K := packed (C := iht_config) (SWAR.ops_on BigEndian)) entry_hash entry_eq t (mk_entry 42 100) =
      Ok (false, t') ∧
    iht_find (K := packed (C := iht_config) (SWAR.ops_on BigEndian)) entry_hash entry_eq t' (mk_entry 42 100) =
      UB Uninitialised.
Proof.
  destruct (swar_needs_little_endian entry_hash entry_eq 1000 (mk_entry 42 100)) as (Hm & Ht & _); [lia|].
  split; [|exact Ht]. apply (Hm [5; 192; 192; 192; 192; 192; 192; 192] 5 7); [reflexivity| |lia|lia|reflexivity].
  repeat constructor; unfold valid_tag, IHT_DELETED_H7, IHT_EMPTY_H7; lia.
Defined.

(** A store that succeeds can be read back. *)
Lemma arr_sets_inv {A} (xs : list A) a p a' :
  arr_sets a p xs = Ok a' → xs ≠ [] →
  ∃ l, a = Live l ∧ 0 ≤ p ∧ p + Z.of_nat (length xs) ≤ Z.of_nat (length l).
Proof.
  revert a p. induction xs as [|x xs IH]; intros a p E Hne; [done|].
  cbn [arr_sets] in E. apply bind_Ok in E as (a1 & E1 & E).
  destruct a as [l|]; [|done]. unfold arr_set in E1. case_decide; [|done]. simplify_eq.
  exists l. split; [done|]. destruct xs as [|y xs]; [cbn; lia|].
  destruct (IH _ _ E ltac:(done)) as (l1 & [= <-] & ? & Hl). rewrite length_insert in Hl.
  cbn [length] in *. lia.
Qed.

Lemma load_after_store e a p (n : nat) v a' :
  store_int e a p n v = Ok a' → (0 < n)%nat → 0 ≤ v < 256 ^ Z.of_nat n →
  load_int e a' p n = Ok v.
Proof.
  intros E Hn Hv. unfold store_int in E.
  destruct (arr_sets_inv _ _ _ _ E) as (l & -> & Hp & Hl).
  { intros E0. apply (f_equal length) in E0. rewrite length_bytes_of_int in E0. cbn in E0. lia. }
  rewrite length_bytes_of_int in Hl.
  destruct (store_int_Ok e l p n v) as (l' & E' & _ & Hint & _); [done..|].
  unfold store_int in E'. rewrite E in E'. simplify_eq. by apply load_int_Ok.
Qed.

(** C36: Indices have 32 bits and nothing limits the number of elements: an
    insertion when 2^32 + i elements have been numbered returns the address of
    element 2^32 + i but records the index i in the group, so that later
    searches take element i for it. *)
Theorem iht_index_wraps {G : GroupOps} {El : Type} n (b : hbin (arr Z) El) base emask h7 r n' b' :
  2 ^ 32 ≤ els_bound b < 2 ^ 33 →
  do_absent n b base emask h7 INSERT = Ok (false, r, n', b') →
  r = Some (els_bound b) ∧
  load_int target (groups b') (index_addr base (mask_pos (ctzll emask))) 4 =
    Ok (els_bound b - 2 ^ 32).
Proof.
  intros Hb E. unfold do_absent in E. cbn [action_code Z.leb Z.compare Pos.compare
    Pos.compare_cont] in E.
  apply bind_Ok in E as (g1 & _ & E). apply bind_Ok in E as (g2 & E2 & E). simplify_eq.
  split; [done|]. cbn [groups]. assert (ind_wrap (els_bound b) = els_bound b - 2 ^ 32) as Hw.
  { unfold ind_wrap. cbn [ind_bytes iht_config]. change (256 ^ Z.of_nat 4) with (2 ^ 32). dlia. }
  rewrite Hw in E2. eapply load_after_store; [exact E2|cbn; lia|]. cbn. lia.
Qed.

Lemma iht_index_wraps_witness :
  let b := mk_hbin (2 ^ 32 + 5) (malloc 0) (calloc 0 0) (calloc IHT_EMPTY_H7 40) 0 : hbin (arr Z) entry in
  ∃ r n' b', do_absent (G := SWAR.ops) 9 b 0 0x8080 33 INSERT = Ok (false, r, n', b') ∧
    r = Some (els_bound b) ∧
    load_int LittleEndian (groups b') (index_addr 0 (mask_pos (G := SWAR.ops) (ctzll 0x8080))) 4 =
      Ok 5.
Proof.
  intros b. eexists _, _, _. split; [reflexivity|].
  apply (iht_index_wraps (G := SWAR.ops) 9 b 0 0x8080 33 _ 10 _); [cbn; lia|reflexivity].
Defined.
