(* ===== verification/IhtabV0.v ===== *)
(** ihtab-v0.h, the first version of the table: the functions that the macro
    [DEFINE_IHT] of this header generates.  They are those of ihtab.h
    ([Ihtab]) over the slot store with separate tag and index arrays
    ([CoreV0]). *)

From S2P Require Import Prelude Bits Groups GroupsV0 Probe Spec Store CoreV0 Ihtab.

(** [struct hbin_iht] with [h7] and [indexes], and [struct iht]. *)
Definition v0_hbin (El : Type) : Type := hbin v0_slots El.
Definition v0_iht (El : Type) : Type := iht v0_slots El.

Section ihtab_v0.
Context {G : GroupOps} {El : Type} (Hash : El → Z) (Eq : El → El → bool).

(** The slot store with 32-bit indices. *)
#[local] Instance v0_iht_store : SlotStore := apart (C := iht_config) G.

Definition v0_iht_destroy_bin : v0_hbin El → res (v0_hbin El) := iht_destroy_bin.
Definition v0_iht_do_1 : Z → v0_hbin El → El → action → res (do_result v0_slots El) :=
  iht_do_1 Hash Eq.
Definition v0_iht_alloc_bin : Z → Z → res (v0_hbin El) := iht_alloc_bin.
Definition v0_iht_rebuild : v0_iht El → res (v0_iht El) := iht_rebuild Hash Eq.
Definition v0_iht_create : Z → res (v0_iht El) := iht_create.
Definition v0_iht_destroy : v0_iht El → res (v0_iht El) := iht_destroy.
Definition v0_iht_perform : v0_iht El → El → action → res (bool * option Z * v0_iht El) :=
  iht_perform Hash Eq.
Definition v0_iht_els_count : v0_iht El → Z := iht_els_count.
Definition v0_iht_size : v0_iht El → Z := iht_size.
Definition v0_iht_iter_advance : v0_iht El → iht_iter → res iht_iter := iht_iter_advance.
Definition v0_iht_iter_begin : v0_iht El → res iht_iter := iht_iter_begin.
Definition v0_iht_iter_valid : iht_iter → bool := iht_iter_valid.
Definition v0_iht_iter_next : v0_iht El → iht_iter → res iht_iter := iht_iter_next.
End ihtab_v0.
