(* ===== verification/Ixhtab.v ===== *)
(** Model of ixhtab.h: the functions the macro [DEFINE_IXHT (El, Hash, Eq)]
    generates, the extendible table of bins behind a directory, for a 64-bit
    target.  Pointers to elements are pairs of a bin index and an element
    index; a pointer to a bin is its index in [bins].  Allocation succeeds, as
    the code assumes.

    The functions are the same in both versions of the header, which differ in
    the slot store they use: [IxhtabV0] has the instances for ixhtab-v0.h. *)

From S2P Require Import Prelude Bits Groups Probe Spec Store.

(** [ixht_ind_t] is [uint16_t]; sizes are [unsigned int]. *)
#[export] Instance ixht_config : BinConfig := { ind_bytes := 2; size_bits := 32 }.

Definition IXHT_MAX_BIN_SIZE_POWER : Z := 15.

(** The fields [depth] and [mask] of a new bin are not initialised until the
    caller of [ixht_create_bin] sets them. *)
Record ebin (S El : Type) := mk_ebin {
  depth : option Z;
  mask : option Z;
  els_start : Z;
  hb : hbin S El                  (** [els_bound] to [groups_mask] *)
}.
Arguments mk_ebin {S El} _ _ _ _.
Arguments depth {S El} _.
Arguments mask {S El} _.
Arguments els_start {S El} _.
Arguments hb {S El} _.

Record ixht (S El : Type) := mk_ixht {
  els_num : Z;
  max_depth : Z;
  bin_mask : Z;
  dir : arr Z;
  dir_capacity : Z;
  bins : arr (ebin S El);
  bins_num : Z;
  bins_capacity : Z
}.
Arguments mk_ixht {S El} _ _ _ _ _ _ _ _.
Arguments els_num {S El} _.
Arguments max_depth {S El} _.
Arguments bin_mask {S El} _.
Arguments dir {S El} _.
Arguments dir_capacity {S El} _.
Arguments bins {S El} _.
Arguments bins_num {S El} _.
Arguments bins_capacity {S El} _.

Record ixht_iter := mk_iter { bin_idx : Z; el_idx : Z; ptr : option (Z * Z) }.

(** [ixht_get_params]: [bn], [bp2] and [bs] for a table size. *)
Fixpoint get_params_loop (fuel : nat) (bn bp2 bs : Z) : res (Z * Z * Z) :=
  if 2 ^ IXHT_MAX_BIN_SIZE_POWER <=? bs then
    match fuel with
    | O => Timeout
    | S fuel => get_params_loop fuel (u64 (bn * 2)) (u64 (bp2 + 1)) (bs / 2)
    end
  else Ok (bn, bp2, bs).
Definition ixht_get_params (size : Z) : res (Z * Z * Z) := get_params_loop 64 1 0 size.

(** A field that has been assigned. *)
Definition read_field (f : option Z) : res Z :=
  match f with Some x => Ok x | None => UB Uninitialised end.

(** [x << n] on the 64-bit type [ixht_hash_t]. *)
Definition shl64 (x n : Z) : res Z :=
  if (0 <=? n) && (n <? 64) then Ok (u64 (Z.shiftl x n)) else UB ShiftTooLarge.

Section ixhtab.
Context {K : SlotStore}.
Context {El : Type} (Hash : El → Z) (Eq : El → El → bool).
Implicit Types (t : ixht slots El) (b : hbin slots El) (eb : ebin slots El) (el : El) (it : ixht_iter).

Definition ixht_destroy_bin eb : res (ebin slots El) :=
  els' ← arr_free (els (hb eb));
  deleted' ← arr_free (deleted (hb eb));
  groups' ← slots_free (groups (hb eb));
  Ok (mk_ebin (depth eb) (mask eb) (els_start eb)
        (mk_hbin (els_bound (hb eb)) els' deleted' groups' (groups_mask (hb eb)))).

(** [t->bins[ind] = eb] *)
Definition set_bin t (ind : Z) eb : res (ixht slots El) :=
  bins' ← arr_set (bins t) ind eb;
  Ok (mk_ixht (els_num t) (max_depth t) (bin_mask t) (dir t) (dir_capacity t) bins'
        (bins_num t) (bins_capacity t)).
Definition set_num t (num : Z) : ixht slots El :=
  mk_ixht num (max_depth t) (bin_mask t) (dir t) (dir_capacity t) (bins t) (bins_num t)
    (bins_capacity t).
Definition set_dir t (dir' : arr Z) : ixht slots El :=
  mk_ixht (els_num t) (max_depth t) (bin_mask t) dir' (dir_capacity t) (bins t) (bins_num t)
    (bins_capacity t).

Definition ixht_create_bin t (size : Z) : res (Z * ixht slots El) :=
  let size := if size <? GROUP_SIZE then GROUP_SIZE else size in
  '(bins_capacity', bins') ←
    (if bins_num t =? bins_capacity t then
       let cap := if negb (bins_capacity t =? 0) then u32 (bins_capacity t * 2) else 4 in
       bins' ← arr_realloc (bins t) cap; Ok (cap, bins')
     else Ok (bins_capacity t, bins t));
  let ind := bins_num t in
  let del_bytes := u32 (size + 7) / 8 in
  let indexes_size := u32 (2 * size) in
  groups' ← slots_alloc indexes_size;
  bins'' ← arr_set bins' ind
    (mk_ebin None None 0 (mk_hbin 0 (malloc size) (calloc 0 del_bytes) groups'
       (u32 (indexes_size / GROUP_SIZE - 1))));
  Ok (ind, mk_ixht (els_num t) (max_depth t) (bin_mask t) (dir t) (dir_capacity t) bins''
             (u32 (bins_num t + 1)) bins_capacity').

(** [ixht_hash_t hash = Hash (el); if (hash == 0) hash = 1;] *)
Definition xhash el : Z := if Hash el =? 0 then 1 else Hash el.

Definition ixht_do_1 (t_els_num : Z) b (hash : Z) el (act : action) : res (do_result slots El) :=
  bin_do_1 Eq t_els_num b hash el act.

(** ** Splitting a bin *)

(** The local state of the loop that distributes the elements: the count of
    the table, the two bins, and which of them got an element. *)
Record split_state := mk_split {
  sp_num : Z;
  sp_bin : hbin slots El;
  sp_new : hbin slots El;
  old_added : bool;
  new_added : bool
}.

Definition ixht_split_body (split_mask i : Z) (s : split_state) : res split_state :=
  del ← is_deleted (sp_bin s) i;
  if (del : bool) then Ok s
  else
    el ← arr_get (els (sp_bin s)) i;
    let hash := xhash el in
    let is_old := Z.land hash split_mask =? 0 in
    '(_, r, num, b') ← ixht_do_1 (sp_num s) (if is_old then sp_bin s else sp_new s) hash el INSERT;
    match r with
    | None => UB Uninitialised
    | Some p =>
        b'' ← store_el b' p el;
        Ok (if is_old then mk_split num b'' (sp_new s) true (new_added s)
            else mk_split num (sp_bin s) b'' (old_added s) true)
    end.

(** The directory after [bin->depth] has become [depth']. *)
Definition ixht_grow_dir t (depth' : Z) : res (ixht slots El) :=
  if max_depth t <? depth' then
    high ← shl64 (u64 (Z.lnot 0)) depth';
    let len := dir_capacity t in
    dir1 ← arr_realloc (dir t) (u32 (2 * len));
    dir2 ← for_res 0 len (λ j d, x ← arr_get d j; arr_set d (u32 (j + len)) x) dir1;
    Ok (mk_ixht (els_num t) depth' (u64 (Z.lnot high)) dir2 (u32 (2 * len)) (bins t) (bins_num t)
          (bins_capacity t))
  else Ok t.

(** One round of the loop of [ixht_split_bin]. *)
Definition ixht_split_round t (bin_ind new_ind : Z) : res (ixht slots El * bool * bool) :=
  new_bin ← arr_get (bins t) new_ind;
  bin ← arr_get (bins t) bin_ind;
  groups' ← slots_clear (groups (hb bin)) (groups_mask (hb bin));
  d ← read_field (depth bin);
  split_mask ← shl64 1 d;
  let depth' := u16 (d + 1) in
  t ← ixht_grow_dir t depth';
  m ← read_field (mask bin);
  let new_mask := Z.lor m split_mask in
  dir' ← arr_set (dir t) new_mask new_ind;
  let start := els_start bin in
  let bound := els_bound (hb bin) in
  let b := mk_hbin 0 (els (hb bin)) (deleted (hb bin)) groups' (groups_mask (hb bin)) in
  s ← for_res start bound (ixht_split_body split_mask)
        (mk_split (els_num t) b (hb new_bin) false false);
  t ← set_bin (set_dir t dir') bin_ind (mk_ebin (Some depth') (Some m) 0 (sp_bin s));
  t ← set_bin t new_ind (mk_ebin (Some depth') (Some new_mask) (els_start new_bin) (sp_new s));
  Ok (t, old_added s, new_added s).

Fixpoint ixht_split_loop (fuel : nat) t (bin_ind new_ind : Z) : res (ixht slots El * Z * Z) :=
  match fuel with
  | O => Timeout
  | S fuel =>
      '(t, old, new) ← ixht_split_round t bin_ind new_ind;
      if negb (old : bool) then ixht_split_loop fuel t new_ind bin_ind
      else if (new : bool) then Ok (t, bin_ind, new_ind)
      else ixht_split_loop fuel t bin_ind new_ind
  end.

(** [memset (b->deleted, 0, ((b->groups_mask + 1) * IXHT_GROUP_SIZE / 2 + 7) / 8)] *)
Definition ixht_clear_deleted t (ind : Z) : res (ixht slots El) :=
  eb ← arr_get (bins t) ind;
  let b := hb eb in
  let n := u32 (u32 (u32 (groups_mask b + 1) * GROUP_SIZE) / 2 + 7) / 8 in
  deleted' ← arr_memset (deleted b) 0 0 n;
  set_bin t ind (mk_ebin (depth eb) (mask eb) (els_start eb)
    (mk_hbin (els_bound b) (els b) deleted' (groups b) (groups_mask b))).

(** The loop ends when a round puts elements into both bins.  Every round
    raises the depth of both bins by one, so the fuel is enough: the round of a
    bin of depth 64 would shift by 64, which is undefined, and one that doubles
    a directory of depth 31 leaves its block already. *)
Definition ixht_split_bin t (bin_ind : Z) : res (ixht slots El) :=
  eb ← arr_get (bins t) bin_ind;
  let size := u32 (u32 (groups_mask (hb eb) + 1) * GROUP_SIZE) / 2 in
  '(new_ind, t) ← ixht_create_bin t size;
  '(t, bin_ind, new_ind) ← ixht_split_loop 65 t bin_ind new_ind;
  t ← ixht_clear_deleted t bin_ind;
  ixht_clear_deleted t new_ind.

(** ** Creation and destruction *)

(** [for (size = 2; min_size > size; size *= 2);] *)
Fixpoint ixht_create_size (fuel : nat) (size min_size : Z) : res Z :=
  match fuel with
  | O => Timeout
  | S fuel =>
      if size <? min_size then ixht_create_size fuel (u32 (size * 2)) min_size else Ok size
  end.

(** The body of the loop over the bins. *)
Definition ixht_create_body (bin_power2 bin_size i : Z) t : res (ixht slots El) :=
  dir' ← arr_set (dir t) i (u32 i);
  '(ind, t) ← ixht_create_bin (set_dir t dir') (u32 bin_size);
  eb ← arr_get (bins t) ind;
  set_bin t ind (mk_ebin (Some (u16 bin_power2)) (Some i) (els_start eb) (hb eb)).

Definition ixht_create (min_size : Z) : res (ixht slots El) :=
  size ← ixht_create_size 33 2 min_size;
  '(bn, bin_power2, bin_size) ← ixht_get_params size;
  one ← shl64 1 bin_power2;
  for_res 0 bn (ixht_create_body bin_power2 bin_size)
    (mk_ixht 0 (u16 bin_power2) (u64 (one - 1)) (malloc bn) (u32 bn) (Live []) 0 0).

(** The loop that frees the blocks of the bins. *)
Definition ixht_destroy_bins t : res (arr (ebin slots El)) :=
  for_res 0 (bins_num t) (λ i bs, eb ← arr_get bs i; eb' ← ixht_destroy_bin eb; arr_set bs i eb') (bins t).

Definition ixht_destroy t : res (ixht slots El) :=
  bins' ← ixht_destroy_bins t;
  bins'' ← arr_free bins';
  dir' ← arr_free (dir t);
  Ok (mk_ixht (els_num t) (max_depth t) (bin_mask t) dir' (dir_capacity t) bins'' (bins_num t)
        (bins_capacity t)).

(** ** Finding, inserting and deleting *)

(** The body of the loop that compacts a bin in place. *)
Definition ixht_compact_body (old_deleted : arr Z) (i : Z) (s : Z * hbin slots El) : res (Z * hbin slots El) :=
  let '(num, b) := s in
  byte ← arr_get old_deleted (i / 8);
  if negb (Z.land byte (Z.shiftl 1 (i mod 8)) =? 0) then Ok (num, b)
  else
    el ← arr_get (els b) i;
    '(_, r, num, b') ← ixht_do_1 num b (xhash el) el INSERT;
    match r with
    | None => UB Uninitialised
    | Some p => b'' ← store_el b' p el; Ok (num, b'')
    end.

(** Rebuilding bin [bin_ind] for the given sizes. *)
Definition ixht_rebuild_bin t (bin_ind indexes_size els_size : Z) : res (ixht slots El) :=
  eb ← arr_get (bins t) bin_ind;
  let b := hb eb in
  let old_deleted := deleted b in
  let del_bytes := u32 (els_size + 7) / 8 in
  els' ← arr_realloc (els b) els_size;
  groups' ← slots_realloc (groups b) indexes_size;
  let b1 := mk_hbin 0 els' (calloc 0 del_bytes) groups' (u32 (indexes_size / GROUP_SIZE - 1)) in
  let saved := els_num t in
  '(_, b2) ← for_res (els_start eb) (els_bound b) (ixht_compact_body old_deleted) (0, b1);
  _ ← arr_free old_deleted;
  set_bin (set_num t saved) bin_ind (mk_ebin (depth eb) (mask eb) 0 b2).

(** The part of [ixht_perform] before an insertion: the bin to insert into. *)
Definition ixht_make_room t (hash bin_ind : Z) : res (Z * ixht slots El) :=
  eb ← arr_get (bins t) bin_ind;
  let indexes_size := u32 (u32 (groups_mask (hb eb) + 1) * GROUP_SIZE) in
  let els_size := indexes_size / 2 in
  if els_bound (hb eb) =? els_size then
    let grow := indexes_size <=? u32 (2 * els_num t) in
    let indexes_size := if grow then u32 (indexes_size * 2) else indexes_size in
    let els_size := if grow then u32 (els_size * 2) else els_size in
    if grow && (2 ^ IXHT_MAX_BIN_SIZE_POWER <=? els_size) then
      t' ← ixht_split_bin t bin_ind;
      bin_ind' ← arr_get (dir t') (Z.land hash (bin_mask t'));
      Ok (bin_ind', t')
    else
      t' ← ixht_rebuild_bin t bin_ind indexes_size els_size;
      Ok (bin_ind, t')
  else Ok (bin_ind, t).

Definition ixht_perform t el (act : action) : res (bool * option (Z * Z) * ixht slots El) :=
  let hash := xhash el in
  let dir_ind := Z.land hash (bin_mask t) in
  bin_ind ← arr_get (dir t) dir_ind;
  '(bi, t1) ← (if action_code INSERT <=? action_code act then ixht_make_room t hash bin_ind
               else Ok (bin_ind, t));
  eb ← arr_get (bins t1) bi;
  '(found, r, num, b) ← ixht_do_1 (els_num t1) (hb eb) hash el act;
  t' ← set_bin (set_num t1 num) bi (mk_ebin (depth eb) (mask eb) (els_start eb) b);
  Ok (found, match r with Some i => Some (bi, i) | None => None end, t').

Definition ixht_els_count t : Z := els_num t.

(** ** Iteration *)

(** The inner loop of [ixht_iter_advance]: the next element of a bin that is
    not deleted, or the index where the loop ends. *)
Fixpoint ixht_iter_bin (fuel : nat) b (idx : Z) : res (bool * Z) :=
  if idx <? els_bound b then
    match fuel with
    | O => Timeout
    | S fuel =>
        del ← is_deleted b idx;
        if negb del then Ok (true, idx) else ixht_iter_bin fuel b (u32 (idx + 1))
    end
  else Ok (false, idx).

Fixpoint ixht_iter_loop (fuel : nat) t (bi ei : Z) : res ixht_iter :=
  if bi <? bins_num t then
    match fuel with
    | O => Timeout
    | S fuel =>
        eb ← arr_get (bins t) bi;
        '(found, ei) ← ixht_iter_bin (Z.to_nat (els_bound (hb eb) - ei)) (hb eb) ei;
        if (found : bool) then Ok (mk_iter bi ei (Some (bi, ei)))
        else
          let bi := u32 (bi + 1) in
          ei ← (if bi <? bins_num t then eb ← arr_get (bins t) bi; Ok (els_start eb) else Ok ei);
          ixht_iter_loop fuel t bi ei
    end
  else Ok (mk_iter bi ei None).

Definition ixht_iter_advance t it : res ixht_iter :=
  ixht_iter_loop (Z.to_nat (bins_num t - bin_idx it)) t (bin_idx it) (el_idx it).

Definition ixht_iter_begin t : res ixht_iter :=
  ei ← (if 0 <? bins_num t then eb ← arr_get (bins t) 0; Ok (els_start eb) else Ok 0);
  ixht_iter_advance t (mk_iter 0 ei None).

Definition ixht_iter_valid it : bool :=
  match ptr it with Some _ => true | None => false end.

Definition ixht_iter_next t it : res ixht_iter :=
  ixht_iter_advance t (mk_iter (bin_idx it) (u32 (el_idx it + 1)) (ptr it)).

(** ** The ways a program uses the table (README.md, "C Usage") *)

(** [*slot] and [*slot = e;] *)
Definition ixht_read t (slot : Z * Z) : res El :=
  eb ← arr_get (bins t) slot.1; arr_get (els (hb eb)) slot.2.
Definition ixht_write t (slot : Z * Z) el : res (ixht slots El) :=
  eb ← arr_get (bins t) slot.1;
  b ← store_el (hb eb) slot.2 el;
  set_bin t slot.1 (mk_ebin (depth eb) (mask eb) (els_start eb) b).

Definition ixht_insert t el : res (bool * ixht slots El) :=
  '(found, r, t') ← ixht_perform t el INSERT;
  if (found : bool) then Ok (true, t')
  else match r with
       | Some slot => t'' ← ixht_write t' slot el; Ok (false, t'')
       | None => UB Uninitialised
       end.

Definition ixht_replace t el : res (bool * ixht slots El) :=
  '(found, r, t') ← ixht_perform t el INSERT;
  match r with
  | Some slot => t'' ← ixht_write t' slot el; Ok (found, t'')
  | None => UB Uninitialised
  end.

Definition ixht_find t el : res (option El) :=
  '(found, r, t') ← ixht_perform t el FIND;
  if (found : bool) then match r with
    | Some slot => e ← ixht_read t' slot; Ok (Some e)
    | None => UB Uninitialised
    end
  else Ok None.

Definition ixht_delete t el : res (bool * ixht slots El) :=
  '(found, _, t') ← ixht_perform t el DELETE; Ok (found, t').

(** The loop over an iterator, collecting the elements. *)
Fixpoint ixht_collect (fuel : nat) t it : res (list El) :=
  match ptr it with
  | None => Ok []
  | Some p =>
      match fuel with
      | O => Timeout
      | S fuel =>
          e ← ixht_read t p;
          it' ← ixht_iter_next t it;
          rest ← ixht_collect fuel t it';
          Ok (e :: rest)
      end
  end.

Definition ixht_elements t : res (list El) :=
  it ← ixht_iter_begin t; ixht_collect (Z.to_nat (els_num t)) t it.
End ixhtab.
