(* ===== verification/IxhtabCorrect.v ===== *)
(** Correctness of ixhtab.h.  A table represents its elements bin by bin; an
    element is in the bin the directory names for its hash.  The operations
    are shown to return normally and to act on the collection of elements as
    specified, as long as no bin has to be split. *)

From S2P Require Import Prelude Bits Groups Probe Spec Store Ixhtab.

#[export] Instance ixht_config_laws : ConfigLaws ixht_config.
Proof. by split; cbn; try lia. Qed.

Lemma ixht_max_groups : max_groups (C := ixht_config) = 2 ^ 14.
Proof. reflexivity. Qed.

(** Bins stay far below the number of elements an index can tell apart. *)
Lemma ixht_index_limit x : x < 2 ^ 16 - 1 → x < 256 ^ Z.of_nat (ind_bytes (BinConfig := ixht_config)) - 1.
Proof. done. Qed.

(** * Lists of lists *)

Lemma concat_split {A} (ls : list (list A)) k l :
  ls !! k = Some l → concat ls = concat (take k ls) ++ l ++ concat (drop (S k) ls).
Proof.
  intros Hk. rewrite <-(take_drop_middle ls k l Hk) at 1. by rewrite concat_app.
Qed.

Lemma concat_insert {A} (ls : list (list A)) k l l' :
  ls !! k = Some l → concat (<[k := l']> ls) = concat (take k ls) ++ l' ++ concat (drop (S k) ls).
Proof.
  intros Hk. rewrite insert_take_drop by (by eapply lookup_lt_Some). by rewrite concat_app.
Qed.

Lemma elem_of_concat {A} (ls : list (list A)) x :
  x ∈ concat ls ↔ ∃ k l, ls !! k = Some l ∧ x ∈ l.
Proof.
  rewrite list_elem_of_In, in_concat. split.
  - intros (l & [k Hk]%list_elem_of_In%list_elem_of_lookup & Hx%list_elem_of_In). eauto.
  - intros (k & l & Hk & Hx). exists l. rewrite <-!list_elem_of_In.
    eauto using list_elem_of_lookup_2.
Qed.

(** * Collections with distinct keys, up to order *)

Section collections.
Context {El : Type} (Hash : El → Z) (Eq : El → El → bool) `{!KeyLaws Hash Eq}.
Implicit Types (l : list El) (el e : El).

(** Elements with the same key are the same. *)
Definition uniq l : Prop := ∀ e e', e ∈ l → e' ∈ l → Eq e e' = true → e = e'.

Lemma lookup_key_Some l el e :
  uniq l → lookup_key Eq el l = Some e ↔ e ∈ l ∧ Eq e el = true.
Proof.
  intros Hu. unfold lookup_key. split.
  - intros [Hin HE]%List.find_some. by rewrite list_elem_of_In.
  - intros [Hin HE]. destruct (List.find _ l) as [e'|] eqn:F.
    + apply List.find_some in F as [Hin' HE']. f_equal.
      apply Hu; [by apply list_elem_of_In|done|].
      apply (key_trans (Hash := Hash) _ el); [done|]. by apply (key_sym (Hash := Hash)).
    + eapply List.find_none in F; [|by apply list_elem_of_In]. congruence.
Qed.

Lemma lookup_key_perm l l' el :
  uniq l → l ≡ₚ l' → lookup_key Eq el l = lookup_key Eq el l'.
Proof.
  intros Hu Hp. assert (uniq l') as Hu' by (intros e e'; rewrite <-Hp; apply Hu).
  destruct (lookup_key Eq el l') as [e|] eqn:E.
  - apply lookup_key_Some; [done|]. rewrite Hp. by apply lookup_key_Some.
  - apply lookup_key_none. intros e He. rewrite Hp in He. by eapply lookup_key_none in E.
Qed.

Lemma remove_key_perm l l' el : l ≡ₚ l' → remove_key Eq el l ≡ₚ remove_key Eq el l'.
Proof. intros Hp. unfold remove_key. by rewrite Hp. Qed.

Lemma replace_key_perm l l' el : l ≡ₚ l' → replace_key Eq el l ≡ₚ replace_key Eq el l'.
Proof. intros Hp. unfold replace_key. by rewrite Hp. Qed.

Lemma remove_key_absent l el : (∀ e, e ∈ l → Eq e el = false) → remove_key Eq el l = l.
Proof. apply filter_all_in. Qed.

Lemma replace_key_absent l el : (∀ e, e ∈ l → Eq e el = false) → replace_key Eq el l = l.
Proof.
  intros Hno. unfold replace_key. induction l as [|e l IH]; [done|]. cbn.
  rewrite Hno by set_solver. f_equal. apply IH. set_solver.
Qed.

(** An operation on the only part that can hold the key acts on the whole. *)
Lemma remove_key_concat (ls : list (list El)) k l el :
  ls !! k = Some l →
  (∀ k' l' e, k' ≠ k → ls !! k' = Some l' → e ∈ l' → Eq e el = false) →
  concat (<[k := remove_key Eq el l]> ls) = remove_key Eq el (concat ls).
Proof.
  intros Hk Hno. rewrite (concat_insert _ _ l), (concat_split ls k l) by done.
  unfold remove_key. rewrite !list.filter_app. f_equal; [|f_equal]; symmetry; apply remove_key_absent.
  - intros e (k' & l' & [Hk' ?]%lookup_take_Some & He)%elem_of_concat. eapply Hno; [|done..]. lia.
  - intros e (k' & l' & Hk' & He)%elem_of_concat. rewrite lookup_drop in Hk'.
    eapply Hno; [|done..]. lia.
Qed.

Lemma replace_key_concat (ls : list (list El)) k l el :
  ls !! k = Some l →
  (∀ k' l' e, k' ≠ k → ls !! k' = Some l' → e ∈ l' → Eq e el = false) →
  concat (<[k := replace_key Eq el l]> ls) = replace_key Eq el (concat ls).
Proof.
  intros Hk Hno. rewrite (concat_insert _ _ l), (concat_split ls k l) by done.
  unfold replace_key. rewrite !fmap_app. f_equal; [|f_equal]; symmetry; apply replace_key_absent.
  - intros e (k' & l' & [Hk' ?]%lookup_take_Some & He)%elem_of_concat. eapply Hno; [|done..]. lia.
  - intros e (k' & l' & Hk' & He)%elem_of_concat. rewrite lookup_drop in Hk'.
    eapply Hno; [|done..]. lia.
Qed.

Lemma insert_concat (ls : list (list El)) k l el :
  ls !! k = Some l → concat (<[k := l ++ [el]]> ls) ≡ₚ concat ls ++ [el].
Proof.
  intros Hk. rewrite (concat_insert _ _ l), (concat_split ls k l) by done.
  rewrite <-!(assoc_L (++)). do 2 f_equiv. apply Permutation_app_comm.
Qed.
End collections.

(** * The table *)

#[export] Instance xhash_laws {El} (Hash : El → Z) (Eq : El → El → bool) :
  KeyLaws Hash Eq → KeyLaws (xhash Hash) Eq.
Proof.
  intros HK. split.
  - intros e. unfold xhash. pose proof (hash_range (Hash := Hash) e). case_match; [lia|done].
  - apply (key_refl (Hash := Hash)).
  - apply (key_sym (Hash := Hash)).
  - apply (key_trans (Hash := Hash)).
  - intros e1 e2 HE. unfold xhash. by rewrite (key_hash (Hash := Hash) e1 e2).
Qed.

Section correct.
Context {K : SlotStore} {V : SlotView K} `{!SlotLaws ixht_config K V}.
Context {El : Type} (Hash : El → Z) (Eq : El → El → bool) `{!KeyLaws Hash Eq}.
Implicit Types (t : ixht slots El) (b : hbin slots El) (eb : ebin slots El) (el e : El) (l : list El).
Implicit Types (ng : Z) (ls : list (list El)) (bc : list (option (ebin slots El))) (dc : list (option Z)).

Abbreviation bin_rep := (bin_rep (C := ixht_config) (xhash Hash) Eq).

(** A bin that holds the elements [l]; it has at most 2^12 groups, room for
    2^14 elements. *)
Definition ebin_rep ng eb l : Prop :=
  els_start eb = 0 ∧ bin_rep ng (hb eb) l ∧ ng ≤ 2 ^ 12.

(** The bin the directory names for a hash. *)
Definition dir_at dc (depth hash : Z) : option Z := cellv dc (hash mod 2 ^ depth).

(** The directory names bin [k] exactly for the hashes that end in the bin's
    mask, of the bin's depth. *)
Definition names dc (max : Z) (k : nat) eb : Prop :=
  ∃ d m, depth eb = Some d ∧ mask eb = Some m ∧ 0 ≤ d ≤ max ∧ 0 ≤ m < 2 ^ d ∧
    ∀ j, 0 ≤ j < 2 ^ max → cellv dc j = Some (Z.of_nat k) ↔ j mod 2 ^ d = m.

Record ixht_ok bc dc ls t : Prop := {
  xo_bins : bins t = Live bc;
  xo_cap : bins_capacity t = Z.of_nat (length bc);
  xo_bins_num : bins_num t = Z.of_nat (length ls);
  xo_fit : (length ls ≤ length bc)%nat;
  xo_few : Z.of_nat (length bc) < 2 ^ 32;
  xo_bin k l : ls !! k = Some l → ∃ eb ng, bc !! k = Some (Some eb) ∧ ebin_rep ng eb l;
  xo_dir : dir t = Live dc;
  xo_depth : 0 ≤ max_depth t ≤ 32;
  xo_mask : bin_mask t = 2 ^ max_depth t - 1;
  xo_dir_ok j : 0 ≤ j < 2 ^ max_depth t →
    ∃ k, cellv dc j = Some (Z.of_nat k) ∧ (k < length ls)%nat;
  xo_placed k l e : ls !! k = Some l → e ∈ l →
    dir_at dc (max_depth t) (xhash Hash e) = Some (Z.of_nat k);
  xo_dir_cap : dir_capacity t = 2 ^ max_depth t;
  xo_dir_len : Z.of_nat (length dc) = 2 ^ max_depth t;
  xo_named k eb : (k < length ls)%nat → bc !! k = Some (Some eb) → names dc (max_depth t) k eb;
  xo_num : els_num t = Z.of_nat (length (concat ls));
  xo_small : Z.of_nat (length (concat ls)) < 2 ^ 32
}.
Arguments xo_bins {bc dc ls t} _.
Arguments xo_cap {bc dc ls t} _.
Arguments xo_bins_num {bc dc ls t} _.
Arguments xo_fit {bc dc ls t} _.
Arguments xo_few {bc dc ls t} _.
Arguments xo_bin {bc dc ls t} _.
Arguments xo_dir {bc dc ls t} _.
Arguments xo_depth {bc dc ls t} _.
Arguments xo_mask {bc dc ls t} _.
Arguments xo_dir_ok {bc dc ls t} _.
Arguments xo_placed {bc dc ls t} _.
Arguments xo_dir_cap {bc dc ls t} _.
Arguments xo_dir_len {bc dc ls t} _.
Arguments xo_named {bc dc ls t} _.
Arguments xo_num {bc dc ls t} _.
Arguments xo_small {bc dc ls t} _.

(** The table is well-formed and holds the elements [l], in any order. *)
Definition ixht_rep t l : Prop := ∃ bc dc ls, ixht_ok bc dc ls t ∧ concat ls ≡ₚ l.

(** ** Looking up the bin *)

Lemma ixht_bin_get bc dc ls t k l :
  ixht_ok bc dc ls t → ls !! k = Some l →
  ∃ eb ng, arr_get (bins t) (Z.of_nat k) = Ok eb ∧ bc !! k = Some (Some eb) ∧ ebin_rep ng eb l.
Proof.
  intros Hok Hk. destruct (xo_bin Hok k l Hk) as (eb & ng & Hb & Hr).
  exists eb, ng. split_and!; [|done..]. rewrite (xo_bins Hok). by apply live_get.
Qed.

Lemma ixht_dir_get bc dc ls t el :
  ixht_ok bc dc ls t →
  ∃ k l, arr_get (dir t) (Z.land (xhash Hash el) (bin_mask t)) = Ok (Z.of_nat k) ∧ ls !! k = Some l ∧
    dir_at dc (max_depth t) (xhash Hash el) = Some (Z.of_nat k).
Proof.
  intros Hok. pose proof (xo_depth Hok) as Hd.
  rewrite (xo_mask Hok), land_mask, (xo_dir Hok) by lia.
  pose proof (mod_pow2_range (xhash Hash el) (max_depth t) ltac:(lia)) as Hr.
  destruct (xo_dir_ok Hok _ Hr) as (k & Hk & Hlt).
  destruct (lookup_lt_is_Some_2 ls k Hlt) as [l Hl].
  exists k, l. split_and!; [by apply arr_get_Ok|done|done].
Qed.

(** Elements with the key of [el] are in its bin only. *)
Lemma other_bins bc dc ls t el k :
  ixht_ok bc dc ls t → dir_at dc (max_depth t) (xhash Hash el) = Some (Z.of_nat k) →
  ∀ k' l' e, k' ≠ k → ls !! k' = Some l' → e ∈ l' → Eq e el = false.
Proof.
  intros Hok Hdir k' l' e Hne Hk' He. destruct (Eq e el) eqn:HE; [|done]. exfalso.
  pose proof (xo_placed Hok k' l' e Hk' He) as Hp.
  rewrite (key_hash (Hash := xhash Hash) (Eq := Eq) e el HE), Hdir in Hp.
  injection Hp as Hp. lia.
Qed.

Lemma bin_rep_uniq ng b l : bin_rep ng b l → uniq Eq l.
Proof.
  intros Hb e e' [i Hi]%list_elem_of_lookup [i' Hi']%list_elem_of_lookup HE.
  assert (i = i') as <- by (by eapply (live_list_nodup (xhash Hash) Eq)). congruence.
Qed.

Lemma ixht_uniq bc dc ls t : ixht_ok bc dc ls t → uniq Eq (concat ls).
Proof.
  intros Hok e e' (k & l & Hk & He)%elem_of_concat (k' & l' & Hk' & He')%elem_of_concat HE.
  pose proof (xo_placed Hok k l e Hk He) as Hp.
  pose proof (xo_placed Hok k' l' e' Hk' He') as Hp'.
  rewrite (key_hash (Hash := xhash Hash) (Eq := Eq) e e' HE), Hp' in Hp. injection Hp as Hp.
  assert (k' = k) as -> by lia. simplify_eq.
  destruct (xo_bin Hok k l Hk) as (eb & ng & _ & _ & Hb & _). by eapply bin_rep_uniq.
Qed.

Lemma lookup_key_bin bc dc ls t el k l :
  ixht_ok bc dc ls t → dir_at dc (max_depth t) (xhash Hash el) = Some (Z.of_nat k) →
  ls !! k = Some l → lookup_key Eq el (concat ls) = lookup_key Eq el l.
Proof.
  intros Hok Hdir Hk. destruct (lookup_key Eq el l) as [e|] eqn:E.
  - apply (lookup_key_Some Hash Eq); [by eapply ixht_uniq|].
    destruct (xo_bin Hok k l Hk) as (eb & ng & _ & _ & Hb & _).
    apply (lookup_key_Some Hash Eq) in E as [He HE]; [|by eapply bin_rep_uniq].
    split; [|done]. apply elem_of_concat. eauto.
  - apply lookup_key_none. intros e (k' & l' & Hk' & He)%elem_of_concat.
    destruct (decide (k' = k)) as [->|Hne].
    + simplify_eq. by eapply lookup_key_none in E.
    + by eapply other_bins.
Qed.

(** ** Changing a bin *)

Lemma ixht_bin_set bc dc ls t k l l' eb eb' ng' num :
  ixht_ok bc dc ls t → ls !! k = Some l → bc !! k = Some (Some eb) →
  depth eb' = depth eb → mask eb' = mask eb → ebin_rep ng' eb' l' →
  (∀ e, e ∈ l' → dir_at dc (max_depth t) (xhash Hash e) = Some (Z.of_nat k)) →
  num = Z.of_nat (length (concat (<[k := l']> ls))) → num < 2 ^ 32 →
  ∃ t', set_bin (set_num t num) (Z.of_nat k) eb' = Ok t' ∧ max_depth t' = max_depth t ∧
    ixht_ok (<[k := Some eb']> bc) dc (<[k := l']> ls) t' ∧ els_num t' = num ∧
    bins t' = Live (<[k := Some eb']> bc).
Proof.
  intros Hok Hk Hbk Hde Hme Hr Hpl Hnum Hsmall. pose proof (lookup_lt_Some _ _ _ Hk) as Hlt.
  pose proof (xo_fit Hok). unfold set_bin. cbn [bins set_num].
  rewrite (xo_bins Hok), arr_set_Ok by lia. rewrite Nat2Z.id. step_ok.
  eexists. split; [done|]. split; [done|]. split; [|done].
  split; cbn [bins bins_capacity bins_num dir max_depth bin_mask els_num set_num];
    rewrite ?length_insert; try apply Hok; try done; try lia.
  - intros k' l'' Hk'. destruct (decide (k' = k)) as [->|Hne].
    + rewrite list_lookup_insert_eq in Hk' by done. simplify_eq.
      exists eb', ng'. split; [|done]. apply list_lookup_insert_eq. lia.
    + rewrite list_lookup_insert_ne in Hk' by done.
      destruct (xo_bin Hok k' l'' Hk') as (eb0 & ng & Hb & Hr').
      exists eb0, ng. split; [|done]. by rewrite list_lookup_insert_ne.
  - intros k' l'' e Hk' He. destruct (decide (k' = k)) as [->|Hne].
    + rewrite list_lookup_insert_eq in Hk' by done. simplify_eq. by apply Hpl.
    + rewrite list_lookup_insert_ne in Hk' by done. by eapply (xo_placed Hok).
  - intros k' eb2 Hk' Hb2. destruct (decide (k' = k)) as [->|Hne].
    + rewrite list_lookup_insert_eq in Hb2 by lia. simplify_eq. unfold names. rewrite Hde, Hme.
      by apply (xo_named Hok).
    + rewrite list_lookup_insert_ne in Hb2 by done. by apply (xo_named Hok).
Qed.

(** ** Compacting a bin in place *)

Lemma store_el_frame b p el b' j :
  store_el b p el = Ok b' → j ≠ p → arr_get (els b') j = arr_get (els b) j.
Proof.
  unfold store_el. intros (a & Ea & E)%bind_Ok Hne. simplify_eq. cbn [els].
  destruct (els b) as [cells|]; [|done]. unfold arr_set in Ea. case_decide; [|done].
  simplify_eq. unfold arr_get, zlookup. case_decide; [|done].
  by rewrite list_lookup_insert_ne by lia.
Qed.

Lemma store_el_deleted b p el b' : store_el b p el = Ok b' → deleted b' = deleted b.
Proof. unfold store_el. intros (a & _ & E)%bind_Ok. by simplify_eq. Qed.

Section compact.
Context (ng : Z) (ec : list (option El)) (dc : list (option Z)) (st : Z → Z → slot) (b0 : hbin slots El).
Context (Hok : bin_ok (C := ixht_config) (xhash Hash) Eq ng ec dc st b0).
Let bound := els_bound b0.
Let live := live_at ec dc bound.

(** The first [i] entries have been processed: the bin holds the live ones of
    them, and the other entries are still in place. *)
Definition compacted ng' (i : Z) b : Prop :=
  bin_rep ng' b (omap live (seqZ 0 i)) ∧
  els_bound b = Z.of_nat (length (omap live (seqZ 0 i))) ∧
  ∀ j, i ≤ j < bound → arr_get (els b) j = arr_get (els b0) j.

Lemma old_deleted_get i :
  0 ≤ i < bound → ∃ byte, arr_get (deleted b0) (i / 8) = Ok byte ∧
    negb (Z.land byte (Z.shiftl 1 (i mod 8)) =? 0) = dead_bit dc i.
Proof.
  intros Hi. pose proof (bo_bound Hok) as Hb. fold bound in Hb.
  pose proof (is_deleted_Ok (xhash Hash) Eq ng ec dc st b0 i Hok ltac:(lia)) as E.
  unfold is_deleted in E. apply bind_Ok in E as (byte & Eb & E). exists byte.
  split; [done|]. by injection E.
Qed.

Lemma live_before i : 0 ≤ i < bound → Z.of_nat (length (omap live (seqZ 0 i))) ≤ i.
Proof.
  intros Hi. assert (∀ ks, length (omap live ks) ≤ length ks)%nat as Hle.
  { intros ks. induction ks as [|k ks IH]; cbn; [lia|]. case_match; cbn; lia. }
  pose proof (Hle (seqZ 0 i)). rewrite length_seqZ in *. lia.
Qed.

Lemma compact_step ng' i num b :
  0 ≤ i < bound → compacted ng' i b → ng ≤ ng' ≤ 2 ^ 12 →
  ∃ num' b', ixht_compact_body Hash Eq (deleted b0) i (num, b) = Ok (num', b') ∧
    compacted ng' (i + 1) b'.
Proof.
  intros Hi (Hb & Hbd & Hrest) Hng. pose proof (bo_bound Hok) as Hbo.
  fold bound in Hbo.
  assert (omap live (seqZ 0 (i + 1)) = omap live (seqZ 0 i) ++ omap live [i]) as Estep.
  { by rewrite seqZ_snoc, omap_app by lia. }
  destruct (old_deleted_get i Hi) as (byte & Eb & Ed). unfold ixht_compact_body.
  rewrite Eb. step_ok. rewrite Ed. unfold compacted. rewrite Estep. cbn [omap list_omap].
  destruct (bo_init Hok i Hi) as [e He].
  destruct (dead_bit dc i) eqn:Hd.
  { assert (live i = None) as -> by (unfold live, live_at; by rewrite decide_True, Hd by lia).
    rewrite app_nil_r. eexists _, _. split; [done|]. split_and!; [done..|].
    intros j Hj. apply Hrest. lia. }
  assert (live i = Some e) as Hlive by (by apply live_at_Some). rewrite Hlive.
  rewrite Hrest, (bo_els Hok), (proj2 (arr_get_Ok _ _ _) He) by lia. step_ok.
  pose proof (live_before i Hi) as Hle.
  destruct (do_1_insert (xhash Hash) Eq ng' b (omap live (seqZ 0 i)) e num) as (b' & E & _ & Hst).
  - done.
  - apply lookup_key_none. intros e' (i' & Hi'%elem_of_seqZ & He')%list_elem_of_omap.
    destruct (Eq e' e) eqn:HE; [|done]. exfalso. assert (i' = i); [|lia].
    by eapply (pi_nodup (bo_inv Hok)).
  - lia.
  - apply ixht_index_limit. lia.
  - destruct (Hst e) as (b'' & Hw & Hrep & Hb'' & _).
    { apply (key_refl (Hash := Hash) (Eq := Eq)). }
    unfold ixht_do_1. rewrite E. step_ok. rewrite Hw. step_ok.
    eexists _, _. split; [done|]. split_and!; [done| |].
    + rewrite Hb'', Hbd, length_app. cbn. lia.
    + intros j Hj. rewrite (store_el_frame _ _ _ _ j Hw) by lia.
      rewrite (proj1 (bin_do_1_frame Eq _ _ _ _ _ _ _ _ _ E)), Hrest by lia.
      by rewrite (bo_els Hok).
Qed.

(** The loop over all entries. *)
Lemma compact_loop ng' b1 :
  ng ≤ ng' ≤ 2 ^ 12 → compacted ng' 0 b1 →
  ∃ num b', for_res 0 bound (ixht_compact_body Hash Eq (deleted b0)) (0, b1) = Ok (num, b') ∧
    bin_rep ng' b' (live_list ec dc bound) ∧
    els_bound b' = Z.of_nat (length (live_list ec dc bound)).
Proof.
  intros Hng H1. destruct (for_res_inv (λ i s, compacted ng' i s.2)
    (ixht_compact_body Hash Eq (deleted b0)) 0 bound (0, b1)) as ([num b'] & E & Hb' & Hbd & _).
  - apply (bo_bound Hok).
  - done.
  - intros i [num b] Hi Hc. destruct (compact_step ng' i num b Hi Hc Hng) as (num' & b' & E & Hc').
    by exists (num', b').
  - by exists num, b'.
Qed.
End compact.

Lemma arr_realloc_grow {A} (cells : list (option A)) n :
  Z.of_nat (length cells) ≤ n →
  ∃ cells', arr_realloc (Live cells) n = Ok (Live cells') ∧ Z.of_nat (length cells') = n ∧
    ∀ j, j < Z.of_nat (length cells) → arr_get (Live cells') j = arr_get (Live cells) j.
Proof.
  intros Hn. eexists. split; [done|]. rewrite take_ge by lia. split.
  - rewrite length_app, length_replicate. lia.
  - intros j Hj. unfold arr_get, zlookup. case_decide; [|done]. by rewrite lookup_app_l by lia.
Qed.

Lemma ebin_facts ng b l :
  bin_rep ng b l → 0 < ng ∧ groups_mask b = ng - 1 ∧ Z.of_nat (length l) ≤ els_bound b ≤ 4 * ng ∧
    ∃ k, 0 ≤ k ∧ ng = 2 ^ k.
Proof.
  intros (ec & dc & st & Hok & ->). pose proof (bo_bound Hok).
  pose proof (pi_ng (bo_inv Hok)).
  pose proof (length_live_list ec dc (els_bound b)).
  split_and!; try lia; apply Hok.
Qed.

Lemma ebin_limit ng b l :
  bin_rep ng b l → ng ≤ 2 ^ 12 → els_bound b < 256 ^ Z.of_nat ind_bytes - 1.
Proof. intros (_ & _ & ? & _)%ebin_facts Hng. apply ixht_index_limit. lia. Qed.

Lemma ixht_rebuild_bin_Ok bc dcs ls t k l eb ng ng' k' :
  ixht_ok bc dcs ls t → ls !! k = Some l → bc !! k = Some (Some eb) → ebin_rep ng eb l →
  ng' = 2 ^ k' → 0 ≤ k' → ng ≤ ng' ≤ 2 ^ 12 →
  ∃ t' eb', ixht_rebuild_bin Hash Eq t (Z.of_nat k) (8 * ng') (4 * ng') = Ok t' ∧
    ebin_rep ng' eb' l ∧ els_bound (hb eb') = Z.of_nat (length l) ∧
    ixht_ok (<[k := Some eb']> bc) dcs (<[k := l]> ls) t' ∧ els_num t' = els_num t ∧
    max_depth t' = max_depth t ∧ depth eb' = depth eb.
Proof.
  intros Hok Hk Hbc (Hst & Hb & Hng) Ek' Hk' Hng'.
  destruct (ebin_facts _ _ _ Hb) as (Hpos & _ & _ & _).
  pose proof (xo_small Hok) as Hsmall. pose proof (xo_num Hok) as Hnum.
  unfold ixht_rebuild_bin. rewrite (xo_bins Hok).
  rewrite (live_get _ _ _ Hbc). step_ok.
  destruct Hb as (ec & dc & st & Hbo & ->).
  pose proof (bo_len_els Hbo) as Hle. unfold GROUP_SIZE.
  replace (8 * ng' / 8) with ng' by dlia. rewrite (bo_els Hbo).
  destruct (arr_realloc_grow ec (4 * ng')) as (ec1 & -> & Hl1 & Hg1); [lia|]. step_ok.
  destruct (slots_realloc_ok ng (groups (hb eb)) st ng' k') as (s & -> & Hs);
    [apply Hbo|done..|rewrite ixht_max_groups; lia|]. step_ok. cbv zeta. rewrite Hst.
  unfold u32. rewrite !Z.mod_small by lia.
  destruct (compact_loop ng ec dc st (hb eb) Hbo ng' (mk_hbin 0 (Live ec1)
      (calloc 0 ((4 * ng' + 7) / 8)) s (ng' - 1))) as (num & b' & E & Hb' & Hbd).
  - lia.
  - split_and!; [|done|].
    + eexists _, _, _. split; [apply (bin_ok_init _ _ ng' k'); try done|done].
      rewrite ixht_max_groups. lia.
    + intros j Hj. cbn [els]. rewrite (bo_els Hbo). apply Hg1.
      pose proof (bo_bound Hbo). lia.
  - rewrite E. step_ok. rewrite (bo_deleted Hbo). cbn [arr_free]. step_ok.
    set (eb' := mk_ebin (depth eb) (mask eb) 0 b').
    destruct (ixht_bin_set bc dcs ls t k (live_list ec dc (els_bound (hb eb)))
      (live_list ec dc (els_bound (hb eb))) eb eb' ng' (els_num t))
      as (t' & Et & Hbn & Hok' & Hn' & _); [done..|by split_and!; [| |lia]| | |lia|].
    + intros e He. by eapply (xo_placed Hok).
    + by rewrite list_insert_id.
    + exists t', eb'. split_and!; [exact Et|split_and!; [done|done|lia]|exact Hbd|exact Hok'|done..].
Qed.

(** ** Making room for an insertion without a split *)

Lemma length_bin_le ls k l : ls !! k = Some l → (length l ≤ length (concat ls))%nat.
Proof. intros Hk. rewrite (concat_split ls k l Hk), !length_app. lia. Qed.

(** The test of [ixht_perform] that decides for a split fails. *)
Definition no_split t ng b : Prop :=
  els_num t < 2 ^ 31 ∧ (els_bound b = 4 * ng → ng < 2 ^ 12 ∨ els_num t < 4 * ng).

Lemma ixht_make_room_Ok bc dc ls t k l eb ng hash :
  ixht_ok bc dc ls t → ls !! k = Some l → bc !! k = Some (Some eb) → ebin_rep ng eb l →
  no_split t ng (hb eb) →
  ∃ t' eb' ng', ixht_make_room Hash Eq t hash (Z.of_nat k) = Ok (Z.of_nat k, t') ∧
    ixht_ok (<[k := Some eb']> bc) dc ls t' ∧ ebin_rep ng' eb' l ∧
    els_bound (hb eb') < 4 * ng' ∧ els_num t' = els_num t ∧ max_depth t' = max_depth t ∧
    depth eb' = depth eb ∧
    (els_bound (hb eb) = Z.of_nat (length l) → els_bound (hb eb') = Z.of_nat (length l)).
Proof.
  intros Hok Hk Hbc Hr [Hsm Hns]. pose proof Hr as (Hst & Hb & Hng).
  destruct (ebin_facts _ _ _ Hb) as (Hpos & Hmask & Hlen & p & Hp & Ep).
  pose proof (lookup_lt_Some _ _ _ Hk) as Hlt. pose proof (xo_fit Hok).
  pose proof (xo_num Hok) as Hnum. pose proof (length_bin_le _ _ _ Hk) as Hll.
  unfold ixht_make_room. rewrite (xo_bins Hok).
  rewrite (live_get _ _ _ Hbc). step_ok. cbv zeta. rewrite Hmask. unfold GROUP_SIZE.
  replace (ng - 1 + 1) with ng by lia. unfold u32. rewrite (Z.mod_small ng), (Z.mod_small (ng * 8)) by lia.
  replace (ng * 8 / 2) with (4 * ng) by dlia.
  destruct (Z.eqb_spec (els_bound (hb eb)) (4 * ng)) as [Hfull|Hroom].
  2:{ exists t, eb, ng. rewrite list_insert_id by done. split_and!; try done. lia. }
  rewrite (Z.mod_small (2 * els_num t)), (Z.mod_small (ng * 8 * 2)), (Z.mod_small (4 * ng * 2)) by lia.
  unfold IXHT_MAX_BIN_SIZE_POWER.
  assert (∃ ng' k', ng' = 2 ^ k' ∧ 0 ≤ k' ∧ ng ≤ ng' ≤ 2 ^ 12 ∧ Z.of_nat (length l) < 4 * ng' ∧
    (if ng * 8 <=? 2 * els_num t then ng * 8 * 2 else ng * 8) = 8 * ng' ∧
    (if ng * 8 <=? 2 * els_num t then 4 * ng * 2 else 4 * ng) = 4 * ng' ∧
    (ng * 8 <=? 2 * els_num t) && (2 ^ 15 <=?
      (if ng * 8 <=? 2 * els_num t then 4 * ng * 2 else 4 * ng)) = false)
    as (ng' & k' & Ek & Hk' & Hng' & Hl' & -> & -> & ->).
  { destruct (Z.leb_spec (ng * 8) (2 * els_num t)) as [Hg|Hg].
    - destruct (Hns Hfull) as [Hlt12|?]; [|lia].
      assert (p < 12) by (apply (Z.pow_lt_mono_r_iff 2); lia).
      assert (2 * ng ≤ 2 ^ 12).
      { rewrite Ep, <-Z.pow_succ_r by lia. apply Z.pow_le_mono_r; lia. }
      exists (2 * ng), (p + 1). rewrite Z.pow_add_r, <-Ep by lia.
      split_and!; lia.
    - exists ng, p. split_and!; try done; lia. }
  destruct (ixht_rebuild_bin_Ok bc dc ls t k l eb ng ng' k')
    as (t' & eb' & -> & Hr' & Hbd & Hok' & Hn' & Hbn & Hde); [done..|].
  step_ok. rewrite (list_insert_id ls) in Hok' by done.
  exists t', eb', ng'. split_and!; try done. lia.
Qed.

(** ** [ixht_perform] *)

Lemma set_bin_same bc t k eb :
  bins t = Live bc → bc !! k = Some (Some eb) →
  set_bin (set_num t (els_num t)) (Z.of_nat k) (mk_ebin (depth eb) (mask eb) (els_start eb) (hb eb)) = Ok t.
Proof.
  intros Hok Hk. pose proof (lookup_lt_Some _ _ _ Hk). unfold set_bin. cbn [bins set_num].
  rewrite Hok, arr_set_Ok by lia. rewrite Nat2Z.id. step_ok.
  rewrite list_insert_id by (by destruct eb). rewrite <-Hok. by destruct t.
Qed.

(** The final [ixht_do_1] of [ixht_perform], on the bin of the key. *)
Definition perform_in t (bi : Z) el (act : action) : res (bool * option (Z * Z) * ixht slots El) :=
  eb ← arr_get (bins t) bi;
  '(found, r, num, b) ← ixht_do_1 Eq (els_num t) (hb eb) (xhash Hash el) el act;
  t' ← set_bin (set_num t num) bi (mk_ebin (depth eb) (mask eb) (els_start eb) b);
  Ok (found, match r with Some i => Some (bi, i) | None => None end, t').

Lemma ixht_perform_dir t el act k :
  arr_get (dir t) (Z.land (xhash Hash el) (bin_mask t)) = Ok k →
  ixht_perform Hash Eq t el act =
  if action_code INSERT <=? action_code act
  then '(bi, t1) ← ixht_make_room Hash Eq t (xhash Hash el) k; perform_in t1 bi el act
  else perform_in t k el act.
Proof. intros E. unfold ixht_perform. cbv zeta. rewrite E. step_ok. by case_match. Qed.

Section in_bin.
Context bc dc ls t (k : nat) l eb ng el.
Context (Hok : ixht_ok bc dc ls t) (Hk : ls !! k = Some l) (Hbc : bc !! k = Some (Some eb)).
Context (Hr : ebin_rep ng eb l).
Context (Hdir : dir_at dc (max_depth t) (xhash Hash el) = Some (Z.of_nat k)).

Lemma bin_read : arr_get (bins t) (Z.of_nat k) = Ok eb.
Proof.
  rewrite (xo_bins Hok). by apply live_get.
Qed.

Lemma perform_in_missing act :
  lookup_key Eq el l = None → act ≠ INSERT →
  perform_in t (Z.of_nat k) el act = Ok (false, None, t).
Proof.
  intros Hl Ha. unfold perform_in. rewrite bin_read. step_ok. unfold ixht_do_1.
  rewrite (do_1_missing (xhash Hash) Eq ng (hb eb) l) by (done || apply Hr). step_ok.
  by rewrite (set_bin_same bc) by (done || apply Hok).
Qed.

Lemma perform_in_present act e :
  lookup_key Eq el l = Some e → act ≠ DELETE →
  ∃ slot, perform_in t (Z.of_nat k) el act = Ok (true, Some slot, t) ∧ ixht_read t slot = Ok e ∧
    ∃ t'' bc', ixht_write t slot el = Ok t'' ∧ ixht_ok bc' dc (<[k := replace_key Eq el l]> ls) t''.
Proof.
  intros Hl Ha. destruct Hr as (Hst & Hb & Hng).
  destruct (do_1_present (xhash Hash) Eq ng (hb eb) l el e (els_num t) act Hb Hl Ha ltac:(intros _; by eapply ebin_limit))
    as (i & E & He & b' & Hw & Hb' & _).
  exists (Z.of_nat k, i). unfold perform_in, ixht_read, ixht_write. cbn [fst snd].
  rewrite bin_read. repeat step_ok. unfold ixht_do_1. rewrite E. step_ok.
  rewrite (set_bin_same bc) by (done || apply Hok). split; [done|]. split; [done|]. rewrite Hw. step_ok.
  destruct (ixht_bin_set bc dc ls t k l (replace_key Eq el l)
    eb (mk_ebin (depth eb) (mask eb) (els_start eb) b') ng (els_num t))
    as (t' & Et & _ & Hok' & _ & _); [done..|by split_and!| | | |].
  - intros e' (e0 & He' & H0)%list_elem_of_fmap.
    assert (dir_at dc (max_depth t) (xhash Hash e0) = Some (Z.of_nat k))
      by (by eapply (xo_placed Hok)).
    by destruct (Eq e0 el); subst.
  - rewrite (xo_num Hok), (replace_key_concat Hash Eq ls k l el) by (done || by eapply other_bins).
    unfold replace_key. by rewrite length_fmap.
  - rewrite (xo_num Hok). apply Hok.
  - exists t', (<[k:=Some (mk_ebin (depth eb) (mask eb) (els_start eb) b')]> bc).
    split; [|done]. by destruct t.
Qed.

Lemma perform_in_delete e :
  lookup_key Eq el l = Some e →
  ∃ t' eb', perform_in t (Z.of_nat k) el DELETE = Ok (true, None, t') ∧
    ixht_ok (<[k := Some eb']> bc) dc (<[k := remove_key Eq el l]> ls) t' ∧
    ebin_rep ng eb' (remove_key Eq el l) ∧ els_bound (hb eb') = els_bound (hb eb) ∧
    els (hb eb') = els (hb eb) ∧ max_depth t' = max_depth t.
Proof.
  intros Hl. destruct Hr as (Hst & Hb & Hng).
  destruct (do_1_delete (xhash Hash) Eq ng (hb eb) l el e (els_num t) Hb Hl) as (b' & E & Hb' & Hbd' & Hels').
  unfold perform_in. rewrite bin_read. step_ok. unfold ixht_do_1. rewrite E. step_ok.
  pose proof (length_remove_key (xhash Hash) Eq l el e
    (λ x y a a', live_list_nodup (xhash Hash) Eq ng _ l x y a a' Hb) Hl) as Hlen.
  assert (Z.of_nat (length (concat (<[k:=remove_key Eq el l]> ls))) = els_num t - 1) as Hn.
  { rewrite (xo_num Hok), (concat_insert _ _ l), (concat_split ls k l), !length_app by done.
    lia. }
  pose proof (xo_small Hok). pose proof (xo_num Hok).
  destruct (ixht_bin_set bc dc ls t k l (remove_key Eq el l)
    eb (mk_ebin (depth eb) (mask eb) (els_start eb) b') ng (size_wrap (els_num t - 1)))
    as (t' & Et & Hmd' & Hok' & _ & _); [done..|by split_and!| | | |].
  - intros e' He'%list_elem_of_filter. eapply (xo_placed Hok); [done|]. apply He'.
  - unfold size_wrap. cbn [size_bits ixht_config]. rewrite Z.mod_small; lia.
  - unfold size_wrap. cbn [size_bits ixht_config]. rewrite Z.mod_small; lia.
  - rewrite Et. step_ok. eexists _, _. split; [done|]. split; [exact Hok'|]. by split_and!.
Qed.

Lemma perform_in_insert :
  lookup_key Eq el l = None → els_bound (hb eb) < 4 * ng → els_num t < 2 ^ 31 →
  ∃ slot t', perform_in t (Z.of_nat k) el INSERT = Ok (false, Some slot, t') ∧
    els_num t' = els_num t + 1 ∧
    ∀ el', Eq el' el = true → ∃ t'' eb', ixht_write t' slot el' = Ok t'' ∧
      ixht_ok (<[k := Some eb']> bc) dc (<[k := l ++ [el']]> ls) t'' ∧
      ebin_rep ng eb' (l ++ [el']) ∧ els_bound (hb eb') = els_bound (hb eb) + 1 ∧
      max_depth t'' = max_depth t ∧ depth eb' = depth eb.
Proof.
  intros Hl Hroom Hsm. destruct Hr as (Hst & Hb & Hng).
  destruct (do_1_insert (xhash Hash) Eq ng (hb eb) l el (els_num t) Hb Hl Hroom ltac:(by eapply ebin_limit))
    as (b' & E & Hbd & Hw).
  pose proof (xo_num Hok) as Hnum. pose proof (lookup_lt_Some _ _ _ Hbc) as Hlt.
  unfold perform_in. rewrite bin_read. step_ok. unfold ixht_do_1. rewrite E. step_ok.
  unfold size_wrap. cbn [size_bits ixht_config]. rewrite Z.mod_small by lia.
  unfold set_bin at 1. cbn [bins set_num]. rewrite (xo_bins Hok), arr_set_Ok by lia.
  rewrite Nat2Z.id. repeat step_ok. eexists _, _. split; [done|]. split; [done|].
  intros el' HE. destruct (Hw el' HE) as (b'' & Hs & Hb'' & Hbd'' & _).
  unfold ixht_write. cbn [fst snd bins].
  set (eb1 := mk_ebin (depth eb) (mask eb) (els_start eb) b').
  rewrite (live_get _ k eb1) by (apply list_lookup_insert_eq; lia). step_ok. unfold eb1. cbn [hb]. rewrite Hs. step_ok.
  destruct (ixht_bin_set bc dc ls t k l (l ++ [el'])
    eb (mk_ebin (depth eb) (mask eb) (els_start eb) b'') ng (els_num t + 1))
    as (t' & Et & Hmd' & Hok' & _ & _); [done..|by split_and!| | |lia|].
  - intros e [He|He]%elem_of_app; [by eapply (xo_placed Hok)|].
    apply list_elem_of_singleton in He as ->.
    by rewrite (key_hash (Hash := xhash Hash) (Eq := Eq) el' el HE).
  - rewrite Hnum, (insert_concat ls k l el' Hk), length_app. cbn. lia.
  - exists t', (mk_ebin (depth eb) (mask eb) (els_start eb) b''). split; [|by split_and!].
    rewrite <-Et. unfold set_bin. cbn [bins set_num els_num max_depth bin_mask dir dir_capacity
      bins_num bins_capacity]. rewrite (xo_bins Hok), !arr_set_Ok by (rewrite ?length_insert; lia).
    rewrite Nat2Z.id, list_insert_insert_eq. done.
Qed.
End in_bin.

(** ** Iteration *)

Lemma ixht_iter_bin_Ok ng ec dc st b n i :
  bin_ok (C := ixht_config) (xhash Hash) Eq ng ec dc st b → 0 ≤ i → n = Z.to_nat (els_bound b - i) →
  (∃ p e, ixht_iter_bin n b i = Ok (true, p) ∧ 0 ≤ p < els_bound b ∧
     live_at ec dc (els_bound b) p = Some e ∧
     live_from ec dc (els_bound b) i = e :: live_from ec dc (els_bound b) (p + 1)) ∨
  (∃ p, ixht_iter_bin n b i = Ok (false, p) ∧ live_from ec dc (els_bound b) i = []).
Proof.
  intros Hok. pose proof (bo_bound Hok) as Hb.
  pose proof (bo_max Hok) as Hm. rewrite ixht_max_groups in Hm.
  revert i. induction n as [|n IH]; intros i Hi Hn; cbn [ixht_iter_bin];
    destruct (Z.ltb_spec i (els_bound b)) as [Hlt|Hge]; try lia.
  - right. exists i. split; [done|]. unfold live_from. by rewrite seqZ_nil by lia.
  - rewrite (is_deleted_Ok _ _ _ _ _ _ _ _ Hok) by lia. step_ok.
    destruct (bo_init Hok i) as [e He]; [lia|].
    rewrite live_from_step by lia. destruct (dead_bit dc i) eqn:Hd; cbn [negb].
    + assert (live_at ec dc (els_bound b) i = None) as ->
        by (unfold live_at; by rewrite decide_True, Hd by lia).
      unfold u32. rewrite Z.mod_small by lia. apply IH; lia.
    + assert (live_at ec dc (els_bound b) i = Some e) as Hl
        by (apply live_at_Some; split_and!; [lia..|done|done]).
      left. exists i, e. rewrite Hl. split_and!; try done.
Qed.

Section iteration.
Context bc dcs ls t (Hok : ixht_ok bc dcs ls t).

(** What is left at element [i] of bin [k]. *)
Definition left_at (k : nat) (i : Z) (l : list El) : Prop :=
  ∃ eb ng ec dc st, bc !! k = Some (Some eb) ∧ els_start eb = 0 ∧
    bin_ok (C := ixht_config) (xhash Hash) Eq ng ec dc st (hb eb) ∧
    l = live_from ec dc (els_bound (hb eb)) i ++ concat (drop (S k) ls).

(** The iterator stands at the first of the elements [l] that are left. *)
Definition at_elements (it : ixht_iter) (l : list El) : Prop :=
  match ptr it with
  | None => l = []
  | Some (bi, ei) => ∃ (k : nat) e l', bi = Z.of_nat k ∧ (k < length ls)%nat ∧
      bin_idx it = bi ∧ el_idx it = ei ∧ 0 ≤ ei < 2 ^ 31 ∧
      ixht_read t (bi, ei) = Ok e ∧ l = e :: l' ∧ left_at k (ei + 1) l'
  end.

Lemma left_at_start (k : nat) l : ls !! k = Some l → left_at k 0 (concat (drop k ls)).
Proof.
  intros Hk. destruct (xo_bin Hok k l Hk) as (eb & ng & Hb & Hst & Hr & _).
  destruct Hr as (ec & dc & st & Hbo & ->). exists eb, ng, ec, dc, st. split_and!; [done..|].
  rewrite (drop_S _ _ _ Hk). cbn [concat]. unfold live_from, live_list. by rewrite Z.sub_0_r.
Qed.

Lemma ixht_iter_loop_Ok n (k : nat) i l :
  (n = length ls - k)%nat → (k < length ls)%nat → 0 ≤ i → left_at k i l →
  ∃ it, ixht_iter_loop n t (Z.of_nat k) i = Ok it ∧ at_elements it l.
Proof.
  pose proof (xo_fit Hok). pose proof (xo_few Hok).
  pose proof (xo_bins_num Hok) as Hbn.
  revert k i l. induction n as [|n IH]; intros k i l Hn Hk Hi Hl; [lia|].
  cbn [ixht_iter_loop]. rewrite Hbn. destruct (Z.ltb_spec (Z.of_nat k) (Z.of_nat (length ls))); [|lia].
  destruct Hl as (eb & ng & ec & dc & st & Hb & Hst & Hbo & ->).
  rewrite (bin_read bc dcs ls t k eb Hok Hb). step_ok.
  destruct (ixht_iter_bin_Ok ng ec dc st (hb eb) _ i Hbo Hi eq_refl)
    as [(p & e & -> & Hp & He & ->)|(p & -> & ->)]; step_ok.
  - eexists. split; [done|]. exists k, e, (live_from ec dc (els_bound (hb eb)) (p + 1) ++ concat (drop (S k) ls)).
    pose proof (bo_bound Hbo) as Hbd.
    pose proof (bo_max Hbo) as Hm. rewrite ixht_max_groups in Hm.
    split_and!; try done; try lia.
    + unfold ixht_read. cbn [fst snd]. rewrite (bin_read bc dcs ls t k eb Hok Hb). step_ok.
      rewrite (bo_els Hbo). apply arr_get_Ok. by apply live_at_Some in He as (_ & _ & ?).
    + by exists eb, ng, ec, dc, st.
  - cbv zeta. unfold u32. rewrite Z.mod_small by lia. cbn [app].
    destruct (Z.ltb_spec (Z.of_nat k + 1) (Z.of_nat (length ls))) as [Hlt|Hge].
    + destruct (lookup_lt_is_Some_2 ls (S k)) as [l' Hl']; [lia|].
      destruct (left_at_start (S k) l' Hl') as (eb' & Hrest).
      pose proof Hrest as (_ & _ & _ & _ & Hb' & Hst' & _).
      replace (Z.of_nat k + 1) with (Z.of_nat (S k)) by lia.
      rewrite (bin_read bc dcs ls t (S k) eb' Hok Hb'). step_ok. rewrite Hst'. step_ok.
      apply IH; [lia|lia|lia|]. by exists eb'.
    + step_ok. assert (n = 0%nat) as -> by lia. cbn [ixht_iter_loop]. rewrite Hbn.
      destruct (Z.ltb_spec (Z.of_nat k + 1) (Z.of_nat (length ls))); [lia|].
      eexists. split; [done|]. unfold at_elements. cbn [ptr]. by rewrite drop_ge by lia.
Qed.

(** One step of the iterator, and its start. *)
Lemma ixht_iter_next_Ok it e l :
  at_elements it (e :: l) →
  ∃ p it', ptr it = Some p ∧ ixht_read t p = Ok e ∧ ixht_iter_next t it = Ok it' ∧ at_elements it' l.
Proof.
  pose proof (xo_bins_num Hok) as Hbn. intros Hit. unfold at_elements in Hit.
  destruct (ptr it) as [[bi ei]|]; [|done].
  destruct Hit as (k & e' & l' & -> & Hk & Eb & Ee & Hei & He & [= <- <-] & Hl').
  exists (Z.of_nat k, ei). unfold ixht_iter_next, ixht_iter_advance. cbn [bin_idx el_idx].
  rewrite Eb, Ee, Hbn. unfold u32. rewrite Z.mod_small by lia.
  destruct (ixht_iter_loop_Ok (Z.to_nat (Z.of_nat (length ls) - Z.of_nat k)) k (ei + 1) l)
    as (it' & E & Hit'); [lia..|done|]. by exists it'.
Qed.

Lemma ixht_iter_begin_Ok : ∃ it, ixht_iter_begin t = Ok it ∧ at_elements it (concat ls).
Proof.
  pose proof (xo_bins_num Hok) as Hbn. unfold ixht_iter_begin, ixht_iter_advance. rewrite Hbn.
  destruct (Z.ltb_spec 0 (Z.of_nat (length ls))) as [Hlt|Hge].
  - destruct (lookup_lt_is_Some_2 ls 0) as [l0 H0]; [lia|].
    pose proof (left_at_start 0 l0 H0) as (eb & Hrest). pose proof Hrest as (_ & _ & _ & _ & Hb & Hst & _).
    rewrite (bin_read bc dcs ls t 0 eb Hok Hb : arr_get (bins t) 0 = _). repeat step_ok. rewrite Hst.
    cbn [bin_idx el_idx].
    destruct (ixht_iter_loop_Ok (Z.to_nat (Z.of_nat (length ls) - 0)) 0 0 (concat (drop 0 ls)))
      as (it & E & Hit); [lia..|by exists eb|].
    change (Z.of_nat 0) with 0 in E. rewrite E, drop_0 in *. by exists it.
  - destruct (xo_dir_ok Hok 0) as (k & _ & Hk); [|lia].
    pose proof (xo_depth Hok). split; [done|]. apply Z.pow_pos_nonneg; lia.
Qed.

Lemma ixht_at_elements_nil it : at_elements it [] → ptr it = None.
Proof.
  unfold at_elements. destruct (ptr it) as [[bi ei]|]; [|done].
  by intros (? & ? & ? & _ & _ & _ & _ & _ & _ & ? & _).
Qed.

Lemma ixht_collect_Ok fuel it l :
  at_elements it l → (length l ≤ fuel)%nat → ixht_collect fuel t it = Ok l.
Proof.
  revert it l. induction fuel as [|fuel IH]; intros it [|e l] Hit Hfuel; cbn [ixht_collect length] in *;
    try lia; try (by rewrite (ixht_at_elements_nil it Hit)).
  destruct (ixht_iter_next_Ok it e l Hit) as (p & it' & -> & -> & -> & Hit').
  repeat step_ok. rewrite (IH it' _ Hit') by lia. done.
Qed.

Lemma ixht_elements_Ok : ixht_elements t = Ok (concat ls).
Proof.
  pose proof (xo_num Hok) as Hnum. unfold ixht_elements.
  destruct ixht_iter_begin_Ok as (it & -> & Hit). step_ok. apply ixht_collect_Ok; [done|]. lia.
Qed.
End iteration.

(** ** New bins *)

Lemma arr_realloc_app {A} (cells : list (option A)) n :
  Z.of_nat (length cells) ≤ n →
  arr_realloc (Live cells) n = Ok (Live (cells ++ replicate (Z.to_nat n - length cells) None)).
Proof. intros Hn. unfold arr_realloc. by rewrite take_ge by lia. Qed.

(** The number of groups of a bin created for [size] elements. *)
Definition groups_for (size : Z) : Z := (if size <? 8 then 8 else size) / 4.

Lemma ixht_create_bin_Ok t bc k size :
  bins t = Live bc → bins_capacity t = Z.of_nat (length bc) →
  0 ≤ bins_num t ≤ Z.of_nat (length bc) → Z.of_nat (length bc) < 2 ^ 31 →
  0 ≤ k → groups_for size = 2 ^ k → 0 ≤ size ≤ 2 ^ 14 → size < 8 ∨ size mod 4 = 0 →
  ∃ t' bc' b, ixht_create_bin t size = Ok (bins_num t, t') ∧
    t' = mk_ixht (els_num t) (max_depth t) (bin_mask t) (dir t) (dir_capacity t) (Live bc')
           (bins_num t + 1) (Z.of_nat (length bc')) ∧
    bins_num t < Z.of_nat (length bc') ≤ Z.max (Z.of_nat (length bc)) (2 * bins_num t + 4) ∧
    (∀ j : nat, Z.of_nat j ≠ bins_num t → (j < length bc)%nat → bc' !! j = bc !! j) ∧
    bc' !! Z.to_nat (bins_num t) = Some (Some (mk_ebin None None 0 b)) ∧
    bin_rep (groups_for size) b [] ∧ els_bound b = 0 ∧
    deleted b = calloc 0 ((4 * groups_for size + 7) / 8).
Proof.
  intros Hb Hcap Hn Hlen Hk Eg Hsize Hs4. unfold ixht_create_bin, GROUP_SIZE. cbv zeta.
  set (size' := if size <? 8 then 8 else size).
  assert (size' = 4 * groups_for size ∧ 8 ≤ size' ≤ 2 ^ 14) as [Es Hs'].
  { unfold groups_for, size'. destruct (Z.ltb_spec size 8); [by split; [|lia]|]. split; [|lia]. dlia. }
  set (ng := groups_for size) in *. clearbody size'. subst size'.
  set (cb := if bins_num t =? bins_capacity t then _ else _).
  assert (∃ bc1, cb = Ok (Z.of_nat (length bc1), Live bc1) ∧
    bins_num t < Z.of_nat (length bc1) ≤ Z.max (Z.of_nat (length bc)) (2 * bins_num t + 4) ∧
    ∀ j, (j < length bc)%nat → bc1 !! j = bc !! j) as (bc1 & -> & Hl1 & Hsame).
  { unfold cb. rewrite Hcap. destruct (Z.eqb_spec (bins_num t) (Z.of_nat (length bc))) as [E|Hne].
    - set (cap := if negb (Z.of_nat (length bc) =? 0) then u32 (Z.of_nat (length bc) * 2) else 4).
      assert (Z.of_nat (length bc) < cap ≤ 2 * Z.of_nat (length bc) + 4) as Hc.
      { unfold cap. destruct (Z.eqb_spec (Z.of_nat (length bc)) 0); cbn [negb]; [lia|].
        unfold u32. rewrite Z.mod_small by lia. lia. }
      rewrite Hb, arr_realloc_app by lia. step_ok.
      exists (bc ++ replicate (Z.to_nat cap - length bc) None).
      rewrite length_app, length_replicate. split; [do 2 f_equal; lia|]. split; [lia|].
      intros j Hj. by rewrite lookup_app_l.
    - exists bc. rewrite Hb. split_and!; done || lia. }
  step_ok. unfold u32. rewrite !(Z.mod_small (2 * (4 * ng))), (Z.mod_small (4 * ng + 7)) by lia.
  replace (2 * (4 * ng) / 8) with ng by dlia.
  replace (2 * (4 * ng)) with (8 * ng) by lia.
  destruct (slots_alloc_ok ng k) as (s & -> & Hs); [done..|rewrite ixht_max_groups; lia|]. step_ok.
  rewrite arr_set_Ok by lia. step_ok. rewrite !Z.mod_small by lia.
  eexists _, _, _. split; [done|]. split; [by rewrite length_insert|]. rewrite length_insert.
  split; [done|]. split; [|split; [by apply list_lookup_insert_eq; lia|split; [|done]]].
  - intros j Hj Hjl. rewrite list_lookup_insert_ne by lia. by apply Hsame.
  - eexists _, _, _. split; [|done]. apply (bin_ok_init _ _ ng k); try done.
    + rewrite ixht_max_groups. lia.
    + rewrite length_replicate. lia.
Qed.

(** ** Creation *)

(** The size loop: the least power of two from [2 ^ k] on that is large enough. *)
Lemma ixht_create_size_Ok n k min_size :
  1 ≤ k → k + Z.of_nat n = 31 → min_size ≤ 2 ^ 31 →
  ∃ k', k ≤ k' ≤ 31 ∧ min_size ≤ 2 ^ k' ∧ (k' = k ∨ 2 ^ k' < 2 * min_size) ∧
    ∀ fuel, (n < fuel)%nat → ixht_create_size fuel (2 ^ k) min_size = Ok (2 ^ k').
Proof.
  revert k. induction n as [|n IH]; intros k Hk Hn Hmin.
  - exists k. assert (k = 31) as -> by lia. split_and!; [lia..|by left|].
    intros [|fuel] Hf; [lia|]. cbn [ixht_create_size].
    by destruct (Z.ltb_spec (2 ^ 31) min_size); [lia|].
  - destruct (Z.ltb_spec (2 ^ k) min_size) as [Hlt|Hge].
    + destruct (IH (k + 1)) as (k' & Hk' & Hm & Hl & Hf); [lia..|].
      assert (2 ^ (k + 1) = 2 * 2 ^ k) as E2 by (rewrite Z.pow_add_r; lia).
      assert (2 ^ (k + 1) ≤ 2 ^ 31) by (apply Z.pow_le_mono_r; lia).
      exists k'. split_and!; [lia|lia|done| |].
      * destruct Hl as [->|]; [right; lia|by right].
      * intros [|fuel] Hfu; [lia|]. cbn [ixht_create_size].
        destruct (Z.ltb_spec (2 ^ k) min_size); [|lia]. unfold u32.
        rewrite Z.mod_small by lia. rewrite Z.mul_comm, <-E2. apply Hf. lia.
    + exists k. split_and!; [lia..|by left|]. intros [|fuel] Hf; [lia|]. cbn [ixht_create_size].
      by destruct (Z.ltb_spec (2 ^ k) min_size); [lia|].
Qed.

Lemma get_params_loop_Ok n fuel bn bp2 bs :
  (n < fuel)%nat → 0 ≤ bp2 → bn = 2 ^ bp2 → bp2 + Z.of_nat n < 63 → 2 ^ 14 ≤ bs →
  bs = 2 ^ (14 + Z.of_nat n) →
  get_params_loop fuel bn bp2 bs = Ok (2 ^ (bp2 + Z.of_nat n), bp2 + Z.of_nat n, 2 ^ 14).
Proof.
  revert fuel bn bp2 bs. induction n as [|n IH]; intros fuel bn bp2 bs Hf Hb Ebn Hn Hbs Ebs;
    (destruct fuel as [|fuel]; [lia|]); cbn [get_params_loop]; unfold IXHT_MAX_BIN_SIZE_POWER.
  - change (Z.of_nat 0) with 0 in *. rewrite Z.add_0_r in *. subst bs.
    destruct (Z.leb_spec (2 ^ 15) (2 ^ 14)); [lia|]. by rewrite Ebn.
  - assert (bs = 2 * 2 ^ (14 + Z.of_nat n)) as Eh.
    { rewrite Ebs, <-Z.pow_succ_r by lia. f_equal. lia. }
    assert (2 ^ 14 ≤ 2 ^ (14 + Z.of_nat n)) by (apply Z.pow_le_mono_r; lia).
    destruct (Z.leb_spec (2 ^ 15) bs); [|lia].
    assert (2 ^ (bp2 + 1) < 2 ^ 64) by (apply Z.pow_lt_mono_r; lia).
    assert (2 ^ (bp2 + 1) = 2 * bn) as E2 by (rewrite Z.pow_add_r, Ebn; lia).
    assert (0 < bn) by (rewrite Ebn; apply Z.pow_pos_nonneg; lia).
    unfold u64. rewrite !Z.mod_small by lia.
    replace (bp2 + Z.of_nat (S n)) with (bp2 + 1 + Z.of_nat n) by lia.
    apply IH; try lia; rewrite Eh; dlia.
Qed.

Lemma ixht_get_params_Ok k :
  1 ≤ k ≤ 31 → ∃ p, 0 ≤ p ≤ 17 ∧ ixht_get_params (2 ^ k) = Ok (2 ^ p, p, 2 ^ (k - p)) ∧
    k - p ≤ 14 ∧ (p = 0 ∨ k - p = 14).
Proof.
  intros Hk. destruct (decide (k < 15)) as [Hlt|Hge].
  - exists 0. split; [lia|]. split; [|lia]. unfold ixht_get_params. cbn [get_params_loop].
    assert (2 ^ k < 2 ^ 15) by (apply Z.pow_lt_mono_r; lia). unfold IXHT_MAX_BIN_SIZE_POWER.
    destruct (Z.leb_spec (2 ^ 15) (2 ^ k)); [lia|]. by rewrite Z.sub_0_r.
  - exists (k - 14). split; [lia|]. split; [|lia].
    assert (2 ^ 14 ≤ 2 ^ k) by (apply Z.pow_le_mono_r; lia).
    unfold ixht_get_params. rewrite (get_params_loop_Ok (Z.to_nat (k - 14))); try done; try lia.
    + do 4 f_equal; lia.
    + f_equal. lia.
Qed.

Lemma groups_for_pow s :
  1 ≤ s ≤ 14 → ∃ k, 0 ≤ k ≤ 12 ∧ groups_for (2 ^ s) = 2 ^ k ∧ 2 ^ s ≤ 4 * 2 ^ k ∧
    (2 ^ s < 8 ∨ 2 ^ s mod 4 = 0).
Proof.
  intros Hs. unfold groups_for. destruct (Z.ltb_spec (2 ^ s) 8) as [Hlt|Hge].
  - exists 1. split; [lia|]. split; [done|]. split; [lia|by left].
  - assert (3 ≤ s) by (apply (Z.pow_le_mono_r_iff 2); lia).
    assert (2 ^ s = 2 ^ (s - 2) * 4) as E.
    { change 4 with (2 ^ 2). rewrite <-Z.pow_add_r by lia. f_equal. lia. }
    exists (s - 2). rewrite E. split; [lia|]. split; [by apply Z.div_mul|].
    split; [lia|]. right. apply Z.mod_mul. lia.
Qed.

(** The table after [i] rounds of the loop of [ixht_create]. *)
Record creating (p ng i : Z) (bc : list (option (ebin slots El))) dc t : Prop := {
  cr_shape : t = mk_ixht 0 p (2 ^ p - 1) (Live dc) (2 ^ p) (Live bc) i (Z.of_nat (length bc));
  cr_fit : i ≤ Z.of_nat (length bc) ≤ 2 * i + 4;
  cr_dirlen : Z.of_nat (length dc) = 2 ^ p;
  cr_dir j : 0 ≤ j < i → cellv dc j = Some j;
  cr_bin (j : nat) : Z.of_nat j < i → ∃ eb, bc !! j = Some (Some eb) ∧ ebin_rep ng eb [] ∧
    depth eb = Some p ∧ mask eb = Some (Z.of_nat j) ∧ els_bound (hb eb) = 0
}.

Lemma ixht_create_body_Ok p s k i bc dc t :
  0 ≤ p ≤ 17 → 1 ≤ s ≤ 14 → 0 ≤ k ≤ 12 → groups_for (2 ^ s) = 2 ^ k →
  (2 ^ s < 8 ∨ 2 ^ s mod 4 = 0) → 0 ≤ i < 2 ^ p → creating p (2 ^ k) i bc dc t →
  ∃ t' bc' dc', ixht_create_body p (2 ^ s) i t = Ok t' ∧ creating p (2 ^ k) (i + 1) bc' dc' t'.
Proof.
  intros Hp Hs Hk Eg Hs4 Hi [-> Hfit Hdl Hd Hb].
  assert (2 ^ p ≤ 2 ^ 17) by (apply Z.pow_le_mono_r; lia).
  assert (2 ^ s ≤ 2 ^ 14) by (apply Z.pow_le_mono_r; lia).
  assert (0 < 2 ^ s) by (apply Z.pow_pos_nonneg; lia).
  unfold ixht_create_body. cbn [dir]. rewrite arr_set_Ok by lia. step_ok.
  unfold set_dir. cbn [els_num max_depth bin_mask dir_capacity bins bins_num bins_capacity].
  unfold u32, u16. rewrite !Z.mod_small by lia.
  edestruct (ixht_create_bin_Ok (mk_ixht 0 p (2 ^ p - 1) (Live (<[Z.to_nat i:=Some i]> dc)) (2 ^ p)
    (Live bc) i (Z.of_nat (length bc))) bc k (2 ^ s)) as (t' & bc' & b & E & -> & Hfit' & Hsame & Hn & Hr & Hb0);
    cbn [els_num max_depth bin_mask dir dir_capacity bins bins_num bins_capacity] in *; try done; try lia.
  rewrite E. step_ok. cbn [bins].
  rewrite (live_get_Z _ i _ (proj1 Hi) Hn). step_ok. unfold set_bin. cbn [bins].
  rewrite arr_set_Ok by lia. step_ok. cbn [els_num max_depth bin_mask dir dir_capacity bins_num bins_capacity].
  eexists _, _, _. split; [done|]. split.
  - by rewrite length_insert.
  - rewrite length_insert. lia.
  - by rewrite length_insert.
  - intros j Hj. rewrite cellv_insert by lia. case_decide as Ej; [by rewrite Ej|]. apply Hd. lia.
  - intros j Hj. destruct (decide (Z.of_nat j = i)) as [Ej|Hne].
    + rewrite <-Ej, Nat2Z.id. eexists. rewrite list_lookup_insert_eq by lia.
      split; [done|]. cbn [depth mask hb]. split; [|by destruct Hb0]. rewrite <-Eg. split_and!; [done|done|].
      rewrite Eg. apply Z.pow_le_mono_r; lia.
    + destruct (Hb j) as (eb & Hj' & ?); [lia|]. exists eb. split; [|done].
      rewrite list_lookup_insert_ne, Hsame by lia. done.
Qed.

Lemma concat_replicate_nil n : concat (replicate n (@nil El)) = [].
Proof. by induction n. Qed.

Lemma creating_ok p ng bc dc t :
  0 ≤ p ≤ 17 → creating p ng (2 ^ p) bc dc t →
  ixht_ok bc dc (replicate (Z.to_nat (2 ^ p)) []) t.
Proof.
  intros Hp [-> Hfit Hdl Hd Hb]. assert (2 ^ p ≤ 2 ^ 17) by (apply Z.pow_le_mono_r; lia).
  assert (0 < 2 ^ p) by (apply Z.pow_pos_nonneg; lia).
  split; cbn [bins bins_capacity bins_num dir max_depth bin_mask els_num];
    rewrite ?length_replicate, ?concat_replicate_nil; try done; try lia.
  - intros k l [-> Hk]%lookup_replicate. destruct (Hb k) as (eb & Hk' & Hr & _); [lia|]. eauto.
  - intros j Hj. exists (Z.to_nat j). rewrite Hd, Z2Nat.id by lia. split; [done|lia].
  - intros k l e [-> _]%lookup_replicate He. by apply elem_of_nil in He.
  - intros k eb Hk Hbk. destruct (Hb k) as (eb' & Hk' & _ & Hde & Hme & _); [lia|].
    rewrite Hk' in Hbk. simplify_eq. exists p, (Z.of_nat k). split_and!; try done; try lia.
    intros j Hj. rewrite Hd, Z.mod_small by done. split; [by intros [= ?]|by intros ->].
Qed.

(** The bins of a table: their number and the room in each. *)
Definition room t (n ng : Z) : Prop :=
  bins_num t = n ∧ ∀ i, 0 ≤ i < n → ∃ eb, arr_get (bins t) i = Ok eb ∧ groups_mask (hb eb) = ng - 1.

(** Creation with the sizes [2 ^ p] bins of [2 ^ s] elements. *)
Lemma ixht_create_run min_size k p s kg :
  ixht_create_size 33 2 min_size = Ok (2 ^ k) → ixht_get_params (2 ^ k) = Ok (2 ^ p, p, 2 ^ s) →
  0 ≤ p ≤ 17 → 1 ≤ s ≤ 14 → 0 ≤ kg ≤ 12 → groups_for (2 ^ s) = 2 ^ kg → (2 ^ s < 8 ∨ 2 ^ s mod 4 = 0) →
  ∃ t bc dc, ixht_create min_size = Ok t ∧ creating p (2 ^ kg) (2 ^ p) bc dc t.
Proof.
  intros Hsz Hpar Hp Hs Hkg Eg Hs4.
  assert (2 ^ p ≤ 2 ^ 17) by (apply Z.pow_le_mono_r; lia).
  assert (0 < 2 ^ p) by (apply Z.pow_pos_nonneg; lia).
  unfold ixht_create. rewrite Hsz. step_ok. rewrite Hpar. step_ok.
  cbv beta match. unfold shl64. rewrite (proj2 (Z.leb_le 0 p)), (proj2 (Z.ltb_lt p 64)) by lia.
  cbn [andb]. step_ok. rewrite Z.shiftl_1_l. unfold u64, u32, u16.
  rewrite !(Z.mod_small (2 ^ p)), !Z.mod_small by lia.
  destruct (for_res_inv (λ i t, ∃ bc dc, creating p (2 ^ kg) i bc dc t)
    (ixht_create_body p (2 ^ s)) 0 (2 ^ p)
    (mk_ixht 0 p (2 ^ p - 1) (malloc (2 ^ p)) (2 ^ p) (Live []) 0 0)) as (t & E & bc & dc & Hc).
  - lia.
  - exists [], (replicate (Z.to_nat (2 ^ p)) None).
    split; [done|cbn; lia|rewrite length_replicate; lia|lia|lia].
  - intros i t Hi (bc & dc & Hc).
    destruct (ixht_create_body_Ok p s kg i bc dc t) as (t' & bc' & dc' & ? & ?); [done..|].
    exists t'. eauto.
  - exists t, bc, dc. split; [exact E|exact Hc].
Qed.

(** Creation gives [2 ^ p] empty bins of [ng] groups. *)
Lemma ixht_create_bins min_size :
  0 ≤ min_size ≤ 2 ^ 31 →
  ∃ t bc dc p ng, ixht_create min_size = Ok t ∧ 0 ≤ p ≤ 17 ∧ creating p ng (2 ^ p) bc dc t ∧
    min_size ≤ 2 ^ p * (4 * ng).
Proof.
  intros Hmin. destruct (ixht_create_size_Ok 30 1 min_size) as (k & Hk & Hm & _ & Hsz); [lia..|].
  destruct (ixht_get_params_Ok k) as (p & Hp & Epar & Hkp & Hor); [lia|].
  destruct (groups_for_pow (k - p)) as (kg & Hkg & Eg & Hcap & Hs4); [lia|].
  destruct (ixht_create_run min_size k p (k - p) kg) as (t & bc & dc & E & Hc); try done; try lia.
  { change 2 with (2 ^ 1) at 1. apply Hsz. lia. }
  exists t, bc, dc, p, (2 ^ kg). split_and!; try done; try lia.
  assert (0 < 2 ^ p) by (apply Z.pow_pos_nonneg; lia).
  assert (2 ^ k = 2 ^ p * 2 ^ (k - p)) by (rewrite <-Z.pow_add_r by lia; f_equal; lia). nia.
Qed.

Lemma ixht_create_Ok min_size :
  0 ≤ min_size ≤ 2 ^ 31 →
  ∃ t n ng, ixht_create min_size = Ok t ∧ ixht_rep t [] ∧ room t n ng ∧ min_size ≤ n * (4 * ng).
Proof.
  intros Hmin. destruct (ixht_create_bins min_size Hmin) as (t & bc & dc & p & ng & E & Hp & Hc & Hcap).
  exists t, (2 ^ p), ng. split; [exact E|]. split; [|split; [split|done]].
  - exists bc, dc, (replicate (Z.to_nat (2 ^ p)) []). split; [by eapply creating_ok|].
    by rewrite concat_replicate_nil.
  - by destruct Hc as [-> _ _ _ _].
  - destruct Hc as [-> Hfit _ _ Hb]. intros i Hi. destruct (Hb (Z.to_nat i)) as (eb & Hi' & Hr & _); [lia|].
    exists eb. cbn [bins]. split; [by apply live_get_Z; [lia|]|].
    destruct Hr as (_ & Hr & _). by apply ebin_facts in Hr as (_ & ? & _).
Qed.

(** ** Destruction *)

Definition freed eb : Prop := els (hb eb) = Freed ∧ deleted (hb eb) = Freed ∧
  slots_freed (groups (hb eb)).

Lemma ixht_destroy_bin_Ok ng eb l :
  ebin_rep ng eb l → ∃ eb', ixht_destroy_bin eb = Ok eb' ∧ freed eb'.
Proof.
  intros (_ & (ec & dc & st & Hok & _) & _). unfold ixht_destroy_bin.
  destruct (slots_free_ok _ _ _ (bo_slots Hok)) as (s & E & Hs).
  rewrite (bo_els Hok), (bo_deleted Hok), E. cbn [arr_free]. repeat step_ok. by eexists.
Qed.

Lemma ixht_destroy_bins_Ok bc dc ls t :
  ixht_ok bc dc ls t → ∃ bc', ixht_destroy_bins t = Ok (Live bc') ∧
    ∀ k, (k < length ls)%nat → ∃ eb, bc' !! k = Some (Some eb) ∧ freed eb.
Proof.
  intros Hok. pose proof (xo_fit Hok) as Hfit. unfold ixht_destroy_bins.
  rewrite (xo_bins Hok), (xo_bins_num Hok).
  destruct (for_res_inv (λ i a, ∃ c, a = Live c ∧ length c = length bc ∧
      (∀ k, Z.of_nat k < i → ∃ eb, c !! k = Some (Some eb) ∧ freed eb) ∧
      ∀ k, i ≤ Z.of_nat k → c !! k = bc !! k)
    (λ i bs, eb ← arr_get bs i; eb' ← ixht_destroy_bin eb; arr_set bs i eb')
    0 (Z.of_nat (length ls)) (Live bc)) as (a & -> & c & -> & _ & Hc & _); [lia| | |].
  - exists bc. split_and!; [done..|lia|done].
  - intros i a Hi (c & -> & Hl & Hf & Hs).
    destruct (lookup_lt_is_Some_2 ls (Z.to_nat i)) as [l Hil]; [lia|].
    destruct (xo_bin Hok (Z.to_nat i) l Hil) as (eb & ng & Hb & Hr).
    rewrite (live_get_Z c i eb) by (rewrite ?Hs by lia; done || lia).
    step_ok. destruct (ixht_destroy_bin_Ok ng eb l Hr) as (eb' & -> & Hfr). step_ok.
    rewrite arr_set_Ok by lia. eexists. split; [done|]. eexists. split; [done|].
    rewrite length_insert. split; [done|]. split.
    + intros k Hk. destruct (decide (Z.of_nat k = i)) as [<-|Hne].
      * rewrite Nat2Z.id, list_lookup_insert_eq by lia. by eexists.
      * rewrite list_lookup_insert_ne by lia. apply Hf. lia.
    + intros k Hk. rewrite list_lookup_insert_ne by lia. apply Hs. lia.
  - exists c. split; [done|]. intros k Hk. apply Hc. lia.
Qed.

(** ** The table meets the contract *)

Lemma ixht_rep_no_split bc dc ls t k l eb ng :
  ixht_ok bc dc ls t → ls !! k = Some l → ebin_rep ng eb l →
  Z.of_nat (length (concat ls)) < 2 ^ 14 → no_split t ng (hb eb).
Proof.
  intros Hok Hk (_ & Hb & Hng) Hl. unfold no_split. rewrite (xo_num Hok). split; [lia|].
  intros _. destruct (decide (ng < 2 ^ 12)); [by left|right; lia].
Qed.

Lemma ixht_rep_perm t l l' : ixht_rep t l → l ≡ₚ l' → ixht_rep t l'.
Proof. intros (bc & dc & ls & Hok & Hp) Hp'. exists bc, dc, ls. split; [done|]. by rewrite Hp. Qed.

(** What INSERT does to a table that holds the elements [l]: an equal element
    is found and can be replaced, or a new slot is to be filled with an element
    of the key. *)
Definition insert_outcome t el l : Prop :=
  match lookup_key Eq el l with
  | Some e => ∃ slot t' t'', ixht_perform Hash Eq t el INSERT = Ok (true, Some slot, t') ∧
      ixht_rep t' l ∧ ixht_read t' slot = Ok e ∧
      ixht_write t' slot el = Ok t'' ∧ ixht_rep t'' (replace_key Eq el l)
  | None => ∃ slot t', ixht_perform Hash Eq t el INSERT = Ok (false, Some slot, t') ∧
      els_num t' = els_num t + 1 ∧
      ∀ el', Eq el' el = true → ∃ t'', ixht_write t' slot el' = Ok t'' ∧ ixht_rep t'' (l ++ [el'])
  end.

Lemma insert_outcome_perm t el l l' :
  uniq Eq l → l ≡ₚ l' → insert_outcome t el l → insert_outcome t el l'.
Proof.
  intros Hu Hp. unfold insert_outcome. rewrite (lookup_key_perm Hash Eq l l' el) by done.
  destruct (lookup_key Eq el l') as [e|].
  - intros (slot & t' & t'' & E & Hr' & Hg & Hw & Hr''). exists slot, t', t''.
    split_and!; try done; eapply ixht_rep_perm; [done|done|done|by apply replace_key_perm].
  - intros (slot & t' & E & Hn & Hw). exists slot, t'. split_and!; try done.
    intros el' HE. destruct (Hw el' HE) as (t'' & Ew & Hr''). exists t''. split; [done|].
    eapply ixht_rep_perm; [done|]. by rewrite Hp.
Qed.

(** INSERT once there is room in the bin of the key. *)
Section has_room.
Context t el (k0 : Z) t1 bc1 dc1 ls1 (k1 : nat) l1 eb1 ng1.
Context (Hdir : arr_get (dir t) (Z.land (xhash Hash el) (bin_mask t)) = Ok k0).
Context (Hmk : ixht_make_room Hash Eq t (xhash Hash el) k0 = Ok (Z.of_nat k1, t1)).
Context (Hok1 : ixht_ok bc1 dc1 ls1 t1) (Hk1 : ls1 !! k1 = Some l1) (Hbc1 : bc1 !! k1 = Some (Some eb1)).
Context (Hr1 : ebin_rep ng1 eb1 l1) (Hroom : els_bound (hb eb1) < 4 * ng1).
Context (Hdat : dir_at dc1 (max_depth t1) (xhash Hash el) = Some (Z.of_nat k1)).
Context (Hnum : els_num t1 = els_num t) (Hsm : els_num t < 2 ^ 31).

Lemma ixht_room_perform : ixht_perform Hash Eq t el INSERT = perform_in t1 (Z.of_nat k1) el INSERT.
Proof.
  rewrite (ixht_perform_dir t el INSERT _ Hdir).
  cbn [action_code Z.leb Z.compare Pos.compare Pos.compare_cont]. by rewrite Hmk.
Qed.

(** A key that is absent. *)
Lemma ixht_room_new :
  lookup_key Eq el l1 = None →
  ∃ slot t', ixht_perform Hash Eq t el INSERT = Ok (false, Some slot, t') ∧ els_num t' = els_num t + 1 ∧
    ∀ el', Eq el' el = true → ∃ t'' eb'', ixht_write t' slot el' = Ok t'' ∧
      ixht_ok (<[k1 := Some eb'']> bc1) dc1 (<[k1 := l1 ++ [el']]> ls1) t'' ∧
      els_bound (hb eb'') = els_bound (hb eb1) + 1 ∧ max_depth t'' = max_depth t1 ∧ depth eb'' = depth eb1.
Proof.
  intros El'. rewrite ixht_room_perform.
  destruct (perform_in_insert bc1 dc1 ls1 t1 k1 l1 eb1 ng1 el)
    as (slot & t' & E & Hn' & Hw); [done..|by rewrite Hnum|].
  exists slot, t'. split_and!; [done|lia|]. intros el' HE.
  destruct (Hw el' HE) as (t'' & eb'' & Ew & Hok'' & _ & Hb'' & Hd''). by exists t'', eb''.
Qed.

Lemma ixht_perform_room : insert_outcome t el (concat ls1).
Proof.
  unfold insert_outcome. rewrite (lookup_key_bin bc1 dc1 ls1 t1 el k1 l1) by done.
  destruct (lookup_key Eq el l1) as [e|] eqn:El'.
  - rewrite ixht_room_perform.
    destruct (perform_in_present bc1 dc1 ls1 t1 k1 l1 eb1 ng1 el) with (act := INSERT) (e := e)
      as (slot & E & He & t'' & bc'' & Hw & Hok''); [done..|].
    exists slot, t1, t''. split_and!; [done| |done|done|].
    + by exists bc1, dc1, ls1.
    + exists bc'', dc1, (<[k1:=replace_key Eq el l1]> ls1). split; [done|].
      rewrite (replace_key_concat Hash Eq) by (done || by eapply other_bins). done.
  - destruct (ixht_room_new El') as (slot & t' & E & Hn' & Hw).
    exists slot, t'. split_and!; [done|lia|]. intros el' HE.
    destruct (Hw el' HE) as (t'' & eb'' & Ew & Hok'' & _). exists t''. split; [done|].
    eexists _, dc1, (<[k1:=l1 ++ [el']]> ls1). split; [done|]. by apply insert_concat.
Qed.
End has_room.

(** The outcome of INSERT when no bin has to be split. *)
Lemma ixht_perform_insert bc dc ls t el k l eb ng :
  ixht_ok bc dc ls t → ls !! k = Some l → bc !! k = Some (Some eb) → ebin_rep ng eb l →
  arr_get (dir t) (Z.land (xhash Hash el) (bin_mask t)) = Ok (Z.of_nat k) →
  dir_at dc (max_depth t) (xhash Hash el) = Some (Z.of_nat k) → no_split t ng (hb eb) →
  insert_outcome t el (concat ls).
Proof.
  intros Hok Hk Hbc Hr Hdir Hdat Hns.
  destruct (ixht_make_room_Ok bc dc ls t k l eb ng (xhash Hash el))
    as (t1 & eb1 & ng1 & Hmk & Hok1 & Hr1 & Hroom & Hnum & Hmd & _); [done..|].
  eapply ixht_perform_room; try done; [|by rewrite Hmd|apply Hns].
  apply list_lookup_insert_eq. by eapply lookup_lt_Some.
Qed.

(** Everything about the bin of a key. *)
Lemma ixht_locate t l el :
  ixht_rep t l → ∃ bc dc ls k lk eb ng, ixht_ok bc dc ls t ∧ concat ls ≡ₚ l ∧ ls !! k = Some lk ∧
    bc !! k = Some (Some eb) ∧ ebin_rep ng eb lk ∧
    arr_get (dir t) (Z.land (xhash Hash el) (bin_mask t)) = Ok (Z.of_nat k) ∧
    dir_at dc (max_depth t) (xhash Hash el) = Some (Z.of_nat k) ∧
    lookup_key Eq el l = lookup_key Eq el lk.
Proof.
  intros (bc & dc & ls & Hok & Hp). destruct (ixht_dir_get bc dc ls t el Hok) as (k & lk & Hd & Hk & Hda).
  destruct (xo_bin Hok k lk Hk) as (eb & ng & Hb & Hr).
  exists bc, dc, ls, k, lk, eb, ng. split_and!; try done.
  rewrite <-(lookup_key_bin bc dc ls t el k lk) by done. symmetry.
  apply (lookup_key_perm Hash Eq); [by eapply ixht_uniq|done].
Qed.

Lemma ixht_perform_find_rep t l el :
  ixht_rep t l →
  match lookup_key Eq el l with
  | Some e => ∃ slot, ixht_perform Hash Eq t el FIND = Ok (true, Some slot, t) ∧ ixht_read t slot = Ok e
  | None => ixht_perform Hash Eq t el FIND = Ok (false, None, t)
  end.
Proof.
  intros Ht. destruct (ixht_locate t l el Ht)
    as (bc & dc & ls & k & lk & eb & ng & Hok & _ & Hk & Hb & Hr & Hd & Hda & ->).
  rewrite (ixht_perform_dir t el FIND _ Hd). cbn [action_code Z.leb Z.compare].
  destruct (lookup_key Eq el lk) as [e|] eqn:E.
  - destruct (perform_in_present bc dc ls t k lk eb ng el) with (act := FIND) (e := e)
      as (slot & Ep & He & _); [done..|]. eauto.
  - by eapply perform_in_missing.
Qed.

Lemma ixht_perform_delete_rep t l el :
  ixht_rep t l →
  match lookup_key Eq el l with
  | Some e => ∃ t', ixht_perform Hash Eq t el DELETE = Ok (true, None, t') ∧
      ixht_rep t' (remove_key Eq el l)
  | None => ixht_perform Hash Eq t el DELETE = Ok (false, None, t)
  end.
Proof.
  intros Ht. destruct (ixht_locate t l el Ht)
    as (bc & dc & ls & k & lk & eb & ng & Hok & Hp & Hk & Hb & Hr & Hd & Hda & ->).
  rewrite (ixht_perform_dir t el DELETE _ Hd). cbn [action_code Z.leb Z.compare Pos.compare Pos.compare_cont].
  destruct (lookup_key Eq el lk) as [e|] eqn:E; [|by eapply perform_in_missing].
  destruct (perform_in_delete bc dc ls t k lk eb ng el) with (e := e) as (t' & eb' & Ep & Hok' & _); [done..|].
  exists t'. split; [done|]. eexists _, dc, (<[k:=remove_key Eq el lk]> ls). split; [done|].
  rewrite (remove_key_concat Eq) by (done || by eapply other_bins). by apply remove_key_perm.
Qed.

Lemma ixht_perform_insert_rep t l el :
  ixht_rep t l → Z.of_nat (length l) < 2 ^ 14 → insert_outcome t el l.
Proof.
  intros Ht Hl. destruct (ixht_locate t l el Ht)
    as (bc & dc & ls & k & lk & eb & ng & Hok & Hp & Hk & Hb & Hr & Hd & Hda & _).
  apply (insert_outcome_perm t el (concat ls)); [by eapply ixht_uniq|done|].
  eapply ixht_perform_insert; try done. eapply ixht_rep_no_split; [done..|by rewrite Hp].
Qed.

Lemma ixht_find_rep t l el : ixht_rep t l → ixht_find Hash Eq t el = Ok (lookup_key Eq el l).
Proof.
  intros Ht. pose proof (ixht_perform_find_rep t l el Ht) as Hf. unfold ixht_find.
  destruct (lookup_key Eq el l) as [e|]; [|by rewrite Hf].
  destruct Hf as (slot & -> & Hr). step_ok. by rewrite Hr.
Qed.

Lemma ixht_insert_outcome t l el :
  insert_outcome t el l →
  ∃ t', ixht_insert Hash Eq t el = Ok (match lookup_key Eq el l with Some _ => true | None => false end, t') ∧
    ixht_rep t' (match lookup_key Eq el l with Some _ => l | None => l ++ [el] end).
Proof.
  unfold insert_outcome, ixht_insert. destruct (lookup_key Eq el l) as [e|].
  - intros (slot & t' & t'' & -> & Hr' & _). step_ok. by exists t'.
  - intros (slot & t' & -> & _ & Hw). step_ok.
    destruct (Hw el) as (t'' & -> & Hr''); [apply (key_refl (Hash := Hash))|]. step_ok. by exists t''.
Qed.

Lemma ixht_insert_rep t l el :
  ixht_rep t l → Z.of_nat (length l) < 2 ^ 14 →
  ∃ t', ixht_insert Hash Eq t el = Ok (match lookup_key Eq el l with Some _ => true | None => false end, t') ∧
    ixht_rep t' (match lookup_key Eq el l with Some _ => l | None => l ++ [el] end).
Proof. intros Ht Hl. by apply ixht_insert_outcome, ixht_perform_insert_rep. Qed.

Lemma ixht_replace_outcome t l el :
  insert_outcome t el l →
  ∃ t', ixht_replace Hash Eq t el = Ok (match lookup_key Eq el l with Some _ => true | None => false end, t') ∧
    ixht_rep t' (match lookup_key Eq el l with Some _ => replace_key Eq el l | None => l ++ [el] end).
Proof.
  unfold insert_outcome, ixht_replace. destruct (lookup_key Eq el l) as [e|].
  - intros (slot & t' & t'' & -> & _ & _ & Hw & Hr''). step_ok. rewrite Hw. step_ok. by exists t''.
  - intros (slot & t' & -> & _ & Hw). step_ok.
    destruct (Hw el) as (t'' & -> & Hr''); [apply (key_refl (Hash := Hash))|]. step_ok. by exists t''.
Qed.

Lemma ixht_replace_rep t l el :
  ixht_rep t l → Z.of_nat (length l) < 2 ^ 14 →
  ∃ t', ixht_replace Hash Eq t el = Ok (match lookup_key Eq el l with Some _ => true | None => false end, t') ∧
    ixht_rep t' (match lookup_key Eq el l with Some _ => replace_key Eq el l | None => l ++ [el] end).
Proof. intros Ht Hl. by apply ixht_replace_outcome, ixht_perform_insert_rep. Qed.

Lemma ixht_delete_rep t l el :
  ixht_rep t l →
  ∃ t', ixht_delete Hash Eq t el = Ok (match lookup_key Eq el l with Some _ => true | None => false end, t') ∧
    ixht_rep t' (match lookup_key Eq el l with Some _ => remove_key Eq el l | None => l end).
Proof.
  intros Ht. pose proof (ixht_perform_delete_rep t l el Ht) as Hd. unfold ixht_delete.
  destruct (lookup_key Eq el l) as [e|].
  - destruct Hd as (t' & -> & Hr). by exists t'.
  - rewrite Hd. by exists t.
Qed.

Lemma ixht_count_rep t l : ixht_rep t l → ixht_els_count t = Z.of_nat (length l).
Proof.
  intros (bc & dc & ls & Hok & Hp). unfold ixht_els_count. rewrite (xo_num Hok). by rewrite Hp.
Qed.

Lemma ixht_elements_rep t l :
  ixht_rep t l → ∃ l', ixht_elements t = Ok l' ∧ l' ≡ₚ l.
Proof.
  intros (bc & dc & ls & Hok & Hp). exists (concat ls). split; [|done].
  by eapply ixht_elements_Ok.
Qed.

#[export] Instance ixht_table : Table El (ixht slots El) := {
  tab_find := ixht_find Hash Eq;
  tab_insert := ixht_insert Hash Eq;
  tab_replace := ixht_replace Hash Eq;
  tab_delete := ixht_delete Hash Eq;
  tab_count := ixht_els_count;
  tab_elements := ixht_elements
}.

#[export] Instance ixht_table_laws : TableLaws Eq ixht_table := {
  tab_rep := ixht_rep;
  tab_limit := 2 ^ 14;
  tab_order := Permutation;
  tab_find_ok := ixht_find_rep;
  tab_insert_ok := ixht_insert_rep;
  tab_replace_ok := ixht_replace_rep;
  tab_delete_ok := ixht_delete_rep;
  tab_count_ok := ixht_count_rep;
  tab_elements_ok := ixht_elements_rep
}.
End correct.
Arguments xo_bins {K V El Hash Eq bc dc ls t} _.
Arguments xo_cap {K V El Hash Eq bc dc ls t} _.
Arguments xo_bins_num {K V El Hash Eq bc dc ls t} _.
Arguments xo_fit {K V El Hash Eq bc dc ls t} _.
Arguments xo_few {K V El Hash Eq bc dc ls t} _.
Arguments xo_bin {K V El Hash Eq bc dc ls t} _.
Arguments xo_dir {K V El Hash Eq bc dc ls t} _.
Arguments xo_depth {K V El Hash Eq bc dc ls t} _.
Arguments xo_mask {K V El Hash Eq bc dc ls t} _.
Arguments xo_dir_ok {K V El Hash Eq bc dc ls t} _.
Arguments xo_placed {K V El Hash Eq bc dc ls t} _.
Arguments xo_dir_cap {K V El Hash Eq bc dc ls t} _.
Arguments xo_dir_len {K V El Hash Eq bc dc ls t} _.
Arguments xo_named {K V El Hash Eq bc dc ls t} _.
Arguments xo_num {K V El Hash Eq bc dc ls t} _.
Arguments xo_small {K V El Hash Eq bc dc ls t} _.
