(* ===== verification/IxhtabSplit.v ===== *)
(** Splitting a bin of ixhtab.h: what one round does to the elements and the
    directory, and that a split keeps the table well-formed when it works on
    a bin of the directory's depth, or one less, whose elements differ in the
    next hash bit. *)

From S2P Require Import Prelude Bits Groups Probe Spec Store Ixhtab IxhtabCorrect.

(** * Hash bits *)

Lemma mod_pow2_succ h d :
  0 ≤ d → h mod 2 ^ (d + 1) = h mod 2 ^ d + (if Z.testbit h d then 2 ^ d else 0).
Proof.
  intros Hd. assert (0 < 2 ^ d) by (apply Z.pow_pos_nonneg; lia).
  rewrite testbit_div by done. rewrite Zodd_mod, Z.pow_add_r by lia. change (2 ^ 1) with 2.
  rewrite Z.rem_mul_r by lia.
  destruct (Z.eqb_spec ((h / 2 ^ d) mod 2) 1) as [->|Hne]; [lia|].
  pose proof (Z.mod_pos_bound (h / 2 ^ d) 2). replace ((h / 2 ^ d) mod 2) with 0 by lia. lia.
Qed.

(** [(hash & split_mask) == 0] for [split_mask = 1 << d] *)
Lemma land_pow2_zero h d : 0 ≤ d → (Z.land h (2 ^ d) =? 0) = negb (Z.testbit h d).
Proof.
  intros Hd. rewrite <-Z.shiftl_1_l. by apply land_bit_zero.
Qed.

Lemma lor_pow2 m d : 0 ≤ d → 0 ≤ m < 2 ^ d → Z.lor m (2 ^ d) = m + 2 ^ d.
Proof.
  intros Hd Hm. symmetry. apply Z.add_nocarry_lor, Z.bits_inj'. intros k Hk.
  rewrite Z.land_spec, Z.bits_0. destruct (decide (k = d)) as [->|Hne].
  - rewrite testbit_div, Z.div_small by lia. done.
  - rewrite Z.pow2_bits_false by lia. apply andb_false_r.
Qed.

(** [~(~(ixht_hash_t) 0 << depth)] *)
Lemma low_mask d :
  0 ≤ d < 64 → u64 (Z.lnot (u64 (Z.shiftl (u64 (Z.lnot 0)) d))) = 2 ^ d - 1.
Proof.
  intros Hd.
  replace (2 ^ d - 1) with (Z.ones d) by (by rewrite Z.ones_equiv).
  unfold u64. apply Z.bits_inj'. intros k Hk. destruct (Z.ltb_spec k 64).
  - rewrite Z.mod_pow2_bits_low, Z.lnot_spec, Z.mod_pow2_bits_low, Z.shiftl_spec by lia.
    destruct (Z.ltb_spec k d).
    + by rewrite Z.testbit_neg_r, Z.ones_spec_low by lia.
    + rewrite Z.mod_pow2_bits_low, Z.lnot_spec, Z.bits_0, Z.ones_spec_high by lia. done.
  - by rewrite Z.mod_pow2_bits_high, Z.ones_spec_high by lia.
Qed.

Lemma shl64_one d : 0 ≤ d < 64 → shl64 1 d = Ok (2 ^ d).
Proof.
  intros Hd. unfold shl64. rewrite (proj2 (Z.leb_le 0 d)), (proj2 (Z.ltb_lt d 64)) by lia.
  cbn [andb]. rewrite Z.shiftl_1_l. unfold u64. rewrite Z.mod_small; [done|].
  split; [apply Z.pow_nonneg; lia|]. apply Z.pow_lt_mono_r; lia.
Qed.

(** * Clearing a whole bitmap *)

Lemma memset_all (dc : list (option Z)) :
  arr_memset (Live dc) 0 0 (Z.of_nat (length dc)) = Ok (calloc 0 (Z.of_nat (length dc))).
Proof.
  unfold arr_memset, calloc. rewrite Nat2Z.id.
  destruct (arr_sets_Ok dc 0 (replicate (length dc) 0)) as (l' & -> & Hl & Hc);
    rewrite ?length_replicate in *; [lia..|]. do 2 f_equal.
  apply list_eq. intros i. destruct (decide (i < length dc)%nat) as [Hi|Hi].
  - rewrite lookup_replicate_2 by done. specialize (Hc (Z.of_nat i)).
    rewrite decide_True in Hc by lia. rewrite Z.sub_0_r in Hc.
    unfold cellv, zlookup in Hc. rewrite !decide_True, !Nat2Z.id, lookup_replicate_2 in Hc by lia.
    destruct (l' !! i) as [[x|]|]; cbn in Hc; congruence.
  - rewrite !lookup_ge_None_2; [done|rewrite length_replicate; lia|lia].
Qed.

(** * One round over the elements *)

Section correct.
Context {K : SlotStore} {V : SlotView K} `{!SlotLaws ixht_config K V}.
Context {El : Type} (Hash : El → Z) (Eq : El → El → bool) `{!KeyLaws Hash Eq}.
Implicit Types (t : ixht slots El) (b : hbin slots El) (eb : ebin slots El) (el e : El) (l : list El).
Implicit Types (ng : Z) (ls : list (list El)) (bc : list (option (ebin slots El))) (dc : list (option Z)).

Abbreviation bin_rep := (bin_rep (C := ixht_config) (xhash Hash) Eq).

(** The elements of a list whose hash has bit [d] set, or not. *)
Definition with_bit (d : Z) (v : bool) l : list El :=
  filter (λ e, Z.testbit (xhash Hash e) d = v) l.

Lemma with_bit_app d v l l' : with_bit d v (l ++ l') = with_bit d v l ++ with_bit d v l'.
Proof. apply list.filter_app. Qed.

Lemma with_bit_snoc d v l e :
  with_bit d v (l ++ [e]) =
  with_bit d v l ++ (if bool_decide (Z.testbit (xhash Hash e) d = v) then [e] else []).
Proof.
  rewrite with_bit_app. f_equal. unfold with_bit. rewrite filter_cons, filter_nil.
  by case_decide; [rewrite bool_decide_true|rewrite bool_decide_false].
Qed.

Lemma with_bit_cons d v l e :
  with_bit d v (e :: l) = if eqb (Z.testbit (xhash Hash e) d) v then e :: with_bit d v l else with_bit d v l.
Proof. unfold with_bit. rewrite filter_cons. destruct (Z.testbit _ _), v; by case_decide. Qed.

Lemma length_with_bit d v l : (length (with_bit d v l) ≤ length l)%nat.
Proof. apply length_filter. Qed.

(** Appending an element, whatever the bitmap of the bin. *)
Lemma append_el ng b z l e num :
  bin_rep ng (with_deleted b z) l → lookup_key Eq e l = None → els_bound b < 4 * ng →
  els_bound b < 2 ^ 16 - 1 →
  ∃ b1 b2, bin_do_1 Eq num b (xhash Hash e) e INSERT =
      Ok (false, Some (els_bound b), size_wrap (C := ixht_config) (num + 1), b1) ∧
    store_el b1 (els_bound b) e = Ok b2 ∧ deleted b2 = deleted b ∧
    bin_rep ng (with_deleted b2 z) (l ++ [e]) ∧ els_bound b2 = els_bound b + 1 ∧
    groups_mask b2 = groups_mask b ∧
    ∀ j, j ≠ els_bound b → arr_get (els b2) j = arr_get (els b) j.
Proof.
  intros Hb Hno Hroom Hlim.
  destruct (do_1_insert (xhash Hash) Eq ng (with_deleted b z) l e num) as (b' & E & _ & Hst);
    [done..|by apply ixht_index_limit|].
  destruct (Hst e) as (b'' & Hw & Hrep & Hb'' & Hg''); [apply (key_refl (Hash := Hash))|].
  cbn [els_bound groups_mask with_deleted] in *. apply bin_do_1_bitmap in E as E'.
  pose proof (bin_do_1_frame Eq _ _ _ _ _ _ _ _ _ E) as (Hels & _ & Ez). specialize (Ez ltac:(done)).
  cbn [els deleted with_deleted] in Hels, Ez.
  pose proof (λ j, store_el_frame _ _ _ _ j Hw) as Hfr.
  unfold store_el in Hw. apply bind_Ok in Hw as (a & Ea & [= <-]). cbn [els_bound groups_mask els] in *.
  eexists _, (mk_hbin _ a (deleted b) _ _). split; [exact E'|].
  unfold store_el. cbn [els with_deleted]. rewrite Ea. step_ok. split; [done|]. split; [done|].
  split; [|split; [done|split; [done|]]].
  - by rewrite <-Ez.
  - intros j Hj. rewrite <-Hels. by apply Hfr.
Qed.

(** What a round relies on in the bin it distributes.  The slots do not
    matter, since they are cleared, and the bitmap need not be that of the
    slots: after a round that left all elements in the bin it is not. *)
Record scannable ng (ec : list (option El)) (dc : list (option Z)) b : Prop := {
  sc_els : els b = Live ec;
  sc_deleted : deleted b = Live dc;
  sc_pow : ∃ k, 0 ≤ k ∧ ng = 2 ^ k;
  sc_max : ng ≤ max_groups (C := ixht_config);
  sc_len_els : Z.of_nat (length ec) = 4 * ng;
  sc_len_del : Z.of_nat (length dc) = (4 * ng + 7) / 8;
  sc_del i : 0 ≤ i < Z.of_nat (length dc) → ∃ byte, cellv dc i = Some byte;
  sc_bound : 0 ≤ els_bound b ≤ 4 * ng;
  sc_init i : 0 ≤ i < els_bound b → ∃ e, cellv ec i = Some e;
  sc_nodup i e i' e' :
    live_at ec dc (els_bound b) i = Some e → live_at ec dc (els_bound b) i' = Some e' → Eq e e' = true → i = i'
}.
Arguments sc_els {ng ec dc b} _.
Arguments sc_deleted {ng ec dc b} _.
Arguments sc_pow {ng ec dc b} _.
Arguments sc_max {ng ec dc b} _.
Arguments sc_len_els {ng ec dc b} _.
Arguments sc_len_del {ng ec dc b} _.
Arguments sc_del {ng ec dc b} _.
Arguments sc_bound {ng ec dc b} _.
Arguments sc_init {ng ec dc b} _.
Arguments sc_nodup {ng ec dc b} _.

Lemma bin_ok_scannable ng ec dc st b :
  bin_ok (C := ixht_config) (xhash Hash) Eq ng ec dc st b → scannable ng ec dc b.
Proof.
  intros Hok. split; try apply Hok. intros i Hi. destruct (bo_del Hok i Hi) as (x & Hx & _). by exists x.
Qed.

Lemma scan_deleted ng ec dc b i :
  scannable ng ec dc b → 0 ≤ i < 4 * ng → is_deleted b i = Ok (dead_bit dc i).
Proof.
  intros Hok Hi. unfold is_deleted, dead_bit. rewrite (sc_deleted Hok). pose proof (sc_len_del Hok).
  destruct (sc_del Hok (i / 8)) as (byte & Hb); [dlia|].
  rewrite Hb. apply arr_get_Ok in Hb as ->. step_ok. rewrite land_bit_zero by dlia. by rewrite negb_involutive.
Qed.

Section round.
Context (ng ngn d : Z) (ec : list (option El)) (dc : list (option Z)) (b0 : hbin slots El).
Context (Hok : scannable ng ec dc b0) (Hd : 0 ≤ d).
Context (Hngn : ng ≤ ngn) (Hng12 : ng ≤ 2 ^ 12).
Let bound := els_bound b0.
Let live := live_at ec dc bound.
Let zeros : arr Z := calloc 0 ((4 * ng + 7) / 8).
Let zerosn : arr Z := calloc 0 ((4 * ngn + 7) / 8).

(** After the first [i] entries: the elements without the bit are compacted in
    the old bin, whose bitmap is still the old one, the others are in the new
    bin, and the rest is in place. *)
Definition distributed (i : Z) (s : split_state (El := El)) : Prop :=
  let seen := omap live (seqZ 0 i) in
  deleted (sp_bin s) = deleted b0 ∧
  bin_rep ng (with_deleted (sp_bin s) zeros) (with_bit d false seen) ∧
  els_bound (sp_bin s) = Z.of_nat (length (with_bit d false seen)) ∧
  groups_mask (sp_bin s) = ng - 1 ∧
  bin_rep ngn (sp_new s) (with_bit d true seen) ∧
  els_bound (sp_new s) = Z.of_nat (length (with_bit d true seen)) ∧
  deleted (sp_new s) = zerosn ∧
  (∀ j, i ≤ j < bound → arr_get (els (sp_bin s)) j = arr_get (els b0) j) ∧
  (old_added s = true ↔ with_bit d false seen ≠ []) ∧
  (new_added s = true ↔ with_bit d true seen ≠ []).

Lemma seen_step i :
  0 ≤ i < bound → omap live (seqZ 0 (i + 1)) =
    omap live (seqZ 0 i) ++ (match live i with Some e => [e] | None => [] end).
Proof. intros Hi. by rewrite seqZ_snoc, omap_app by lia. Qed.

Lemma seen_fresh i e :
  0 ≤ i < bound → live i = Some e → ∀ v, lookup_key Eq e (with_bit d v (omap live (seqZ 0 i))) = None.
Proof.
  intros Hi Hl v. apply lookup_key_none.
  intros e' (_ & (i' & Hi'%elem_of_seqZ & He')%list_elem_of_omap)%list_elem_of_filter.
  destruct (Eq e' e) eqn:HE; [|done]. exfalso. assert (i' = i); [|lia].
  by eapply (sc_nodup Hok).
Qed.

Lemma split_step i s :
  0 ≤ i < bound → distributed i s →
  ∃ s', ixht_split_body Hash Eq (2 ^ d) i s = Ok s' ∧ distributed (i + 1) s'.
Proof.
  intros Hi (Edel & Hold & Hbo & Hgm & Hnew & Hbn & Hdn & Hrest & Hoa & Hna).
  pose proof (sc_bound Hok) as Hb. fold bound in Hb.
  assert (∀ v, Z.of_nat (length (with_bit d v (omap live (seqZ 0 i)))) ≤ i) as Hle.
  { intros v. pose proof (live_before ec dc b0 i Hi) as H1. fold bound live in H1.
    pose proof (length_with_bit d v (omap live (seqZ 0 i))). lia. }
  unfold ixht_split_body. assert (is_deleted (sp_bin s) i = Ok (dead_bit dc i)) as ->.
  { rewrite <-(scan_deleted ng ec dc b0) by (done || lia). unfold is_deleted. by rewrite Edel. }
  step_ok. unfold distributed. rewrite seen_step by done.
  destruct (sc_init Hok i Hi) as [e He].
  destruct (dead_bit dc i) eqn:Hdead.
  { assert (live i = None) as -> by (unfold live, live_at; by rewrite decide_True, Hdead by lia).
    rewrite app_nil_r. eexists. split; [done|]. split_and!; try done. intros j Hj. apply Hrest. lia. }
  assert (live i = Some e) as Hlive by (by apply live_at_Some). rewrite Hlive.
  rewrite Hrest, (sc_els Hok), (proj2 (arr_get_Ok _ _ _) He) by lia. step_ok.
  cbv zeta. rewrite land_pow2_zero, !with_bit_snoc by done.
  destruct (Z.testbit (xhash Hash e) d) eqn:Hbit; cbn [negb].
  - rewrite (bool_decide_false (true = false)), (bool_decide_true (true = true)), app_nil_r by done.
    destruct (append_el ngn (sp_new s) (deleted (sp_new s)) (with_bit d true (omap live (seqZ 0 i))) e (sp_num s))
      as (b1 & b2 & E & Hw & Hd2 & Hrep & Hb2 & _ & _);
      [by destruct (sp_new s)|by apply seen_fresh|rewrite Hbn; specialize (Hle true); lia..|].
    unfold ixht_do_1. rewrite E. step_ok. rewrite Hw. step_ok.
    eexists. split; [done|]. cbn [sp_bin sp_new old_added new_added]. split_and!; try done.
    + rewrite <-Hd2 in Hrep. by destruct b2.
    + rewrite Hb2, Hbn, length_app. cbn. lia.
    + by rewrite Hd2.
    + intros j Hj. rewrite Hrest by lia. by rewrite (sc_els Hok).
    + split; [|done]. intros _ E0. by apply app_nil in E0 as [_ ?].
  - rewrite (bool_decide_true (false = false)), (bool_decide_false (false = true)), app_nil_r by done.
    destruct (append_el ng (sp_bin s) zeros (with_bit d false (omap live (seqZ 0 i))) e (sp_num s))
      as (b1 & b2 & E & Hw & Hd2 & Hrep & Hb2 & Hg2 & Hfr);
      [done|by apply seen_fresh|rewrite Hbo; specialize (Hle false); lia..|].
    unfold ixht_do_1. rewrite E. step_ok. rewrite Hw. step_ok.
    eexists. split; [done|]. cbn [sp_bin sp_new old_added new_added]. split_and!; try done; try congruence.
    + rewrite Hb2, Hbo, length_app. cbn. lia.
    + intros j Hj. rewrite Hfr by (specialize (Hle false); lia). rewrite Hrest by lia. by rewrite (sc_els Hok).
    + split; [|done]. intros _ E0. by apply app_nil in E0 as [_ ?].
Qed.

(** The whole loop, from a bin with its groups cleared and an empty new bin. *)
Lemma split_elems num s2 bn :
  slots_ok ng s2 (λ _ _, SEmpty) →
  bin_rep ngn bn [] → els_bound bn = 0 → deleted bn = zerosn →
  ∃ s, for_res 0 bound (ixht_split_body Hash Eq (2 ^ d))
      (mk_split num (mk_hbin 0 (els b0) (deleted b0) s2 (ng - 1)) bn false false) = Ok s ∧
    distributed bound s.
Proof.
  intros Hs2 Hbn Hb0 Hdn. destruct (sc_pow Hok) as (k & Hk & Ek).
  apply for_res_inv; [apply (sc_bound Hok)| |].
  - unfold distributed. cbn [sp_bin sp_new old_added new_added deleted els_bound groups_mask els].
    split_and!; try done. eexists _, _, _. split.
    + unfold with_deleted. cbn [els_bound els groups groups_mask]. rewrite (sc_els Hok).
      apply (bin_ok_init _ _ ng k); try done; [apply (sc_max Hok)|
        apply (sc_len_els Hok)].
    + done.
  - intros i s Hi Hs. by apply split_step.
Qed.
End round.

(** * The directory *)

(** Doubling the directory repeats it. *)
Lemma ixht_grow_dir_Ok t dc d' :
  dir t = Live dc → dir_capacity t = 2 ^ max_depth t → Z.of_nat (length dc) = 2 ^ max_depth t →
  bin_mask t = 2 ^ max_depth t - 1 →
  (∀ j, 0 ≤ j < 2 ^ max_depth t → ∃ x, cellv dc j = Some x) →
  0 ≤ max_depth t → 0 ≤ d' ≤ 31 → d' ≤ max_depth t + 1 →
  let M := Z.max (max_depth t) d' in
  ∃ dc', ixht_grow_dir t d' = Ok (mk_ixht (els_num t) M (2 ^ M - 1) (Live dc') (2 ^ M) (bins t)
      (bins_num t) (bins_capacity t)) ∧
    Z.of_nat (length dc') = 2 ^ M ∧
    ∀ j, 0 ≤ j < 2 ^ M → cellv dc' j = cellv dc (j mod 2 ^ max_depth t).
Proof.
  intros Hdir Hcap Hlen Hmask Hinit HM Hd' Hd1 M. unfold ixht_grow_dir.
  destruct (Z.ltb_spec (max_depth t) d') as [Hlt|Hge].
  2:{ replace M with (max_depth t) by lia. exists dc. split_and!; [|done|].
      - clear M. rewrite <-Hmask, <-Hcap, <-Hdir. by destruct t.
      - intros j Hj. by rewrite Z.mod_small. }
  replace M with (max_depth t + 1) by lia. replace d' with (max_depth t + 1) in * by lia.
  set (m := max_depth t) in *. unfold shl64.
  rewrite (proj2 (Z.leb_le 0 (m + 1))), (proj2 (Z.ltb_lt (m + 1) 64)) by lia. cbn [andb]. step_ok.
  rewrite low_mask, Hcap by lia. set (len := 2 ^ m) in *.
  assert (2 ^ (m + 1) = 2 * len) as -> by (unfold len; rewrite Z.pow_add_r by lia; lia).
  assert (0 < len ≤ 2 ^ 30) as Hl by (unfold len; split; [apply Z.pow_pos_nonneg|apply Z.pow_le_mono_r]; lia).
  unfold u32. rewrite (Z.mod_small (2 * len)) by lia. rewrite Hdir.
  destruct (arr_realloc_grow dc (2 * len)) as (c1 & -> & Hl1 & Hg1); [lia|]. step_ok.
  edestruct (for_res_inv (λ j a, ∃ c, a = Live c ∧ Z.of_nat (length c) = 2 * len ∧
    ∀ i, 0 ≤ i < len → cellv c i = cellv dc i ∧ (i < j → cellv c (i + len) = cellv dc i)))
    with (lo := 0) (hi := len) as (a & E & c & -> & Hlc & Hc); [lia| | |rewrite E; step_ok].
  - exists c1. split_and!; [done..|]. intros i Hi. split; [|lia].
    destruct (Hinit i Hi) as [x Hx]. rewrite Hx. apply arr_get_Ok. rewrite Hg1 by lia. by apply arr_get_Ok.
  - intros j a Hj (c & -> & Hlc & Hc). destruct (Hinit j Hj) as [x Hx].
    assert (arr_get (Live c) j = Ok x) as -> by (apply arr_get_Ok; by rewrite (proj1 (Hc j Hj))).
    step_ok. rewrite (Z.mod_small (j + len)), arr_set_Ok by lia. eexists. split; [done|].
    eexists. split; [done|]. rewrite length_insert. split; [done|]. intros i Hi.
    rewrite !cellv_insert by lia. rewrite decide_False by lia. split; [by apply Hc|].
    intros Hij. case_decide as Ei; [by replace i with j by lia|]. apply Hc; lia.
  - exists c. split_and!; [done..|]. intros j Hj. destruct (Z.ltb_spec j len).
    + rewrite Z.mod_small by lia. apply (proj1 (Hc j ltac:(lia))).
    + replace (j mod len) with (j - len) by (symmetry; rewrite <-(Z_mod_plus_full _ (-1)); apply Z.mod_small; lia).
      assert (0 ≤ j - len < len) as Hjl by lia. destruct (Hc (j - len) Hjl) as [_ Hc2].
      rewrite <-Hc2 by lia. f_equal. lia.
Qed.

Definition zeros ng : arr Z := calloc 0 ((4 * ng + 7) / 8).

(** What a table and a directory have to satisfy for a bin of depth [d]. *)
Record dir_ready dc (d : Z) t : Prop := {
  dr_dir : dir t = Live dc;
  dr_cap : dir_capacity t = 2 ^ max_depth t;
  dr_len : Z.of_nat (length dc) = 2 ^ max_depth t;
  dr_mask : bin_mask t = 2 ^ max_depth t - 1;
  dr_init j : 0 ≤ j < 2 ^ max_depth t → ∃ x, cellv dc j = Some x;
  dr_depth : 0 ≤ d ≤ max_depth t ∧ d ≤ 30
}.

Lemma ixht_ok_ready bc dc ls t d :
  ixht_ok Hash Eq bc dc ls t → 0 ≤ d ≤ max_depth t → d ≤ 30 → dir_ready dc d t.
Proof.
  intros Hok Hd Hd30. split; try apply Hok; try done. intros j Hj.
  destruct (xo_dir_ok Hok j Hj) as (x & -> & _). eauto.
Qed.

(** The table after a round that splits bin [k] at bit [d] into [bo] and [bn]. *)
Definition after_round t (dc' : list (option Z)) bc (k n : nat) (d m : Z) bo bn : ixht slots El :=
  let M := Z.max (max_depth t) (d + 1) in
  mk_ixht (els_num t) M (2 ^ M - 1) (Live (<[Z.to_nat (m + 2 ^ d) := Some (Z.of_nat n)]> dc')) (2 ^ M)
    (Live (<[n := Some (mk_ebin (Some (d + 1)) (Some (m + 2 ^ d)) 0 bn)]>
           (<[k := Some (mk_ebin (Some (d + 1)) (Some m) 0 bo)]> bc)))
    (bins_num t) (bins_capacity t).

Lemma ixht_split_round_scan t bc dc (k n : nat) eb bn od om ng ngn ec dlc st d m :
  bins t = Live bc → bc !! k = Some (Some eb) → bc !! n = Some (Some (mk_ebin od om 0 bn)) →
  els_start eb = 0 → scannable ng ec dlc (hb eb) → slots_ok ng (groups (hb eb)) st →
  groups_mask (hb eb) = ng - 1 → 0 < ng ≤ 2 ^ 12 →
  bin_rep ngn bn [] → els_bound bn = 0 → deleted bn = zeros ngn →
  ng ≤ ngn → depth eb = Some d → mask eb = Some m → 0 ≤ m < 2 ^ d → dir_ready dc d t →
  let l := live_list ec dlc (els_bound (hb eb)) in
  ∃ dc' bo bn' (old new : bool),
    ixht_split_round Hash Eq t (Z.of_nat k) (Z.of_nat n) = Ok (after_round t dc' bc k n d m bo bn', old, new) ∧
    (old = true ↔ with_bit d false l ≠ []) ∧ (new = true ↔ with_bit d true l ≠ []) ∧
    Z.of_nat (length dc') = 2 ^ Z.max (max_depth t) (d + 1) ∧
    (∀ j, 0 ≤ j < 2 ^ Z.max (max_depth t) (d + 1) → cellv dc' j = cellv dc (j mod 2 ^ max_depth t)) ∧
    deleted bo = Live dlc ∧ groups_mask bo = ng - 1 ∧
    bin_rep ng (with_deleted bo (zeros ng)) (with_bit d false l) ∧
    els_bound bo = Z.of_nat (length (with_bit d false l)) ∧
    bin_rep ngn bn' (with_bit d true l) ∧ els_bound bn' = Z.of_nat (length (with_bit d true l)) ∧
    deleted bn' = zeros ngn.
Proof.
  intros Hbins Hk Hn Hst Hsc Hslots Hgm0 [Hpos Hng] Hbn Hb0 Hdn Hngn Hdep Hmsk Hm [] l.
  destruct dr_depth0 as [Hd0 Hd30]. pose proof (lookup_lt_Some _ _ _ Hk) as Hkl.
  pose proof (lookup_lt_Some _ _ _ Hn) as Hnl.
  unfold ixht_split_round. rewrite Hbins, (live_get _ _ _ Hn), (live_get _ _ _ Hk). do 2 step_ok.
  rewrite Hgm0. destruct (slots_clear_ok ng (groups (hb eb)) st) as (s2 & -> & Hs2);
    [done|rewrite ixht_max_groups; lia|]. step_ok.
  rewrite Hdep. cbn [read_field]. step_ok. rewrite shl64_one by lia. step_ok.
  unfold u16. rewrite (Z.mod_small (d + 1)) by lia.
  destruct (ixht_grow_dir_Ok t dc (d + 1)) as (dc' & -> & Hld & Hcd); [done..|lia|lia|lia|]. step_ok.
  rewrite Hmsk. cbn [read_field]. step_ok. cbn [dir els_num]. rewrite lor_pow2 by lia.
  assert (m + 2 ^ d < 2 ^ Z.max (max_depth t) (d + 1)) as Hmr.
  { assert (2 ^ (d + 1) ≤ 2 ^ Z.max (max_depth t) (d + 1)) by (apply Z.pow_le_mono_r; lia).
    rewrite Z.pow_add_r in * by lia. lia. }
  rewrite arr_set_Ok by lia. step_ok. rewrite Hst. cbn [hb].
  destruct (split_elems ng ngn d ec dlc (hb eb) Hsc ltac:(lia) Hngn Hng (els_num t) s2 bn)
    as (s & -> & Edel & Hold & Hbo' & Hgm & Hnew & Hbn' & Hdn' & _ & Hoa & Hna); [done..|].
  step_ok. unfold set_bin, set_dir. cbn [bins els_num max_depth bin_mask dir dir_capacity bins_num bins_capacity].
  rewrite Hbins, arr_set_Ok, Nat2Z.id by lia. do 2 step_ok.
  cbn [bins els_num max_depth bin_mask dir dir_capacity bins_num bins_capacity els_start].
  rewrite arr_set_Ok, Nat2Z.id by (rewrite length_insert; lia). do 2 step_ok.
  exists dc', (sp_bin s), (sp_new s), (old_added s), (new_added s).
  split_and!; try done; try apply Hoa; try apply Hna. by rewrite Edel, (sc_deleted Hsc).
Qed.

Lemma ixht_split_round_Ok t bc dc (k n : nat) eb bn ng ngn l d m :
  bins t = Live bc → bc !! k = Some (Some eb) → bc !! n = Some (Some (mk_ebin None None 0 bn)) →
  ebin_rep Hash Eq ng eb l → bin_rep ngn bn [] → els_bound bn = 0 → deleted bn = zeros ngn →
  ng ≤ ngn → depth eb = Some d → mask eb = Some m → 0 ≤ m < 2 ^ d → dir_ready dc d t →
  ∃ dc' bo bn' (old new : bool),
    ixht_split_round Hash Eq t (Z.of_nat k) (Z.of_nat n) = Ok (after_round t dc' bc k n d m bo bn', old, new) ∧
    (old = true ↔ with_bit d false l ≠ []) ∧ (new = true ↔ with_bit d true l ≠ []) ∧
    Z.of_nat (length dc') = 2 ^ Z.max (max_depth t) (d + 1) ∧
    (∀ j, 0 ≤ j < 2 ^ Z.max (max_depth t) (d + 1) → cellv dc' j = cellv dc (j mod 2 ^ max_depth t)) ∧
    (∃ dl, deleted bo = Live dl ∧ deleted (hb eb) = Live dl ∧ Z.of_nat (length dl) = (4 * ng + 7) / 8) ∧
    groups_mask bo = ng - 1 ∧
    bin_rep ng (with_deleted bo (zeros ng)) (with_bit d false l) ∧
    els_bound bo = Z.of_nat (length (with_bit d false l)) ∧
    bin_rep ngn bn' (with_bit d true l) ∧ els_bound bn' = Z.of_nat (length (with_bit d true l)) ∧
    deleted bn' = zeros ngn.
Proof.
  intros Hbins Hk Hn (Hst & (ec & dlc & st & Hbo & ->) & Hng) Hbn Hb0 Hdn Hngn Hdep Hmsk Hm Hdr.
  pose proof (pi_ng (bo_inv Hbo)) as Hpos.
  destruct (ixht_split_round_scan t bc dc k n eb bn None None ng ngn ec dlc st d m) as
    (dc' & bo & bn' & old & new & Er & Hold & Hnew & Hld & Hcd & Edl & H); try done; try apply Hbo.
  { by eapply bin_ok_scannable. }
  exists dc', bo, bn', old, new. split_and!; try done; try apply H.
  exists dlc. split_and!; [done|apply Hbo|apply (bo_len_del Hbo)].
Qed.

Lemma ixht_clear_deleted_Ok t bc (k : nat) eb ng dl :
  bins t = Live bc → bc !! k = Some (Some eb) → 0 < ng ≤ 2 ^ 12 → groups_mask (hb eb) = ng - 1 →
  deleted (hb eb) = Live dl → Z.of_nat (length dl) = (4 * ng + 7) / 8 →
  ixht_clear_deleted t (Z.of_nat k) =
  Ok (mk_ixht (els_num t) (max_depth t) (bin_mask t) (dir t) (dir_capacity t)
        (Live (<[k := Some (mk_ebin (depth eb) (mask eb) (els_start eb) (with_deleted (hb eb) (zeros ng)))]> bc))
        (bins_num t) (bins_capacity t)).
Proof.
  intros Hb Hk Hng Hgm Hdl Hlen. pose proof (lookup_lt_Some _ _ _ Hk).
  unfold ixht_clear_deleted. rewrite Hb, (live_get _ _ _ Hk). step_ok. cbv zeta.
  rewrite Hgm, Hdl. unfold GROUP_SIZE, u32. rewrite Z.sub_add, (Z.mod_small ng), (Z.mod_small (ng * 8)) by lia.
  replace (ng * 8 / 2) with (4 * ng) by dlia. rewrite (Z.mod_small (4 * ng + 7)) by lia.
  rewrite <-Hlen, memset_all. step_ok. unfold set_bin. rewrite Hb, arr_set_Ok, Nat2Z.id by lia. step_ok.
  unfold zeros, with_deleted. by rewrite Hgm, Hlen.
Qed.

(** The end of a split clears the bitmaps of both bins. *)
Lemma ixht_clear_both t bc (k n : nat) (d mo mn : Z) bo bn ng ngn dl l :
  (k < length bc)%nat → (n < length bc)%nat → k ≠ n →
  bins t = Live (<[n := Some (mk_ebin (Some d) (Some mn) 0 bn)]> (<[k := Some (mk_ebin (Some d) (Some mo) 0 bo)]> bc)) →
  0 < ng ≤ 2 ^ 12 → groups_mask bo = ng - 1 → deleted bo = Live dl → Z.of_nat (length dl) = (4 * ng + 7) / 8 →
  bin_rep ngn bn l → ngn ≤ 2 ^ 12 → deleted bn = zeros ngn →
  (t' ← ixht_clear_deleted t (Z.of_nat k); ixht_clear_deleted t' (Z.of_nat n)) =
  Ok (mk_ixht (els_num t) (max_depth t) (bin_mask t) (dir t) (dir_capacity t)
        (Live (<[n := Some (mk_ebin (Some d) (Some mn) 0 bn)]>
               (<[k := Some (mk_ebin (Some d) (Some mo) 0 (with_deleted bo (zeros ng)))]> bc)))
        (bins_num t) (bins_capacity t)).
Proof.
  intros Hk Hn Hkn Hb Hng Hgm Edl Hdl Hrn Hngn Hdn.
  rewrite (ixht_clear_deleted_Ok t _ k (mk_ebin (Some d) (Some mo) 0 bo) ng dl Hb); try done;
    [|rewrite list_lookup_insert_ne, list_lookup_insert_eq by lia; done].
  step_ok. destruct (ebin_facts _ _ _ _ _ Hrn) as (Hpos & Hgmn & _).
  erewrite (ixht_clear_deleted_Ok _ _ n (mk_ebin (Some d) (Some mn) 0 bn) ngn
    (replicate (Z.to_nat ((4 * ngn + 7) / 8)) (Some 0))); [|done| |lia|done|done|rewrite length_replicate; dlia].
  2:{ rewrite list_lookup_insert_ne by lia. apply list_lookup_insert_eq. rewrite length_insert. lia. }
  assert (with_deleted bn (zeros ngn) = bn) as Ew by (unfold with_deleted; rewrite <-Hdn; by destruct bn).
  cbn [max_depth bin_mask dir dir_capacity bins_num bins_capacity els_num depth mask els_start hb].
  rewrite Ew. do 3 f_equal. rewrite (list_insert_insert_ne _ k n) by lia. by rewrite !list_insert_insert_eq.
Qed.

(** A bin of depth [d] splits in one round: its elements differ in hash bit
    [d], and the directory has at most two entries for it. *)
Definition splittable t (d : Z) l : Prop :=
  max_depth t ≤ d + 1 ∧ d ≤ 30 ∧ with_bit d false l ≠ [] ∧ with_bit d true l ≠ [].

Lemma ixht_split_loop_S fuel t k n :
  ixht_split_loop Hash Eq (S fuel) t k n =
  ('(t', old, new) ← ixht_split_round Hash Eq t k n;
   if negb (old : bool) then ixht_split_loop Hash Eq fuel t' n k
   else if (new : bool) then Ok (t', k, n) else ixht_split_loop Hash Eq fuel t' k n).
Proof. done. Qed.

(** The new bin of a split, next to the old one. *)
Lemma ixht_split_create bc dc ls t (k : nat) l eb ng :
  ixht_ok Hash Eq bc dc ls t → ls !! k = Some l → bc !! k = Some (Some eb) → ebin_rep Hash Eq ng eb l →
  Z.of_nat (length bc) < 2 ^ 30 →
  ∃ ngn bc1 bn, let n := length ls in
    ixht_create_bin t (u32 (u32 (groups_mask (hb eb) + 1) * GROUP_SIZE) / 2) =
      Ok (Z.of_nat n, mk_ixht (els_num t) (max_depth t) (bin_mask t) (dir t) (dir_capacity t) (Live bc1)
                        (Z.of_nat (S n)) (Z.of_nat (length bc1))) ∧
    (n < length bc1)%nat ∧ Z.of_nat (length bc1) < 2 ^ 32 ∧
    Z.of_nat (length bc1) ≤ Z.max (Z.of_nat (length bc)) (2 * Z.of_nat n + 4) ∧
    (∀ j, (j < n)%nat → bc1 !! j = bc !! j) ∧ bc1 !! n = Some (Some (mk_ebin None None 0 bn)) ∧
    bin_rep ngn bn [] ∧ els_bound bn = 0 ∧ deleted bn = zeros ngn ∧ ng ≤ ngn ≤ 2 ^ 12.
Proof.
  intros Hok Hk Hbc (_ & Hb & Hng) Hfew.
  pose proof (xo_fit Hok) as Hfit. pose proof (xo_bins_num Hok) as Hnum.
  destruct (ebin_facts _ _ _ _ _ Hb) as (Hpos & Hgm & _ & p & Hp & Ep).
  rewrite Hgm. unfold GROUP_SIZE, u32. rewrite Z.sub_add, (Z.mod_small ng), (Z.mod_small (ng * 8)) by lia.
  replace (ng * 8 / 2) with (4 * ng) by dlia.
  assert (p ≤ 12) by (apply (Z.pow_le_mono_r_iff 2); lia).
  destruct (groups_for_pow (p + 2)) as (kg & Hkg & Eg & Hcap & Hs4); [lia|].
  rewrite Z.pow_add_r, <-Ep in Eg, Hcap, Hs4 by lia. change (2 ^ 2) with 4 in *. rewrite (Z.mul_comm ng) in *.
  destruct (ixht_create_bin_Ok Hash Eq t bc kg (4 * ng)) as
    (t1 & bc1 & bn & -> & -> & Hl1 & Hsame & Hn & Hbn & Hb0 & Hdn); [apply Hok|apply Hok|lia..|].
  rewrite Hnum in *. rewrite Nat2Z.id in Hn. assert (2 ^ kg ≤ 2 ^ 12) by (apply Z.pow_le_mono_r; lia).
  exists (groups_for (4 * ng)), bc1, bn. cbn zeta. rewrite Nat2Z.inj_succ.
  split_and!; try done; try lia. intros j Hj. apply Hsame; lia.
Qed.

Lemma ixht_split_bin_run bc dc ls t (k : nat) l eb ng d m :
  ixht_ok Hash Eq bc dc ls t → ls !! k = Some l → bc !! k = Some (Some eb) → ebin_rep Hash Eq ng eb l →
  dir_ready dc d t → Z.of_nat (length bc) < 2 ^ 30 →
  depth eb = Some d → mask eb = Some m → 0 ≤ m < 2 ^ d → with_bit d false l ≠ [] → with_bit d true l ≠ [] →
  ∃ ngn bc1 dc' bo bn, let n := length ls in
    ixht_split_bin Hash Eq t (Z.of_nat k) = Ok (mk_ixht (els_num t) (Z.max (max_depth t) (d + 1))
      (2 ^ Z.max (max_depth t) (d + 1) - 1)
      (Live (<[Z.to_nat (m + 2 ^ d) := Some (Z.of_nat n)]> dc')) (2 ^ Z.max (max_depth t) (d + 1))
      (Live (<[n := Some (mk_ebin (Some (d + 1)) (Some (m + 2 ^ d)) 0 bn)]>
             (<[k := Some (mk_ebin (Some (d + 1)) (Some m) 0 bo)]> bc1)))
      (Z.of_nat (S n)) (Z.of_nat (length bc1))) ∧
    (n < length bc1)%nat ∧ Z.of_nat (length bc1) < 2 ^ 32 ∧
    Z.of_nat (length bc1) ≤ Z.max (Z.of_nat (length bc)) (2 * Z.of_nat n + 4) ∧
    (∀ j, (j < n)%nat → bc1 !! j = bc !! j) ∧
    Z.of_nat (length dc') = 2 ^ Z.max (max_depth t) (d + 1) ∧
    (∀ j, 0 ≤ j < 2 ^ Z.max (max_depth t) (d + 1) → cellv dc' j = cellv dc (j mod 2 ^ max_depth t)) ∧
    ng ≤ ngn ≤ 2 ^ 12 ∧ bin_rep ng bo (with_bit d false l) ∧ bin_rep ngn bn (with_bit d true l) ∧
    els_bound bo = Z.of_nat (length (with_bit d false l)) ∧ els_bound bn = Z.of_nat (length (with_bit d true l)).
Proof.
  intros Hok Hk Hbc Hr Hdr Hfew Hdep Hmsk Hm Hlo Hhi. pose proof (lookup_lt_Some _ _ _ Hk) as Hkl.
  pose proof Hr as (_ & Hb & Hng). destruct (ebin_facts _ _ _ _ _ Hb) as (Hpos & Hgm & _ & p & Hp & Ep).
  unfold ixht_split_bin. rewrite (xo_bins Hok), (live_get _ _ _ Hbc). step_ok.
  destruct (ixht_split_create bc dc ls t k l eb ng) as
    (ngn & bc1 & bn & -> & Hnl & H32 & Hcap1 & Hsame & Hn & Hbn & Hb0 & Hdn & Hngn); [done..|].
  step_ok. set (n := length ls) in *. set (t1 := mk_ixht _ _ _ _ _ (Live bc1) _ _).
  assert (dir_ready dc d t1) as Hdr1 by (destruct Hdr; by split).
  destruct (ixht_split_round_Ok t1 bc1 dc k n eb bn ng ngn l d m) as
    (dc' & bo & bn' & old & new & Er & Hold & Hnew & Hld & Hcd & (dl & Edl & _ & Hdl) & Hgm' & Hro & Hbo & Hrn & Hbn' & Hdn');
    try done; [rewrite Hsame by lia; done|lia|].
  rewrite (proj2 Hold Hlo), (proj2 Hnew Hhi) in Er. rewrite ixht_split_loop_S, Er. step_ok. cbn [negb]. step_ok.
  rewrite (ixht_clear_both _ bc1 k n (d + 1) m (m + 2 ^ d) bo bn' ng ngn dl (with_bit d true l)); try done; try lia.
  exists ngn, bc1, dc', (with_deleted bo (zeros ng)), bn'. cbn zeta.
  split; [done|cbn [max_depth t1] in *; split_and!; try done; lia].
Qed.

(** ** The directory after a split *)

Section new_dir.
Context (M d m : Z) (k n : nat) (dc dc' : list (option Z)).
Context (Hd : 0 ≤ d ≤ M) (HM : M ≤ d + 1) (Hm : 0 ≤ m < 2 ^ d) (Hkn : k ≠ n).
Context (Hlen : Z.of_nat (length dc') = 2 ^ (d + 1)).
Context (Hdc' : ∀ j, 0 ≤ j < 2 ^ (d + 1) → cellv dc' j = cellv dc (j mod 2 ^ M)).
Context (Hk : ∀ j, 0 ≤ j < 2 ^ M → cellv dc j = Some (Z.of_nat k) ↔ j mod 2 ^ d = m).
Let new := <[Z.to_nat (m + 2 ^ d) := Some (Z.of_nat n)]> dc'.

Lemma new_dir_at j :
  0 ≤ j < 2 ^ (d + 1) →
  cellv new j = if decide (j = m + 2 ^ d) then Some (Z.of_nat n) else cellv dc (j mod 2 ^ M).
Proof.
  intros Hj. unfold new. rewrite cellv_insert by (rewrite Hlen, Z.pow_add_r by lia; change (2 ^ 1) with 2; lia).
  case_decide; [done|]. by apply Hdc'.
Qed.

Lemma old_dir_mod j : 0 ≤ j → cellv dc (j mod 2 ^ M) = Some (Z.of_nat k) ↔ j mod 2 ^ d = m.
Proof.
  intros Hj. rewrite Hk by (apply mod_pow2_range; lia).
  by rewrite mod_pow2_mod by lia.
Qed.

(** A number below [2^(d+1)] that ends in [m] is [m] or [m + 2^d]. *)
Lemma ends_in_mask j :
  0 ≤ j < 2 ^ (d + 1) → j mod 2 ^ d = m ↔ j = m ∨ j = m + 2 ^ d.
Proof.
  intros Hj. rewrite Z.pow_add_r in Hj by lia. change (2 ^ 1) with 2 in Hj. split.
  - intros E. pose proof (Z.div_mod j (2 ^ d)). assert (0 ≤ j / 2 ^ d < 2).
    2:{ assert (j / 2 ^ d = 0 ∨ j / 2 ^ d = 1) as [Eq0|Eq0] by lia; rewrite Eq0 in *; lia. }
    split; [apply Z.div_pos; lia|apply Z.div_lt_upper_bound; lia].
  - intros [->| ->]; [by apply Z.mod_small|]. rewrite <-(Z.mul_1_l (2 ^ d)) at 1.
    rewrite Z_mod_plus_full. by apply Z.mod_small.
Qed.

Lemma new_dir_old j : 0 ≤ j < 2 ^ (d + 1) → cellv new j = Some (Z.of_nat k) ↔ j = m.
Proof.
  intros Hj. rewrite new_dir_at by done. case_decide as Ej.
  - split; [intros [= ?]|]; lia.
  - rewrite old_dir_mod, ends_in_mask by lia. lia.
Qed.

Lemma new_dir_new j :
  (∀ i, 0 ≤ i < 2 ^ M → cellv dc i ≠ Some (Z.of_nat n)) →
  0 ≤ j < 2 ^ (d + 1) → cellv new j = Some (Z.of_nat n) ↔ j = m + 2 ^ d.
Proof.
  intros Hn Hj. rewrite new_dir_at by done. case_decide as Ej; [done|]. split; [|done].
  intros E. exfalso. eapply Hn; [|exact E]. apply mod_pow2_range; lia.
Qed.

(** Entries of other bins stay. *)
Lemma new_dir_other j (k' : nat) :
  k' ≠ k → k' ≠ n → 0 ≤ j < 2 ^ (d + 1) →
  cellv new j = Some (Z.of_nat k') ↔ cellv dc (j mod 2 ^ M) = Some (Z.of_nat k').
Proof.
  intros Hk1 Hk2 Hj. rewrite new_dir_at by done. case_decide as Ej; [|done].
  assert (cellv dc (j mod 2 ^ M) = Some (Z.of_nat k)) as ->
    by (apply old_dir_mod; [lia|]; apply ends_in_mask; [done|by right]).
  split; intros [= ?]; lia.
Qed.
End new_dir.

Lemma with_bit_perm d l : with_bit d false l ++ with_bit d true l ≡ₚ l.
Proof.
  induction l as [|e l IH]; [done|]. unfold with_bit in *. rewrite !filter_cons.
  destruct (Z.testbit (xhash Hash e) d); repeat case_decide; try done.
  - by rewrite <-Permutation_middle, IH.
  - cbn. by rewrite IH.
Qed.

Lemma split_perm ls (k : nat) l d :
  ls !! k = Some l → concat (<[k := with_bit d false l]> ls ++ [with_bit d true l]) ≡ₚ concat ls.
Proof.
  intros Hk. rewrite concat_app, (concat_insert _ _ l), (concat_split ls k l) by done.
  cbn [concat]. rewrite app_nil_r. pose proof (with_bit_perm d l) as Hp.
  set (a := with_bit d false l) in *. set (b := with_bit d true l) in *. rewrite <-Hp.
  rewrite <-!(assoc_L (++)). do 2 f_equiv. apply Permutation_app_comm.
Qed.

(** ** A split keeps the table well-formed *)

(** The parts after a split: those of the old bin, the others, the new bin's. *)
Definition split_parts ls (k : nat) (d : Z) l : list (list El) :=
  <[k := with_bit d false l]> ls ++ [with_bit d true l].

Lemma split_parts_lookup ls (k : nat) d l j lj :
  ls !! k = Some l → split_parts ls k d l !! j = Some lj ↔
    j = k ∧ lj = with_bit d false l ∨ j = length ls ∧ lj = with_bit d true l ∨
    j ≠ k ∧ j ≠ length ls ∧ ls !! j = Some lj.
Proof.
  intros Hk. pose proof (lookup_lt_Some _ _ _ Hk). unfold split_parts.
  rewrite lookup_app, length_insert. destruct (decide (j = k)) as [->|Hne].
  - rewrite list_lookup_insert_eq by done. naive_solver lia.
  - rewrite list_lookup_insert_ne by done. destruct (ls !! j) as [lj'|] eqn:E.
    + pose proof (lookup_lt_Some _ _ _ E). naive_solver lia.
    + apply lookup_ge_None in E. destruct (decide (j = length ls)) as [->|Hj].
      * rewrite Nat.sub_diag. cbn. naive_solver.
      * rewrite (lookup_ge_None_2 [_]) by (cbn; lia). naive_solver.
Qed.

(** Hash bits of the elements of a bin. *)
Lemma bin_hash bc dc ls t (k : nat) l d m e :
  ixht_ok Hash Eq bc dc ls t → ls !! k = Some l → 0 ≤ d ≤ max_depth t →
  (∀ j, 0 ≤ j < 2 ^ max_depth t → cellv dc j = Some (Z.of_nat k) ↔ j mod 2 ^ d = m) →
  e ∈ l → xhash Hash e mod 2 ^ (d + 1) = m + (if Z.testbit (xhash Hash e) d then 2 ^ d else 0).
Proof.
  intros Hok Hk Hd Hkd He. rewrite mod_pow2_succ by lia. f_equal.
  pose proof (xo_placed Hok k l e Hk He) as Hp. unfold dir_at in Hp.
  rewrite <-(mod_pow2_mod _ (max_depth t)) by lia. apply Hkd; [|done].
  apply mod_pow2_range; lia.
Qed.

Section split_ok.
Context bc dc ls t (k : nat) l eb ng (d m : Z).
Context (Hok : ixht_ok Hash Eq bc dc ls t) (Hk : ls !! k = Some l) (Hd : 0 ≤ d ≤ max_depth t).
Context (Hmax : max_depth t ≤ d + 1) (Hd30 : d ≤ 30) (Hm : 0 ≤ m < 2 ^ d).
Context (Hkd : ∀ j, 0 ≤ j < 2 ^ max_depth t → cellv dc j = Some (Z.of_nat k) ↔ j mod 2 ^ d = m).
Context (dc' : list (option Z)) (Hlen : Z.of_nat (length dc') = 2 ^ (d + 1)).
Context (Hdc' : ∀ j, 0 ≤ j < 2 ^ (d + 1) → cellv dc' j = cellv dc (j mod 2 ^ max_depth t)).
Let new := <[Z.to_nat (m + 2 ^ d) := Some (Z.of_nat (length ls))]> dc'.

Lemma old_dir_bound i : 0 ≤ i < 2 ^ max_depth t → cellv dc i ≠ Some (Z.of_nat (length ls)).
Proof.
  intros Hi E. destruct (xo_dir_ok Hok i Hi) as (k' & E' & Hlt).
  rewrite E' in E. injection E. lia.
Qed.

Lemma split_kn : k ≠ length ls.
Proof. pose proof (lookup_lt_Some _ _ _ Hk). lia. Qed.

Lemma mod_range h : 0 ≤ h mod 2 ^ (d + 1) < 2 ^ (d + 1).
Proof. apply mod_pow2_range; lia. Qed.

Lemma split_placed j lj e :
  split_parts ls k d l !! j = Some lj → e ∈ lj →
  dir_at new (d + 1) (xhash Hash e) = Some (Z.of_nat j).
Proof.
  intros [[-> ->]|[[-> ->]|(Hjk & Hjn & Hj)]]%split_parts_lookup He; [| | |done]; unfold dir_at.
  - apply list_elem_of_filter in He as [Hbit He].
    apply (new_dir_old (max_depth t) d m k (length ls) dc dc'); try done; [apply split_kn|apply mod_range|].
    rewrite (bin_hash bc dc ls t k l d m e) by done. rewrite Hbit. lia.
  - apply list_elem_of_filter in He as [Hbit He].
    apply (new_dir_new (max_depth t) d m k (length ls) dc dc'); try done; [apply split_kn|apply old_dir_bound|apply mod_range|].
    rewrite (bin_hash bc dc ls t k l d m e) by done. by rewrite Hbit.
  - apply (new_dir_other (max_depth t) d m k (length ls) dc dc'); try done; [apply split_kn|apply mod_range|].
    rewrite mod_pow2_mod by lia. by apply (xo_placed Hok j lj e).
Qed.

Lemma split_dir_total j :
  0 ≤ j < 2 ^ (d + 1) → ∃ k', cellv new j = Some (Z.of_nat k') ∧ (k' < S (length ls))%nat.
Proof.
  intros Hj. unfold new. rewrite (new_dir_at (max_depth t) d m k (length ls) dc dc') by (done || apply split_kn).
  case_decide; [eauto with lia|].
  destruct (xo_dir_ok Hok (j mod 2 ^ max_depth t)) as (k' & E & Hlt); [|eauto with lia].
  apply mod_pow2_range; lia.
Qed.

(** A hash of the old bin now leads to one of the two. *)
Lemma split_dir_moved h :
  dir_at dc (max_depth t) h = Some (Z.of_nat k) →
  dir_at new (d + 1) h = Some (Z.of_nat (if Z.testbit h d then length ls else k)).
Proof.
  intros Hh. unfold dir_at in *. rewrite Hkd, mod_pow2_mod in Hh by
    (lia || apply mod_pow2_range; lia).
  pose proof (mod_pow2_succ h d ltac:(lia)) as Es. destruct (Z.testbit h d).
  - apply (new_dir_new (max_depth t) d m k (length ls) dc dc'); try done;
      [apply split_kn|apply old_dir_bound|apply mod_range|lia].
  - apply (new_dir_old (max_depth t) d m k (length ls) dc dc'); try done;
      [apply split_kn|apply mod_range|lia].
Qed.

(** Bin [k'] of depth [d'] keeps its entries. *)
Lemma split_dir_other (k' : nat) d' m' j :
  k' ≠ k → k' ≠ length ls → 0 ≤ d' ≤ max_depth t →
  (∀ j, 0 ≤ j < 2 ^ max_depth t → cellv dc j = Some (Z.of_nat k') ↔ j mod 2 ^ d' = m') →
  0 ≤ j < 2 ^ (d + 1) → cellv new j = Some (Z.of_nat k') ↔ j mod 2 ^ d' = m'.
Proof.
  intros Hk1 Hk2 Hd' Hk' Hj. unfold new.
  rewrite (new_dir_other (max_depth t) d m k (length ls) dc dc') by (done || apply split_kn).
  rewrite Hk' by (apply mod_pow2_range; lia). by rewrite mod_pow2_mod by lia.
Qed.
End split_ok.

Lemma split_shorter d l :
  with_bit d false l ≠ [] → with_bit d true l ≠ [] →
  (length (with_bit d false l) < length l)%nat ∧ (length (with_bit d true l) < length l)%nat.
Proof.
  intros Hlo Hhi. pose proof (Permutation_length (with_bit_perm d l)) as Hl. rewrite length_app in Hl.
  destruct (with_bit d false l), (with_bit d true l); cbn in *; done || lia.
Qed.

(** A bin of depth [d] that holds [l] and has room for one more. *)
Definition roomy bc (k : nat) (d : Z) l : Prop :=
  ∃ eb ng, bc !! k = Some (Some eb) ∧ ebin_rep Hash Eq ng eb l ∧ els_bound (hb eb) < 4 * ng ∧
    depth eb = Some d ∧ els_bound (hb eb) = Z.of_nat (length l).

(** The bins after the split: the old bin's and the new bin's are set. *)
Record split_bins bc bc' ls (k : nat) (d m : Z) l : Prop := {
  sb_old : ∃ eb, bc' !! k = Some (Some eb) ∧ depth eb = Some (d + 1) ∧ mask eb = Some m;
  sb_new : ∃ eb, bc' !! length ls = Some (Some eb) ∧ depth eb = Some (d + 1) ∧ mask eb = Some (m + 2 ^ d);
  sb_other j : j ≠ k → (j < length ls)%nat → bc' !! j = bc !! j;
  sb_room_old : roomy bc' k (d + 1) (with_bit d false l);
  sb_room_new : roomy bc' (length ls) (d + 1) (with_bit d true l);
  sb_len : (length ls < length bc')%nat ∧ Z.of_nat (length bc') < 2 ^ 32
}.

Section split_ok_bins.
Context bc dc ls t (k : nat) l eb ng (d m : Z).
Context (Hok : ixht_ok Hash Eq bc dc ls t) (Hk : ls !! k = Some l) (Hd : 0 ≤ d ≤ max_depth t).
Context (Hmax : max_depth t ≤ d + 1) (Hd30 : d ≤ 30) (Hm : 0 ≤ m < 2 ^ d).
Context (Hkd : ∀ j, 0 ≤ j < 2 ^ max_depth t → cellv dc j = Some (Z.of_nat k) ↔ j mod 2 ^ d = m).
Context (dc' : list (option Z)) (Hlen : Z.of_nat (length dc') = 2 ^ (d + 1)).
Context (Hdc' : ∀ j, 0 ≤ j < 2 ^ (d + 1) → cellv dc' j = cellv dc (j mod 2 ^ max_depth t)).
Context (bc' : list (option (ebin slots El))) (Hb : split_bins bc bc' ls k d m l).
Let new := <[Z.to_nat (m + 2 ^ d) := Some (Z.of_nat (length ls))]> dc'.
Let t' := mk_ixht (els_num t) (d + 1) (2 ^ (d + 1) - 1) (Live new) (2 ^ (d + 1)) (Live bc')
  (Z.of_nat (S (length ls))) (Z.of_nat (length bc')).

Lemma length_split_parts : length (split_parts ls k d l) = S (length ls).
Proof. unfold split_parts. rewrite length_app, length_insert. cbn. lia. Qed.

Lemma split_named (j : nat) eb' :
  (j < S (length ls))%nat → bc' !! j = Some (Some eb') → names new (d + 1) j eb'.
Proof.
  intros Hj Hbj'. destruct Hb as [(ebo & Hbk & ? & ?) (ebn & Hbn & ? & ?) Hbj _ _ _].
  assert (k ≠ length ls) as Hkn by (pose proof (lookup_lt_Some _ _ _ Hk); lia).
  assert (2 ^ (d + 1) = 2 ^ d * 2) as Hp2 by (by rewrite Z.pow_add_r by lia).
  destruct (decide (j = k)) as [->|Hjk]; [|destruct (decide (j = length ls)) as [->|Hjn]].
  - rewrite Hbk in Hbj'. injection Hbj' as <-. exists (d + 1), m. split_and!; try done; try lia.
    intros i Hi. rewrite (Z.mod_small i) by done.
    by apply (new_dir_old (max_depth t) d m k (length ls) dc dc').
  - rewrite Hbn in Hbj'. injection Hbj' as <-. exists (d + 1), (m + 2 ^ d). split_and!; try done; try lia.
    intros i Hi. rewrite (Z.mod_small i) by done.
    apply (new_dir_new (max_depth t) d m k (length ls) dc dc'); try done.
    intros i' Hi'. by eapply old_dir_bound.
  - rewrite Hbj in Hbj' by lia. destruct (xo_named Hok j eb') as (dj & mj & ? & ? & ? & ? & Hjd); [lia|done|].
    exists dj, mj. split_and!; try done; try lia. intros i Hi.
    apply (split_dir_other dc ls t k l d m); done || lia.
Qed.
Lemma split_table_ok : ixht_ok Hash Eq bc' new (split_parts ls k d l) t'.
Proof.
  pose proof (Permutation_length (split_perm ls k l d Hk)) as Hpl. destruct Hb as [_ _ Hbj Hro Hrn Hlb].
  split; cbn [t' bins bins_capacity bins_num dir max_depth bin_mask els_num];
    rewrite ?length_split_parts; try done; try lia.
  - intros j lj [[-> ->]|[[-> ->]|(Hjk & Hjn & Hj)]]%split_parts_lookup; [| | |done].
    + destruct Hro as (? & ? & ? & ? & _). eauto.
    + destruct Hrn as (? & ? & ? & ? & _). eauto.
    + rewrite Hbj by (done || by eapply lookup_lt_Some). by apply (xo_bin Hok).
  - apply (split_dir_total bc dc ls t k l d m); done.
  - intros j lj e. apply (split_placed bc dc ls t k l d m); done.
  - unfold new. by rewrite length_insert.
  - apply split_named.
  - unfold split_parts. rewrite (xo_num Hok). by rewrite Hpl.
  - unfold split_parts. rewrite Hpl. apply (xo_small Hok).
Qed.

End split_ok_bins.

Lemma ixht_split_bin_Ok bc dc ls t (k : nat) l eb ng d :
  ixht_ok Hash Eq bc dc ls t → ls !! k = Some l → bc !! k = Some (Some eb) → ebin_rep Hash Eq ng eb l →
  Z.of_nat (length bc) < 2 ^ 30 → depth eb = Some d → splittable t d l →
  ∃ t' bc' dc', ixht_split_bin Hash Eq t (Z.of_nat k) = Ok t' ∧
    ixht_ok Hash Eq bc' dc' (split_parts ls k d l) t' ∧
    els_num t' = els_num t ∧ max_depth t' = d + 1 ∧
    roomy bc' k (d + 1) (with_bit d false l) ∧ roomy bc' (length ls) (d + 1) (with_bit d true l) ∧
    (∀ j, j ≠ k → (j < length ls)%nat → bc' !! j = bc !! j) ∧
    Z.of_nat (length bc') ≤ Z.max (Z.of_nat (length bc)) (2 * Z.of_nat (length ls) + 4) ∧
    ∀ h, dir_at dc (max_depth t) h = Some (Z.of_nat k) →
      dir_at dc' (d + 1) h = Some (Z.of_nat (if Z.testbit h d then length ls else k)).
Proof.
  intros Hok Hk Hbc Hr Hfew Hdep (Hmax & Hd30 & Hlo & Hhi).
  pose proof (lookup_lt_Some _ _ _ Hk) as Hkl.
  destruct (xo_named Hok k eb Hkl Hbc) as (d' & m & Hdep' & Hmsk & Hd & Hm & Hkd).
  rewrite Hdep in Hdep'. injection Hdep' as <-.
  pose proof (ixht_ok_ready bc dc ls t d Hok Hd Hd30) as Hdr.
  destruct (ixht_split_bin_run bc dc ls t k l eb ng d m) as
    (ngn & bc1 & dc' & bo & bn & -> & Hn1 & Hfew1 & Hcap1 & Hsame & Hl' & Hc' & Hngn & Hbo & Hbn & Hbdo & Hbdn); [done..|].
  replace (Z.max (max_depth t) (d + 1)) with (d + 1) in * by lia.
  destruct (split_shorter d l Hlo Hhi) as [Hso Hsn]. pose proof Hr as (_ & Hb & Hng).
  destruct (ebin_facts _ _ _ _ _ Hb) as (_ & _ & Hll & _).
  set (bc' := <[length ls := Some (mk_ebin _ _ _ bn)]> (<[k := Some (mk_ebin _ _ _ bo)]> bc1)).
  assert (bc' !! k = Some (Some (mk_ebin (Some (d + 1)) (Some m) 0 bo))) as Hbk
    by (unfold bc'; rewrite list_lookup_insert_ne, list_lookup_insert_eq by lia; done).
  assert (bc' !! length ls = Some (Some (mk_ebin (Some (d + 1)) (Some (m + 2 ^ d)) 0 bn))) as Hbn'
    by (unfold bc'; rewrite list_lookup_insert_eq by (rewrite length_insert; lia); done).
  assert (length bc' = length bc1) as Hlb by (unfold bc'; by rewrite !length_insert).
  assert (split_bins bc bc' ls k d m l) as Hsb.
  { split; [by eexists|by eexists| | | |lia].
    - intros; unfold bc'; rewrite !list_lookup_insert_ne, Hsame by lia; done.
    - eexists _, ng. split_and!; [exact Hbk|done|cbn [hb]; lia|done|done].
    - eexists _, ngn. split_and!; [exact Hbn'|by split_and!; [| |lia]|cbn [hb]; lia|done|done]. }
  eexists _, bc', _. split; [reflexivity|]. rewrite <-Hlb. split_and!; try done; try lia; try apply Hsb.
  - by apply (split_table_ok bc dc ls t k l d m).
  - by apply (split_dir_moved bc dc ls t k l d m).
Qed.

(** ** INSERT into a full bin *)

(** The test of [ixht_perform] decides for a split. *)
Lemma ixht_make_room_split t bc dc ls (k : nat) l eb hash :
  ixht_ok Hash Eq bc dc ls t → bc !! k = Some (Some eb) → ebin_rep Hash Eq (2 ^ 12) eb l →
  els_bound (hb eb) = 2 ^ 14 → 2 ^ 14 ≤ els_num t < 2 ^ 31 →
  ixht_make_room Hash Eq t hash (Z.of_nat k) =
    (t' ← ixht_split_bin Hash Eq t (Z.of_nat k);
     bin_ind' ← arr_get (dir t') (Z.land hash (bin_mask t')); Ok (bin_ind', t')).
Proof.
  intros Hok Hbc (_ & Hb & _) Hbound Hnum. destruct (ebin_facts _ _ _ _ _ Hb) as (_ & Hgm & _).
  unfold ixht_make_room. rewrite (xo_bins Hok), (live_get _ _ _ Hbc). step_ok.
  rewrite Hgm, Hbound. cbv zeta. change (u32 (u32 (2 ^ 12 - 1 + 1) * GROUP_SIZE)) with (2 ^ 15).
  change (2 ^ 14 =? 2 ^ 15 / 2) with true. cbv iota.
  assert (u32 (2 * els_num t) = 2 * els_num t) as -> by (unfold u32; apply Z.mod_small; lia).
  rewrite (proj2 (Z.leb_le (2 ^ 15) (2 * els_num t))) by lia. cbn [andb].
  by change (2 ^ IXHT_MAX_BIN_SIZE_POWER <=? u32 (2 ^ 15 / 2 * 2)) with true.
Qed.

(** After the split there is room in the bin of the key. *)
Section split_full.
Context bc dc ls t el (k : nat) l eb (d : Z).
Context (Hok : ixht_ok Hash Eq bc dc ls t) (Hfew : Z.of_nat (length bc) < 2 ^ 30).
Context (Hk : ls !! k = Some l) (Hbc : bc !! k = Some (Some eb)) (Hr : ebin_rep Hash Eq (2 ^ 12) eb l).
Context (Hdat : dir_at dc (max_depth t) (xhash Hash el) = Some (Z.of_nat k)).
Context (Hfull : els_bound (hb eb) = 2 ^ 14) (Hnum : 2 ^ 14 ≤ els_num t < 2 ^ 31).
Context (Hdep : depth eb = Some d) (Hsp : splittable t d l).

Lemma ixht_split_room :
  ∃ t' bc' dc' (k1 : nat) l1 eb1 ng1,
    ixht_make_room Hash Eq t (xhash Hash el) (Z.of_nat k) = Ok (Z.of_nat k1, t') ∧
    ixht_ok Hash Eq bc' dc' (split_parts ls k d l) t' ∧ split_parts ls k d l !! k1 = Some l1 ∧
    bc' !! k1 = Some (Some eb1) ∧ ebin_rep Hash Eq ng1 eb1 l1 ∧ els_bound (hb eb1) < 4 * ng1 ∧
    dir_at dc' (max_depth t') (xhash Hash el) = Some (Z.of_nat k1) ∧
    els_num t' = els_num t ∧ max_depth t' = d + 1 ∧
    roomy bc' k (d + 1) (with_bit d false l) ∧ roomy bc' (length ls) (d + 1) (with_bit d true l) ∧
    (∀ j, j ≠ k → (j < length ls)%nat → bc' !! j = bc !! j) ∧
    Z.of_nat (length bc') ≤ Z.max (Z.of_nat (length bc)) (2 * Z.of_nat (length ls) + 4).
Proof.
  destruct (ixht_split_bin_Ok bc dc ls t k l eb (2 ^ 12) d) as
    (t' & bc' & dc' & E & Hok' & Hn' & Hmd' & Hro & Hrn & Hoth & Hlen & Hmove); [done..|].
  specialize (Hmove _ Hdat). set (k1 := if Z.testbit (xhash Hash el) d then length ls else k) in *.
  assert (∃ l1, split_parts ls k d l !! k1 = Some l1 ∧ roomy bc' k1 (d + 1) l1) as (l1 & Hl1 & eb1 & ng1 & Hb1 & Hr1 & Hroom & _).
  { unfold k1. destruct (Z.testbit _ _); [exists (with_bit d true l)|exists (with_bit d false l)];
      (split; [apply split_parts_lookup; [done|]|done]); auto. }
  destruct (ixht_dir_get Hash Eq bc' dc' _ t' el Hok') as (k2 & l2 & Hdir2 & _ & Hdat2).
  rewrite Hmd', Hmove in Hdat2. injection Hdat2 as Ek2. assert (k2 = k1) as -> by lia.
  exists t', bc', dc', k1, l1, eb1, ng1. split_and!; try done; [|by rewrite Hmd'].
  rewrite (ixht_make_room_split t bc dc ls k l eb), E by done. step_ok. rewrite Hdir2. by step_ok.
Qed.

Lemma ixht_perform_insert_split : insert_outcome Hash Eq t el (concat ls).
Proof.
  destruct (ixht_dir_get Hash Eq bc dc ls t el Hok) as (k' & lk' & Hdir & _ & Hdat').
  rewrite Hdat in Hdat'. injection Hdat' as Ek. assert (k' = k) as -> by lia.
  destruct ixht_split_room as
    (t' & bc' & dc' & k1 & l1 & eb1 & ng1 & E & Hok' & Hl1 & Hb1 & Hr1 & Hroom & Hd1 & Hn' & _).
  apply (insert_outcome_perm Hash Eq t el (concat (split_parts ls k d l)));
    [by eapply (ixht_uniq Hash Eq)|by apply split_perm|].
  eapply (ixht_perform_room Hash Eq t el (Z.of_nat k) t' bc' dc' _ k1 l1 eb1 ng1); try done. lia.
Qed.
End split_full.

(** ** Insertions without a split leave the directory alone *)

(** The test of [ixht_perform] for a split, on the bin of a key. *)
Definition ixht_splits t el : res bool :=
  bin_ind ← arr_get (dir t) (Z.land (xhash Hash el) (bin_mask t));
  eb ← arr_get (bins t) bin_ind;
  let indexes_size := u32 (u32 (groups_mask (hb eb) + 1) * GROUP_SIZE) in
  let els_size := indexes_size / 2 in
  Ok ((els_bound (hb eb) =? els_size) && (indexes_size <=? u32 (2 * els_num t)) &&
      (2 ^ IXHT_MAX_BIN_SIZE_POWER <=? u32 (els_size * 2))).

Lemma ixht_splits_Ok t el (k : nat) eb ng l :
  arr_get (dir t) (Z.land (xhash Hash el) (bin_mask t)) = Ok (Z.of_nat k) →
  arr_get (bins t) (Z.of_nat k) = Ok eb → ebin_rep Hash Eq ng eb l → 0 ≤ els_num t < 2 ^ 31 →
  ∃ s : bool, ixht_splits t el = Ok s ∧ (s = false ↔ no_split t ng (hb eb)).
Proof.
  intros Hd Hg (_ & Hb & Hng) Hn. destruct (ebin_facts _ _ _ _ _ Hb) as (Hpos & Hgm & _).
  unfold ixht_splits. rewrite Hd. step_ok. rewrite Hg. step_ok. eexists. split; [done|].
  rewrite Hgm, Z.sub_add. unfold u32, GROUP_SIZE, no_split, IXHT_MAX_BIN_SIZE_POWER.
  rewrite (Z.mod_small ng), (Z.mod_small (ng * 8)) by lia. replace (ng * 8 / 2) with (4 * ng) by dlia.
  rewrite !Z.mod_small by lia. rewrite !andb_false_iff, Z.eqb_neq, !Z.leb_gt. lia.
Qed.

(** Everything but the count and the contents of the bins. *)
Definition shape t := (max_depth t, bin_mask t, dir t, dir_capacity t, bins_num t, bins_capacity t).

Lemma set_bin_shape t i eb t' : set_bin t i eb = Ok t' → shape t' = shape t.
Proof. unfold set_bin. intros (a & _ & E)%bind_Ok. by injection E as <-. Qed.

Lemma ixht_write_shape t slot el t' : ixht_write t slot el = Ok t' → shape t' = shape t.
Proof.
  unfold ixht_write. intros (eb & _ & E)%bind_Ok. apply bind_Ok in E as (b & _ & E).
  by apply set_bin_shape in E.
Qed.

Lemma ixht_rebuild_bin_shape t i n1 n2 t' :
  ixht_rebuild_bin Hash Eq t i n1 n2 = Ok t' → shape t' = shape t.
Proof.
  unfold ixht_rebuild_bin. intros (eb & _ & E)%bind_Ok. apply bind_Ok in E as (e & _ & E).
  apply bind_Ok in E as (g1 & _ & E).
  apply bind_Ok in E as ([n b] & _ & E). apply bind_Ok in E as (x & _ & E).
  by apply set_bin_shape in E.
Qed.

Lemma ixht_perform_shape t el act f r t' :
  ixht_splits t el = Ok false → ixht_perform Hash Eq t el act = Ok (f, r, t') → shape t' = shape t.
Proof.
  unfold ixht_splits. intros (k & Hk & Hs)%bind_Ok. apply bind_Ok in Hs as (eb & Hg & [= Hs]).
  rewrite (ixht_perform_dir Hash Eq t el act k Hk). intros E.
  assert (∃ k1 t1, shape t1 = shape t ∧ perform_in Hash Eq t1 k1 el act = Ok (f, r, t')) as (k1 & t1 & <- & E1).
  { case_match; [|by eauto]. apply bind_Ok in E as ([k1 t1] & Em & E). exists k1, t1. split; [|done].
    unfold ixht_make_room in Em. rewrite Hg, ok_bind in Em. cbv zeta in Em.
    destruct (els_bound (hb eb) =? _) eqn:E1 in Hs, Em; [|by simplify_eq].
    destruct (_ <=? u32 (2 * els_num t)) eqn:E2 in Hs, Em; cbn [andb] in Hs, Em.
    - rewrite Hs in Em. apply bind_Ok in Em as (t2 & Er & Em). simplify_eq. by eapply ixht_rebuild_bin_shape.
    - apply bind_Ok in Em as (t2 & Er & Em). simplify_eq. by eapply ixht_rebuild_bin_shape. }
  unfold perform_in in E1. apply bind_Ok in E1 as (eb1 & _ & E1). apply bind_Ok in E1 as ([[[??]?]?] & _ & E1).
  apply bind_Ok in E1 as (t2 & E2 & E1). simplify_eq. by apply set_bin_shape in E2.
Qed.

Lemma ixht_insert_shape t el f t' :
  ixht_splits t el = Ok false → ixht_insert Hash Eq t el = Ok (f, t') → shape t' = shape t.
Proof.
  intros Hs. unfold ixht_insert. intros ([[f1 r] t1] & Ep & E)%bind_Ok.
  apply (ixht_perform_shape _ _ _ _ _ _ Hs) in Ep. destruct f1; [by injection E as <- <-|].
  destruct r as [slot|]; [|done]. apply bind_Ok in E as (t2 & Ew & E). injection E as <- <-.
  by rewrite (ixht_write_shape _ _ _ _ Ew).
Qed.

(** Up to 2^14 elements can be inserted one after the other. *)
Lemma ixht_fill l t l0 :
  ixht_rep Hash Eq t l0 → (∀ i j e e', (l0 ++ l) !! i = Some e → (l0 ++ l) !! j = Some e' → Eq e e' = true → i = j) →
  Z.of_nat (length (l0 ++ l)) ≤ 2 ^ 14 →
  ∃ t', ixht_rep Hash Eq t' (l0 ++ l) ∧ shape t' = shape t.
Proof.
  revert t l0. induction l as [|el l IH]; intros t l0 Ht Hdist Hlen; [rewrite app_nil_r; eauto|].
  rewrite length_app in Hlen. cbn [length] in Hlen.
  assert (lookup_key Eq el l0 = None) as Hno.
  { apply lookup_key_none. intros e [i Hi]%list_elem_of_lookup. destruct (Eq e el) eqn:HE; [|done].
    assert (i = length l0); [|apply lookup_lt_Some in Hi; lia].
    apply (Hdist _ _ e el); [by apply lookup_app_l_Some| |done]. by rewrite list_lookup_middle. }
  assert (ixht_splits t el = Ok false) as Hs.
  { destruct (ixht_locate Hash Eq t l0 el Ht)
      as (bc & dc & ls & k & lk & eb & ng & Hok & Hp & Hk & Hb & Hr & Hd & _ & _).
    assert (Z.of_nat (length (concat ls)) < 2 ^ 14) as Hc by (rewrite Hp; lia).
    destruct (ixht_splits_Ok t el k eb ng lk) as (b0 & -> & Hb'); [done| |done| |].
    - rewrite (xo_bins Hok). by apply live_get.
    - rewrite (xo_num Hok). lia.
    - f_equal. apply Hb'. by eapply (ixht_rep_no_split Hash Eq). }
  destruct (ixht_insert_rep Hash Eq t l0 el Ht) as (t1 & E & Ht1); [lia|]. rewrite Hno in E, Ht1.
  apply (ixht_insert_shape _ _ _ _ Hs) in E.
  assert ((l0 ++ [el]) ++ l = l0 ++ el :: l) as Ea by (by rewrite <-(assoc_L (++))).
  destruct (IH t1 (l0 ++ [el])) as (t' & Ht' & E'); [done|by rewrite Ea|rewrite !length_app; cbn; lia|].
  exists t'. by rewrite <-Ea, <-E.
Qed.

(** * Splits that go wrong *)

(** FIND of a key that is not in the bin its hash leads to. *)
Lemma ixht_find_missing t bc (k : nat) eb ng l el :
  bins t = Live bc → bc !! k = Some (Some eb) → bin_rep ng (hb eb) l → lookup_key Eq el l = None →
  arr_get (dir t) (Z.land (xhash Hash el) (bin_mask t)) = Ok (Z.of_nat k) →
  ixht_perform Hash Eq t el FIND = Ok (false, None, t).
Proof.
  intros Hb Hk Hr Hl Hdir. rewrite (ixht_perform_dir Hash Eq t el FIND _ Hdir). cbn [action_code Z.leb Z.compare].
  unfold perform_in. rewrite Hb, (live_get _ _ _ Hk). step_ok. unfold ixht_do_1.
  rewrite (do_1_missing (xhash Hash) Eq ng (hb eb) l) by done. step_ok. by rewrite (set_bin_same bc).
Qed.

(** A bin of a depth at least two below the directory's has four or more
    entries, of which a split redirects one: an element that moves to the new
    bin under another entry is no longer found. *)
Lemma ixht_split_bin_loses bc dc ls t (k : nat) l eb ng d e :
  ixht_ok Hash Eq bc dc ls t → ls !! k = Some l → bc !! k = Some (Some eb) → ebin_rep Hash Eq ng eb l →
  Z.of_nat (length bc) < 2 ^ 30 → depth eb = Some d → d ≤ 30 → d + 1 < max_depth t →
  with_bit d false l ≠ [] → e ∈ with_bit d true l →
  xhash Hash e mod 2 ^ max_depth t ≠ xhash Hash e mod 2 ^ (d + 1) →
  ∃ t', ixht_split_bin Hash Eq t (Z.of_nat k) = Ok t' ∧ ixht_perform Hash Eq t' e FIND = Ok (false, None, t').
Proof.
  intros Hok Hk Hbc Hr Hfew Hdep Hd30 Hmax Hlo [Hbit He]%list_elem_of_filter Hne.
  pose proof (lookup_lt_Some _ _ _ Hk) as Hkl.
  destruct (xo_named Hok k eb Hkl Hbc) as (d' & m & Hdep' & Hmsk & Hd & Hm & Hkd).
  rewrite Hdep in Hdep'. injection Hdep' as <-.
  pose proof (ixht_ok_ready bc dc ls t d Hok Hd Hd30) as Hdr.
  assert (e ∈ with_bit d true l) as Hin by (by apply list_elem_of_filter).
  destruct (ixht_split_bin_run bc dc ls t k l eb ng d m) as
    (ngn & bc1 & dc' & bo & bn & -> & Hn1 & _ & _ & _ & Hl' & Hc' & _ & Hbo & _);
    [done..|by intros E; rewrite E in Hin; apply elem_of_nil in Hin|].
  replace (Z.max (max_depth t) (d + 1)) with (max_depth t) in * by lia.
  pose proof (bin_hash bc dc ls t k l d m e Hok Hk Hd Hkd He) as Hh. rewrite Hbit in Hh.
  set (h := xhash Hash e) in *. assert (0 ≤ h mod 2 ^ max_depth t < 2 ^ max_depth t) as Hhr
    by (apply mod_pow2_range; lia).
  match goal with |- ∃ t', Ok ?T = Ok t' ∧ _ => set (t1 := T) end. exists t1. split; [done|].
  eapply (ixht_find_missing t1 _ k (mk_ebin (Some (d + 1)) (Some m) 0 bo) ng (with_bit d false l)); [done| |exact Hbo| |].
  - rewrite list_lookup_insert_ne, list_lookup_insert_eq by lia. done.
  - apply lookup_key_none. intros e' [Hbit' _]%list_elem_of_filter. destruct (Eq e' e) eqn:HE; [|done].
    rewrite (key_hash (Hash := xhash Hash) (Eq := Eq) e' e HE) in Hbit'. fold h in Hbit'. congruence.
  - fold h. cbn [dir bin_mask t1]. rewrite land_mask by lia. apply arr_get_Ok.
    rewrite cellv_insert by (rewrite Hl'; assert (2 ^ (d + 1) ≤ 2 ^ max_depth t)
      by (apply Z.pow_le_mono_r; lia); rewrite Z.pow_add_r in * by lia; lia).
    rewrite decide_False by lia. rewrite Hc', Z.mod_mod by (done || apply Z.pow_nonzero; lia).
    apply (xo_placed Hok k l e Hk He).
Qed.

(** No entry of the bin is live. *)
Definition no_live eb : Prop :=
  ∀ i, els_start eb ≤ i < els_bound (hb eb) → is_deleted (hb eb) i = Ok true.

(** The slots of the bin can be cleared. *)
Definition clearable eb : Prop :=
  ∃ ng st, slots_ok ng (groups (hb eb)) st ∧ groups_mask (hb eb) = ng - 1 ∧ 0 < ng ≤ 2 ^ 12.

(** Bins [k], of depth [d] and mask [m], and [n] have no live entries. *)
Definition drained t (k n : nat) (d m : Z) : Prop :=
  ∃ bc dc ebk ebn, bins t = Live bc ∧ k ≠ n ∧ bc !! k = Some (Some ebk) ∧ bc !! n = Some (Some ebn) ∧
    no_live ebk ∧ no_live ebn ∧ clearable ebk ∧ clearable ebn ∧ depth ebk = Some d ∧ mask ebk = Some m ∧
    0 ≤ m < 2 ^ d ∧ 0 ≤ d ≤ max_depth t ∧ max_depth t ≤ 31 ∧ dir t = Live dc ∧
    dir_capacity t = 2 ^ max_depth t ∧ Z.of_nat (length dc) = 2 ^ max_depth t ∧
    bin_mask t = 2 ^ max_depth t - 1 ∧ ∀ j, 0 ≤ j < 2 ^ max_depth t → ∃ x, cellv dc j = Some x.

(** Clearing the slots of a bin without live entries, as a round does it. *)
Lemma clear_slots eb :
  clearable eb → ∃ s2 ng, slots_clear (groups (hb eb)) (groups_mask (hb eb)) = Ok s2 ∧
    slots_ok ng s2 (λ _ _, SEmpty) ∧ groups_mask (hb eb) = ng - 1 ∧ 0 < ng ≤ 2 ^ 12.
Proof.
  intros (ng & st & Hs & Hgm & Hng).
  destruct (slots_clear_ok ng (groups (hb eb)) st Hs) as (s2 & E & Hs2); [rewrite ixht_max_groups; lia|].
  exists s2, ng. rewrite Hgm. split_and!; [done..|lia|lia].
Qed.

(** A round over two bins without live entries adds to neither and swaps them. *)
Lemma drained_round t (k n : nat) d m :
  drained t k n d m → d ≤ 30 →
  ∃ t', ixht_split_round Hash Eq t (Z.of_nat k) (Z.of_nat n) = Ok (t', false, false) ∧
    drained t' n k (d + 1) (m + 2 ^ d).
Proof.
  intros (bc & dc & ebk & ebn & Hbins & Hkn & Hk & Hn & Hnk & Hnn & Hck & Hcn & Hdep & Hmsk & Hm & Hd & Hmax &
    Hdir & Hcap & Hlen & Hbm & Hinit) Hd30.
  destruct (clear_slots ebk Hck) as (s2 & ng & Ec & Hs2 & Hgm & Hng).
  pose proof (lookup_lt_Some _ _ _ Hk). pose proof (lookup_lt_Some _ _ _ Hn).
  unfold ixht_split_round. rewrite Hbins, (live_get _ _ _ Hn), (live_get _ _ _ Hk). do 2 step_ok.
  rewrite Ec. step_ok. rewrite Hdep. cbn [read_field]. step_ok. rewrite shl64_one by lia. step_ok.
  unfold u16. rewrite (Z.mod_small (d + 1)) by lia.
  destruct (ixht_grow_dir_Ok t dc (d + 1)) as (dc' & -> & Hld & Hcd); [done..|lia|lia|lia|]. step_ok.
  rewrite Hmsk. cbn [read_field]. step_ok. cbn [dir els_num]. rewrite lor_pow2 by lia.
  set (M := Z.max (max_depth t) (d + 1)) in *. assert (2 ^ (d + 1) = 2 * 2 ^ d) as Hp by (rewrite Z.pow_add_r by lia; lia).
  assert (2 ^ (d + 1) ≤ 2 ^ M) by (apply Z.pow_le_mono_r; lia).
  rewrite arr_set_Ok by lia. step_ok. rewrite for_res_id.
  2:{ intros i Hi. unfold ixht_split_body. cbn [sp_bin]. change (is_deleted _ i) with (is_deleted (hb ebk) i).
      rewrite (Hnk i Hi). by step_ok. }
  step_ok. unfold set_bin, set_dir. cbn [bins els_num max_depth bin_mask dir dir_capacity bins_num bins_capacity sp_bin sp_new].
  rewrite Hbins, arr_set_Ok, Nat2Z.id by lia. do 2 step_ok.
  cbn [bins els_num max_depth bin_mask dir dir_capacity bins_num bins_capacity].
  rewrite arr_set_Ok, Nat2Z.id by (rewrite length_insert; lia). do 2 step_ok. cbn [old_added new_added].
  eexists. split; [reflexivity|].
  eexists _, _, _, _. cbn [bins els_num max_depth bin_mask dir dir_capacity bins_num bins_capacity].
  split; [reflexivity|]. split; [done|].
  split; [apply list_lookup_insert_eq; rewrite length_insert; lia|].
  split; [rewrite list_lookup_insert_ne, list_lookup_insert_eq by lia; reflexivity|].
  cbn [depth mask els_start hb]. split_and!; try done; try lia.
  - intros i Hi. cbn [els_start els_bound hb] in Hi. lia.
  - by exists ng, (λ _ _, SEmpty).
  - by rewrite length_insert.
  - intros j Hj. rewrite cellv_insert by lia. case_decide; [by eexists|]. rewrite Hcd by done.
    apply Hinit. apply mod_pow2_range. lia.
Qed.

(** At depth 31 the capacity of the directory doubles to 0 in 32 bits and the
    loop that copies its entries reads outside the block. *)
Lemma drained_round_deep t (k n : nat) m :
  drained t k n 31 m → ixht_split_round Hash Eq t (Z.of_nat k) (Z.of_nat n) = UB OutOfBounds.
Proof.
  intros (bc & dc & ebk & ebn & Hbins & Hkn & Hk & Hn & Hnk & Hnn & Hck & Hcn & Hdep & Hmsk & Hm & Hd & Hmax &
    Hdir & Hcap & Hlen & Hbm & Hinit).
  destruct (clear_slots ebk Hck) as (s2 & ng & Ec & _).
  assert (max_depth t = 31) as EM by lia.
  unfold ixht_split_round. rewrite Hbins, (live_get _ _ _ Hn), (live_get _ _ _ Hk). do 2 step_ok.
  rewrite Ec. step_ok. rewrite Hdep. cbn [read_field]. step_ok. rewrite shl64_one by lia. step_ok.
  change (u16 (31 + 1)) with 32. unfold ixht_grow_dir. rewrite EM. cbn [Z.ltb Z.compare Pos.compare Pos.compare_cont].
  change (shl64 (u64 (Z.lnot 0)) 32) with (Ok 0xffffffff00000000). step_ok. rewrite Hcap, EM, Hdir.
  change (u32 (2 * 2 ^ 31)) with 0. unfold arr_realloc. change (Z.to_nat 0) with 0%nat. cbn [take].
  rewrite Nat.sub_0_l. cbn [replicate app]. step_ok.
  rewrite for_res_UB with (e := OutOfBounds); [done|lia|done].
Qed.

Lemma drained_loop fuel t (k n : nat) d m :
  drained t k n d m → d ≤ 31 → 31 - d < Z.of_nat fuel →
  ixht_split_loop Hash Eq fuel t (Z.of_nat k) (Z.of_nat n) = UB OutOfBounds.
Proof.
  revert t k n d m. induction fuel as [|fuel IH]; intros t k n d m Ht Hd Hf; [lia|].
  rewrite ixht_split_loop_S. destruct (decide (d = 31)) as [->|Hne].
  - by rewrite (drained_round_deep t k n m Ht).
  - destruct (drained_round t k n d m Ht) as (t' & -> & Ht'); [lia|]. step_ok. cbn [negb].
    apply (IH t' n k (d + 1) (m + 2 ^ d)); [done|lia|lia].
Qed.

Lemma ebin_rep_no_live ng eb : ebin_rep Hash Eq ng eb [] → no_live eb.
Proof.
  intros (Hst & (ec & dc & st & Hok & El') & _) i Hi. rewrite Hst in Hi.
  pose proof (bo_bound Hok).
  rewrite (is_deleted_Ok (xhash Hash) Eq ng ec dc st) by (done || lia). f_equal.
  destruct (dead_bit dc i) eqn:Hdead; [done|]. exfalso.
  destruct (bo_init Hok i Hi) as [e He].
  assert (e ∈ live_list ec dc (els_bound (hb eb))) as Hin; [|by rewrite <-El' in Hin; apply elem_of_nil in Hin].
  apply elem_of_live_list. exists i. by apply live_at_Some.
Qed.

Lemma ebin_rep_clearable ng eb l : ebin_rep Hash Eq ng eb l → clearable eb.
Proof.
  intros (_ & (ec & dc & st & Hok & _) & Hng). pose proof (pi_ng (bo_inv Hok)).
  exists ng, st. split_and!; try apply Hok; lia.
Qed.

(** The split of a bin without live entries leaves the directory. *)
Lemma ixht_split_bin_drained bc dc ls t (k : nat) eb ng :
  ixht_ok Hash Eq bc dc ls t → ls !! k = Some [] → bc !! k = Some (Some eb) → ebin_rep Hash Eq ng eb [] →
  Z.of_nat (length bc) < 2 ^ 30 → max_depth t ≤ 31 →
  ixht_split_bin Hash Eq t (Z.of_nat k) = UB OutOfBounds.
Proof.
  intros Hok Hk Hb Hr Hcap Hmax. pose proof (lookup_lt_Some _ _ _ Hk) as Hkl.
  destruct (ixht_split_create bc dc ls t k [] eb ng) as
    (ngn & bc1 & bn & E & _ & _ & _ & Hsame & Hn & Hbn & _ & _ & Hngn); [done..|]. cbv zeta in E.
  destruct (xo_named Hok k eb Hkl Hb) as (d & m & Hdep & Hmsk & Hd & Hm & _).
  unfold ixht_split_bin. rewrite (xo_bins Hok), (live_get _ _ _ Hb). step_ok. rewrite E. step_ok.
  rewrite (drained_loop 65 _ k (length ls) d m); [done| |lia|lia].
  assert (ebin_rep Hash Eq ngn (mk_ebin None None 0 bn) []) as Hrn by (by split_and!; [| |lia]).
  exists bc1, dc, eb, (mk_ebin None None 0 bn). cbn [bins max_depth dir dir_capacity bin_mask].
  split_and!; try done; try lia; try apply Hok.
  - by rewrite Hsame.
  - by eapply ebin_rep_no_live.
  - by eapply ebin_rep_no_live.
  - by eapply ebin_rep_clearable.
  - by eapply ebin_rep_clearable.
  - intros j Hj. destruct (xo_dir_ok Hok j Hj) as (x & -> & _). by eexists.
Qed.

(** INSERT into such a bin, when it is full and the table holds as many
    elements as the bin has room for. *)
Lemma ixht_perform_drained bc dc ls t (k : nat) eb el :
  ixht_ok Hash Eq bc dc ls t → ls !! k = Some [] → bc !! k = Some (Some eb) →
  ebin_rep Hash Eq (2 ^ 12) eb [] → Z.of_nat (length bc) < 2 ^ 30 → max_depth t ≤ 31 →
  arr_get (dir t) (Z.land (xhash Hash el) (bin_mask t)) = Ok (Z.of_nat k) →
  els_bound (hb eb) = 2 ^ 14 → 2 ^ 14 ≤ els_num t < 2 ^ 31 →
  ixht_perform Hash Eq t el INSERT = UB OutOfBounds.
Proof.
  intros Hok Hk Hb Hr Hcap Hmax Hdir Hfull Hnum.
  rewrite (ixht_perform_dir Hash Eq t el INSERT _ Hdir).
  cbn [action_code Z.leb Z.compare Pos.compare Pos.compare_cont].
  rewrite (ixht_make_room_split t bc dc ls k [] eb) by done.
  by rewrite (ixht_split_bin_drained bc dc ls t k eb (2 ^ 12)).
Qed.
End correct.
