(* ===== verification/IxhtabRun.v ===== *)
(** INSERT into the extendible table of ixhtab.h in general: it has the outcome
    of an insertion whenever the split it asks for, if any, is one that works.
    With it the table refines its specification for every sequence of requests
    that asks for such splits only, and up to 2^14 requests ask for none. *)

From S2P Require Import Prelude Bits Groups Probe Spec Store Core Ixhtab IxhtabCorrect IxhtabSplit.

Section run.
Context {K : SlotStore} {V : SlotView K} `{!SlotLaws ixht_config K V}.
Context {El : Type} (Hash : El → Z) (Eq : El → El → bool) `{!KeyLaws Hash Eq}.
Implicit Types (t : ixht slots El) (eb : ebin slots El) (el e : El) (l : list El).

(** An element that the bin holds in its memory. *)
Definition stored eb e : Prop :=
  ∃ i, els_start eb ≤ i < els_bound (hb eb) ∧ is_deleted (hb eb) i = Ok false ∧
    arr_get (els (hb eb)) i = Ok e.

(** A bin of depth [d] at most one level above the directory, with elements on
    both sides of hash bit [d]. *)
Definition two_sided t eb (d : Z) : Prop :=
  max_depth t ≤ d + 1 ∧ d ≤ 30 ∧
  (∃ e, stored eb e ∧ Z.testbit (xhash Hash e) d = false) ∧
  (∃ e, stored eb e ∧ Z.testbit (xhash Hash e) d = true).

(** If INSERT of the key of [el] splits the bin of the key, the bin is such a
    bin. *)
Definition split_safe t el : Prop :=
  ∀ k eb d, arr_get (dir t) (Z.land (xhash Hash el) (bin_mask t)) = Ok k → arr_get (bins t) k = Ok eb →
    depth eb = Some d → ixht_splits Hash t el = Ok true → bins_capacity t < 2 ^ 30 ∧ two_sided t eb d.

Lemma stored_elem ng eb l e : ebin_rep Hash Eq ng eb l → stored eb e ↔ e ∈ l.
Proof.
  intros (Hst & (ec & dc & st & Hok & ->) & _). unfold stored. rewrite Hst, (bo_els Hok), elem_of_live_list.
  pose proof (bo_bound Hok) as Hb. split.
  - intros (i & Hi & Hd & He). exists i. rewrite (is_deleted_Ok _ _ _ _ _ _ _ _ Hok) in Hd by lia.
    injection Hd as Hd. apply arr_get_Ok in He. apply live_at_Some. split; [lia|]. done.
  - intros (i & Hi). apply live_at_Some in Hi as (Hi & Hd & He). exists i. split; [done|].
    rewrite (is_deleted_Ok _ _ _ _ _ _ _ _ Hok) by lia. rewrite Hd. split; [done|].
    by apply arr_get_Ok.
Qed.

Lemma two_sided_splittable t ng eb l d :
  ebin_rep Hash Eq ng eb l → two_sided t eb d → splittable Hash t d l.
Proof.
  intros Hr (Hm & Hd & (e0 & H0%(stored_elem _ _ _ _ Hr) & Hb0) & (e1 & H1%(stored_elem _ _ _ _ Hr) & Hb1)).
  split_and!; [done|done|..].
  - intros E. assert (e0 ∈ with_bit Hash d false l) as Hin by (by apply list_elem_of_filter).
    rewrite E in Hin. by apply elem_of_nil in Hin.
  - intros E. assert (e1 ∈ with_bit Hash d true l) as Hin by (by apply list_elem_of_filter).
    rewrite E in Hin. by apply elem_of_nil in Hin.
Qed.

(** INSERT, with or without a rebuild or a split. *)
Lemma ixht_insert_safe t l el :
  ixht_rep Hash Eq t l → Z.of_nat (length l) < 2 ^ 31 → split_safe t el → insert_outcome Hash Eq t el l.
Proof.
  intros Ht Hl Hsafe. destruct (ixht_locate Hash Eq t l el Ht)
    as (bc & dc & ls & k & lk & eb & ng & Hok & Hp & Hk & Hb & Hr & Hd & Hda & _).
  apply (insert_outcome_perm Hash Eq t el (concat ls)); [by eapply (ixht_uniq Hash Eq)|done|].
  assert (0 ≤ els_num t < 2 ^ 31) as Hn by (rewrite (xo_num Hok), Hp; lia).
  assert (arr_get (bins t) (Z.of_nat k) = Ok eb) as Hg by (rewrite (xo_bins Hok); by apply live_get).
  destruct (ixht_splits_Ok Hash Eq t el k eb ng lk) as (s & Es & Hns); [done..|]. destruct s.
  - destruct (xo_named Hok k eb) as (d & m & Hde & _); [by eapply lookup_lt_Some|done|].
    destruct (Hsafe _ _ _ Hd Hg Hde Es) as [Hcap Hts]. rewrite (xo_cap Hok) in Hcap.
    pose proof Hr as (_ & Hbr & Hng). destruct (ebin_facts Hash Eq _ _ _ Hbr) as (_ & _ & Hle & _).
    assert (¬ no_split t ng (hb eb)) as Hsp by (by intros ?%Hns).
    assert (ng = 2 ^ 12 ∧ els_bound (hb eb) = 2 ^ 14 ∧ 2 ^ 14 ≤ els_num t) as (-> & Hfull & Hge).
    { unfold no_split in Hsp. destruct (decide (els_bound (hb eb) = 4 * ng)); [|by destruct Hsp; split; [lia|]].
      destruct (decide (ng < 2 ^ 12)); [by destruct Hsp; split; [lia|left]|].
      destruct (decide (els_num t < 4 * ng)); [by destruct Hsp; split; [lia|right]|]. lia. }
    eapply (ixht_perform_insert_split Hash Eq); try done; [lia|]. by eapply two_sided_splittable.
  - eapply (ixht_perform_insert Hash Eq); try done. by apply Hns.
Qed.

(** Fewer than 2^14 elements never need a split. *)
Lemma split_safe_small t l el : ixht_rep Hash Eq t l → Z.of_nat (length l) < 2 ^ 14 → split_safe t el.
Proof.
  intros Ht Hl k0 eb0 d _ _ _ Es. exfalso. destruct (ixht_locate Hash Eq t l el Ht)
    as (bc & dc & ls & k & lk & eb & ng & Hok & Hp & Hk & Hb & Hr & Hd & _ & _).
  assert (Z.of_nat (length (concat ls)) < 2 ^ 14) as Hc by (rewrite Hp; lia).
  destruct (ixht_splits_Ok Hash Eq t el k eb ng lk) as (s & Es' & Hns); [done| |done| |].
  - rewrite (xo_bins Hok). by apply live_get.
  - rewrite (xo_num Hok). lia.
  - rewrite Es in Es'. injection Es' as <-. assert (true = false); [|done]. apply Hns.
    by eapply (ixht_rep_no_split Hash Eq).
Qed.

(** ** Sequences of requests *)

(** Every insertion of the run is safe. *)
Fixpoint safe_run (ops : list (op El)) t : Prop :=
  match ops with
  | [] => True
  | o :: ops =>
      match o with OpInsert el | OpReplace el => split_safe t el | _ => True end ∧
      ∀ r t', step (I := ixht_table Hash Eq) o t = Ok (r, t') → safe_run ops t'
  end.

Lemma step_safe o t l :
  ixht_rep Hash Eq t l → Z.of_nat (length l) < 2 ^ 31 →
  match o with OpInsert el | OpReplace el => split_safe t el | _ => True end →
  ∃ r t', step (I := ixht_table Hash Eq) o t = Ok (r, t') ∧ out_rel Permutation r (spec_step Eq o l).1 ∧
    ixht_rep Hash Eq t' (spec_step Eq o l).2.
Proof.
  intros Ht Hl Hs. destruct o as [el|el|el|el| |]; cbn [step spec_step tab_find tab_insert tab_replace tab_delete
    tab_count tab_elements ixht_table].
  - rewrite (ixht_find_rep Hash Eq t l el Ht). eexists _, t. split; [done|]. split; [constructor|done].
  - destruct (ixht_insert_outcome Hash Eq t l el) as (t' & -> & Ht'); [by apply ixht_insert_safe|].
    eexists _, t'. split; [done|]. destruct (lookup_key Eq el l); split; try done; constructor.
  - destruct (ixht_replace_outcome Hash Eq t l el) as (t' & -> & Ht'); [by apply ixht_insert_safe|].
    eexists _, t'. split; [done|]. destruct (lookup_key Eq el l); split; try done; constructor.
  - destruct (ixht_delete_rep Hash Eq t l el Ht) as (t' & -> & Ht').
    eexists _, t'. split; [done|]. destruct (lookup_key Eq el l); split; try done; constructor.
  - rewrite (ixht_count_rep Hash Eq t l Ht). eexists _, t. split; [done|]. split; [constructor|done].
  - destruct (ixht_elements_rep Hash Eq t l Ht) as (l' & -> & Ho).
    eexists _, t. split; [done|]. split; [by constructor|done].
Qed.

Lemma run_safe ops t l :
  ixht_rep Hash Eq t l → Z.of_nat (length l) + Z.of_nat (length ops) ≤ 2 ^ 31 → safe_run ops t →
  ∃ rs t', run (I := ixht_table Hash Eq) ops t = Ok (rs, t') ∧
    Forall2 (out_rel Permutation) rs (spec_run Eq ops l).1 ∧ ixht_rep Hash Eq t' (spec_run Eq ops l).2.
Proof.
  revert t l. induction ops as [|o ops IH]; intros t l Ht Hl Hs; cbn [run spec_run length] in *.
  - by exists [], t.
  - destruct Hs as [Ho Hs]. destruct (step_safe o t l Ht) as (r & t1 & E & Hr & Ht1); [lia|done|].
    specialize (Hs r t1 E). rewrite E. step_ok.
    pose proof (length_spec_step (Eq := Eq) o l). destruct (spec_step Eq o l) as [r' l1]. cbn in *.
    destruct (IH t1 l1 Ht1) as (rs & t2 & -> & Hrs & Ht2); [lia|done|]. step_ok.
    destruct (spec_run Eq ops l1) as [rs' l2]. exists (r :: rs), t2. by split_and!; [|constructor|].
Qed.

(** Up to 2^14 requests are safe. *)
Lemma safe_run_small ops t l :
  ixht_rep Hash Eq t l → Z.of_nat (length l) + Z.of_nat (length ops) ≤ 2 ^ 14 → safe_run ops t.
Proof.
  revert t l. induction ops as [|o ops IH]; intros t l Ht Hl; cbn [safe_run length] in *; [done|].
  assert (match o with OpInsert el | OpReplace el => split_safe t el | _ => True end) as Ho.
  { destruct o; try done; (eapply split_safe_small; [done|lia]). }
  split; [exact Ho|]. intros r t' E. destruct (step_safe o t l Ht) as (r1 & t1 & E1 & _ & Ht1); [lia|done|].
  rewrite E in E1. injection E1 as <- <-. apply (IH t' _ Ht1). pose proof (length_spec_step (Eq := Eq) o l). lia.
Qed.
End run.
