(* ===== verification/IxhtabSpread.v ===== *)
(** Insertions of new keys into the extendible table of ixhtab.h, splits
    included.  Without deletions the bins hold exactly the elements whose
    hashes end in their masks ([tight]), so the splits a sequence of insertions
    makes are determined by its hashes: if no class of hashes is full one level
    below a class that is ([spread]), every split is one that works. *)

From S2P Require Import Prelude Bits Groups Probe Spec Store Core Ixhtab IxhtabCorrect IxhtabSplit IxhtabRun.

Section spread.
Context {K : SlotStore} {V : SlotView K} `{!SlotLaws ixht_config K V}.
Context {El : Type} (Hash : El → Z) (Eq : El → El → bool) `{!KeyLaws Hash Eq}.
Implicit Types (t : ixht slots El) (eb : ebin slots El) (el e : El) (l els : list El) (ls : list (list El)).
Implicit Types (d h : Z) (bc : list (option (ebin slots El))) (dc : list (option Z)).

(** The elements whose hashes agree with [h] in the low [d] bits. *)
Definition hash_class d h l : list El := filter (λ e, xhash Hash e mod 2 ^ d = h mod 2 ^ d) l.
Definition class_size d h l : Z := Z.of_nat (length (hash_class d h l)).

(** When the class of [el] is full, no class one level below is. *)
Definition spread_step l el : Prop :=
  ∀ d, 0 ≤ d → class_size d (xhash Hash el) l = 2 ^ 14 →
    d ≤ 30 ∧ ∀ h, class_size (d + 1) h l < 2 ^ 14.

(** The elements [els] come after the elements [l]. *)
Fixpoint spread l els : Prop :=
  match els with
  | [] => True
  | el :: els => spread_step l el ∧ spread (l ++ [el]) els
  end.

Lemma class_size_perm d h l l' : l ≡ₚ l' → class_size d h l = class_size d h l'.
Proof. intros Hp. unfold class_size, hash_class. by rewrite Hp. Qed.

Lemma class_size_app d h l l' : class_size d h (l ++ l') = class_size d h l + class_size d h l'.
Proof. unfold class_size, hash_class. rewrite list.filter_app, length_app. lia. Qed.

Lemma class_size_all d h l : (∀ e, e ∈ l → xhash Hash e mod 2 ^ d = h mod 2 ^ d) → class_size d h l = Z.of_nat (length l).
Proof.
  intros Hl. unfold class_size, hash_class. by rewrite filter_all_in.
Qed.

Lemma class_size_none d h l : (∀ e, e ∈ l → xhash Hash e mod 2 ^ d ≠ h mod 2 ^ d) → class_size d h l = 0.
Proof.
  intros Hl. unfold class_size, hash_class. by rewrite filter_nil_in.
Qed.

(** A class lies in the class of fewer bits. *)
Lemma class_size_mono d d' h l : 0 ≤ d ≤ d' → class_size d' h l ≤ class_size d h l.
Proof.
  intros Hd. induction l as [|e l IH]; [done|].
  change (e :: l) with ([e] ++ l). rewrite !class_size_app.
  enough (class_size d' h [e] ≤ class_size d h [e]) by lia.
  unfold class_size, hash_class. cbn. case_decide as H1; case_decide as H2; cbn; try lia.
  destruct H2. rewrite <-(mod_pow2_mod _ d'), H1, mod_pow2_mod by lia. done.
Qed.

(** The size of a bin is that of the class of its hashes. *)
Lemma bin_class_size bc dc ls t (k : nat) l d m h :
  ixht_ok Hash Eq bc dc ls t → ls !! k = Some l → 0 ≤ d ≤ max_depth t →
  (∀ j, 0 ≤ j < 2 ^ max_depth t → cellv dc j = Some (Z.of_nat k) ↔ j mod 2 ^ d = m) → h mod 2 ^ d = m →
  class_size d h (concat ls) = Z.of_nat (length l).
Proof.
  intros Hok Hk Hd Hkd Hm.
  assert (∀ j lj e, ls !! j = Some lj → e ∈ lj → xhash Hash e mod 2 ^ d = m ↔ j = k) as Hin.
  { intros j lj e Hj He. pose proof (xo_placed Hok j lj e Hj He) as Hp. unfold dir_at in Hp.
    rewrite <-(mod_pow2_mod _ (max_depth t)), <-Hkd, Hp by (lia || apply mod_pow2_range; lia).
    split; [intros [= ?]; lia|by intros ->]. }
  rewrite (concat_split ls k l Hk), !class_size_app, (class_size_all d h l), !class_size_none; [lia|..].
  - intros e (j & lj & Hj & He)%elem_of_concat. rewrite lookup_drop in Hj. rewrite Hm, Hin by done. lia.
  - intros e (j & lj & [Hj Hlt]%lookup_take_Some & He)%elem_of_concat. rewrite Hm, Hin by done. lia.
  - intros e He. rewrite Hm. by apply (Hin k l).
Qed.

(** ** Tables without deleted elements *)

Definition tight_bins (m0 : Z) bc ls : Prop :=
  ∀ (k : nat) l eb, ls !! k = Some l → bc !! k = Some (Some eb) →
    els_bound (hb eb) = Z.of_nat (length l) ∧ ∃ d, depth eb = Some d ∧ m0 ≤ d.

(** Bins of depth [m0] or more; the directory is as deep as that, or some class
    has been too large for one bin. *)
Record tight (m0 : Z) t l bc dc ls : Prop := {
  ti_ok : ixht_ok Hash Eq bc dc ls t;
  ti_elems : concat ls ≡ₚ l;
  ti_bins : tight_bins m0 bc ls;
  ti_depth : max_depth t = m0 ∨ ∃ h, 2 ^ 14 < class_size (max_depth t - 1) h l;
  ti_few : Z.of_nat (length ls) ≤ 2 ^ 18 + Z.of_nat (length l);
  ti_cap : Z.of_nat (length bc) ≤ 2 ^ 20 + 4 * Z.of_nat (length l);
  ti_m0 : 0 ≤ m0
}.
Arguments ti_ok {m0 t l bc dc ls} _.
Arguments ti_elems {m0 t l bc dc ls} _.
Arguments ti_bins {m0 t l bc dc ls} _.
Arguments ti_depth {m0 t l bc dc ls} _.
Arguments ti_few {m0 t l bc dc ls} _.
Arguments ti_cap {m0 t l bc dc ls} _.
Arguments ti_m0 {m0 t l bc dc ls} _.

Lemma tight_bins_insert m0 bc ls (k : nat) eb l :
  tight_bins m0 bc ls → (k < length bc)%nat → els_bound (hb eb) = Z.of_nat (length l) →
  (∃ d, depth eb = Some d ∧ m0 ≤ d) → tight_bins m0 (<[k := Some eb]> bc) (<[k := l]> ls).
Proof.
  intros Ht Hlt Hb Hd j lj ebj Hj Hbj. destruct (decide (j = k)) as [->|Hne].
  - pose proof (lookup_lt_Some _ _ _ Hj) as Hl. rewrite length_insert in Hl.
    rewrite list_lookup_insert_eq in Hj by done. rewrite list_lookup_insert_eq in Hbj by done.
    by simplify_eq.
  - rewrite list_lookup_insert_ne in Hj by done. rewrite list_lookup_insert_ne in Hbj by done. eauto.
Qed.

Lemma tight_bins_split m0 bc bc' ls (k : nat) d l :
  tight_bins m0 bc ls → ls !! k = Some l → m0 ≤ d →
  roomy Hash Eq bc' k (d + 1) (with_bit Hash d false l) →
  roomy Hash Eq bc' (length ls) (d + 1) (with_bit Hash d true l) →
  (∀ j, j ≠ k → (j < length ls)%nat → bc' !! j = bc !! j) →
  tight_bins m0 bc' (split_parts Hash ls k d l).
Proof.
  intros Ht Hk Hd (e1 & n1 & H1 & _ & _ & D1 & B1) (e2 & n2 & H2 & _ & _ & D2 & B2) Ho j lj ebj Hj Hbj.
  apply split_parts_lookup in Hj as [[-> ->]|[[-> ->]|(Hne & _ & Hj)]]; [..|done].
  - rewrite H1 in Hbj. simplify_eq. split; [done|]. exists (d + 1). split; [done|lia].
  - rewrite H2 in Hbj. simplify_eq. split; [done|]. exists (d + 1). split; [done|lia].
  - apply (Ht j); [done|]. rewrite <-Ho; [done|done|by eapply lookup_lt_Some].
Qed.

(** ** One insertion *)

Section step.
Context (m0 : Z) t l bc dc ls el (Ht : tight m0 t l bc dc ls) (Hs : spread_step l el).
Context (Hlen : Z.of_nat (length l) < 2 ^ 27).

(** The bin of the key. *)
Record key_bin (k : nat) lk eb ng (d m : Z) : Prop := {
  kb_ls : ls !! k = Some lk;
  kb_bin : bc !! k = Some (Some eb);
  kb_rep : ebin_rep Hash Eq ng eb lk;
  kb_dir : arr_get (dir t) (Z.land (xhash Hash el) (bin_mask t)) = Ok (Z.of_nat k);
  kb_dat : dir_at dc (max_depth t) (xhash Hash el) = Some (Z.of_nat k);
  kb_depth : depth eb = Some d;
  kb_range : m0 ≤ d ≤ max_depth t;
  kb_mask : xhash Hash el mod 2 ^ d = m;
  kb_names j : 0 ≤ j < 2 ^ max_depth t → cellv dc j = Some (Z.of_nat k) ↔ j mod 2 ^ d = m;
  kb_bound : els_bound (hb eb) = Z.of_nat (length lk);
  kb_size : class_size d (xhash Hash el) l = Z.of_nat (length lk)
}.
Arguments kb_ls {k lk eb ng d m} _.
Arguments kb_bin {k lk eb ng d m} _.
Arguments kb_rep {k lk eb ng d m} _.
Arguments kb_dir {k lk eb ng d m} _.
Arguments kb_dat {k lk eb ng d m} _.
Arguments kb_depth {k lk eb ng d m} _.
Arguments kb_range {k lk eb ng d m} _.
Arguments kb_mask {k lk eb ng d m} _.
Arguments kb_names {k lk eb ng d m} _.
Arguments kb_bound {k lk eb ng d m} _.
Arguments kb_size {k lk eb ng d m} _.

Lemma key_bin_ex : ∃ k lk eb ng d m, key_bin k lk eb ng d m.
Proof.
  destruct Ht as [Hok Hp Hb Hmd _ _ Hm0].
  destruct (ixht_dir_get Hash Eq bc dc ls t el Hok) as (k & lk & Hd & Hk & Hda).
  destruct (xo_bin Hok k lk Hk) as (eb & ng & Hbk & Hr).
  destruct (Hb k lk eb Hk Hbk) as (Hbd & d & Hde & Hmd0).
  destruct (xo_named Hok k eb) as (d' & m & Hde' & _ & Hrange & _ & Hn); [by eapply lookup_lt_Some|done|].
  rewrite Hde in Hde'. injection Hde' as <-.
  assert (xhash Hash el mod 2 ^ d = m) as Hm.
  { rewrite <-(mod_pow2_mod _ (max_depth t)) by lia. apply Hn; [apply mod_pow2_range; lia|done]. }
  exists k, lk, eb, ng, d, m. split; try done; [lia|].
  rewrite <-(class_size_perm _ _ _ _ Hp). by eapply bin_class_size.
Qed.

Context k lk eb ng d m (Hkb : key_bin k lk eb ng d m).

(** If the elements of the bin agree on the next bit, they are one class. *)
Lemma other_side (v : bool) :
  with_bit Hash d v lk = [] → Z.of_nat (length lk) ≤ class_size (d + 1) (xhash Hash (List.hd el lk)) l.
Proof.
  intros Hnil. destruct Hkb. destruct Ht as [Hok Hp _ _ _ _ Hm0].
  assert (∀ e, e ∈ lk → xhash Hash e mod 2 ^ (d + 1) = m + (if negb v then 2 ^ d else 0)) as Hall.
  { intros e He. rewrite (bin_hash Hash Eq bc dc ls t k lk d m e Hok) by (done || lia).
    pose proof (filter_nil_not_elem_of _ _ e Hnil) as Hno.
    destruct (Z.testbit (xhash Hash e) d) eqn:Hb, v; try done; by destruct Hno. }
  rewrite <-(class_size_perm _ _ _ _ Hp), (concat_split ls k lk), !class_size_app by done.
  rewrite (class_size_all (d + 1) _ lk); [unfold class_size; lia|].
  intros e He. rewrite Hall by done. symmetry. apply Hall. destruct lk; [by apply elem_of_nil in He|left].
Qed.

Lemma tight_splittable : Z.of_nat (length lk) = 2 ^ 14 → splittable Hash t d lk.
Proof.
  intros Hfull. destruct Ht as [_ _ _ Hmd _ _ Hm0]. pose proof (kb_range Hkb) as Hrange.
  destruct (Hs d) as [Hd30 Hsub]; [lia|by rewrite (kb_size Hkb)|].
  split_and!; [|done|intros E%other_side..].
  - destruct Hmd as [->|(h & Hh)]; [lia|]. destruct (decide (max_depth t ≤ d + 1)); [done|].
    pose proof (class_size_mono (d + 1) (max_depth t - 1) h l ltac:(lia)). specialize (Hsub h). lia.
  - specialize (Hsub (xhash Hash (List.hd el lk))). lia.
  - specialize (Hsub (xhash Hash (List.hd el lk))). lia.
Qed.

Lemma tight_num : els_num t = Z.of_nat (length l).
Proof. rewrite (xo_num (ti_ok Ht)). by rewrite (ti_elems Ht). Qed.

(** The bin is full and of the largest size if the test asks for a split. *)
Lemma tight_full : ¬ no_split t ng (hb eb) → ng = 2 ^ 12 ∧ Z.of_nat (length lk) = 2 ^ 14 ∧ 2 ^ 14 ≤ els_num t.
Proof.
  intros Hsp. pose proof tight_num. destruct (kb_rep Hkb) as (_ & Hbr & Hng).
  destruct (ebin_facts Hash Eq _ _ _ Hbr) as (_ & _ & Hle & _). rewrite <-(kb_bound Hkb). unfold no_split in Hsp.
  destruct (decide (els_bound (hb eb) = 4 * ng)); [|by destruct Hsp; split; [lia|]].
  destruct (decide (ng < 2 ^ 12)); [by destruct Hsp; split; [lia|left]|].
  destruct (decide (els_num t < 4 * ng)); [by destruct Hsp; split; [lia|right]|]. lia.
Qed.

(** Adding the element to the bin of the key, after the bin got room. *)
Lemma tight_add t2 bc1 dc1 ls1 (k1 : nat) l1 eb1 eb2 :
  ixht_ok Hash Eq (<[k1 := Some eb2]> bc1) dc1 (<[k1 := l1 ++ [el]]> ls1) t2 → concat ls1 ≡ₚ l →
  ls1 !! k1 = Some l1 → bc1 !! k1 = Some (Some eb1) → tight_bins m0 bc1 ls1 →
  els_bound (hb eb2) = els_bound (hb eb1) + 1 → depth eb2 = depth eb1 →
  (max_depth t2 = max_depth t ∨ max_depth t2 = d + 1 ∧ Z.of_nat (length lk) = 2 ^ 14) →
  Z.of_nat (length ls1) ≤ 2 ^ 18 + Z.of_nat (length l) + 1 →
  Z.of_nat (length bc1) ≤ 2 ^ 20 + 4 * (Z.of_nat (length l) + 1) →
  tight m0 t2 (l ++ [el]) (<[k1 := Some eb2]> bc1) dc1 (<[k1 := l1 ++ [el]]> ls1).
Proof.
  intros Hok Hp Hl1 Hb1 Htb Hbd Hde Hmd Hls Hbc. pose proof (lookup_lt_Some _ _ _ Hb1).
  destruct (Htb k1 l1 eb1 Hl1 Hb1) as (Hbd1 & d1 & Hde1 & Hd1).
  split; rewrite ?length_insert, ?length_app; cbn [length]; try done; try lia; try apply Ht.
  - by rewrite (insert_concat ls1 k1 l1 el Hl1), Hp.
  - apply tight_bins_insert; [done|done|rewrite length_app; cbn; lia|]. exists d1. split; [congruence|done].
  - destruct Hmd as [->|[-> Hfull]].
    + destruct (ti_depth Ht) as [?|(h & Hh)]; [by left|]. right. exists h. rewrite class_size_app.
      unfold class_size at 2. lia.
    + right. exists (xhash Hash el). rewrite Z.add_simpl_r, class_size_app, (kb_size Hkb), Hfull.
      rewrite class_size_all; [cbn; lia|]. by intros e ->%list_elem_of_singleton.
Qed.

(** INSERT of a new key, without and with a split. *)
Definition added : Prop :=
  ∃ slot t1 t2 bc2 dc2 ls2, ixht_perform Hash Eq t el INSERT = Ok (false, Some slot, t1) ∧
    ixht_write t1 slot el = Ok t2 ∧ tight m0 t2 (l ++ [el]) bc2 dc2 ls2.

Lemma tight_insert_plain : lookup_key Eq el l = None → no_split t ng (hb eb) → added.
Proof.
  intros Hno Hns. destruct Ht as [Hok Hp Htb Hmd Hls Hbc Hm0]. pose proof (kb_bound Hkb) as Hb0.
  pose proof (lookup_lt_Some _ _ _ (kb_bin Hkb)) as Hlt.
  destruct (ixht_make_room_Ok Hash Eq bc dc ls t k lk eb ng (xhash Hash el))
    as (t1 & eb1 & ng1 & Hmk & Hok1 & Hr1 & Hroom & Hnum & Hmd1 & Hde1 & Hbd1); [done|apply Hkb..|done|].
  destruct (ixht_room_new Hash Eq t el (Z.of_nat k) t1 (<[k := Some eb1]> bc) dc ls k lk eb1 ng1)
    as (slot & t' & E & _ & Hw); [apply Hkb|done..|apply Hkb|by apply list_lookup_insert_eq|done|done| |done|apply Hns| |].
  { rewrite Hmd1. apply Hkb. }
  { rewrite <-(lookup_key_bin Hash Eq bc dc ls t el k lk) by (done || apply Hkb).
    by rewrite (lookup_key_perm Hash Eq (concat ls) l) by (done || by eapply (ixht_uniq Hash Eq)). }
  destruct (Hw el) as (t2 & eb2 & Ew & Hok2 & Hbd2 & Hmd2 & Hde2); [apply (key_refl (Hash := Hash))|].
  eexists slot, t', t2, _, _, _. split; [exact E|]. split; [exact Ew|].
  eapply (tight_add t2 _ dc ls k lk eb1); try done; [apply Hkb|by apply list_lookup_insert_eq| | | |].
  - rewrite <-(list_insert_id ls k lk) by apply Hkb. apply tight_bins_insert; [done|done|by apply Hbd1|].
    exists d. rewrite Hde1. split; [apply Hkb|]. apply Hkb.
  - left. congruence.
  - lia.
  - rewrite length_insert. lia.
Qed.

Lemma tight_insert_split : lookup_key Eq el l = None → ¬ no_split t ng (hb eb) → added.
Proof.
  intros Hno Hsp. destruct (tight_full Hsp) as (Eng & Hfull & Hge). pose proof (tight_splittable Hfull) as Hspl.
  pose proof tight_num as Hn. destruct Ht as [Hok Hp Htb Hmd Hls Hbc Hm0]. pose proof (kb_rep Hkb) as Hr.
  rewrite Eng in Hr.
  destruct (ixht_split_room Hash Eq bc dc ls t el k lk eb d) as
    (t1 & bc1 & dc1 & k1 & l1 & eb1 & ng1 & Hmk & Hok1 & Hl1 & Hb1 & Hr1 & Hroom & Hd1 & Hn1 & Hmd1 & Hro & Hrn & Hoth & Hcap);
    [done|lia|apply Hkb..|done|apply Hkb|by rewrite (kb_bound Hkb)|lia|apply Hkb|done|].
  assert (concat (split_parts Hash ls k d lk) ≡ₚ l) as Hp1 by (rewrite <-Hp; apply split_perm, Hkb).
  destruct (ixht_room_new Hash Eq t el (Z.of_nat k) t1 bc1 dc1 (split_parts Hash ls k d lk) k1 l1 eb1 ng1)
    as (slot & t' & E & _ & Hw); [apply Hkb|done..|lia| |].
  { rewrite <-(lookup_key_bin Hash Eq bc1 dc1 (split_parts Hash ls k d lk) t1 el k1 l1) by done.
    by rewrite (lookup_key_perm Hash Eq (concat (split_parts Hash ls k d lk)) l)
      by (done || by eapply (ixht_uniq Hash Eq)). }
  destruct (Hw el) as (t2 & eb2 & Ew & Hok2 & Hbd2 & Hmd2 & Hde2); [apply (key_refl (Hash := Hash))|].
  eexists slot, t', t2, _, _, _. split; [exact E|]. split; [exact Ew|].
  eapply (tight_add t2 bc1 dc1 _ k1 l1 eb1); try done.
  - eapply tight_bins_split; [done|apply Hkb|apply Hkb|done..].
  - right. split; [congruence|done].
  - unfold split_parts. rewrite length_app, length_insert. cbn. lia.
  - lia.
Qed.

Lemma tight_split_safe : split_safe Hash t el.
Proof.
  intros k' eb' d' Hd' Hg' Hde' Es. destruct Ht as [Hok Hp Htb Hmd Hls Hbc Hm0].
  rewrite (kb_dir Hkb) in Hd'. injection Hd' as <-.
  assert (arr_get (bins t) (Z.of_nat k) = Ok eb) as Hg by (rewrite (xo_bins Hok); by apply live_get, Hkb).
  rewrite Hg in Hg'. injection Hg' as <-. rewrite (kb_depth Hkb) in Hde'. injection Hde' as <-.
  pose proof tight_num as Hn. destruct (ixht_splits_Ok Hash Eq t el k eb ng lk) as (s & Es' & Hns);
    [apply Hkb|done|apply Hkb|lia|]. rewrite Es in Es'. injection Es' as <-.
  destruct tight_full as (_ & Hfull & _); [by intros ?%Hns|]. split; [rewrite (xo_cap Hok); lia|].
  destruct (tight_splittable Hfull) as (Hm & Hd30 & H0 & H1). split_and!; [done|done|..].
  all: pose proof (kb_rep Hkb) as Hr.
  - destruct (with_bit Hash d false lk) as [|e0 w] eqn:Ew; [done|]. exists e0.
    assert (e0 ∈ with_bit Hash d false lk) as [Hb He]%list_elem_of_filter by (rewrite Ew; left).
    split; [|done]. by eapply stored_elem.
  - destruct (with_bit Hash d true lk) as [|e1 w] eqn:Ew; [done|]. exists e1.
    assert (e1 ∈ with_bit Hash d true lk) as [Hb He]%list_elem_of_filter by (rewrite Ew; left).
    split; [|done]. by eapply stored_elem.
Qed.
End step.

Lemma tight_step m0 t l bc dc ls el :
  tight m0 t l bc dc ls → spread_step l el → Z.of_nat (length l) < 2 ^ 27 → lookup_key Eq el l = None →
  split_safe Hash t el ∧ added m0 t l el.
Proof.
  intros Ht Hs Hl Hno. destruct (key_bin_ex m0 t l bc dc ls el Ht) as (k & lk & eb & ng & d & m & Hkb).
  split; [by eapply tight_split_safe|].
  destruct (decide (els_bound (hb eb) = 4 * ng ∧ 2 ^ 12 ≤ ng ∧ 4 * ng ≤ els_num t)) as [Hd|Hd].
  - eapply tight_insert_split; try done. unfold no_split. lia.
  - eapply tight_insert_plain; try done. pose proof (tight_num m0 t l bc dc ls Ht). unfold no_split. lia.
Qed.

(** A created table is tight. *)
Lemma ixht_create_tight min_size :
  0 ≤ min_size ≤ 2 ^ 31 →
  ∃ t m0 bc dc ls, ixht_create min_size = Ok t ∧ tight m0 t [] bc dc ls.
Proof.
  intros Hmin. destruct (ixht_create_bins Hash Eq min_size Hmin) as (t & bc & dc & p & ng & E & Hp & Hc & _).
  exists t, p, bc, dc, (replicate (Z.to_nat (2 ^ p)) []). split; [done|].
  pose proof (creating_ok Hash Eq p ng bc dc t Hp Hc) as Hok. destruct Hc as [-> Hfit _ _ Hb].
  assert (0 < 2 ^ p ≤ 2 ^ 17) by (split; [apply Z.pow_pos_nonneg|apply Z.pow_le_mono_r]; lia).
  split; cbn [max_depth length]; rewrite ?length_replicate; try done; try lia.
  - by rewrite concat_replicate_nil.
  - intros k l eb [-> Hk]%lookup_replicate Hbk. destruct (Hb k) as (eb' & Hk' & _ & Hde & _ & Hbd); [lia|].
    rewrite Hk' in Hbk. simplify_eq. split; [done|]. by exists p.
Qed.

(** ** Sequences of insertions *)

(** The write through the slot of a new key, as [ixht_insert] does it. *)
Lemma added_insert m0 t l el :
  added m0 t l el → ∃ t' bc dc ls, ixht_insert Hash Eq t el = Ok (false, t') ∧ tight m0 t' (l ++ [el]) bc dc ls.
Proof.
  intros (slot & t1 & t2 & bc & dc & ls & E & Ew & Ht). exists t2, bc, dc, ls. split; [|done].
  unfold ixht_insert. rewrite E. step_ok. by rewrite Ew.
Qed.

Lemma spread_run m0 els t l bc dc ls :
  tight m0 t l bc dc ls → spread l els → new_keys Eq l els → Z.of_nat (length l) + Z.of_nat (length els) ≤ 2 ^ 27 →
  safe_run Hash Eq (OpInsert <$> els) t ∧
  ∃ t' bc' dc' ls', run (I := ixht_table Hash Eq) (OpInsert <$> els) t =
      Ok (replicate (length els) (OutFlag false), t') ∧ tight m0 t' (l ++ els) bc' dc' ls'.
Proof.
  revert t l bc dc ls. induction els as [|el els IH]; intros t l bc dc ls Ht Hs Hnew Hlen.
  - split; [done|]. exists t, bc, dc, ls. by rewrite app_nil_r.
  - cbn [spread new_keys length] in *. destruct Hs as [Hs1 Hs2], Hnew as [Hn1 Hn2].
    destruct (tight_step m0 t l bc dc ls el) as [Hsafe Hadd]; [done..|lia|done|].
    destruct (added_insert m0 t l el Hadd) as (t1 & bc1 & dc1 & ls1 & E & Ht1).
    destruct (IH t1 (l ++ [el]) bc1 dc1 ls1) as (Hrun & t2 & bc2 & dc2 & ls2 & E2 & Ht2);
      [done..|rewrite length_app; cbn; lia|]. rewrite <-(assoc_L (++)) in Ht2. split.
    + cbn [fmap list_fmap safe_run]. split; [done|]. intros r t' E'. cbn [step tab_insert ixht_table] in E'.
      rewrite E in E'. rewrite ok_bind in E'. by injection E' as <- <-.
    + exists t2, bc2, dc2, ls2. split; [|done]. cbn [fmap list_fmap run step tab_insert ixht_table].
      rewrite E. repeat step_ok. cbn in E2. by rewrite E2.
Qed.

(** ** Insertions of new keys followed by other requests *)

Definition adds_no_key (o : op El) : bool :=
  match o with OpInsert _ | OpReplace _ => false | _ => true end.

Definition spread_requests (ops : list (op El)) : Prop :=
  ∃ els rest, ops = (OpInsert <$> els) ++ rest ∧ Z.of_nat (length els) ≤ 2 ^ 27 ∧
    new_keys Eq [] els ∧ spread [] els ∧ Forall adds_no_key rest.

Lemma safe_run_no_key ops t : Forall adds_no_key ops → safe_run Hash Eq ops t.
Proof.
  intros Hops. revert t. induction Hops as [|o ops Ho _ IH]; intros t; [done|].
  split; [by destruct o|auto].
Qed.

Lemma safe_run_app ops ops' rs t t' :
  safe_run Hash Eq ops t → run (I := ixht_table Hash Eq) ops t = Ok (rs, t') → safe_run Hash Eq ops' t' →
  safe_run Hash Eq (ops ++ ops') t.
Proof.
  revert rs t. induction ops as [|o ops IH]; intros rs t Hs Hr Hs'; cbn [run safe_run app] in *.
  - by injection Hr as _ <-.
  - destruct Hs as [Ho Hs]. split; [done|]. intros r t1 E. rewrite E, ok_bind in Hr.
    destruct (run ops t1) as [[rs1 t2]|?|] eqn:E1; [|done..]. rewrite ok_bind in Hr. injection Hr as _ ->. eauto.
Qed.

Lemma spread_requests_safe m0 ops t bc dc ls :
  tight m0 t [] bc dc ls → spread_requests ops → safe_run Hash Eq ops t.
Proof.
  intros Ht (els & rest & -> & Hlen & Hnew & Hs & Hrest).
  destruct (spread_run m0 els t [] bc dc ls Ht Hs Hnew) as (Hsafe & t' & bc' & dc' & ls' & Er & _); [done|].
  eapply safe_run_app; [done..|]. by apply safe_run_no_key.
Qed.

Lemma tight_rep m0 t l bc dc ls : tight m0 t l bc dc ls → ixht_rep Hash Eq t l.
Proof. intros Ht. exists bc, dc, ls. split; apply Ht. Qed.
End spread.

(** ** Hashes of other data *)

Section same_hashes.
Context {A B : Type} (H1 : A → Z) (H2 : B → Z).
Abbreviation same := (Forall2 (λ a b, H1 a = H2 b)).

Lemma same_class_size d h (l : list A) (l' : list B) : same l l' → class_size H1 d h l = class_size H2 d h l'.
Proof.
  unfold class_size, hash_class. induction 1 as [|a b l l' E _ IH]; [done|].
  assert (xhash H1 a = xhash H2 b) as Ex by (unfold xhash; by rewrite E).
  rewrite !filter_cons, Ex. case_decide; cbn [length]; lia.
Qed.

(** Lists of the same hashes are spread alike. *)
Lemma same_spread (l : list A) (l' : list B) els els' : same l l' → same els els' → spread H2 l' els' → spread H1 l els.
Proof.
  intros Hl Hels. revert l l' Hl. induction Hels as [|a b els els' E _ IH]; intros l l' Hl; cbn [spread]; [done|].
  intros [Hs Hr]. split; [|by eapply IH; [|exact Hr]; apply Forall2_app; [|repeat constructor]].
  intros d Hd. assert (xhash H1 a = xhash H2 b) as -> by (unfold xhash; by rewrite E).
  rewrite (same_class_size d _ l l' Hl). intros Hfull. destruct (Hs d Hd Hfull) as [Hd30 Hsub].
  split; [done|]. intros h. by rewrite (same_class_size (d + 1) h l l' Hl).
Qed.
End same_hashes.

(** Up to 2^15 elements are spread if fewer than 2^14 of them have an even
    hash and fewer than 2^14 an odd one. *)
Lemma spread_halves {A} (H : A → Z) (els : list A) :
  Z.of_nat (length els) ≤ 2 ^ 15 → (∀ h, class_size H 1 h els < 2 ^ 14) → spread H [] els.
Proof.
  intros Hlen Hhalf. enough (∀ l r, els = l ++ r → spread H l r) as Hall by (by apply Hall).
  intros l r. revert l. induction r as [|e r IH]; intros l E; cbn [spread]; [done|].
  split; [|apply IH; by rewrite E, <-(assoc_L (++))].
  assert (∀ h, class_size H 1 h l < 2 ^ 14) as Hl.
  { intros h. specialize (Hhalf h). rewrite E, class_size_app in Hhalf.
    unfold class_size at 2 in Hhalf. lia. }
  intros d Hd Hfull. destruct (decide (d = 0)) as [->|Hne]; [by split; [lia|]|exfalso].
  pose proof (class_size_mono H 1 d (xhash H e) l ltac:(lia)). specialize (Hl (xhash H e)). lia.
Qed.
