(* ===== verification/EntrySpread.v ===== *)
(** The hash of the test program's entries spreads consecutive keys: the
    multiplier is odd, so the keys of a class of [d] hash bits are [2 ^ d]
    apart, and consecutive keys fill the classes of the same depth evenly. *)

From S2P Require Import Prelude Probe Spec Store Core Ixhtab IxhtabSpread Entry.

(** * Counting residues *)

Definition residues (M r n : Z) : Z := Z.of_nat (length (filter (λ i, i mod M = r) (seqZ 0 n))).

Lemma div_step M r n :
  0 < M → 0 ≤ r < M → (n + 1 + M - 1 - r) / M = (n + M - 1 - r) / M + if decide (n mod M = r) then 1 else 0.
Proof.
  intros HM Hr. pose proof (Z.div_mod n M ltac:(lia)) as En. pose proof (Z.mod_pos_bound n M HM) as Hb.
  set (q := n / M) in *. set (s := n mod M) in *. case_decide as Hd.
  - rewrite <-(Z.div_unique (n + 1 + M - 1 - r) M (q + 1) 0), <-(Z.div_unique (n + M - 1 - r) M q (M - 1)); lia.
  - destruct (decide (s < r)).
    + rewrite <-(Z.div_unique (n + 1 + M - 1 - r) M q (M + s - r)), <-(Z.div_unique (n + M - 1 - r) M q (M - 1 + s - r)); lia.
    + rewrite <-(Z.div_unique (n + 1 + M - 1 - r) M (q + 1) (s - r)), <-(Z.div_unique (n + M - 1 - r) M (q + 1) (s - r - 1)); lia.
Qed.

Lemma residues_eq M r n : 0 < M → 0 ≤ r < M → 0 ≤ n → residues M r n = (n + M - 1 - r) / M.
Proof.
  intros HM Hr. revert n. apply natlike_ind.
  - unfold residues. rewrite seqZ_nil by lia. cbn. rewrite Z.div_small; lia.
  - intros n Hn IH. unfold residues in *. change (Z.succ n) with (n + 1). rewrite seqZ_snoc, Z.add_0_l by done.
    rewrite list.filter_app, length_app, Nat2Z.inj_add, IH, div_step by done. f_equal.
    cbn. by case_decide.
Qed.

Lemma residues_range M r n : 0 < M → 0 ≤ r < M → 0 ≤ n → n / M ≤ residues M r n ≤ n / M + 1.
Proof.
  intros HM Hr Hn. rewrite residues_eq by done. split.
  - apply Z.div_le_mono; lia.
  - rewrite <-Z.div_add by lia. apply Z.div_le_mono; lia.
Qed.

(** * The classes of the entries *)

(** The inverse of the multiplier modulo [2 ^ 64]. *)
Definition hash_inv : Z := 0xF1DE83E19937733D.

Lemma hash_inv_ok : (0x9E3779B97F4A7C15 * hash_inv) mod 2 ^ 64 = 1.
Proof. reflexivity. Qed.

Lemma mul_cancel M C I x h :
  0 < M → (C * I) mod M = 1 mod M → (x * C) mod M = h mod M ↔ x mod M = (h * I) mod M.
Proof.
  intros HM HCI. assert (∀ y, (y * (C * I)) mod M = y mod M) as Hone.
  { intros y. rewrite <-Z.mul_mod_idemp_r, HCI, Z.mul_mod_idemp_r, Z.mul_1_r by lia. done. }
  split; intros E.
  - by rewrite <-(Hone x), Z.mul_assoc, <-Z.mul_mod_idemp_l, E, Z.mul_mod_idemp_l by lia.
  - rewrite <-(Z.mul_mod_idemp_l x), E, Z.mul_mod_idemp_l by lia.
    by rewrite <-(Hone h), <-Z.mul_assoc, (Z.mul_comm I).
Qed.

Section entries.
Context (mk : Z → entry) (Hmk : ∀ i, 0 ≤ i < 2 ^ 32 → key (mk i) = i).

Lemma hash_inv_pow2 d : 0 ≤ d ≤ 64 → (0x9E3779B97F4A7C15 * hash_inv) mod 2 ^ d = 1 mod 2 ^ d.
Proof. intros Hd. by rewrite <-(mod_pow2_mod _ 64), hash_inv_ok by lia. Qed.

Lemma entry_class i d h :
  0 < i < 2 ^ 32 → 0 ≤ d ≤ 64 →
  xhash entry_hash (mk i) mod 2 ^ d = h mod 2 ^ d ↔ i mod 2 ^ d = (h * hash_inv) mod 2 ^ d.
Proof.
  intros Hi Hd. assert (0 < 2 ^ d) by (apply Z.pow_pos_nonneg; lia).
  rewrite <-mul_cancel by (done || by apply hash_inv_pow2).
  unfold xhash, entry_hash, u64. rewrite Hmk by lia. destruct (Z.eqb_spec ((i * 0x9E3779B97F4A7C15) mod 2 ^ 64) 0) as [E|_].
  - exfalso. apply (mul_cancel (2 ^ 64) 0x9E3779B97F4A7C15 hash_inv i 0) in E; [|done..].
    rewrite Z.mul_0_l, Z.mod_0_l, Z.mod_small in E by lia. lia.
  - by rewrite mod_pow2_mod by lia.
Qed.

(** Key 0, whose hash is replaced by 1, makes a difference of at most one. *)
Lemma class_size_residues d h r n :
  0 ≤ d ≤ 64 → r = (h * hash_inv) mod 2 ^ d → 0 ≤ n < 2 ^ 32 →
  class_size entry_hash d h (mk <$> seqZ 0 (n + 1)) - residues (2 ^ d) r (n + 1) =
  class_size entry_hash d h [mk 0] - residues (2 ^ d) r 1.
Proof.
  intros Hd -> [Hn Hlt]. revert Hlt. pattern n. revert n Hn. apply natlike_ind; [done|].
  intros n Hn IH Hlt. specialize (IH ltac:(lia)). change (Z.succ n) with (n + 1).
  unfold residues in *. rewrite (seqZ_snoc 0 (n + 1)), Z.add_0_l, fmap_app, class_size_app by lia.
  rewrite list.filter_app, length_app, Nat2Z.inj_add.
  enough (class_size entry_hash d h (mk <$> [n + 1]) =
    Z.of_nat (length (filter (λ i, i mod 2 ^ d = (h * hash_inv) mod 2 ^ d) [n + 1]))) by lia.
  unfold class_size, hash_class. cbn. pose proof (entry_class (n + 1) d h ltac:(lia) Hd).
  case_decide; case_decide; cbn; tauto.
Qed.

Lemma class_size_entries d h n :
  0 ≤ d ≤ 64 → 0 ≤ n ≤ 2 ^ 32 →
  n / 2 ^ d - 1 ≤ class_size entry_hash d h (mk <$> seqZ 0 n) ≤ n / 2 ^ d + 2.
Proof.
  intros Hd Hn. assert (0 < 2 ^ d) as HM by (apply Z.pow_pos_nonneg; lia).
  destruct (decide (n = 0)) as [->|]; [rewrite Z.div_0_l by lia; done|].
  set (r := (h * hash_inv) mod 2 ^ d). assert (0 ≤ r < 2 ^ d) as Hr by (by apply Z.mod_pos_bound).
  pose proof (residues_range (2 ^ d) r n HM Hr ltac:(lia)) as Hres.
  pose proof (class_size_residues d h r (n - 1) Hd eq_refl ltac:(lia)) as E. rewrite Z.sub_add in E.
  assert (0 ≤ residues (2 ^ d) r 1 ≤ 1).
  { unfold residues. change (seqZ 0 1) with [0]. cbn. case_decide; cbn; lia. }
  assert (0 ≤ class_size entry_hash d h [mk 0] ≤ 1).
  { unfold class_size, hash_class. cbn. case_decide; cbn; lia. }
  lia.
Qed.

(** The next entry is in a class that is full only if no smaller class is. *)
Lemma entries_spread_step n : 0 ≤ n ≤ 2 ^ 32 → spread_step entry_hash (mk <$> seqZ 0 n) (mk n).
Proof.
  intros Hn d Hd Hfull. assert (d ≤ 30) as Hd30.
  { destruct (decide (d ≤ 30)); [done|exfalso].
    pose proof (class_size_mono entry_hash 31 d (xhash entry_hash (mk n)) (mk <$> seqZ 0 n) ltac:(lia)).
    pose proof (class_size_entries 31 (xhash entry_hash (mk n)) n ltac:(lia) Hn) as [_ Hub].
    assert (n / 2 ^ 31 ≤ 2 ^ 32 / 2 ^ 31) by (apply Z.div_le_mono; lia). change (2 ^ 32 / 2 ^ 31) with 2 in *. lia. }
  split; [done|]. intros h.
  pose proof (class_size_entries d (xhash entry_hash (mk n)) n ltac:(lia) Hn) as [Hlb _].
  pose proof (class_size_entries (d + 1) h n ltac:(lia) Hn) as [_ Hub].
  assert (n / 2 ^ (d + 1) = n / 2 ^ d / 2) as E by (rewrite Z.pow_add_r, <-Z.div_div by lia; done).
  rewrite E in Hub. rewrite Hfull in Hlb. dlia.
Qed.

(** Consecutive keys are new and spread. *)
Lemma entries_from n m :
  0 ≤ n → 0 ≤ m → n + m ≤ 2 ^ 32 →
  spread entry_hash (mk <$> seqZ 0 n) (mk <$> seqZ n m) ∧ new_keys entry_eq (mk <$> seqZ 0 n) (mk <$> seqZ n m).
Proof.
  intros Hn Hm. revert n Hn. pattern m. revert m Hm. apply natlike_ind; [done|].
  intros m Hm IH n Hn Hle. rewrite (seqZ_cons n) by lia. replace (Z.pred (Z.succ m)) with m by lia.
  cbn [fmap list_fmap spread new_keys]. cbv beta in IH. specialize (IH (Z.succ n) ltac:(lia) ltac:(lia)).
  change (Z.succ n) with (n + 1) in IH at 1 3. rewrite seqZ_snoc, Z.add_0_l, fmap_app in IH by lia.
  destruct IH as [IH1 IH2]. split; split; try done; [apply entries_spread_step; lia|].
  apply lookup_key_None. intros e (i & -> & Hi%elem_of_seqZ)%list_elem_of_fmap. unfold entry_eq.
  rewrite !Hmk by lia. apply Z.eqb_neq. lia.
Qed.

Lemma entries_spread n : 0 ≤ n ≤ 2 ^ 32 → spread entry_hash [] (mk <$> seqZ 0 n) ∧ new_keys entry_eq [] (mk <$> seqZ 0 n).
Proof. intros Hn. apply (entries_from 0 n); lia. Qed.
End entries.
