(* ===== verification/IxhtabProps.v ===== *)
(** The properties of ixhtab.h, each with an instance on concrete tables of
    the test program's entries. *)

From S2P Require Import Prelude Bits Groups Probe Spec Store Core Ixhtab IxGroups IxhtabCorrect IxhtabSplit IxhtabRun IxhtabSpread Entry EntrySpread.

(** * The size loop of creation *)

(** Above 2^31 the doubled size wraps around to 0 before it is reached. *)
Lemma ixht_create_size_wraps fuel s min_size :
  2 ^ 31 < min_size → (s = 0 ∨ ∃ k, 0 ≤ k ≤ 31 ∧ s = 2 ^ k) →
  ixht_create_size fuel s min_size = Timeout.
Proof.
  intros Hmin. revert s. induction fuel as [|fuel IH]; intros s Hs; [done|].
  assert (0 ≤ s ≤ 2 ^ 31) as Hr.
  { destruct Hs as [->|(k & Hk & ->)]; [lia|].
    split; [by apply Z.pow_nonneg|]. apply Z.pow_le_mono_r; lia. }
  cbn [ixht_create_size]. destruct (Z.ltb_spec s min_size) as [_|Hge]; [|lia]. apply IH.
  destruct Hs as [->|(k & Hk & ->)]; [by left|].
  destruct (decide (k = 31)) as [->|]; [by left|]. right. exists (k + 1). split; [lia|].
  rewrite Z.mul_comm, <-Z.pow_succ_r by lia. unfold u32. rewrite Z.mod_small; [by rewrite Z.add_1_r|].
  split; [by apply Z.pow_nonneg|]. apply Z.pow_lt_mono_r; lia.
Qed.

Section properties.
Context {K : SlotStore} {V : SlotView K} `{!SlotLaws ixht_config K V}.
Context {El : Type} (Hash : El → Z) (Eq : El → El → bool) `{!KeyLaws Hash Eq}.
Implicit Types (t : ixht slots El) (el e : El) (l : list El) (ls : list (list El)).

(** Bin [k] of a well-formed table with the contents [ls]: its elements are
    [l] and its depth is [d]. *)
Definition bin_of t ls (k : nat) l (d : Z) (eb : ebin slots El) : Prop :=
  ∃ bc dc ng, ixht_ok Hash Eq bc dc ls t ∧ ls !! k = Some l ∧ bc !! k = Some (Some eb) ∧
    ebin_rep Hash Eq ng eb l ∧ depth eb = Some d.

(** A bin with 2^14 used entries has the largest size. *)
Lemma full_bin_of t ls k l d eb :
  bin_of t ls k l d eb → els_bound (hb eb) = 2 ^ 14 →
  ∃ bc dc, ixht_ok Hash Eq bc dc ls t ∧ ls !! k = Some l ∧ bc !! k = Some (Some eb) ∧
    ebin_rep Hash Eq (2 ^ 12) eb l ∧ depth eb = Some d.
Proof.
  intros (bc & dc & ng & Hok & Hk & Hb & Hr & Hd) Hfull. pose proof Hr as (_ & Hbr & Hng).
  destruct (ebin_facts Hash Eq _ _ _ Hbr) as (_ & _ & Hle & _). assert (ng = 2 ^ 12) as -> by lia.
  by exists bc, dc.
Qed.

Lemma bin_of_bins bc dc ls t k l d : 
  ixht_ok Hash Eq bc dc ls t → ls !! k = Some l → roomy Hash Eq bc k d l → ∃ eb, bin_of t ls k l d eb.
Proof. intros Hok Hk (eb & ng & Hb & Hr & _ & Hd & _). exists eb, bc, dc, ng. by split_and!. Qed.

(** C2: A table created for any minimal size up to 2^31 and then used by up to
    2^31 find, insert, replace, delete, count and iteration requests, of which
    no insertion splits a bin that is more than one level above the directory
    or whose elements agree on the bit it is split by, answers every request
    as the list specification does (iteration up to the order of the
    elements), without an undefined memory access and without looping, and
    ends in a well-formed table for the specified contents. Up to 2^14
    requests never make such a split. *)
Theorem ixht_refines_spec min_size (ops : list (op El)) :
  0 ≤ min_size ≤ 2 ^ 31 → Z.of_nat (length ops) ≤ 2 ^ 31 →
  ∃ t, ixht_create min_size = Ok t ∧
    (safe_run Hash Eq ops t → ∃ t' rs,
       run (I := ixht_table Hash Eq) ops t = Ok (rs, t') ∧
       Forall2 (out_rel Permutation) rs (spec_run Eq ops []).1 ∧
       ixht_rep Hash Eq t' (spec_run Eq ops []).2) ∧
    (Z.of_nat (length ops) ≤ 2 ^ 14 → safe_run Hash Eq ops t).
Proof.
  intros Hmin Hops. destruct (ixht_create_Ok Hash Eq min_size Hmin) as (t & n & ng & E & Ht & _).
  exists t. split; [done|]. split.
  - intros Hs. destruct (run_safe Hash Eq ops t [] Ht) as (rs & t' & H); [cbn; lia|done|]. by exists t', rs.
  - intros Hsmall. apply (safe_run_small Hash Eq ops t [] Ht). cbn; lia.
Qed.

(** C3: Insertion of up to 2^27 new keys into a created table, with all the
    splits it needs, if the hashes are spread: whenever the elements whose
    hashes agree with the next key in some number of low bits are enough to
    fill a bin, the elements that agree in one more bit are not.  Every
    request reports a new key and the table ends up holding all elements. *)
Theorem ixht_spread_inserts min_size (els : list El) :
  0 ≤ min_size ≤ 2 ^ 31 → Z.of_nat (length els) ≤ 2 ^ 27 → new_keys Eq [] els → spread Hash [] els →
  ∃ t t', ixht_create min_size = Ok t ∧ safe_run Hash Eq (OpInsert <$> els) t ∧
    run (I := ixht_table Hash Eq) (OpInsert <$> els) t = Ok (replicate (length els) (OutFlag false), t') ∧
    ixht_rep Hash Eq t' els.
Proof.
  intros Hmin Hlen Hnew Hs. destruct (ixht_create_tight Hash Eq min_size Hmin) as (t & m0 & bc & dc & ls & E & Ht).
  destruct (spread_run Hash Eq m0 els t [] bc dc ls Ht Hs Hnew) as (Hsafe & t' & bc' & dc' & ls' & Er & Ht'); [done|].
  exists t, t'. split_and!; try done. exists bc', dc', ls'. split; apply Ht'.
Qed.

(** C10: INSERT into a table of fewer than 2^31 elements, with or without the
    rebuild of a full bin or its split, as long as a split finds a bin of
    depth at most 30, at most one level above the directory, with elements on
    both sides of the next hash bit, in an array with a capacity of fewer than
    2^30 bins: a key that is present is found, and its slot can be overwritten in
    place; for a key that is absent the count is one higher and writing an
    element of the key to the slot adds it to the contents. *)
Theorem ixht_perform_insert_spec t l el :
  ixht_rep Hash Eq t l → Z.of_nat (length l) < 2 ^ 31 → split_safe Hash t el → insert_outcome Hash Eq t el l.
Proof. exact (ixht_insert_safe Hash Eq t l el). Qed.

(** A split that the split theorem covers is safe. *)
Lemma bin_of_safe t ls k l d eb el :
  bin_of t ls k l d eb → bins_capacity t < 2 ^ 30 → splittable Hash t d l →
  arr_get (dir t) (Z.land (xhash Hash el) (bin_mask t)) = Ok (Z.of_nat k) → split_safe Hash t el.
Proof.
  intros (bc & dc & ng & Hok & Hk & Hb & Hr & Hd) Hcap (Hm & Hd30 & H0 & H1) Hdir k' eb' d' Hdir' Hb' Hd' _.
  rewrite Hdir in Hdir'. injection Hdir' as <-. rewrite (xo_bins Hok), (live_get _ _ _ Hb) in Hb'.
  injection Hb' as <-. rewrite Hd in Hd'. injection Hd' as <-. split; [done|]. split_and!; [done|done|..].
  - destruct (with_bit Hash d false l) as [|e l'] eqn:Ew; [done|].
    assert (e ∈ with_bit Hash d false l) as [Hbit He]%list_elem_of_filter by (rewrite Ew; left).
    exists e. by rewrite (stored_elem Hash Eq ng eb l).
  - destruct (with_bit Hash d true l) as [|e l'] eqn:Ew; [done|].
    assert (e ∈ with_bit Hash d true l) as [Hbit He]%list_elem_of_filter by (rewrite Ew; left).
    exists e. by rewrite (stored_elem Hash Eq ng eb l).
Qed.

(** C11: Splitting a bin of depth [d] at least the directory's less one, whose
    elements differ in hash bit [d], returns and keeps the table well-formed:
    the elements without the bit stay in the bin, in order, the others make up
    the new bin, both bins have room, and the directory has depth [d + 1]. *)
Theorem ixht_split_bin_spec t ls k l d eb :
  bin_of t ls k l d eb → bins_capacity t < 2 ^ 30 → splittable Hash t d l →
  ∃ t' eb1 eb2, ixht_split_bin Hash Eq t (Z.of_nat k) = Ok t' ∧
    bin_of t' (split_parts Hash ls k d l) k (with_bit Hash d false l) (d + 1) eb1 ∧
    bin_of t' (split_parts Hash ls k d l) (length ls) (with_bit Hash d true l) (d + 1) eb2 ∧
    ixht_rep Hash Eq t' (concat ls) ∧ max_depth t' = d + 1 ∧ els_num t' = els_num t.
Proof.
  intros (bc & dc & ng & Hok & Hk & Hb & Hr & Hd) Hcap Hsp. rewrite (xo_cap Hok) in Hcap.
  destruct (ixht_split_bin_Ok Hash Eq bc dc ls t k l eb ng d) as
    (t' & bc' & dc' & E & Hok' & Hn & Hmd & Hro & Hrn & _); [done..|].
  destruct (bin_of_bins bc' dc' _ t' k (with_bit Hash d false l) (d + 1) Hok') as [eb1 H1]; [|done|].
  { apply split_parts_lookup; auto. }
  destruct (bin_of_bins bc' dc' _ t' (length ls) (with_bit Hash d true l) (d + 1) Hok') as [eb2 H2]; [|done|].
  { apply split_parts_lookup; auto. }
  exists t', eb1, eb2. split_and!; try done. exists bc', dc', (split_parts Hash ls k d l).
  split; [done|]. by apply split_perm.
Qed.

(** C12: FIND returns true with the address of the stored element when an equal
    element is in the table and false otherwise; it changes nothing. *)
Theorem ixht_perform_find_spec t l el :
  ixht_rep Hash Eq t l →
  match lookup_key Eq el l with
  | Some e => ∃ slot, ixht_perform Hash Eq t el FIND = Ok (true, Some slot, t) ∧ ixht_read t slot = Ok e
  | None => ixht_perform Hash Eq t el FIND = Ok (false, None, t)
  end.
Proof. exact (ixht_perform_find_rep Hash Eq t l el). Qed.

(** C13: DELETE returns whether the key was present; it removes exactly that
    element and stores nothing through [res]. *)
Theorem ixht_perform_delete_spec t l el :
  ixht_rep Hash Eq t l →
  match lookup_key Eq el l with
  | Some _ => ∃ t', ixht_perform Hash Eq t el DELETE = Ok (true, None, t') ∧
      ixht_rep Hash Eq t' (remove_key Eq el l)
  | None => ixht_perform Hash Eq t el DELETE = Ok (false, None, t)
  end.
Proof. exact (ixht_perform_delete_rep Hash Eq t l el). Qed.

(** C31: Creation for a minimal size up to 2^31 gives an empty table whose
    bins, all of the same size, have room for at least that many elements; its
    size loop ends for these sizes and for no larger one: there the doubled
    size wraps around to 0. *)
Theorem ixht_creation min_size :
  0 ≤ min_size < 2 ^ 32 →
  (min_size ≤ 2 ^ 31 → ∃ t n ng, ixht_create min_size = Ok t ∧ ixht_rep Hash Eq t [] ∧
     room t n ng ∧ min_size ≤ n * (4 * ng)) ∧
  (min_size ≤ 2 ^ 31 → ∃ s, ixht_create_size 33 2 min_size = Ok s) ∧
  (2 ^ 31 < min_size → ∀ fuel, ixht_create_size fuel 2 min_size = Timeout).
Proof.
  intros Hmin. split_and!.
  - intros Hle. apply (ixht_create_Ok Hash Eq min_size). lia.
  - intros Hle. destruct (ixht_create_size_Ok 30 1 min_size) as (k & _ & _ & _ & E); [lia..|].
    exists (2 ^ k). apply (E 33%nat). lia.
  - intros Hgt fuel. apply ixht_create_size_wraps; [done|]. right. by exists 1.
Qed.

(** C33: Destruction frees the blocks of every bin, then the array of
    bins and the directory, each exactly once; a second destruction is a use
    after free. *)
Theorem ixht_destroy_frees t l :
  ixht_rep Hash Eq t l →
  ∃ bc t', ixht_destroy_bins t = Ok (Live bc) ∧
    (∀ k, 0 ≤ k < bins_num t → ∃ eb, arr_get (Live bc) k = Ok eb ∧ freed eb) ∧
    ixht_destroy t = Ok t' ∧ bins t' = Freed ∧ dir t' = Freed ∧ ixht_destroy t' = UB UseAfterFree.
Proof.
  intros (bc & dc & ls & Hok & _). destruct (ixht_destroy_bins_Ok Hash Eq bc dc ls t Hok) as (bc' & E & Hf).
  pose proof (xo_bins_num Hok) as Hn. exists bc'. assert (∃ t', ixht_destroy t = Ok t' ∧
    t' = mk_ixht (els_num t) (max_depth t) (bin_mask t) Freed (dir_capacity t) Freed (bins_num t) (bins_capacity t))
    as (t' & Et & ->).
  { unfold ixht_destroy. rewrite E, (xo_dir Hok). eauto. }
  eexists. split_and!; try done.
  - intros k Hk. destruct (Hf (Z.to_nat k)) as (eb & He & Hfr); [lia|]. exists eb. split; [|done].
    rewrite <-(Z2Nat.id k) by lia. by apply live_get.
  - unfold ixht_destroy, ixht_destroy_bins. cbn [bins bins_num]. rewrite Hn. unfold for_res.
    destruct (xo_dir_ok Hok 0) as (k & _ & Hk).
    { pose proof (xo_depth Hok). split; [done|]. apply Z.pow_pos_nonneg; lia. }
    rewrite Z.sub_0_r, seqZ_cons by lia. done.
Qed.

(** C23: Splitting a bin whose depth is two or more below the directory's
    loses elements: an element that moves to the new bin is found before the
    split, and not after it, unless its directory entry is the one entry that
    the split redirects. *)
Theorem ixht_split_loses_elements t ls k l d eb e :
  bin_of t ls k l d eb → bins_capacity t < 2 ^ 30 → d ≤ 30 → d + 1 < max_depth t →
  with_bit Hash d false l ≠ [] → e ∈ with_bit Hash d true l →
  xhash Hash e mod 2 ^ max_depth t ≠ xhash Hash e mod 2 ^ (d + 1) →
  ixht_find Hash Eq t e = Ok (Some e) ∧
  ∃ t', ixht_split_bin Hash Eq t (Z.of_nat k) = Ok t' ∧ ixht_find Hash Eq t' e = Ok None.
Proof.
  intros (bc & dc & ng & Hok & Hk & Hb & Hr & Hd) Hcap Hd30 Hmax Hlo Hin Hne.
  rewrite (xo_cap Hok) in Hcap. split.
  - rewrite (ixht_find_rep Hash Eq t (concat ls)) by (by exists bc, dc, ls). f_equal.
    apply (lookup_key_Some Hash Eq); [by eapply (ixht_uniq Hash Eq)|].
    split; [|apply (key_refl (Hash := Hash))]. apply elem_of_concat. exists k, l. split; [done|].
    by apply list_elem_of_filter in Hin as [_ ?].
  - destruct (ixht_split_bin_loses Hash Eq bc dc ls t k l eb ng d e) as (t' & E & Ef); [done..|].
    exists t'. split; [done|]. unfold ixht_find. by rewrite Ef.
Qed.

End properties.

(** * Instances on concrete tables *)

(** The slots of ixhtab.h on the portable platform. *)
Abbreviation xswar := (packed (C := ixht_config) IxSWAR.ops).
Abbreviation xtab := (ixht (slots (SlotStore := xswar)) entry).
Abbreviation xrep := (ixht_rep (K := xswar) entry_hash entry_eq).

Definition x1 : entry := mk_entry 42 100.
Definition x2 : entry := mk_entry 7 200.
Definition x3 : entry := mk_entry 42 300.

(** The table after a sequence of requests, on the portable platform. *)
Definition table_after (ops : list (op entry)) : res (xtab) :=
  t ← ixht_create (K := xswar) 8;
  '(_, t') ← run (I := ixht_table (K := xswar) entry_hash entry_eq) ops t;
  Ok t'.

Lemma table_after_rep ops :
  Z.of_nat (length ops) ≤ 100 →
  ∃ t, table_after ops = Ok t ∧ xrep t (spec_run entry_eq ops []).2.
Proof.
  intros Hl. destruct (ixht_create_Ok (K := xswar) entry_hash entry_eq 8) as (t & n & ng & E & Ht & _);
    [lia|].
  destruct (run_refines (TableLaws0 := ixht_table_laws (K := xswar) entry_hash entry_eq) ops t [])
    as (rs & t' & Er & _ & Ht'); [done|cbn; lia|].
  exists t'. unfold table_after. rewrite E. step_ok. rewrite Er. by step_ok.
Qed.

(** A table of one bin. *)
Lemma one_bin t l :
  xrep t l → bins_num t = 1 → max_depth t = 0 →
  ∃ bc dc l0 eb ng, ixht_ok (K := xswar) entry_hash entry_eq bc dc [l0] t ∧ bc !! 0%nat = Some (Some eb) ∧
    ebin_rep (K := xswar) entry_hash entry_eq ng eb l0 ∧ depth eb = Some 0 ∧ l0 ≡ₚ l ∧
    bins_capacity t = Z.of_nat (length bc).
Proof.
  intros (bc & dc & ls & Hok & Hp) Hn Hd. pose proof (xo_bins_num Hok) as Hln.
  destruct ls as [|l0 [|]]; cbn [length] in Hln; try lia.
  destruct (xo_bin Hok 0 l0 eq_refl) as (eb & ng & Hb & Hr).
  destruct (xo_named Hok 0 eb) as (d & m & Hde & _ & Hd0 & _); [cbn; lia|done|].
  exists bc, dc, l0, eb, ng. cbn [concat] in Hp. rewrite app_nil_r in Hp.
  split_and!; try done; [|apply Hok]. rewrite Hde. f_equal. lia.
Qed.

Lemma one_bin_of t l :
  xrep t l → bins_num t = 1 → max_depth t = 0 →
  ∃ l0 eb, bin_of (K := xswar) entry_hash entry_eq t [l0] 0 l0 0 eb ∧ l0 ≡ₚ l.
Proof.
  intros Ht Hn Hd. destruct (one_bin t l Ht Hn Hd) as (bc & dc & l0 & eb & ng & Hok & Hb & Hr & Hde & Hp & _).
  exists l0, eb. split; [|done]. exists bc, dc, ng. by split_and!.
Qed.

(** Parts of a bin that are not empty. *)
Lemma with_bit_in d v (l : list entry) e :
  e ∈ l → Z.testbit (xhash entry_hash e) d = v → e ∈ with_bit entry_hash d v l.
Proof. intros He Hv. by apply list_elem_of_filter. Qed.

Lemma with_bit_some d v (l : list entry) e : e ∈ with_bit entry_hash d v l → with_bit entry_hash d v l ≠ [].
Proof. intros He E. rewrite E in He. by apply elem_of_nil in He. Qed.

Lemma ixht_refines_spec_witness :
  ∃ (t t' : xtab) rs, ixht_create (K := xswar) 8 = Ok t ∧
    run (I := ixht_table (K := xswar) entry_hash entry_eq)
      [OpInsert x1; OpInsert x3; OpReplace x2; OpDelete x1; OpFind x2; OpCount] t = Ok (rs, t') ∧
    Forall2 (out_rel Permutation) rs
      [OutFlag false; OutFlag true; OutFlag false; OutFlag true; OutFind (Some x2); OutCount 1].
Proof.
  destruct (ixht_refines_spec (K := xswar) entry_hash entry_eq 8
    [OpInsert x1; OpInsert x3; OpReplace x2; OpDelete x1; OpFind x2; OpCount])
    as (t & E1 & Hrun & Hsafe); [lia|cbn; lia|].
  destruct (Hrun (Hsafe ltac:(cbn; lia))) as (t' & rs & E2 & E3 & _).
  exists t, t', rs. split; [exact E1|]. split; [exact E2|exact E3].
Defined.

(** Twenty thousand consecutive keys, more than one bin can hold. *)
Lemma ixht_spread_inserts_witness :
  let els := (λ i, mk_entry i (7 * i)) <$> seqZ 0 20000 in
  ∃ t t' : xtab, ixht_create (K := xswar) 8 = Ok t ∧
    run (I := ixht_table (K := xswar) entry_hash entry_eq) (OpInsert <$> els) t =
      Ok (replicate (length els) (OutFlag false), t') ∧ xrep t' els.
Proof.
  intros els. destruct (entries_spread (λ i, mk_entry i (7 * i)) (λ i _, eq_refl) 20000) as [Hs Hnew]; [lia|].
  assert (Z.of_nat (length els) ≤ 2 ^ 27) as Hlen by (unfold els; rewrite length_fmap, length_seqZ; lia).
  destruct (ixht_spread_inserts (K := xswar) entry_hash entry_eq 8 els) as (t & t' & E1 & _ & E2 & Ht');
    [lia|exact Hlen|exact Hnew|exact Hs|].
  exists t, t'. split; [exact E1|]. split; [exact E2|exact Ht'].
Defined.

Lemma ixht_perform_find_spec_witness :
  ∃ (t : xtab) slot, xrep t [x1; x2] ∧
    ixht_perform (K := xswar) entry_hash entry_eq t x3 FIND = Ok (true, Some slot, t) ∧
    ixht_read (K := xswar) t slot = Ok x1.
Proof.
  destruct (table_after_rep [OpInsert x1; OpInsert x2]) as (t & _ & Ht); [cbn; lia|].
  destruct (ixht_perform_find_spec (K := xswar) entry_hash entry_eq t [x1; x2] x3 Ht)
    as (slot & E & Hg). exists t, slot. split; [exact Ht|]. split; [exact E|exact Hg].
Defined.

Lemma ixht_perform_delete_spec_witness :
  ∃ t t' : xtab, xrep t [x1; x2] ∧
    ixht_perform (K := xswar) entry_hash entry_eq t x3 DELETE = Ok (true, None, t') ∧ xrep t' [x2].
Proof.
  destruct (table_after_rep [OpInsert x1; OpInsert x2]) as (t & _ & Ht); [cbn; lia|].
  destruct (ixht_perform_delete_spec (K := xswar) entry_hash entry_eq t [x1; x2] x3 Ht)
    as (t' & E & Ht'). exists t, t'. split; [exact Ht|]. split; [exact E|exact Ht'].
Defined.

Lemma ixht_creation_witness :
  (∃ (t : xtab) n ng, ixht_create (K := xswar) 100 = Ok t ∧ room (K := xswar) t n ng ∧ 100 ≤ n * (4 * ng)) ∧
  (∃ s, ixht_create_size 33 2 (2 ^ 31) = Ok s) ∧
  ∀ fuel, ixht_create_size fuel 2 (2 ^ 31 + 1) = Timeout.
Proof.
  split.
  - destruct (ixht_creation (K := xswar) entry_hash entry_eq 100) as [(t & n & ng & E & _ & H1 & H2) _]; [lia|lia|].
    exists t, n, ng. split; [exact E|]. split; [exact H1|exact H2].
  - split.
    + apply (ixht_creation (K := xswar) entry_hash entry_eq (2 ^ 31)); lia.
    + apply (ixht_creation (K := xswar) entry_hash entry_eq (2 ^ 31 + 1)); lia.
Defined.

Lemma ixht_destroy_frees_witness :
  ∃ t t' : xtab, xrep t [x1; x2] ∧ ixht_destroy (K := xswar) t = Ok t' ∧ ixht_destroy (K := xswar) t' = UB UseAfterFree.
Proof.
  destruct (table_after_rep [OpInsert x1; OpInsert x2]) as (t & _ & Ht); [cbn; lia|].
  destruct (ixht_destroy_frees (K := xswar) entry_hash entry_eq t [x1; x2] Ht)
    as (bc & t' & _ & _ & E & _ & _ & Hd).
  exists t, t'. split; [exact Ht|]. split; [exact E|exact Hd].
Defined.

Lemma ixht_split_bin_spec_witness :
  ∃ t t' : xtab, xrep t [x1; x2] ∧
    ixht_split_bin (K := xswar) entry_hash entry_eq t 0 = Ok t' ∧ xrep t' [x1; x2] ∧ max_depth t' = 1.
Proof.
  destruct (table_after_rep [OpInsert x1; OpInsert x2]) as (t & E & Ht); [cbn; lia|].
  assert (bins_num t = 1 ∧ max_depth t = 0 ∧ bins_capacity t = 4) as (Hn & Hd & Hc)
    by (vm_compute in E; injection E as <-; done).
  destruct (one_bin_of t _ Ht Hn Hd) as (l0 & eb & Hb & Hp). cbn in Ht, Hp.
  destruct (ixht_split_bin_spec (K := xswar) entry_hash entry_eq t [l0] 0 l0 0 eb Hb)
    as (t' & eb1 & eb2 & Es & _ & _ & Hr' & Hd' & _).
  - rewrite Hc. reflexivity.
  - unfold splittable. rewrite Hd. split; [lia|]. split; [lia|]. split.
    + apply (with_bit_some _ _ _ x1), with_bit_in; [|vm_compute; reflexivity].
      rewrite Hp. apply list_elem_of_here.
    + apply (with_bit_some _ _ _ x2), with_bit_in; [|vm_compute; reflexivity].
      rewrite Hp. apply list_elem_of_further, list_elem_of_here.
  - exists t, t'. split; [exact Ht|]. split; [exact Es|]. split; [|exact Hd'].
    apply (ixht_rep_perm (K := xswar) entry_hash entry_eq _ _ _ Hr'). cbn [concat].
    by rewrite app_nil_r.
Defined.

(** ** A directory two levels deeper than a bin *)

(** Entries with all hash residues modulo 8. *)
Definition eight : list entry := (λ k, mk_entry k 0) <$> [1; 2; 3; 4; 5; 6; 7; 8].

Lemma eight_in l k : l ≡ₚ eight → k ∈ [1; 2; 3; 4; 5; 6; 7; 8] → mk_entry k 0 ∈ l.
Proof. intros -> Hk. unfold eight. by apply (list_elem_of_fmap_2 (λ k, mk_entry k 0)). Qed.

(** Membership in a part of a permutation of [eight]. *)
Ltac in_part Hp :=
  repeat (apply with_bit_in; [|vm_compute; reflexivity]); apply (eight_in _ _ Hp);
  refine (bool_decide_unpack _ _); vm_compute; exact I.

(** Three splits, of the bins with the odd hashes, make bin 0 shallow. *)
Lemma shallow_bin :
  ∃ (t : xtab) l0 ls eb, bin_of (K := xswar) entry_hash entry_eq t ls 0 (with_bit entry_hash 0 false l0) 1 eb ∧
    bins_capacity t < 2 ^ 30 ∧ max_depth t = 3 ∧ l0 ≡ₚ eight.
Proof.
  destruct (table_after_rep (OpInsert <$> eight)) as (t & E & Ht); [cbn; lia|].
  assert (bins_num t = 1 ∧ max_depth t = 0 ∧ bins_capacity t = 4) as (Hn & Hd & Hc)
    by (vm_compute in E; injection E as <-; done).
  destruct (one_bin t _ Ht Hn Hd) as (bc & dc & l0 & eb & ng & Hok & Hb & Hr & Hde & Hp & Hcap).
  change (spec_run entry_eq (OpInsert <$> eight) []).2 with eight in Hp. rewrite Hc in Hcap.
  destruct (ixht_split_bin_Ok (K := xswar) entry_hash entry_eq bc dc [l0] t 0 l0 eb ng 0) as
    (t1 & bc1 & dc1 & _ & Hok1 & _ & Hd1 & (ebe & nge & Hbe & Hre & _ & Hde1 & _) & (eb1 & ng1 & Hb1 & Hr1 & _ & Hde2 & _) & _ & Hl1 & _);
    [done..|lia|done| |].
  { unfold splittable. rewrite Hd. split_and!; [lia|lia| |];
      [apply (with_bit_some _ _ _ (mk_entry 2 0))|apply (with_bit_some _ _ _ (mk_entry 1 0))]; in_part Hp. }
  cbn [length Z.of_nat Z.add Pos.add Z.mul] in *. set (w0 := with_bit entry_hash 0 false l0) in *.
  set (w1 := with_bit entry_hash 0 true l0) in *.
  destruct (ixht_split_bin_Ok (K := xswar) entry_hash entry_eq bc1 dc1 [w0; w1] t1 1 w1 eb1 ng1 1) as
    (t2 & bc2 & dc2 & _ & Hok2 & _ & Hd2 & _ & (eb2 & ng2 & Hb2 & Hr2 & _ & Hde3 & _) & Hs2 & Hl2 & _);
    [exact Hok1|reflexivity|exact Hb1|exact Hr1|lia|exact Hde2| |].
  { unfold splittable. rewrite Hd1. split_and!; [lia|lia| |];
      [apply (with_bit_some _ _ _ (mk_entry 1 0))|apply (with_bit_some _ _ _ (mk_entry 3 0))]; in_part Hp. }
  cbn [length Z.of_nat Z.add Pos.add Z.mul Pos.of_succ_nat Pos.succ] in *. set (w2 := with_bit entry_hash 1 true w1) in *.
  destruct (ixht_split_bin_Ok (K := xswar) entry_hash entry_eq bc2 dc2 [w0; with_bit entry_hash 1 false w1; w2] t2 2 w2 eb2 ng2 2)
    as (t3 & bc3 & dc3 & _ & Hok3 & _ & Hd3 & _ & _ & Hs3 & Hl3 & _);
    [exact Hok2|reflexivity|exact Hb2|exact Hr2|lia|exact Hde3| |].
  { unfold splittable. rewrite Hd2. split_and!; [lia|lia| |];
      [apply (with_bit_some _ _ _ (mk_entry 7 0))|apply (with_bit_some _ _ _ (mk_entry 3 0))]; in_part Hp. }
  cbn [length Z.of_nat Z.add Pos.add Z.mul Pos.of_succ_nat Pos.succ] in *.
  exists t3, l0, (split_parts entry_hash [w0; with_bit entry_hash 1 false w1; w2] 2 2 w2), ebe.
  split; [|split; [|split; [exact Hd3|exact Hp]]].
  - exists bc3, dc3, nge. split; [exact Hok3|]. split; [reflexivity|].
    split; [by rewrite Hs3, Hs2 by lia|]. split; [exact Hre|exact Hde1].
  - rewrite (xo_cap Hok3). lia.
Qed.

Lemma ixht_split_loses_elements_witness :
  ∃ t t' : xtab,
    ixht_find (K := xswar) entry_hash entry_eq t (mk_entry 6 0) = Ok (Some (mk_entry 6 0)) ∧
    ixht_split_bin (K := xswar) entry_hash entry_eq t 0 = Ok t' ∧
    ixht_find (K := xswar) entry_hash entry_eq t' (mk_entry 6 0) = Ok None.
Proof.
  destruct shallow_bin as (t & l0 & ls & eb & Hb & Hc & Hd & Hp).
  destruct (ixht_split_loses_elements (K := xswar) entry_hash entry_eq t ls 0
    (with_bit entry_hash 0 false l0) 1 eb (mk_entry 6 0) Hb Hc) as (E1 & t' & E2 & E3).
  - lia.
  - rewrite Hd. lia.
  - apply (with_bit_some _ _ _ (mk_entry 4 0)). in_part Hp.
  - in_part Hp.
  - rewrite Hd. vm_compute. discriminate.
  - exists t, t'. split; [exact E1|]. split; [exact E2|exact E3].
Defined.

(** ** A full bin of the largest size *)

Definition many : list entry := (λ k, mk_entry k 0) <$> seqZ 0 (2 ^ 14).

Lemma many_lookup i e : many !! i = Some e → e = mk_entry (Z.of_nat i) 0.
Proof.
  unfold many. rewrite list_lookup_fmap. intros (k & Hk & ->)%fmap_Some.
  apply lookup_seqZ in Hk as [-> _]. done.
Qed.

Lemma many_in k : 0 ≤ k < 2 ^ 14 → mk_entry k 0 ∈ many.
Proof. intros Hk. apply (list_elem_of_fmap_2 (λ k, mk_entry k 0)). apply elem_of_seqZ. lia. Qed.

Lemma length_many : Z.of_nat (length many) = 2 ^ 14.
Proof. unfold many. rewrite length_fmap, length_seqZ, Z2Nat.id by lia. done. Qed.

Lemma full_table (many : list entry) :
  Z.of_nat (length many) = 2 ^ 14 →
  (∀ i j e e', many !! i = Some e → many !! j = Some e' → entry_eq e e' = true → i = j) →
  ∃ (t : xtab) l0 eb, bin_of (K := xswar) entry_hash entry_eq t [l0] 0 l0 0 eb ∧ l0 ≡ₚ many ∧
    bins_capacity t = 4 ∧ els_num t = 2 ^ 14 ∧ max_depth t = 0 ∧ els_bound (hb eb) = 2 ^ 14 ∧
    ∀ el, arr_get (dir t) (Z.land (xhash entry_hash el) (bin_mask t)) = Ok 0.
Proof.
  intros Hlen Hdist. destruct (table_after_rep []) as (t0 & E & Ht0); [cbn; lia|].
  assert (shape t0 = (0, 0, dir t0, 1, 1, 4)) as Hsh by (vm_compute in E; injection E as <-; done).
  destruct (ixht_fill (K := xswar) entry_hash entry_eq many t0 [] Ht0 Hdist) as (t & Ht & Hs).
  { cbn [app]. lia. }
  cbn [app] in Ht. rewrite Hsh in Hs. unfold shape in Hs. injection Hs as Hd _ _ _ Hn Hc.
  pose proof (ixht_count_rep (K := xswar) entry_hash entry_eq t many Ht) as Hcnt.
  destruct (one_bin t many Ht Hn Hd) as (bc & dc & l0 & eb & ng & Hok & Hb & Hr & Hde & Hp & _).
  exists t, l0, eb. split; [exists bc, dc, ng; by split_and!|]. split; [exact Hp|]. split; [exact Hc|].
  split; [unfold ixht_els_count in Hcnt; lia|]. split; [exact Hd|]. split.
  - destruct Hr as (_ & Hr & Hng).
    destruct (ebin_facts (K := xswar) entry_hash entry_eq _ _ _ Hr) as (_ & _ & Hle & _).
    rewrite Hp in Hle. lia.
  - intros el. destruct (ixht_dir_get (K := xswar) entry_hash entry_eq bc dc [l0] t el Hok) as (k & l & -> & Hk & _).
    apply lookup_lt_Some in Hk. cbn in Hk. by replace k with 0%nat by lia.
Qed.

Lemma many_distinct i j e e' :
  many !! i = Some e → many !! j = Some e' → entry_eq e e' = true → i = j.
Proof. intros ->%many_lookup ->%many_lookup HE%Z.eqb_eq. cbn in HE. lia. Qed.

(** INSERT into a full bin, which splits it. *)
Lemma ixht_perform_insert_spec_witness :
  ∃ (t t' : xtab) slot, els_num t = 2 ^ 14 ∧
    ixht_perform (K := xswar) entry_hash entry_eq t (mk_entry (2 ^ 14) 1) INSERT = Ok (false, Some slot, t') ∧
    els_num t' = 2 ^ 14 + 1.
Proof.
  destruct (full_table many length_many many_distinct) as (t & l0 & eb & Hb & Hp & Hc & Hn & Hd & Hf & Hdir).
  pose proof (ixht_perform_insert_spec (K := xswar) entry_hash entry_eq t l0 (mk_entry (2 ^ 14) 1)) as H.
  assert (lookup_key entry_eq (mk_entry (2 ^ 14) 1) l0 = None) as Hno.
  { apply lookup_key_none. intros e He. rewrite Hp in He. apply list_elem_of_lookup in He as [i Hi].
    pose proof (lookup_lt_Some _ _ _ Hi). pose proof length_many. apply many_lookup in Hi as ->.
    apply Z.eqb_neq. cbn [key]. lia. }
  unfold insert_outcome in H. rewrite Hno in H. destruct H as (slot & t' & E & Hn' & _).
  - destruct Hb as (bc & dc & ng & Hok & _). exists bc, dc, [l0]. split; [exact Hok|].
    cbn. by rewrite app_nil_r.
  - rewrite Hp, length_many. lia.
  - apply (bin_of_safe (K := xswar) entry_hash entry_eq t [l0] 0 l0 0 eb); [exact Hb|rewrite Hc; lia| |apply Hdir].
    unfold splittable. rewrite Hd. split; [lia|]. split; [lia|].
    split; [apply (with_bit_some _ _ _ (mk_entry 2 0))|apply (with_bit_some _ _ _ (mk_entry 1 0))];
      apply with_bit_in; try (vm_compute; reflexivity); rewrite Hp; apply many_in; lia.
  - exists t, t', slot. split; [exact Hn|]. split; [exact E|]. rewrite Hn', Hn. reflexivity.
Defined.
