(* ===== verification/IxhtabReach.v ===== *)
(** Tables of ixhtab.h that a program reaches by insertions and deletions only,
    and in which the next insertion goes wrong: two bins are filled, one of
    them is emptied by deletions, and an insertion into it asks for the split
    of a bin without elements. *)

From S2P Require Import Prelude Bits Groups GroupsV0 Probe Spec Store Core CoreV0.
From S2P Require Import Ixhtab IxGroups IxhtabCorrect IxhtabSplit Entry IxhtabProps.

(** Requests one after the other. *)
Lemma run_app {El T} {I : Table El T} (ops1 ops2 : list (op El)) t rs1 t1 rs2 t2 :
  run ops1 t = Ok (rs1, t1) → run ops2 t1 = Ok (rs2, t2) → run (ops1 ++ ops2) t = Ok (rs1 ++ rs2, t2).
Proof.
  intros E1 E2. revert t rs1 E1. induction ops1 as [|o ops1 IH]; intros t rs1; cbn [run app].
  - by intros [= <- <-].
  - intros ([r t'] & -> & E)%bind_Ok. step_ok. apply bind_Ok in E as ([rs t''] & E & [= <- ->]).
    by rewrite (IH t' rs E).
Qed.

Section filling.
Context {K : SlotStore} {V : SlotView K} `{!SlotLaws ixht_config K V}.
Context {El : Type} (Hash : El → Z) (Eq : El → El → bool) `{!KeyLaws Hash Eq}.
Implicit Types (t : ixht slots El) (el e : El) (l : list El).

(** A table of two bins of the largest size that hold [l0] and [l1]; the bins
    have used up [n0] and [n1] of their entries. *)
Definition two_bins t l0 l1 (n0 n1 : Z) : Prop :=
  ∃ bc dc eb0 eb1, ixht_ok Hash Eq bc dc [l0; l1] t ∧
    bc !! 0%nat = Some (Some eb0) ∧ ebin_rep Hash Eq (2 ^ 12) eb0 l0 ∧ els_bound (hb eb0) = n0 ∧
    bc !! 1%nat = Some (Some eb1) ∧ ebin_rep Hash Eq (2 ^ 12) eb1 l1 ∧ els_bound (hb eb1) = n1 ∧
    Z.of_nat (length bc) < 2 ^ 30 ∧ max_depth t = 1 ∧ cellv dc 0 = Some 0 ∧ cellv dc 1 = Some 1.

(** Creation for 2^15 elements. *)
Lemma two_bins_create : ∃ t, ixht_create (2 ^ 15) = Ok t ∧ two_bins t [] [] 0 0.
Proof.
  destruct (ixht_create_run Hash Eq (2 ^ 15) 15 1 14 12) as (t & bc & dc & E & Hc);
    [vm_compute; reflexivity..|lia|lia|lia|vm_compute; reflexivity|by right|].
  exists t. split; [exact E|].
  pose proof (creating_ok Hash Eq 1 (2 ^ 12) bc dc t ltac:(lia) Hc) as Hok.
  destruct Hc as [-> Hfit _ Hd Hb]. destruct (Hb 0%nat) as (eb0 & H0 & Hr0 & _ & _ & Hn0); [lia|].
  destruct (Hb 1%nat) as (eb1 & H1 & Hr1 & _ & _ & Hn1); [lia|].
  exists bc, dc, eb0, eb1. split_and!; try done; try lia; apply Hd; lia.
Qed.

(** An insertion into a bin that is not full. *)
Lemma ixht_insert_room bc dc ls t (k : nat) l eb ng el :
  ixht_ok Hash Eq bc dc ls t → ls !! k = Some l → bc !! k = Some (Some eb) → ebin_rep Hash Eq ng eb l →
  dir_at dc (max_depth t) (xhash Hash el) = Some (Z.of_nat k) → lookup_key Eq el l = None →
  els_bound (hb eb) < 4 * ng → els_num t < 2 ^ 31 →
  ∃ t' eb', ixht_insert Hash Eq t el = Ok (false, t') ∧
    ixht_ok Hash Eq (<[k := Some eb']> bc) dc (<[k := l ++ [el]]> ls) t' ∧
    ebin_rep Hash Eq ng eb' (l ++ [el]) ∧ els_bound (hb eb') = els_bound (hb eb) + 1 ∧
    max_depth t' = max_depth t.
Proof.
  intros Hok Hk Hb Hr Hda Hno Hroom Hsm.
  destruct (ixht_dir_get Hash Eq bc dc ls t el Hok) as (k' & lk & Hdir & _ & Hda').
  rewrite Hda in Hda'. injection Hda' as Ek. assert (k' = k) as -> by lia.
  destruct (perform_in_insert Hash Eq bc dc ls t k l eb ng el) as (slot & t1 & E & _ & Hw); [done..|].
  destruct (Hw el) as (t' & eb' & Ew & Hok' & Hr' & Hbd & Hmd & _); [apply (key_refl (Hash := Hash))|].
  exists t', eb'. split; [|done]. unfold ixht_insert. rewrite (ixht_perform_dir Hash Eq t el INSERT _ Hdir).
  cbn [action_code Z.leb Z.compare Pos.compare Pos.compare_cont].
  destruct Hr as (_ & Hr & Hng). destruct (ebin_facts Hash Eq _ _ _ Hr) as (Hpos & Hgm & _).
  unfold ixht_make_room at 1. rewrite (xo_bins Hok), (live_get _ _ _ Hb). step_ok.
  rewrite Hgm, Z.sub_add. unfold u32, GROUP_SIZE. cbv zeta.
  rewrite (Z.mod_small ng), (Z.mod_small (ng * 8)) by lia.
  rewrite (proj2 (Z.eqb_neq _ _)) by dlia. step_ok. rewrite E. step_ok. rewrite Ew. by step_ok.
Qed.

(** A deletion. *)
Lemma ixht_delete_bin bc dc ls t (k : nat) l eb ng el e :
  ixht_ok Hash Eq bc dc ls t → ls !! k = Some l → bc !! k = Some (Some eb) → ebin_rep Hash Eq ng eb l →
  dir_at dc (max_depth t) (xhash Hash el) = Some (Z.of_nat k) → lookup_key Eq el l = Some e →
  ∃ t' eb', ixht_delete Hash Eq t el = Ok (true, t') ∧
    ixht_ok Hash Eq (<[k := Some eb']> bc) dc (<[k := remove_key Eq el l]> ls) t' ∧
    ebin_rep Hash Eq ng eb' (remove_key Eq el l) ∧ els_bound (hb eb') = els_bound (hb eb) ∧
    els (hb eb') = els (hb eb) ∧ max_depth t' = max_depth t.
Proof.
  intros Hok Hk Hb Hr Hda Hl.
  destruct (ixht_dir_get Hash Eq bc dc ls t el Hok) as (k' & lk & Hdir & _ & Hda').
  rewrite Hda in Hda'. injection Hda' as Ek. assert (k' = k) as -> by lia.
  destruct (perform_in_delete Hash Eq bc dc ls t k l eb ng el) with (e := e) as (t' & eb' & E & H); [done..|].
  exists t', eb'. split; [|done]. unfold ixht_delete. rewrite (ixht_perform_dir Hash Eq t el DELETE _ Hdir).
  cbn [action_code Z.leb Z.compare Pos.compare Pos.compare_cont]. rewrite E. by step_ok.
Qed.

Lemma two_bins_num t l0 l1 n0 n1 :
  two_bins t l0 l1 n0 n1 → els_num t = Z.of_nat (length l0) + Z.of_nat (length l1) ∧
    Z.of_nat (length l0) ≤ n0 ≤ 2 ^ 14 ∧ Z.of_nat (length l1) ≤ n1 ≤ 2 ^ 14.
Proof.
  intros (bc & dc & eb0 & eb1 & Hok & _ & (_ & H0 & _) & <- & _ & (_ & H1 & _) & <- & _).
  rewrite (xo_num Hok). cbn [concat]. rewrite app_nil_r, length_app.
  destruct (ebin_facts Hash Eq _ _ _ H0) as (_ & _ & ? & _), (ebin_facts Hash Eq _ _ _ H1) as (_ & _ & ? & _).
  lia.
Qed.

(** The bin of a key, by the lowest bit of its hash. *)
Lemma two_dir_at dc (h : Z) :
  cellv dc 0 = Some 0 → cellv dc 1 = Some 1 → dir_at dc 1 h = Some (Z.b2z (Z.testbit h 0)).
Proof.
  intros H0 H1. unfold dir_at. change (2 ^ 1) with 2. rewrite Z.bit0_mod.
  pose proof (Z.mod_pos_bound h 2 ltac:(lia)).
  assert (h mod 2 = 0 ∨ h mod 2 = 1) as [->| ->] by lia; done.
Qed.

(** The bin of the odd hashes. *)
Lemma two_bins_odd t l0 l1 n0 n1 :
  two_bins t l0 l1 n0 n1 →
  ∃ eb, bin_of Hash Eq t [l0; l1] 1 l1 1 eb ∧ arr_get (bins t) 1 = Ok eb ∧ els_bound (hb eb) = n1 ∧ bins_capacity t < 2 ^ 30 ∧
    max_depth t = 1 ∧ ∀ el, Z.testbit (xhash Hash el) 0 = true →
      arr_get (dir t) (Z.land (xhash Hash el) (bin_mask t)) = Ok 1.
Proof.
  intros (bc & dc & eb0 & eb1 & Hok & _ & _ & _ & H1 & Hr1 & Hn1 & Hlen & Hmd & Hd0 & Hd1).
  destruct (xo_named Hok 1%nat eb1) as (d & m & Hdep & _ & Hd & Hm & Hj); [cbn; lia|done|].
  assert (d = 1) as ->.
  { assert (d = 0 ∨ d = 1) as [->|?] by lia; [|done]. specialize (Hj 0). rewrite Hmd, Hd0 in Hj.
    assert (0 mod 2 ^ 0 = m) as Em%Hj by (change (2 ^ 0) with 1 in *; rewrite Z.mod_1_r; lia); [done|lia]. }
  exists eb1. split; [by exists bc, dc, (2 ^ 12)|].
  split_and!; [rewrite (xo_bins Hok); by apply (live_get _ 1)|done|by rewrite (xo_cap Hok)|done|].
  intros el Hel. destruct (ixht_dir_get Hash Eq bc dc _ t el Hok) as (k & l & -> & _ & Hda).
  rewrite Hmd, (two_dir_at dc), Hel in Hda by done. by injection Hda as <-.
Qed.

Lemma two_bins_insert t l0 l1 n0 n1 el :
  two_bins t l0 l1 n0 n1 → lookup_key Eq el l0 = None → lookup_key Eq el l1 = None →
  let bit := Z.testbit (xhash Hash el) 0 in
  (if bit then n1 else n0) < 2 ^ 14 →
  ∃ t', ixht_insert Hash Eq t el = Ok (false, t') ∧
    if bit then two_bins t' l0 (l1 ++ [el]) n0 (n1 + 1) else two_bins t' (l0 ++ [el]) l1 (n0 + 1) n1.
Proof.
  intros Ht Hno0 Hno1 bit Hroom. destruct (two_bins_num _ _ _ _ _ Ht) as (Hnum & Hl0 & Hl1).
  destruct Ht as (bc & dc & eb0 & eb1 & Hok & H0 & Hr0 & Hn0 & H1 & Hr1 & Hn1 & Hlen & Hmd & Hd0 & Hd1).
  pose proof (two_dir_at dc (xhash Hash el) Hd0 Hd1) as Hda. fold bit in Hda. rewrite <-Hmd in Hda.
  pose proof (lookup_lt_Some _ _ _ H1) as Hlt. destruct bit.
  - destruct (ixht_insert_room bc dc [l0; l1] t 1 l1 eb1 (2 ^ 12) el) as (t' & eb' & E & Hok' & Hr' & Hb' & Hm');
      [done..|lia|lia|].
    exists t'. split; [done|]. exists (<[1%nat:=Some eb']> bc), dc, eb0, eb'. rewrite length_insert.
    split_and!; try done; try lia; by rewrite ?list_lookup_insert_eq, ?list_lookup_insert_ne by lia.
  - destruct (ixht_insert_room bc dc [l0; l1] t 0 l0 eb0 (2 ^ 12) el) as (t' & eb' & E & Hok' & Hr' & Hb' & Hm');
      [done..|lia|lia|].
    exists t'. split; [done|]. exists (<[0%nat:=Some eb']> bc), dc, eb', eb1. rewrite length_insert.
    split_and!; try done; try lia; by rewrite ?list_lookup_insert_eq, ?list_lookup_insert_ne by lia.
Qed.

(** Elements with different keys. *)
Definition distinct l : Prop := ForallOrdPairs (λ e e', Eq e e' = false) l.

Lemma two_bins_fill es t l0 l1 :
  two_bins t l0 l1 (Z.of_nat (length l0)) (Z.of_nat (length l1)) → distinct es →
  (∀ e, e ∈ es → lookup_key Eq e l0 = None ∧ lookup_key Eq e l1 = None) →
  Z.of_nat (length (l0 ++ with_bit Hash 0 false es)) ≤ 2 ^ 14 →
  Z.of_nat (length (l1 ++ with_bit Hash 0 true es)) ≤ 2 ^ 14 →
  ∃ t', run (I := ixht_table Hash Eq) (OpInsert <$> es) t = Ok (replicate (length es) (OutFlag false), t') ∧
    two_bins t' (l0 ++ with_bit Hash 0 false es) (l1 ++ with_bit Hash 0 true es)
      (Z.of_nat (length (l0 ++ with_bit Hash 0 false es))) (Z.of_nat (length (l1 ++ with_bit Hash 0 true es))).
Proof.
  revert t l0 l1. induction es as [|e es IH]; intros t l0 l1 Ht Hdis Hno.
  - cbn. rewrite !app_nil_r. eauto.
  - inversion Hdis as [|? ? Hhd Htl]; subst. rewrite list.Forall_forall in Hhd.
    destruct (Hno e) as [Hno0 Hno1]; [by left|].
    assert (∀ l, (∀ e', e' ∈ es → lookup_key Eq e' l = None) → ∀ e', e' ∈ es → lookup_key Eq e' (l ++ [e]) = None)
      as Hsnoc.
    { intros l Hl e' He'. apply lookup_key_none. intros x [Hx| ->%list_elem_of_singleton]%elem_of_app; [|by apply Hhd].
      specialize (Hl e' He'). by eapply lookup_key_none in Hl. }
    rewrite !with_bit_cons.
    rewrite fmap_cons. cbn [run step tab_insert ixht_table length replicate].
    pose proof (two_bins_insert t l0 l1 _ _ e Ht Hno0 Hno1) as Hi. cbv zeta in Hi.
    destruct (Z.testbit (xhash Hash e) 0); cbn [eqb];
      rewrite !length_app; cbn [length]; intros Hl0 Hl1; (destruct Hi as (t1 & E1 & Ht1); [lia|]).
    + destruct (IH t1 l0 (l1 ++ [e])) as (t2 & E2 & Ht2); rewrite ?length_app in *; cbn [length] in *; try lia; [|done| |].
      * by rewrite Nat2Z.inj_add.
      * intros e' He'. split; [apply Hno; by right|]. apply Hsnoc; [|done]. intros. apply Hno. by right.
      * exists t2. rewrite E1. repeat step_ok. rewrite E2. step_ok. split; [done|]. rewrite <-(assoc_L (++)) in Ht2. cbn in Ht2 |- *. by rewrite <-Nat.add_assoc in Ht2.
    + destruct (IH t1 (l0 ++ [e]) l1) as (t2 & E2 & Ht2); rewrite ?length_app in *; cbn [length] in *; try lia; [|done| |].
      * by rewrite Nat2Z.inj_add.
      * intros e' He'. split; [|apply Hno; by right]. apply Hsnoc; [|done]. intros. apply Hno. by right.
      * exists t2. rewrite E1. repeat step_ok. rewrite E2. step_ok. split; [done|]. rewrite <-(assoc_L (++)) in Ht2. cbn in Ht2 |- *. by rewrite <-Nat.add_assoc in Ht2.
Qed.

(** Deleting the first element of the second bin leaves its array alone, and
    its entries used up. *)
Lemma two_bins_delete t l0 e l1 n0 n1 eb :
  two_bins t l0 (e :: l1) n0 n1 → arr_get (bins t) 1 = Ok eb →
  ∃ t' eb', ixht_delete Hash Eq t e = Ok (true, t') ∧ two_bins t' l0 l1 n0 n1 ∧
    arr_get (bins t') 1 = Ok eb' ∧ els (hb eb') = els (hb eb) ∧ els_bound (hb eb') = els_bound (hb eb).
Proof.
  intros (bc & dc & eb0 & eb1 & Hok & H0 & Hr0 & Hn0 & H1 & Hr1 & Hn1 & Hlen & Hmd & Hd0 & Hd1) Heb.
  pose proof (live_get bc 1 eb1 H1) as Hg. rewrite (xo_bins Hok) in Heb. change (Z.of_nat 1) with 1 in Hg.
  rewrite Hg in Heb. injection Heb as <-.
  assert (uniq Eq (e :: l1)) as Hu by (destruct Hr1 as (_ & Hr1 & _); by eapply (bin_rep_uniq Hash Eq)).
  assert (lookup_key Eq e (e :: l1) = Some e) as Hl.
  { apply (lookup_key_Some Hash Eq); [done|]. split; [by left|apply (key_refl (Hash := Hash))]. }
  assert (remove_key Eq e (e :: l1) = l1) as Hrem.
  { pose proof (key_refl (Hash := Hash) (Eq := Eq) e) as Hee. unfold remove_key. rewrite filter_cons, decide_False by congruence.
    apply (remove_key_absent Eq). intros e' He'. destruct (Eq e' e) eqn:HE; [|done].
    apply list_elem_of_lookup in He' as [i Hi]. destruct Hr1 as (_ & Hr1 & _).
    pose proof (live_list_nodup (xhash Hash) Eq _ _ _ (S i) 0%nat e' e Hr1 Hi eq_refl HE). done. }
  destruct (ixht_delete_bin bc dc [l0; e :: l1] t 1 (e :: l1) eb1 (2 ^ 12) e e)
    as (t1 & eb' & E & Hok' & Hr' & Hb' & He' & Hm'); try done.
  { eapply (xo_placed Hok 1%nat); [done|by left]. }
  rewrite Hrem in Hok', Hr'. pose proof (lookup_lt_Some _ _ _ H1). exists t1, eb'. split; [done|]. split; [|split; [|done]].
  - exists (<[1%nat:=Some eb']> bc), dc, eb0, eb'. rewrite length_insert.
    split_and!; try done; try congruence; by rewrite ?list_lookup_insert_eq, ?list_lookup_insert_ne by lia.
  - rewrite (xo_bins Hok'). by apply (live_get _ 1), list_lookup_insert_eq.
Qed.

Lemma two_bins_drain t l0 l1 n0 n1 :
  two_bins t l0 l1 n0 n1 →
  ∃ t', run (I := ixht_table Hash Eq) (OpDelete <$> l1) t = Ok (replicate (length l1) (OutFlag true), t') ∧
    two_bins t' l0 [] n0 n1.
Proof.
  revert t. induction l1 as [|e l1 IH]; intros t Ht; [by exists t|].
  destruct (two_bins_odd _ _ _ _ _ Ht) as (eb & _ & Heb & _).
  destruct (two_bins_delete t l0 e l1 n0 n1 eb Ht Heb) as (t1 & eb' & E & Ht1 & _).
  destruct (IH t1 Ht1) as (t2 & E2 & Ht2).
  exists t2. rewrite fmap_cons. cbn [run step tab_delete ixht_table length replicate].
  rewrite E. repeat step_ok. rewrite E2. by step_ok.
Qed.
End filling.

(** * The table *)

(** 2^14 entries with the keys [2 * q * k + r]. *)
Definition spaced (q r : Z) : list entry := (λ k, mk_entry (2 * (q * k) + r) 0) <$> seqZ 0 (2 ^ 14).
Abbreviation evens := (spaced 1 2).
Abbreviation odds := (spaced 1 1).

Lemma length_spaced q r : Z.of_nat (length (spaced q r)) = 2 ^ 14.
Proof. unfold spaced. rewrite length_fmap, length_seqZ, Z2Nat.id by lia. done. Qed.

Lemma elem_of_spaced q r e :
  e ∈ spaced q r → 0 < q ≤ 2 → ∃ k, 0 ≤ k < 2 ^ 15 ∧ e = mk_entry (2 * k + r) 0.
Proof. unfold spaced. intros (k & -> & Hk%elem_of_seqZ)%list_elem_of_fmap Hq. exists (q * k). split; [nia|done]. Qed.

(** The bits of the hash of an entry of the test program are those of a
    product: the key's hash is never replaced by 1. *)
Lemma entry_hash_bit k v d :
  0 < k < 2 ^ 64 → 0 ≤ d < 64 →
  Z.testbit (xhash entry_hash (mk_entry k v)) d = Z.testbit (k * 0x9E3779B97F4A7C15) d.
Proof.
  intros Hk Hd. unfold xhash, entry_hash, u64. cbn [key].
  destruct (Z.eqb_spec ((k * 0x9E3779B97F4A7C15) mod 2 ^ 64) 0) as [E|_].
  - exfalso. apply Z.mod_divide in E as [q Hq]; [|done].
    (** the inverse of the multiplier modulo 2^64 *)
    assert (k = 2 ^ 64 * (q * 0xF1DE83E19937733D - k * 0x957BBF35006ED677)) by lia. lia.
  - by rewrite Z.mod_pow2_bits_low by lia.
Qed.

(** The lowest one is that of the key. *)
Lemma entry_bit k v : 0 < k < 2 ^ 64 → Z.testbit (xhash entry_hash (mk_entry k v)) 0 = Z.odd k.
Proof.
  intros Hk. rewrite entry_hash_bit by lia. rewrite Z.bit0_odd, Z.odd_mul. by rewrite andb_true_r.
Qed.

Lemma with_bit_spaced v q r :
  0 < q ≤ 2 → 0 < r < 3 → with_bit entry_hash 0 v (spaced q r) = if eqb (Z.odd r) v then spaced q r else [].
Proof.
  intros Hq Hr. pose proof (λ e He, elem_of_spaced q r e He Hq) as H. induction (spaced q r) as [|e l IH]; [by destruct (eqb _ v)|].
  destruct (H e) as (k & Hk & Ek); [by left|].
  rewrite with_bit_cons, IH by (intros; apply H; by right). subst e.
  rewrite entry_bit by lia. rewrite Z.add_comm, Z.odd_add_mul_2. by destruct (eqb _ v).
Qed.

Lemma with_bit_parities v q q' :
  0 < q ≤ 2 → 0 < q' ≤ 2 →
  with_bit entry_hash 0 v (spaced q 2 ++ spaced q' 1) = if v then spaced q' 1 else spaced q 2.
Proof.
  intros Hq Hq'. rewrite with_bit_app. rewrite !with_bit_spaced by lia.
  destruct v; [done|apply app_nil_r].
Qed.

Lemma distinct_app l l' :
  distinct entry_eq l → distinct entry_eq l' → (∀ e e', e ∈ l → e' ∈ l' → entry_eq e e' = false) →
  distinct entry_eq (l ++ l').
Proof.
  intros Hl Hl' Hx. induction Hl as [|e l He Hl IH]; [done|]. cbn [app]. constructor.
  - apply list.Forall_app. split; [done|]. apply list.Forall_forall. intros e' He'. apply Hx; [by left|done].
  - apply IH. intros e1 e2 H1. apply Hx. by right.
Qed.

Lemma distinct_spaced q r : 0 < q → distinct entry_eq (spaced q r).
Proof.
  intros Hq. unfold spaced. induction (NoDup_seqZ 0 (2 ^ 14)) as [|k ks Hk _ IH]; [constructor|]. rewrite fmap_cons.
  constructor; [|done].
  apply list.Forall_forall. intros e (k' & -> & Hk')%list_elem_of_fmap. apply Z.eqb_neq. cbn [key].
  intros E. assert (k' = k) by nia. by subst.
Qed.

Lemma distinct_parities q q' : 0 < q ≤ 2 → 0 < q' ≤ 2 → distinct entry_eq (spaced q 2 ++ spaced q' 1).
Proof.
  intros Hq Hq'. apply distinct_app; [apply distinct_spaced; lia..|].
  intros e e' (k & _ & ->)%elem_of_spaced (k' & _ & ->)%elem_of_spaced; [|done..]. apply Z.eqb_neq. cbn [key]. lia.
Qed.

(** * A bin without live entries *)

Section drained.
Context {K : SlotStore} {V : SlotView K} `{!SlotLaws ixht_config K V}.
Context {El : Type} (Hash : El → Z) (Eq : El → El → bool) `{!KeyLaws Hash Eq}.

(** C24: INSERT of a key whose bin has the largest size and has used up all its
    entries, all of them deleted, while the table holds at least as many
    elements as the bin has entries: the test for a split holds, the rounds of
    the split find nothing to distribute and each adds one to the depth of the
    bins, and of the directory once the bins are as deep, until at depth 31
    the doubled capacity of the directory wraps around to 0 and the copy of
    its entries leaves the reallocated block. INSERT never returns a result. *)
Theorem ixht_drained_bin_insert (t : ixht slots El) ls k d eb el :
  bin_of Hash Eq t ls k [] d eb → els_bound (hb eb) = 2 ^ 14 → 2 ^ 14 ≤ els_num t < 2 ^ 31 →
  bins_capacity t < 2 ^ 30 → max_depth t ≤ 31 →
  arr_get (dir t) (Z.land (xhash Hash el) (bin_mask t)) = Ok (Z.of_nat k) →
  ixht_perform Hash Eq t el INSERT = UB OutOfBounds.
Proof.
  intros Hb Hfull Hnum Hcap Hmax Hdir.
  destruct (full_bin_of Hash Eq t ls k [] d eb Hb Hfull) as (bc & dc & Hok & Hk & Hbc & Hr & _).
  rewrite (xo_cap Hok) in Hcap. by eapply (ixht_perform_drained Hash Eq bc dc ls t k eb).
Qed.

End drained.

Section reach.
Context {K : SlotStore} {V : SlotView K} `{!SlotLaws ixht_config K V}.

(** Two lists of 2^14 entries of either parity fill the bins, deleting the
    second list leaves its bin full of deleted entries. *)
Lemma fill_and_drain ev od :
  distinct entry_eq (ev ++ od) → (∀ v, with_bit entry_hash 0 v (ev ++ od) = if v then od else ev) →
  Z.of_nat (length ev) = 2 ^ 14 → Z.of_nat (length od) = 2 ^ 14 →
  ∃ (t t' : ixht slots entry) eb, ixht_create (2 ^ 15) = Ok t ∧
    run (I := ixht_table entry_hash entry_eq) ((OpInsert <$> ev ++ od) ++ (OpDelete <$> od)) t =
      Ok (replicate (length (ev ++ od)) (OutFlag false) ++ replicate (length od) (OutFlag true), t') ∧
    els_num t' = 2 ^ 14 ∧ bin_of entry_hash entry_eq t' [ev; []] 1 [] 1 eb ∧ els_bound (hb eb) = 2 ^ 14 ∧
    bins_capacity t' < 2 ^ 30 ∧ max_depth t' = 1 ∧
    ∀ el, Z.testbit (xhash entry_hash el) 0 = true →
      arr_get (dir t') (Z.land (xhash entry_hash el) (bin_mask t')) = Ok 1.
Proof.
  intros Hdis Hbit He Ho. destruct (two_bins_create entry_hash entry_eq) as (t & E & Ht).
  destruct (two_bins_fill entry_hash entry_eq (ev ++ od) t [] [] Ht Hdis) as (t1 & E1 & Ht1);
    rewrite ?Hbit in *; cbn [app] in *; [done|lia|lia|]. rewrite He, Ho in Ht1.
  destruct (two_bins_drain entry_hash entry_eq t1 ev od _ _ Ht1) as (t' & E' & Ht').
  pose proof (two_bins_num entry_hash entry_eq _ _ _ _ _ Ht') as (Hnum & _).
  destruct (two_bins_odd entry_hash entry_eq _ _ _ _ _ Ht') as (eb & Hb & _ & Hn1 & Hcap & Hmd & Hdir).
  exists t, t', eb. split; [exact E|]. split; [by eapply run_app|]. split; [rewrite Hnum, He; done|].
  by split_and!.
Qed.
End reach.

(** The table of ixhtab.h with the portable group code: it is created for 2^15
    elements, 2^14 entries with even and 2^14 with odd keys are inserted, those
    with odd keys are deleted, and a new odd key is inserted. *)
Lemma ixht_drained_bin_insert_witness :
  ∃ t t' : xtab, ixht_create (K := xswar) (2 ^ 15) = Ok t ∧
    run (I := ixht_table (K := xswar) entry_hash entry_eq) ((OpInsert <$> evens ++ odds) ++ (OpDelete <$> odds)) t =
      Ok (replicate (length (evens ++ odds)) (OutFlag false) ++ replicate (length odds) (OutFlag true), t') ∧
    els_num t' = 2 ^ 14 ∧
    ixht_perform (K := xswar) entry_hash entry_eq t' (mk_entry (2 ^ 15 + 1) 0) INSERT = UB OutOfBounds.
Proof.
  destruct (fill_and_drain (K := xswar) evens odds (distinct_parities 1 1 ltac:(lia) ltac:(lia))
    (λ v, with_bit_parities v 1 1 ltac:(lia) ltac:(lia)) (length_spaced 1 2) (length_spaced 1 1))
    as (t & t' & eb & E1 & E2 & Hn & Hb & Hf & Hc & Hd & Hdir).
  exists t, t'. split; [exact E1|]. split; [exact E2|]. split; [exact Hn|].
  apply (ixht_drained_bin_insert (K := xswar) entry_hash entry_eq t' [evens; []] 1 1 eb); [exact Hb|exact Hf|lia|exact Hc|lia|].
  apply Hdir. by rewrite entry_bit by lia.
Defined.
