(* ===== verification/IxhtabStale.v ===== *)
(** A split of ixhtab.h that needs a second round: the first round compacts
    the elements of the bin, the second reads the deleted bits that belonged
    to the positions before.  What the second round keeps, and what an
    insertion that asks for such a split does to the table. *)

From S2P Require Import Prelude Bits Groups GroupsV0 Probe Spec Store Core CoreV0.
From S2P Require Import Ixhtab IxGroups IxhtabCorrect IxhtabSplit Entry IxhtabProps IxhtabReach.

(** A filter that keeps everything keeps the positions. *)
Lemma omap_full {A B} (f : A → option B) (ks : list A) (j : nat) :
  length (omap f ks) = length ks → omap f ks !! j = ks !! j ≫= f.
Proof.
  revert j. induction ks as [|x ks IH]; intros j Hf; [done|]. cbn in *. pose proof (length_omap_le f ks).
  destruct (f x) as [y|] eqn:Hy; cbn in Hf; [|lia].
  destruct j as [|j]; [exact (eq_sym Hy)|]. apply IH. lia.
Qed.

Section stale.
Context {K : SlotStore} {V : SlotView K} `{!SlotLaws ixht_config K V}.
Context {El : Type} (Hash : El → Z) (Eq : El → El → bool) `{!KeyLaws Hash Eq}.
Implicit Types (t : ixht slots El) (el e : El) (l : list El) (b : hbin slots El).
Implicit Types (ec : list (option El)) (dlc : list (option Z)).

(** The elements of [l] at the positions whose bits in the bitmap of the bin
    are clear. *)
Definition survivors (eb : ebin slots El) l : list El :=
  omap (λ i, match is_deleted (hb eb) i with Ok false => l !! Z.to_nat i | _ => None end)
    (seqZ 0 (Z.of_nat (length l))).

(** The cells of a bin without deleted entries are its elements. *)
Lemma full_cells ng ec dlc st b l :
  bin_ok (C := ixht_config) (xhash Hash) Eq ng ec dlc st b → l = live_list ec dlc (els_bound b) →
  els_bound b = Z.of_nat (length l) → ∀ i, 0 ≤ i < els_bound b → cellv ec i = l !! Z.to_nat i.
Proof.
  intros Hok -> Hfull i Hi. pose proof (bo_bound Hok) as Hb. unfold live_list in *.
  assert (live_at ec dlc (els_bound b) i = omap (live_at ec dlc (els_bound b)) (seqZ 0 (els_bound b)) !! Z.to_nat i) as El'.
  { rewrite omap_full by (rewrite length_seqZ; lia). rewrite lookup_seqZ_lt by lia. cbn. by rewrite Z2Nat.id by lia. }
  rewrite <-El'. destruct (lookup_lt_is_Some_2 (omap (live_at ec dlc (els_bound b)) (seqZ 0 (els_bound b))) (Z.to_nat i)) as [x Hx]; [lia|].
  rewrite Hx in El'. rewrite El'. by apply live_at_Some in El' as (_ & _ & ->).
Qed.

(** The bits of a bin that had no deleted entries until some elements were
    deleted from it. *)
Lemma deleted_positions ng b l b' l' (i : nat) e :
  bin_rep (xhash Hash) Eq ng b l → els_bound b = Z.of_nat (length l) →
  bin_rep (xhash Hash) Eq ng b' l' → els b' = els b → els_bound b' = els_bound b → l !! i = Some e →
  (e ∈ l' → is_deleted b' (Z.of_nat i) = Ok false) ∧ (e ∉ l' → is_deleted b' (Z.of_nat i) = Ok true).
Proof.
  intros Hrep Hfull (ec' & dlc' & st' & Hok' & ->) Hels Hbd Hi. pose proof Hrep as (ec & dlc & st & Hok & Hl).
  rewrite (bo_els Hok), (bo_els Hok') in Hels. injection Hels as ->.
  pose proof (bo_bound Hok). pose proof (lookup_lt_Some _ _ _ Hi).
  pose proof (full_cells ng ec dlc st b l Hok Hl Hfull) as Hcell.
  rewrite (is_deleted_Ok (xhash Hash) Eq ng ec dlc' st') by (done || lia).
  setoid_rewrite elem_of_live_list. rewrite Hbd. split.
  - intros (j & (Hj & Hdead & Hc)%live_at_Some). rewrite Hcell in Hc by lia.
    pose proof (live_list_nodup (xhash Hash) Eq ng b l _ _ _ _ Hrep Hc Hi (key_refl (Hash := Hash) e)) as Ej.
    assert (Z.of_nat i = j) as -> by lia. by rewrite Hdead.
  - intros Hnot. destruct (dead_bit dlc' (Z.of_nat i)) eqn:Hdead; [done|]. exfalso. apply Hnot.
    exists (Z.of_nat i). apply live_at_Some. split_and!; [lia|lia|done|]. rewrite Hcell by lia. by rewrite Nat2Z.id.
Qed.

(** A bin after a round that kept all its elements: its next round scans the
    elements under the old bits. *)
Lemma stale_scannable ng b0 bo l ec0 dlc :
  scannable Eq ng ec0 dlc b0 → deleted bo = Live dlc →
  bin_rep (xhash Hash) Eq ng (with_deleted bo (zeros ng)) l → els_bound bo = Z.of_nat (length l) →
  ∃ ec st, scannable Eq ng ec dlc bo ∧ slots_ok ng (groups bo) st ∧
    ∀ i, 0 ≤ i < els_bound bo → cellv ec i = l !! Z.to_nat i.
Proof.
  intros Hsc Hdl Hrep Hbd. pose proof Hrep as (ec & dc & st & Hok & Hl). exists ec, st.
  pose proof (full_cells ng ec dc st _ l Hok Hl Hbd) as Hcell.
  change (els_bound (with_deleted bo (zeros ng))) with (els_bound bo) in Hcell.
  assert (∀ i e, live_at ec dlc (els_bound bo) i = Some e → l !! Z.to_nat i = Some e ∧ 0 ≤ i) as Hlive.
  { intros i e (Hi & _ & He)%live_at_Some. rewrite <-Hcell by done. split; [done|lia]. }
  split_and!; [|apply (bo_slots Hok)|done]. destruct Hsc.
  split; try done; try apply (bo_els Hok); try apply (bo_bound Hok); try apply (bo_len_els Hok).
  - apply (bo_init Hok).
  - intros i e i' e' [Hi ?]%Hlive [Hi' ?]%Hlive HE.
    pose proof (live_list_nodup (xhash Hash) Eq ng _ l _ _ e e' Hrep Hi Hi' HE). lia.
Qed.

Lemma survivors_live ng ec0 dlc (eb : ebin slots El) ec l n :
  scannable Eq ng ec0 dlc (hb eb) → n = Z.of_nat (length l) → n ≤ 4 * ng →
  (∀ i, 0 ≤ i < n → cellv ec i = l !! Z.to_nat i) → live_list ec dlc n = survivors eb l.
Proof.
  intros Hsc -> Hn Hcell. unfold live_list, survivors.
  assert (∀ ks : list Z, (∀ i, i ∈ ks → 0 ≤ i < Z.of_nat (length l)) →
    omap (live_at ec dlc (Z.of_nat (length l))) ks =
    omap (λ i, match is_deleted (hb eb) i with Ok false => l !! Z.to_nat i | _ => None end) ks) as Hext.
  { intros ks. induction ks as [|i ks IH]; intros Hks; [done|]. cbn.
    rewrite IH by (intros; apply Hks; by right). assert (0 ≤ i < Z.of_nat (length l)) as Hi by (apply Hks; by left).
    rewrite (scan_deleted Eq ng ec0 dlc (hb eb)) by (done || lia). unfold live_at.
    rewrite decide_True by done. destruct (dead_bit dlc i); [done|]. by rewrite Hcell. }
  apply Hext. intros i Hi%elem_of_seqZ. lia.
Qed.

Lemma survivors_sub eb l e : e ∈ survivors eb l → e ∈ l.
Proof.
  unfold survivors. intros (i & _ & Hi)%list_elem_of_omap. destruct (is_deleted (hb eb) i) as [[]| |]; [done| |done..].
  by eapply list_elem_of_lookup_2.
Qed.

Lemma length_survivors eb l : Z.of_nat (length (survivors eb l)) ≤ Z.of_nat (length l).
Proof.
  unfold survivors. etrans; [apply inj_le, length_omap_le|]. rewrite length_seqZ. lia.
Qed.

(** The directory after the two rounds: a hash that led to the bin leads to
    one of the two bins. *)
Lemma two_redirections dc dc1 dc2 (M0 M1 M2 x y h : Z) (k n : nat) :
  0 ≤ M0 ≤ M1 → M1 ≤ M2 → 0 ≤ x < 2 ^ M1 → 0 ≤ y < 2 ^ M2 →
  Z.of_nat (length dc1) = 2 ^ M1 → Z.of_nat (length dc2) = 2 ^ M2 →
  (∀ j, 0 ≤ j < 2 ^ M1 → cellv dc1 j = cellv dc (j mod 2 ^ M0)) →
  (∀ j, 0 ≤ j < 2 ^ M2 → cellv dc2 j = cellv (<[Z.to_nat x := Some (Z.of_nat n)]> dc1) (j mod 2 ^ M1)) →
  cellv dc (h mod 2 ^ M0) = Some (Z.of_nat k) →
  ∃ k1 : nat, cellv (<[Z.to_nat y := Some (Z.of_nat n)]> dc2) (h mod 2 ^ M2) = Some (Z.of_nat k1) ∧ (k1 = k ∨ k1 = n).
Proof.
  intros H0 H1 Hx Hy L1 L2 C1 C2 Hh. rewrite cellv_insert by lia. case_decide; [by exists n; auto|].
  rewrite C2 by (apply mod_pow2_range; lia). rewrite mod_pow2_mod by lia.
  rewrite cellv_insert by lia. case_decide; [by exists n; auto|].
  rewrite C1 by (apply mod_pow2_range; lia). rewrite mod_pow2_mod by lia. exists k. auto.
Qed.

Lemma with_bit_none d l : with_bit Hash d true l = [] → with_bit Hash d false l = l.
Proof.
  intros Hno. apply filter_all_in. intros e He. destruct (Z.testbit (xhash Hash e) d) eqn:Eb; [|done].
  assert (e ∈ with_bit Hash d true l) as Hin by (by apply list_elem_of_filter). rewrite Hno in Hin. by apply elem_of_nil in Hin.
Qed.

(** Two rounds: the first keeps all elements in the bin, the second one
    distributes the survivors. *)
Section rounds.
Context t (bc : list (option (ebin slots El))) (dc : list (option Z)) (k n : nat) (eb : ebin slots El) (bn : hbin slots El) (ng ngn : Z) l (d m : Z).
Context (Hbins : bins t = Live bc) (Hkn : k ≠ n) (Hk : bc !! k = Some (Some eb)).
Context (Hn : bc !! n = Some (Some (mk_ebin None None 0 bn))) (Hr : ebin_rep Hash Eq ng eb l).
Context (Hbn : bin_rep (xhash Hash) Eq ngn bn []) (Hb0 : els_bound bn = 0) (Hdn : deleted bn = zeros ngn).
Context (Hngn : ng ≤ ngn) (Hdep : depth eb = Some d) (Hmsk : mask eb = Some m) (Hm : 0 ≤ m < 2 ^ d).
Context (Hdr : dir_ready dc d t) (Hd29 : d ≤ 29) (Hno : with_bit Hash d true l = []).

(** The directory after the first round. *)
Definition once (dc1 : list (option Z)) : list (option Z) := <[Z.to_nat (m + 2 ^ d) := Some (Z.of_nat n)]> dc1.

Lemma round_mask M : d + 1 ≤ M → 0 ≤ m + 2 ^ d < 2 ^ M.
Proof.
  intros HM. destruct (dr_depth _ _ _ Hdr) as [[Hd _] _].
  assert (2 ^ (d + 1) ≤ 2 ^ M) by (apply Z.pow_le_mono_r; lia). rewrite Z.pow_add_r in * by lia. lia.
Qed.

Lemma stale_first_round :
  l ≠ [] →
  ∃ dc1 bo1 bn1 ec1 dlc st1,
    ixht_split_round Hash Eq t (Z.of_nat k) (Z.of_nat n) = Ok (after_round t dc1 bc k n d m bo1 bn1, true, false) ∧
    dir_ready (once dc1) (d + 1) (after_round t dc1 bc k n d m bo1 bn1) ∧
    Z.of_nat (length dc1) = 2 ^ Z.max (max_depth t) (d + 1) ∧
    (∀ j, 0 ≤ j < 2 ^ Z.max (max_depth t) (d + 1) → cellv dc1 j = cellv dc (j mod 2 ^ max_depth t)) ∧
    scannable Eq ng ec1 dlc bo1 ∧ slots_ok ng (groups bo1) st1 ∧ groups_mask bo1 = ng - 1 ∧
    live_list ec1 dlc (els_bound bo1) = survivors eb l ∧
    bin_rep (xhash Hash) Eq ngn bn1 [] ∧ els_bound bn1 = 0 ∧ deleted bn1 = zeros ngn.
Proof.
  intros Hne. pose proof Hr as (Hst & (ec0 & dlc & st0 & Hok0 & _) & Hng).
  pose proof (bin_ok_scannable Hash Eq ng ec0 dlc st0 (hb eb) Hok0) as Hsc0.
  destruct (dr_depth _ _ _ Hdr) as [Hd _].
  destruct (ixht_split_round_Ok Hash Eq t bc dc k n eb bn ng ngn l d m) as
    (dc1 & bo1 & bn1 & old & new & E1 & Hold & Hnew & L1 & C1 & (dl & Ed1 & Ed0 & _) & Hgm1 & Hro1 & Hbo1 & Hrn1 & Hbn1 & Hdn1);
    [done..|].
  rewrite (bo_deleted Hok0) in Ed0. injection Ed0 as <-.
  rewrite Hno in Hnew, Hrn1, Hbn1. rewrite with_bit_none in Hold, Hro1, Hbo1 by done.
  rewrite (proj2 Hold Hne) in E1. assert (new = false) as -> by (destruct new; [by destruct (proj1 Hnew eq_refl)|done]).
  destruct (stale_scannable ng (hb eb) bo1 l ec0 dlc) as (ec1 & st1 & Hsc1 & Hs1 & Hcell); [done..|].
  exists dc1, bo1, bn1, ec1, dlc, st1. split_and!; try done.
  - split; try done; cbn [after_round max_depth]; [|intros j Hj|lia].
    + unfold once. by rewrite length_insert.
    + unfold once. rewrite cellv_insert by (rewrite L1; apply round_mask; lia).
      case_decide; [by eexists|]. rewrite C1 by done. apply (dr_init _ _ _ Hdr), mod_pow2_range. lia.
  - apply (survivors_live ng ec0); [done|done|by destruct Hsc1; lia|done].
Qed.

Lemma stale_rounds fuel :
  with_bit Hash (d + 1) false (survivors eb l) ≠ [] → with_bit Hash (d + 1) true (survivors eb l) ≠ [] →
  ∃ t' bc' bo bn' dlc,
    ixht_split_loop Hash Eq (S (S fuel)) t (Z.of_nat k) (Z.of_nat n) = Ok (t', Z.of_nat k, Z.of_nat n) ∧
    bins t' = Live (<[n := Some (mk_ebin (Some (d + 1 + 1)) (Some (m + 2 ^ (d + 1))) 0 bn')]>
                    (<[k := Some (mk_ebin (Some (d + 1 + 1)) (Some m) 0 bo)]> bc')) ∧
    length bc' = length bc ∧ deleted bo = Live dlc ∧ Z.of_nat (length dlc) = (4 * ng + 7) / 8 ∧
    groups_mask bo = ng - 1 ∧
    bin_rep (xhash Hash) Eq ng (with_deleted bo (zeros ng)) (with_bit Hash (d + 1) false (survivors eb l)) ∧
    els_bound bo = Z.of_nat (length (with_bit Hash (d + 1) false (survivors eb l))) ∧
    bin_rep (xhash Hash) Eq ngn bn' (with_bit Hash (d + 1) true (survivors eb l)) ∧
    els_bound bn' = Z.of_nat (length (with_bit Hash (d + 1) true (survivors eb l))) ∧
    deleted bn' = zeros ngn ∧ els_num t' = els_num t ∧
    ∀ h, dir_at dc (max_depth t) h = Some (Z.of_nat k) →
      ∃ k1 : nat, arr_get (dir t') (Z.land h (bin_mask t')) = Ok (Z.of_nat k1) ∧ (k1 = k ∨ k1 = n).
Proof.
  intros Hlo Hhi. destruct stale_first_round as
    (dc1 & bo1 & bn1 & ec1 & dlc & st1 & E1 & Hdr1 & L1 & C1 & Hsc1 & Hs1 & Hgm1 & Hsv & Hrn1 & Hbn1 & Hdn1);
    [intros ->; by apply Hlo|].
  pose proof Hr as (_ & Hrb & Hng). destruct (ebin_facts Hash Eq _ _ _ Hrb) as (Hpos & _).
  pose proof (lookup_lt_Some _ _ _ Hk). pose proof (lookup_lt_Some _ _ _ Hn).
  destruct (dr_depth _ _ _ Hdr) as [Hd _].
  set (t1 := after_round t dc1 bc k n d m bo1 bn1) in *.
  set (bc1 := <[n:=Some (mk_ebin (Some (d + 1)) (Some (m + 2 ^ d)) 0 bn1)]>
    (<[k:=Some (mk_ebin (Some (d + 1)) (Some m) 0 bo1)]> bc)).
  assert (2 ^ (d + 1) = 2 * 2 ^ d) as Hp1 by (rewrite Z.pow_add_r by lia; lia).
  destruct (ixht_split_round_scan Hash Eq t1 bc1 (once dc1) k n
    (mk_ebin (Some (d + 1)) (Some m) 0 bo1) bn1 (Some (d + 1)) (Some (m + 2 ^ d)) ng ngn ec1 dlc st1 (d + 1) m)
    as (dc2 & bo & bn' & old2 & new2 & E2 & Hold2 & Hnew2 & L2 & C2 & Hdl2 & Hgm2 & Hro2 & Hbo2 & Hrn2 & Hbn2 & Hdn2);
    try done; try lia.
  { unfold bc1. rewrite list_lookup_insert_ne, list_lookup_insert_eq by lia. done. }
  { unfold bc1. rewrite list_lookup_insert_eq by (rewrite length_insert; lia). done. }
  cbn [hb] in *. rewrite Hsv in *.
  rewrite (proj2 Hold2 Hlo), (proj2 Hnew2 Hhi) in E2.
  exists (after_round t1 dc2 bc1 k n (d + 1) m bo bn'), bc1, bo, bn', dlc.
  split; [rewrite !ixht_split_loop_S, E1; step_ok; cbn [negb]; rewrite ixht_split_loop_S, E2; done|].
  split; [done|]. split; [unfold bc1; by rewrite !length_insert|].
  split_and!; try done; [by destruct Hsc1|].
  intros h Hh. cbn [after_round dir bin_mask max_depth t1] in *. rewrite land_mask by lia.
  destruct (two_redirections dc dc1 dc2 (max_depth t) (Z.max (max_depth t) (d + 1))
    (Z.max (Z.max (max_depth t) (d + 1)) (d + 1 + 1)) (m + 2 ^ d) (m + 2 ^ (d + 1)) h k n) as (k1 & E & Hk1);
    try done; try lia.
  - apply round_mask. lia.
  - assert (2 ^ (d + 1 + 1) ≤ 2 ^ Z.max (Z.max (max_depth t) (d + 1)) (d + 1 + 1)) by (apply Z.pow_le_mono_r; lia).
    rewrite (Z.pow_add_r 2 (d + 1) 1) in * by lia. lia.
  - exists k1. split; [|done]. by apply arr_get_Ok.
Qed.
End rounds.

(** The split of a bin of a well-formed table. *)
Lemma ixht_split_bin_stale bc dc ls t (k : nat) l eb ng d :
  ixht_ok Hash Eq bc dc ls t → ls !! k = Some l → bc !! k = Some (Some eb) → ebin_rep Hash Eq ng eb l →
  Z.of_nat (length bc) < 2 ^ 30 → depth eb = Some d → d ≤ 29 → with_bit Hash d true l = [] →
  with_bit Hash (d + 1) false (survivors eb l) ≠ [] → with_bit Hash (d + 1) true (survivors eb l) ≠ [] →
  ∃ t' bc' ebo ebn ngn, ixht_split_bin Hash Eq t (Z.of_nat k) = Ok t' ∧ bins t' = Live bc' ∧
    bc' !! k = Some (Some ebo) ∧ bc' !! length ls = Some (Some ebn) ∧
    ebin_rep Hash Eq ng ebo (with_bit Hash (d + 1) false (survivors eb l)) ∧
    ebin_rep Hash Eq ngn ebn (with_bit Hash (d + 1) true (survivors eb l)) ∧
    els_bound (hb ebo) < 4 * ng ∧ els_bound (hb ebn) < 4 * ngn ∧ els_num t' = els_num t ∧
    ∀ h, dir_at dc (max_depth t) h = Some (Z.of_nat k) →
      ∃ k1 : nat, arr_get (dir t') (Z.land h (bin_mask t')) = Ok (Z.of_nat k1) ∧ (k1 = k ∨ k1 = length ls).
Proof.
  intros Hok Hk Hbc Hr Hfew Hdep Hd29 Hno Hlo Hhi. pose proof (lookup_lt_Some _ _ _ Hk) as Hkl.
  pose proof Hr as (_ & Hrb & Hng). destruct (ebin_facts Hash Eq _ _ _ Hrb) as (Hpos & _ & Hle & _).
  destruct (xo_named Hok k eb Hkl Hbc) as (d' & m & Hdep' & Hmsk & Hd & Hm & _).
  rewrite Hdep in Hdep'. injection Hdep' as <-.
  pose proof (ixht_ok_ready Hash Eq bc dc ls t d Hok Hd ltac:(lia)) as Hdr.
  unfold ixht_split_bin. rewrite (xo_bins Hok), (live_get _ _ _ Hbc). step_ok.
  destruct (ixht_split_create Hash Eq bc dc ls t k l eb ng) as
    (ngn & bc1 & bn & E & Hnl & _ & _ & Hsame & Hn & Hbn & Hb0 & Hdn & Hngn); [done..|]. cbv zeta in E.
  rewrite E. step_ok. set (n := length ls) in *. set (t1 := mk_ixht _ _ _ _ _ (Live bc1) _ _).
  assert (dir_ready dc d t1) as Hdr1 by (destruct Hdr; by split).
  destruct (stale_rounds t1 bc1 dc k n eb bn ng ngn l d m) with (fuel := 63%nat) as
    (t2 & bc2 & bo & bn' & dlc & -> & Hb2 & Hl2 & Edl & Hdl & Hgm & Hro & Hbo & Hrn & Hbn' & Hdn' & Hnum & Hdir);
    try done; try lia; [rewrite Hsame by lia; done|].
  step_ok. rewrite (ixht_clear_both Hash Eq t2 bc2 k n (d + 1 + 1) m (m + 2 ^ (d + 1)) bo bn' ng ngn dlc
    (with_bit Hash (d + 1) true (survivors eb l))); try done; try lia.
  assert (Z.of_nat (length (survivors eb l)) ≤ Z.of_nat (length l)) as Hs by apply length_survivors.
  destruct (split_shorter Hash (d + 1) (survivors eb l) Hlo Hhi) as [Hso Hsn].
  eexists _, _, _, _, ngn. split; [reflexivity|]. split; [reflexivity|].
  split; [rewrite list_lookup_insert_ne, list_lookup_insert_eq by lia; reflexivity|].
  split; [rewrite list_lookup_insert_eq by (rewrite length_insert; lia); reflexivity|].
  cbn [hb]. split_and!; try done; try lia.
  - split_and!; [done..|lia].
  - change (els_bound (with_deleted bo (zeros ng))) with (els_bound bo). lia.
Qed.

(** An insertion of a new key at the level of its bin. *)
Lemma perform_in_new t bc (k : nat) eb ng l el :
  bins t = Live bc → bc !! k = Some (Some eb) → ebin_rep Hash Eq ng eb l → lookup_key Eq el l = None →
  els_bound (hb eb) < 4 * ng → 0 ≤ els_num t < 2 ^ 31 →
  ∃ slot t1 t' eb', perform_in Hash Eq t (Z.of_nat k) el INSERT = Ok (false, Some slot, t1) ∧
    ixht_write t1 slot el = Ok t' ∧ bins t' = Live (<[k := Some eb']> bc) ∧
    bin_rep (xhash Hash) Eq ng (hb eb') (l ++ [el]) ∧ dir t' = dir t ∧ bin_mask t' = bin_mask t ∧
    els_num t' = els_num t + 1.
Proof.
  intros Hb Hk (Hst & Hr & Hng) Hl Hroom Hn. pose proof (lookup_lt_Some _ _ _ Hk).
  destruct (do_1_insert (xhash Hash) Eq ng (hb eb) l el (els_num t) Hr Hl Hroom ltac:(by eapply (ebin_limit Hash Eq)))
    as (b' & E & _ & Hw).
  destruct (Hw el) as (b'' & Hs & Hb'' & _); [apply (key_refl (Hash := Hash))|].
  unfold perform_in. rewrite Hb, (live_get _ _ _ Hk). step_ok. unfold ixht_do_1. rewrite E. step_ok.
  unfold size_wrap. cbn [size_bits ixht_config]. rewrite Z.mod_small by lia.
  unfold set_bin. cbn [bins set_num]. rewrite Hb, arr_set_Ok, Nat2Z.id by lia. repeat step_ok.
  eexists _, _, _, _. split; [reflexivity|]. unfold ixht_write. cbn [fst snd bins].
  rewrite (live_get _ k (mk_ebin (depth eb) (mask eb) (els_start eb) b')) by (apply list_lookup_insert_eq; lia).
  step_ok. cbn [hb depth mask els_start]. rewrite Hs. step_ok. unfold set_bin. cbn [bins].
  rewrite arr_set_Ok, Nat2Z.id by (rewrite length_insert; lia). repeat step_ok.
  split; [reflexivity|]. rewrite list_insert_insert_eq. split; [reflexivity|]. by split_and!.
Qed.

(** An element at a deleted position is no survivor, nor is a new one. *)
Lemma survivors_lack eb ng l (i : nat) e el dd v :
  ebin_rep Hash Eq ng eb l → l !! i = Some e → is_deleted (hb eb) (Z.of_nat i) = Ok true →
  lookup_key Eq el l = None →
  lookup_key Eq e (with_bit Hash dd v (survivors eb l)) = None ∧
  lookup_key Eq el (with_bit Hash dd v (survivors eb l)) = None.
Proof.
  intros (_ & Hr & _) Hi Hdel Hel. split; apply lookup_key_none; intros e' [_ He']%list_elem_of_filter.
  - destruct (Eq e' e) eqn:HE; [|done]. unfold survivors in He'.
    apply list_elem_of_omap in He' as (j & Hj%elem_of_seqZ & Hs).
    destruct (is_deleted (hb eb) j) as [[]| |] eqn:Ed; [done| |done..].
    pose proof (live_list_nodup (xhash Hash) Eq ng _ l _ _ _ _ Hr Hs Hi HE) as Ej.
    assert (j = Z.of_nat i) as -> by lia. congruence.
  - apply survivors_sub in He'. by eapply lookup_key_none in Hel.
Qed.

(** Bin [k] has room and holds neither [e] nor [el]. *)
Definition lacks (bc : list (option (ebin slots El))) (k : nat) (e el : El) : Prop :=
  ∃ eb ng l, bc !! k = Some (Some eb) ∧ ebin_rep Hash Eq ng eb l ∧ els_bound (hb eb) < 4 * ng ∧
    lookup_key Eq e l = None ∧ lookup_key Eq el l = None.

(** An insertion does not bring back a key that no bin holds. *)
Lemma insert_lacks t bc (k1 k2 : nat) e el :
  bins t = Live bc → lacks bc k1 e el → lacks bc k2 e el → Eq el e = false → 0 ≤ els_num t < 2 ^ 31 →
  arr_get (dir t) (Z.land (xhash Hash e) (bin_mask t)) = Ok (Z.of_nat k2) →
  ∃ slot t1 t', perform_in Hash Eq t (Z.of_nat k1) el INSERT = Ok (false, Some slot, t1) ∧
    ixht_write t1 slot el = Ok t' ∧ ixht_perform Hash Eq t' e FIND = Ok (false, None, t') ∧
    els_num t' = els_num t + 1.
Proof.
  intros Hb (eb1 & ng1 & l1 & H1 & Hr1 & Hroom & He1 & Hel1) (eb2 & ng2 & l2 & H2 & Hr2 & _ & He2 & _) HE Hn Hdir.
  destruct (perform_in_new t bc k1 eb1 ng1 l1 el) as (slot & t1 & t' & eb' & Ep & Ew & Hb' & Hr' & Hd' & Hm' & Hn');
    [done..|].
  exists slot, t1, t'. split_and!; try done. rewrite <-Hd', <-Hm' in Hdir. pose proof (lookup_lt_Some _ _ _ H1).
  destruct (decide (k1 = k2)) as [->|Hne].
  - apply (ixht_find_missing Hash Eq t' _ k2 eb' ng1 (l1 ++ [el]) e Hb'); [by apply list_lookup_insert_eq|done| |done].
    apply lookup_key_none. intros x [Hx| ->%list_elem_of_singleton]%elem_of_app; [|done].
    by eapply lookup_key_none in He1.
  - apply (ixht_find_missing Hash Eq t' _ k2 eb2 ng2 l2 e Hb'); [by rewrite list_lookup_insert_ne|apply Hr2|done..].
Qed.

(** C25: INSERT of a new key into a full bin of the largest size, some of whose
    entries are deleted and all of whose elements agree in the hash bit the
    split starts with: the first round of the split packs the elements to the
    front, and the second, which distributes them by the next bit, skips those
    at positions whose entries were deleted before.  Such an element is found
    before the insertion and not after it, though the table counts it. *)
Theorem ixht_split_forgets_element t ls (k : nat) l d eb el (i : nat) e :
  bin_of Hash Eq t ls k l d eb → els_bound (hb eb) = 2 ^ 14 → 2 ^ 14 ≤ els_num t < 2 ^ 31 →
  bins_capacity t < 2 ^ 30 → d ≤ 29 →
  with_bit Hash d true l = [] →
  with_bit Hash (d + 1) false (survivors eb l) ≠ [] → with_bit Hash (d + 1) true (survivors eb l) ≠ [] →
  arr_get (dir t) (Z.land (xhash Hash el) (bin_mask t)) = Ok (Z.of_nat k) → lookup_key Eq el l = None →
  l !! i = Some e → is_deleted (hb eb) (Z.of_nat i) = Ok true →
  ixht_find Hash Eq t e = Ok (Some e) ∧
  ∃ t', ixht_insert Hash Eq t el = Ok (false, t') ∧ ixht_find Hash Eq t' e = Ok None ∧
    ixht_els_count t' = ixht_els_count t + 1.
Proof.
  intros Hb Hfull Hnum Hcap Hd29 Hno Hlo Hhi Hdir Hel Hi Hdel.
  destruct (full_bin_of Hash Eq t ls k l d eb Hb Hfull) as (bc & dc & Hok & Hk & Hbc & Hr & Hdep).
  rewrite (xo_cap Hok) in Hcap. assert (e ∈ l) as He by (by eapply list_elem_of_lookup_2).
  split.
  { rewrite (ixht_find_rep Hash Eq t (concat ls)) by (by exists bc, dc, ls). f_equal.
    apply (lookup_key_Some Hash Eq); [by eapply (ixht_uniq Hash Eq)|].
    split; [|apply (key_refl (Hash := Hash))]. apply elem_of_concat. by exists k, l. }
  destruct (ixht_split_bin_stale bc dc ls t k l eb (2 ^ 12) d) as
    (t1 & bc1 & ebo & ebn & ngn & E1 & Hb1 & Hbo & Hbn & Hro & Hrn & Hfo & Hfn & Hn1 & Hd1); [done..|].
  assert (∀ e', e' ∈ l → Eq e' el = false) as Hel' by (by apply lookup_key_none).
  assert (∀ k1, k1 = k ∨ k1 = length ls → lacks bc1 k1 e el) as Hlacks.
  { pose proof (survivors_lack eb (2 ^ 12) l i e el) as Hmiss.
    intros k1 [->| ->]; [exists ebo, (2 ^ 12), (with_bit Hash (d + 1) false (survivors eb l))|
      exists ebn, ngn, (with_bit Hash (d + 1) true (survivors eb l))]; split_and!; try done; by apply Hmiss. }
  destruct (ixht_dir_get Hash Eq bc dc ls t el Hok) as (k' & lk' & Hdir' & _ & Hdat).
  rewrite Hdir in Hdir'. injection Hdir' as Ek. rewrite <-Ek in Hdat.
  destruct (Hd1 _ Hdat) as (k1 & Hg1 & Hk1). destruct (Hd1 _ (xo_placed Hok k l e Hk He)) as (k2 & Hg2 & Hk2).
  destruct (insert_lacks t1 bc1 k1 k2 e el) as (slot & t2 & t' & Ep & Ew & Ef & Hn2);
    [done|by apply Hlacks|by apply Hlacks| |lia|done|].
  { destruct (Eq el e) eqn:HE; [|done]. apply (key_sym (Hash := Hash)) in HE. by rewrite Hel' in HE. }
  exists t'. unfold ixht_insert, ixht_find, ixht_els_count. rewrite (ixht_perform_dir Hash Eq t el INSERT _ Hdir), Ef.
  cbn [action_code Z.leb Z.compare Pos.compare Pos.compare_cont].
  rewrite (ixht_make_room_split Hash Eq t bc dc ls k l eb) by done. rewrite E1. step_ok. rewrite Hg1. repeat step_ok.
  rewrite Ep. step_ok. rewrite Ew. repeat step_ok. split_and!; [done..|lia].
Qed.
End stale.

(** * A run to such a table *)

Section reach.
Context {K : SlotStore} {V : SlotView K} `{!SlotLaws ixht_config K V}.

(** Two lists of 2^14 entries of either parity fill the bins; then the first
    entry of the second list is deleted. *)
Lemma fill_and_delete ev e1 od :
  distinct entry_eq (ev ++ e1 :: od) → (∀ v, with_bit entry_hash 0 v (ev ++ e1 :: od) = if v then e1 :: od else ev) →
  Z.of_nat (length ev) = 2 ^ 14 → Z.of_nat (length (e1 :: od)) = 2 ^ 14 → e1 ∉ od →
  ∃ (t t' : ixht slots entry) eb, ixht_create (2 ^ 15) = Ok t ∧
    run (I := ixht_table entry_hash entry_eq) ((OpInsert <$> ev ++ e1 :: od) ++ [OpDelete e1]) t =
      Ok (replicate (length (ev ++ e1 :: od)) (OutFlag false) ++ [OutFlag true], t') ∧
    els_num t' = 2 ^ 15 - 1 ∧ bin_of entry_hash entry_eq t' [ev; od] 1 od 1 eb ∧ els_bound (hb eb) = 2 ^ 14 ∧
    bins_capacity t' < 2 ^ 30 ∧
    (∀ el, Z.testbit (xhash entry_hash el) 0 = true →
      arr_get (dir t') (Z.land (xhash entry_hash el) (bin_mask t')) = Ok 1) ∧
    is_deleted (hb eb) 0 = Ok true ∧
    ∀ (i : nat) e, od !! i = Some e → is_deleted (hb eb) (Z.of_nat (S i)) = Ok false.
Proof.
  intros Hdis Hbit He Ho Hnot. destruct (two_bins_create entry_hash entry_eq) as (t & E & Ht).
  destruct (two_bins_fill entry_hash entry_eq (ev ++ e1 :: od) t [] [] Ht Hdis) as (t1 & E1 & Ht1);
    rewrite ?Hbit in *; cbn [app] in *; [done|lia|lia|]. rewrite He, Ho in Ht1.
  destruct (two_bins_odd entry_hash entry_eq _ _ _ _ _ Ht1) as (eb1 & Hb1 & Hg1 & Hn1 & _).
  destruct (two_bins_delete entry_hash entry_eq t1 ev e1 od _ _ eb1 Ht1 Hg1) as (t' & eb' & E' & Ht' & Hg' & Hels & Hbd).
  pose proof (two_bins_num entry_hash entry_eq _ _ _ _ _ Ht') as (Hnum & _). cbn [length] in Ho.
  destruct (two_bins_odd entry_hash entry_eq _ _ _ _ _ Ht') as (eb & Hb & Hg & Hn & Hcap & _ & Hdir).
  rewrite Hg in Hg'. injection Hg' as <-.
  assert (∀ (i : nat) e, (e1 :: od) !! i = Some e →
    (e ∈ od → is_deleted (hb eb) (Z.of_nat i) = Ok false) ∧ (e ∉ od → is_deleted (hb eb) (Z.of_nat i) = Ok true)) as Hdel.
  { destruct (full_bin_of entry_hash entry_eq _ _ _ _ _ _ Hb1 Hn1) as (_ & _ & _ & _ & _ & (_ & Hr1 & _) & _).
    destruct (full_bin_of entry_hash entry_eq _ _ _ _ _ _ Hb Hn) as (_ & _ & _ & _ & _ & (_ & Hr & _) & _).
    intros i e Hi. apply (deleted_positions entry_hash entry_eq _ _ (e1 :: od) _ _ i e Hr1); try done. cbn [length]. lia. }
  exists t, t', eb. split; [exact E|]. split; [|split_and!; try done; [lia| |]].
  - eapply run_app; [exact E1|]. cbn [run step tab_delete ixht_table]. rewrite E'. by repeat step_ok.
  - by apply (Hdel 0%nat e1 eq_refl).
  - intros i e Hi. apply (Hdel (S i) e Hi). by eapply list_elem_of_lookup_2.
Qed.
End reach.

(** The keys 1, 5, 9, ...: their hashes agree in bit 1 and alternate in bit 2. *)
Definition fives : list entry := (λ k, mk_entry (2 * (2 * k) + 1) 0) <$> seqZ 1 (2 ^ 14 - 1).

Lemma spaced_fives : spaced 2 1 = mk_entry 1 0 :: fives.
Proof. unfold spaced. by rewrite seqZ_cons by lia. Qed.

Lemma elem_of_fives e : e ∈ fives → ∃ k, 1 ≤ k < 2 ^ 14 ∧ e = mk_entry (4 * k + 1) 0.
Proof.
  unfold fives. intros (k & -> & Hk%elem_of_seqZ)%list_elem_of_fmap. exists k. split; [lia|]. f_equal. lia.
Qed.

Lemma fives_lookup (i : nat) :
  Z.of_nat i < 2 ^ 14 - 1 → fives !! i = Some (mk_entry (4 * (1 + Z.of_nat i) + 1) 0).
Proof.
  intros Hi. unfold fives. rewrite list_lookup_fmap, lookup_seqZ_lt by done. cbn [fmap option_fmap option_map].
  do 2 f_equal. lia.
Qed.

Lemma fives_bit_1 : with_bit entry_hash 1 true fives = [].
Proof.
  apply filter_nil_in. intros e (k & Hk & ->)%elem_of_fives. rewrite entry_hash_bit by lia.
  replace ((4 * k + 1) * 0x9E3779B97F4A7C15) with (1 + (k * 0x9E3779B97F4A7C15 + 0x278DDE6E5FD29F05) * 2 ^ 2) by lia.
  by rewrite <-(Z.mod_pow2_bits_low _ 2 1), Z_mod_plus_full by lia.
Qed.

(** The table of ixhtab.h with the portable group code, created for 2^15
    elements and filled with 2^14 even keys and the keys 1, 5, 9, ...; key 1 is
    deleted, then a new key is inserted, and key 5 is gone. *)
Lemma ixht_split_forgets_element_witness :
  ∃ t t' t'' : xtab, ixht_create (K := xswar) (2 ^ 15) = Ok t ∧
    run (I := ixht_table (K := xswar) entry_hash entry_eq)
      ((OpInsert <$> evens ++ mk_entry 1 0 :: fives) ++ [OpDelete (mk_entry 1 0)]) t =
      Ok (replicate (length (evens ++ mk_entry 1 0 :: fives)) (OutFlag false) ++ [OutFlag true], t') ∧
    ixht_find (K := xswar) entry_hash entry_eq t' (mk_entry 5 0) = Ok (Some (mk_entry 5 0)) ∧
    ixht_insert (K := xswar) entry_hash entry_eq t' (mk_entry (2 ^ 16 + 1) 0) = Ok (false, t'') ∧
    ixht_find (K := xswar) entry_hash entry_eq t'' (mk_entry 5 0) = Ok None ∧
    ixht_els_count (K := xswar) t'' = 2 ^ 15.
Proof.
  destruct (fill_and_delete (K := xswar) evens (mk_entry 1 0) fives)
    as (t & t' & eb & E1 & E2 & Hn & Hb & Hf & Hc & Hdir & Hd0 & Hd1).
  { rewrite <-spaced_fives. by apply distinct_parities. }
  { rewrite <-spaced_fives. intros v. by apply with_bit_parities. }
  { apply length_spaced. }
  { rewrite <-spaced_fives. apply length_spaced. }
  { intros (k & Hk & Ek)%elem_of_fives. injection Ek. lia. }
  assert (∀ (i : nat) v, 0 < Z.of_nat i < 2 ^ 14 - 1 →
    Z.testbit (xhash entry_hash (mk_entry (4 * (1 + Z.of_nat i) + 1) 0)) 2 = v →
    with_bit entry_hash (1 + 1) v (survivors eb fives) ≠ []) as Hsurv.
  { intros i v Hi Hv. apply (with_bit_some _ _ _ (mk_entry (4 * (1 + Z.of_nat i) + 1) 0)), with_bit_in; [|done].
    unfold survivors. apply list_elem_of_omap. exists (Z.of_nat i). pose proof (fives_lookup i ltac:(lia)) as Hl.
    pose proof (lookup_lt_Some _ _ _ Hl). split; [apply elem_of_seqZ; lia|]. rewrite Nat2Z.id.
    destruct i as [|i]; [lia|]. by rewrite (Hd1 i (mk_entry (4 * (1 + Z.of_nat i) + 1) 0)) by (apply fives_lookup; lia). }
  destruct (ixht_split_forgets_element (K := xswar) entry_hash entry_eq t' [evens; fives] 1 fives 1 eb
    (mk_entry (2 ^ 16 + 1) 0) 0 (mk_entry 5 0)) as (E3 & t'' & E4 & E5 & E6).
  - exact Hb.
  - exact Hf.
  - lia.
  - exact Hc.
  - lia.
  - exact fives_bit_1.
  - apply (Hsurv 2%nat); [lia|]. vm_compute. reflexivity.
  - apply (Hsurv 1%nat); [lia|]. vm_compute. reflexivity.
  - apply Hdir. by rewrite entry_bit by lia.
  - apply lookup_key_none. intros e (k & Hk & ->)%elem_of_fives. apply Z.eqb_neq. cbn [key]. lia.
  - apply (fives_lookup 0). lia.
  - exact Hd0.
  - exists t, t', t''. split; [exact E1|]. split; [exact E2|]. split; [exact E3|]. split; [exact E4|].
    split; [exact E5|]. rewrite E6. unfold ixht_els_count. lia.
Defined.
