(* ===== verification/IxhtabV0.v ===== *)
(** ixhtab-v0.h, the first version of the extendible table: the functions that
    the macro [DEFINE_IXHT] of this header generates.  They are those of
    ixhtab.h ([Ixhtab]) over the slot store with separate tag and index arrays
    ([CoreV0]). *)

From S2P Require Import Prelude Bits Groups GroupsV0 Probe Spec Store CoreV0 Ixhtab.

(** [struct ebin_ixht] with [h7] and [indexes], and [struct ixht]. *)
Definition v0_ebin (El : Type) : Type := ebin v0_slots El.
Definition v0_ixht (El : Type) : Type := ixht v0_slots El.
Definition v0_ixht_get_params : Z → res (Z * Z * Z) := ixht_get_params.

Section ixhtab_v0.
Context {G : GroupOps} {El : Type} (Hash : El → Z) (Eq : El → El → bool).

(** The slot store with 16-bit indices. *)
#[local] Instance v0_ixht_store : SlotStore := apart (C := ixht_config) G.

Definition v0_ixht_destroy_bin : v0_ebin El → res (v0_ebin El) := ixht_destroy_bin.
Definition v0_ixht_create_bin : v0_ixht El → Z → res (Z * v0_ixht El) := ixht_create_bin.
Definition v0_ixht_do_1 : Z → hbin v0_slots El → Z → El → action → res (do_result v0_slots El) :=
  ixht_do_1 Eq.
Definition v0_ixht_split_bin : v0_ixht El → Z → res (v0_ixht El) := ixht_split_bin Hash Eq.
Definition v0_ixht_create : Z → res (v0_ixht El) := ixht_create.
Definition v0_ixht_destroy : v0_ixht El → res (v0_ixht El) := ixht_destroy.
Definition v0_ixht_perform :
    v0_ixht El → El → action → res (bool * option (Z * Z) * v0_ixht El) :=
  ixht_perform Hash Eq.
Definition v0_ixht_els_count : v0_ixht El → Z := ixht_els_count.
Definition v0_ixht_iter_advance : v0_ixht El → ixht_iter → res ixht_iter := ixht_iter_advance.
Definition v0_ixht_iter_begin : v0_ixht El → res ixht_iter := ixht_iter_begin.
Definition v0_ixht_iter_valid : ixht_iter → bool := ixht_iter_valid.
Definition v0_ixht_iter_next : v0_ixht El → ixht_iter → res ixht_iter := ixht_iter_next.
End ixhtab_v0.
