(* ===== verification/VersionProps.v ===== *)
(** The two versions of the tables side by side: they answer alike, and what
    the first versions ihtab-v0.h and ixhtab-v0.h do differently, the reuse of
    the slots of deleted elements. *)

From S2P Require Import Prelude Bits Groups IxGroups GroupsV0 Probe Spec Store Core CoreV0.
From S2P Require Import Ihtab IhtabCorrect Ixhtab IxhtabCorrect IhtabV0 IxhtabV0 Entry.
From S2P Require Import IxhtabRun IxhtabSpread EntrySpread.

Section versions.
Context {El : Type} (Hash : El → Z) (Eq : El → El → bool) `{!KeyLaws Hash Eq}.

(** A version of ixhtab answers a sequence of safe requests as the
    specification does. *)
Lemma ixht_safe_answers {K : SlotStore} {V : SlotView K} `{!SlotLaws ixht_config K V} min_size (ops : list (op El)) :
  0 ≤ min_size ≤ 2 ^ 31 → Z.of_nat (length ops) ≤ 2 ^ 31 →
  ∃ t, ixht_create min_size = Ok t ∧
    (Z.of_nat (length ops) ≤ 2 ^ 14 ∨ spread_requests Hash Eq ops → safe_run Hash Eq ops t) ∧
    (safe_run Hash Eq ops t → ∃ rs t', run (I := ixht_table Hash Eq) ops t = Ok (rs, t') ∧
      Forall2 (out_rel Permutation) rs (spec_run Eq ops []).1).
Proof.
  intros Hmin Hops. destruct (ixht_create_tight Hash Eq min_size Hmin) as (t & m0 & bc & dc & ls & E & Ht).
  pose proof (tight_rep Hash Eq _ _ _ _ _ _ Ht) as Hrep. exists t. split_and!; [done| |].
  - intros [Hsmall|Hs]; [by eapply safe_run_small|by eapply spread_requests_safe].
  - intros Hs. destruct (run_safe Hash Eq ops t [] Hrep) as (rs & t' & Er & Hrs & _); [cbn; lia|done|eauto].
Qed.

(** C4: The first version of a table and the current one, each on any of its
    platforms, cannot be told apart by a program: tables created with the same
    minimal size, at most 2^31, give the same answers to the same sequence of
    at most 2^31 find, insert, replace, delete, count and iteration requests.
    For ixhtab, up to the order of iteration, this holds of the sequences that
    make both versions do splits with two non-empty sides at most one level
    above the directory only; such are the insertions of up to 2^27 new keys
    with spread hashes, whatever splits they need, followed by any requests
    that add no key, and all sequences of at most 2^14 requests. *)
Theorem versions_agree (G G0 Gx Gx0 : GroupOps) `{!GroupLaws G} `{!GroupLawsV0 G0}
    `{!GroupLaws Gx} `{!GroupLawsV0 Gx0} min_size (ops : list (op El)) :
  0 ≤ min_size ≤ 2 ^ 31 → Z.of_nat (length ops) ≤ 2 ^ 31 →
  (∃ t t' t0 t0' rs,
    iht_create (K := packed (C := iht_config) G) min_size = Ok t ∧ v0_iht_create (G := G0) min_size = Ok t0 ∧
    run (I := iht_table (K := packed (C := iht_config) G) Hash Eq) ops t = Ok (rs, t') ∧
    run (I := iht_table (K := apart (C := iht_config) G0) Hash Eq) ops t0 = Ok (rs, t0')) ∧
  (∃ t t0, ixht_create (K := packed (C := ixht_config) Gx) min_size = Ok t ∧
    v0_ixht_create (G := Gx0) min_size = Ok t0 ∧
    (Z.of_nat (length ops) ≤ 2 ^ 14 ∨ spread_requests Hash Eq ops ∨
     safe_run (K := packed (C := ixht_config) Gx) Hash Eq ops t ∧
       safe_run (K := apart (C := ixht_config) Gx0) Hash Eq ops t0 →
     ∃ t' t0' rs rs0,
       run (I := ixht_table (K := packed (C := ixht_config) Gx) Hash Eq) ops t = Ok (rs, t') ∧
       run (I := ixht_table (K := apart (C := ixht_config) Gx0) Hash Eq) ops t0 = Ok (rs0, t0') ∧
       Forall2 (out_rel Permutation) rs rs0)).
Proof.
  intros Hmin Hops. split.
  - destruct (iht_create_Ok (K := packed (C := iht_config) G) Hash Eq min_size) as (t & E & Ht & _); [lia|].
    destruct (iht_create_Ok (K := apart (C := iht_config) G0) Hash Eq min_size) as (t0 & E0 & Ht0 & _); [lia|].
    destruct (run_refines (TableLaws0 := iht_table_laws (K := packed (C := iht_config) G) Hash Eq) ops t [] Ht)
      as (rs & t' & Hrun & Hrs%out_rel_eq & _); [cbn; lia|].
    destruct (run_refines (TableLaws0 := iht_table_laws (K := apart (C := iht_config) G0) Hash Eq) ops t0 [] Ht0)
      as (rs0 & t0' & Hrun0 & Hrs0%out_rel_eq & _); [cbn; lia|].
    subst. exists t, t', t0, t0'. eexists. split; [exact E|]. split; [exact E0|].
    split; [exact Hrun|exact Hrun0].
  - destruct (ixht_safe_answers (K := packed (C := ixht_config) Gx) min_size ops) as (t & E & Hs & Hr); [done..|].
    destruct (ixht_safe_answers (K := apart (C := ixht_config) Gx0) min_size ops) as (t0 & E0 & Hs0 & Hr0); [done..|].
    exists t, t0. split; [exact E|]. split; [exact E0|]. intros Hops'.
    destruct Hr as (rs & t' & Hrun & Hrs); [tauto|]. destruct Hr0 as (rs0 & t0' & Hrun0 & Hrs0); [tauto|].
    exists t', t0', rs, rs0. split; [exact Hrun|]. split; [exact Hrun0|]. exact (out_rel_join _ _ _ _ Hrs Hrs0).
Qed.

Lemma v0_reinsert (G : GroupOps) `{!GroupLawsV0 G}
    (t : iht (slots (SlotStore := apart (C := iht_config) G)) El) l el e :
  iht_rep Hash Eq t l → lookup_key Eq el l = Some e → els_bound (bin t) < iht_size t - 1 →
  ∃ t1 t2 i, iht_perform Hash Eq t el DELETE = Ok (true, None, t1) ∧
    iht_perform Hash Eq t1 el INSERT = Ok (false, Some i, t2) ∧
    iht_els_count t2 = iht_els_count t ∧
    ∀ s, arr_get (h7 (groups (bin t2))) s = Ok V0_EMPTY_H7 ↔
         arr_get (h7 (groups (bin t))) s = Ok V0_EMPTY_H7.
Proof.
  intros (ng & Hb & Hnum & _) Hl Hroom.
  destruct (bin_rep_facts Hash Eq ng (bin t) l Hb) as (Hng & Hmask & Hlen).
  rewrite (iht_size_eq t ng) in Hroom by done.
  assert (0 < length l)%nat as Hpos by (destruct l; [done|cbn; lia]).
  destruct Hb as (ec & dc & st & Hok & ->).
  apply List.find_some in Hl as [Hin HE]. apply list_elem_of_In, elem_of_live_list in Hin as (i & Hi).
  destruct (v0_reinsert_tags Hash Eq ng ec dc st (bin t) el i e (Ihtab.els_num t) Hok Hi HE)
    as (b1 & b2 & E1 & Hbd & Hm1 & E2 & Htags).
  { change (256 ^ Z.of_nat ind_bytes) with (2 ^ 32). cbn [slots apart] in *. lia. }
  set (n1 := size_wrap (Ihtab.els_num t - 1)) in *.
  exists (mk_iht n1 b1), (mk_iht (size_wrap (C := iht_config) (n1 + 1)) b2), (els_bound (bin t)).
  split_and!; [| | |exact Htags].
  - rewrite iht_perform_nop by done. unfold iht_do_1.
    cbn [bin_do_1 apart]. rewrite E1. done.
  - rewrite iht_perform_room, (iht_make_room_eq Hash Eq _ ng); [|cbn [bin]..].
    + cbn [bin slots apart] in *. rewrite Hbd, (proj2 (Z.leb_gt _ _)) by done. step_ok. unfold iht_do_1.
      cbn [bin_do_1 apart bin Ihtab.els_num]. rewrite E2. done.
    + cbn [slots apart] in *. by rewrite Hm1.
    + done.
  - unfold iht_els_count, n1. cbn [Ihtab.els_num]. unfold size_wrap. cbn [size_bits iht_config].
    rewrite Hnum, !Z.mod_small by (rewrite ?Z.mod_small; lia). lia.
Qed.

(** C22: In the first version of ihtab deletion and insertion are a round trip
    on the slots: after deleting an element and inserting one of the same key
    again, without a rebuild, the count is the same and exactly the slots that
    were marked empty before are marked empty, so repeating this uses up no
    slots. *)
Theorem v0_reinsert_round_trip (G : GroupOps) `{!GroupLawsV0 G} (t : v0_iht El) l el e :
  iht_rep (K := apart (C := iht_config) G) Hash Eq t l → lookup_key Eq el l = Some e →
  els_bound (bin t) < v0_iht_size (G := G) t - 1 →
  ∃ (t1 t2 : v0_iht El) i, v0_iht_perform (G := G) Hash Eq t el DELETE = Ok (true, None, t1) ∧
    v0_iht_perform (G := G) Hash Eq t1 el INSERT = Ok (false, Some i, t2) ∧
    v0_iht_els_count (G := G) t2 = v0_iht_els_count (G := G) t ∧
    ∀ s, arr_get (h7 (groups (bin t2))) s = Ok V0_EMPTY_H7 ↔
         arr_get (h7 (groups (bin t))) s = Ok V0_EMPTY_H7.
Proof. exact (v0_reinsert G t l el e). Qed.
End versions.

(** * Instances on concrete tables *)

Definition v1 : entry := mk_entry 42 100.
Definition v2 : entry := mk_entry 7 200.

(** The current tables on the SSE2 platform, their first versions on the
    portable one: twenty thousand new keys, more than one bin of ixhtab can
    hold, and then a deletion and an iteration. *)
Lemma versions_agree_witness :
  let els := (λ i, mk_entry i (7 * i)) <$> seqZ 0 20000 in
  let ops := (OpInsert <$> els) ++ [OpDelete v1; OpFind v1; OpCount; OpElements] in
  (∃ (t t' : iht (arr Z) entry) (t0 t0' : v0_iht entry) rs,
    iht_create (K := packed (C := iht_config) SSE2.ops) 8 = Ok t ∧
    v0_iht_create (G := V0SWAR.ops) 8 = Ok t0 ∧
    run (I := iht_table (K := packed (C := iht_config) SSE2.ops) entry_hash entry_eq) ops t = Ok (rs, t') ∧
    run (I := iht_table (K := apart (C := iht_config) V0SWAR.ops) entry_hash entry_eq) ops t0 =
      Ok (rs, t0')) ∧
  ∃ (t t' : ixht (arr Z) entry) (t0 t0' : v0_ixht entry) rs rs0,
    ixht_create (K := packed (C := ixht_config) IxSSE2.ops) 8 = Ok t ∧
    v0_ixht_create (G := V0IxSWAR.ops) 8 = Ok t0 ∧
    run (I := ixht_table (K := packed (C := ixht_config) IxSSE2.ops) entry_hash entry_eq) ops t = Ok (rs, t') ∧
    run (I := ixht_table (K := apart (C := ixht_config) V0IxSWAR.ops) entry_hash entry_eq) ops t0 =
      Ok (rs0, t0') ∧
    Forall2 (out_rel Permutation) rs rs0.
Proof.
  intros els ops.
  destruct (entries_spread (λ i, mk_entry i (7 * i)) (λ i _, eq_refl) 20000) as [Hs Hnew]; [lia|].
  assert (Z.of_nat (length els) = 20000) as Hlen by (unfold els; rewrite length_fmap, length_seqZ; lia).
  assert (Z.of_nat (length ops) ≤ 2 ^ 31) as Hops
    by (unfold ops; rewrite length_app, length_fmap; cbn [length]; lia).
  destruct (versions_agree entry_hash entry_eq SSE2.ops V0SWAR.ops IxSSE2.ops V0IxSWAR.ops 8 ops)
    as [Hi (t & t0 & E & E0 & Hx)]; [lia|exact Hops|]. split; [exact Hi|].
  destruct Hx as (t' & t0' & rs & rs0 & R & R0 & Hrel).
  { right. left. exists els, [OpDelete v1; OpFind v1; OpCount; OpElements]. split; [reflexivity|].
    split; [lia|]. split; [exact Hnew|]. split; [exact Hs|]. repeat constructor. }
  exists t, t', t0, t0', rs, rs0. split; [exact E|]. split; [exact E0|]. split; [exact R|].
  split; [exact R0|exact Hrel].
Defined.

(** A table of the first version with two elements. *)
Lemma v0_sample :
  ∃ t : v0_iht entry, iht_rep (K := apart (C := iht_config) V0SWAR.ops) entry_hash entry_eq t [v1; v2] ∧
    els_bound (bin t) < v0_iht_size (G := V0SWAR.ops) t - 1.
Proof.
  destruct (iht_create_Ok (K := apart (C := iht_config) V0SWAR.ops) entry_hash entry_eq 8)
    as (t & E & Ht & _); [lia|].
  destruct (run_refines
    (TableLaws0 := iht_table_laws (K := apart (C := iht_config) V0SWAR.ops) entry_hash entry_eq)
    [OpInsert v1; OpInsert v2] t [] Ht) as (rs & t' & Er & _ & Ht'); [cbn; lia|].
  exists t'. split; [exact Ht'|].
  vm_compute in E. injection E as <-. vm_compute in Er. injection Er as _ <-. vm_compute. done.
Qed.

Lemma v0_reinsert_round_trip_witness :
  ∃ (t t1 t2 : v0_iht entry) i,
    v0_iht_perform (G := V0SWAR.ops) entry_hash entry_eq t v1 DELETE = Ok (true, None, t1) ∧
    v0_iht_perform (G := V0SWAR.ops) entry_hash entry_eq t1 v1 INSERT = Ok (false, Some i, t2) ∧
    v0_iht_els_count (G := V0SWAR.ops) t2 = v0_iht_els_count (G := V0SWAR.ops) t.
Proof.
  destruct v0_sample as (t & Ht & Hroom).
  destruct (v0_reinsert_round_trip entry_hash entry_eq V0SWAR.ops t [v1; v2] v1 v1 Ht)
    as (t1 & t2 & i & E1 & E2 & Hn & _); [reflexivity|exact Hroom|].
  exists t, t1, t2, i. split; [exact E1|]. split; [exact E2|exact Hn].
Defined.
