(* ===== verification/IhtabHpp.v ===== *)
(** ihtab.hpp and ihtab-v0.hpp: the class template [ihtab <El, Hash, Eq>].  Its
    methods are the functions of the C headers with the table as [this]; new
    are the constructor's default size, the destructor, and the forward
    iterator that range-based [for] uses.  Like the functions, the methods are
    defined over any slot store; the two headers differ in theirs. *)

From S2P Require Import Prelude Bits Groups Probe Spec Store Core CoreV0 Ihtab.

(** [struct hbin_t] with the interleaved groups, and the fields of the class. *)
Definition cpp_hbin (El : Type) : Type := hbin (arr Z) El.
Definition cpp_iht (El : Type) : Type := iht (arr Z) El.
(** [struct iter] *)
Definition cpp_iht_iter : Type := iht_iter.

(** [struct iterator]: the address of the table and the position. *)
Record cpp_iht_iterator := mk_iht_iterator { htab : Z; it_idx : Z }.

Section ihtab_hpp.
Context {K : SlotStore} {El : Type} (Hash : El → Z) (Eq : El → El → bool).
Implicit Types (t : iht slots El) (it o : cpp_iht_iterator).

Definition cpp_iht_ctor (min_size : Z) : res (iht slots El) := iht_create min_size.
Definition cpp_iht_default : res (iht slots El) := cpp_iht_ctor 8.
Definition cpp_iht_dtor t : res (iht slots El) := iht_destroy t.
Definition cpp_iht_destroy_bin : hbin slots El → res (hbin slots El) := iht_destroy_bin.
Definition cpp_iht_do_1 : Z → hbin slots El → El → action → res (do_result slots El) :=
  iht_do_1 Hash Eq.
Definition cpp_iht_rebuild : iht slots El → res (iht slots El) := iht_rebuild Hash Eq.
Definition cpp_iht_perform : iht slots El → El → action → res (bool * option Z * iht slots El) :=
  iht_perform Hash Eq.
Definition cpp_iht_els_count t : Z := iht_els_count t.
Definition cpp_iht_size t : Z := iht_size t.
Definition cpp_iht_iter_advance : iht slots El → cpp_iht_iter → res cpp_iht_iter := iht_iter_advance.
Definition cpp_iht_iter_begin : iht slots El → res cpp_iht_iter := iht_iter_begin.
Definition cpp_iht_iter_valid : cpp_iht_iter → bool := iht_iter_valid.
Definition cpp_iht_iter_next : iht slots El → cpp_iht_iter → res cpp_iht_iter := iht_iter_next.

(** ** The forward iterator; [t] is the table it points to *)

(** The loop of [advance]: the fuel counts the rounds that are left. *)
Fixpoint cpp_iht_advance_loop (fuel : nat) t (idx : Z) : res Z :=
  if idx <? els_bound (bin t) then
    match fuel with
    | O => Timeout
    | S fuel =>
        del ← is_deleted (bin t) idx;
        if negb del then Ok idx else cpp_iht_advance_loop fuel t (u64 (idx + 1))
    end
  else Ok idx.

Definition cpp_iht_advance t it : res cpp_iht_iterator :=
  idx ← cpp_iht_advance_loop (Z.to_nat (els_bound (bin t) - it_idx it)) t (it_idx it);
  Ok (mk_iht_iterator (htab it) idx).

(** [operator*], [operator->] *)
Definition cpp_iht_deref t it : res El := arr_get (els (bin t)) (it_idx it).
Definition cpp_iht_arrow it : Z := it_idx it.

(** [operator++ ()], [operator++ (int)] with the iterator it returns *)
Definition cpp_iht_incr t it : res cpp_iht_iterator :=
  cpp_iht_advance t (mk_iht_iterator (htab it) (u64 (it_idx it + 1))).
Definition cpp_iht_post_incr t it : res (cpp_iht_iterator * cpp_iht_iterator) :=
  it' ← cpp_iht_incr t it; Ok (it, it').

Definition cpp_iht_eq it o : bool := (htab it =? htab o) && (it_idx it =? it_idx o).
Definition cpp_iht_neq it o : bool := negb (htab it =? htab o) || negb (it_idx it =? it_idx o).

Definition cpp_iht_begin (this : Z) t : res cpp_iht_iterator :=
  cpp_iht_advance t (mk_iht_iterator this 0).
Definition cpp_iht_end (this : Z) t : cpp_iht_iterator :=
  mk_iht_iterator this (els_bound (bin t)).

(** [for (auto it = begin (), last = end (); it != last; ++it) ... *it ...],
    which is what [for (El &e : t)] means, collecting the elements. *)
Fixpoint cpp_iht_for (fuel : nat) t it last : res (list El) :=
  if cpp_iht_neq it last then
    match fuel with
    | O => Timeout
    | S fuel =>
        e ← cpp_iht_deref t it;
        it' ← cpp_iht_incr t it;
        rest ← cpp_iht_for fuel t it' last;
        Ok (e :: rest)
    end
  else Ok [].

Definition cpp_iht_range (this : Z) t : res (list El) :=
  it ← cpp_iht_begin this t;
  cpp_iht_for (Z.to_nat (els_bound (bin t))) t it (cpp_iht_end this t).
End ihtab_hpp.

(** The public members of the class and of its iterator. *)
Record iht_class (S El : Type) := mk_iht_class {
  m_ctor : Z → res (iht S El);
  m_dtor : iht S El → res (iht S El);
  m_perform : iht S El → El → action → res (bool * option Z * iht S El);
  m_els_count : iht S El → Z;
  m_size : iht S El → Z;
  m_iter_begin : iht S El → res cpp_iht_iter;
  m_iter_valid : cpp_iht_iter → bool;
  m_iter_next : iht S El → cpp_iht_iter → res cpp_iht_iter;
  m_begin : Z → iht S El → res cpp_iht_iterator;
  m_end : Z → iht S El → cpp_iht_iterator;
  m_incr : iht S El → cpp_iht_iterator → res cpp_iht_iterator;
  m_post_incr : iht S El → cpp_iht_iterator → res (cpp_iht_iterator * cpp_iht_iterator);
  m_deref : iht S El → cpp_iht_iterator → res El;
  m_arrow : cpp_iht_iterator → Z;
  m_eq : cpp_iht_iterator → cpp_iht_iterator → bool;
  m_neq : cpp_iht_iterator → cpp_iht_iterator → bool
}.

(** The class over a slot store: ihtab.hpp, and ihtab-v0.hpp with separate tag
    and index arrays. *)
Definition iht_class_of (K : SlotStore) {El : Type} (Hash : El → Z) (Eq : El → El → bool) :
    iht_class slots El :=
  mk_iht_class slots El cpp_iht_ctor cpp_iht_dtor (cpp_iht_perform Hash Eq) cpp_iht_els_count
    cpp_iht_size cpp_iht_iter_begin cpp_iht_iter_valid cpp_iht_iter_next cpp_iht_begin cpp_iht_end
    cpp_iht_incr cpp_iht_post_incr cpp_iht_deref cpp_iht_arrow cpp_iht_eq cpp_iht_neq.
Definition ihtab_hpp (G : GroupOps) {El : Type} (Hash : El → Z) (Eq : El → El → bool) :=
  iht_class_of (packed (C := iht_config) G) Hash Eq.
Definition ihtab_v0_hpp (G : GroupOps) {El : Type} (Hash : El → Z) (Eq : El → El → bool) :=
  iht_class_of (apart (C := iht_config) G) Hash Eq.
