(* ===== verification/IxhtabHpp.v ===== *)
(** ixhtab.hpp and ixhtab-v0.hpp: the class template [ixhtab <El, Hash, Eq>],
    in the same way as [IhtabHpp].  The forward iterator resets its element
    position at the end of the bins, which the comparison with [end ()] needs;
    the C iterator leaves it where the last bin ended. *)

From S2P Require Import Prelude Bits Groups Probe Spec Store Core CoreV0 Ixhtab.

(** [struct ebin_t] with the interleaved groups, and the fields of the class. *)
Definition cpp_ebin (El : Type) : Type := ebin (arr Z) El.
Definition cpp_ixht (El : Type) : Type := ixht (arr Z) El.
(** [struct iter] *)
Definition cpp_ixht_iter : Type := ixht_iter.

(** [struct iterator]: the address of the table, the bin and the position. *)
Record cpp_ixht_iterator := mk_ixht_iterator { tab : Z; it_bin : Z; it_el : Z }.

Section ixhtab_hpp.
Context {K : SlotStore} {El : Type} (Hash : El → Z) (Eq : El → El → bool).
Implicit Types (t : ixht slots El) (it o : cpp_ixht_iterator).

Definition cpp_ixht_create_bin : ixht slots El → Z → res (Z * ixht slots El) := ixht_create_bin.
Definition cpp_ixht_destroy_bin : ebin slots El → res (ebin slots El) := ixht_destroy_bin.
Definition cpp_ixht_get_params : Z → res (Z * Z * Z) := ixht_get_params.
Definition cpp_ixht_ctor (min_size : Z) : res (ixht slots El) := ixht_create min_size.
Definition cpp_ixht_default : res (ixht slots El) := cpp_ixht_ctor 8.
Definition cpp_ixht_dtor t : res (ixht slots El) := ixht_destroy t.
Definition cpp_ixht_do_1 : Z → hbin slots El → Z → El → action → res (do_result slots El) :=
  ixht_do_1 Eq.
Definition cpp_ixht_split_bin : ixht slots El → Z → res (ixht slots El) := ixht_split_bin Hash Eq.
Definition cpp_ixht_perform :
    ixht slots El → El → action → res (bool * option (Z * Z) * ixht slots El) :=
  ixht_perform Hash Eq.
Definition cpp_ixht_els_count t : Z := ixht_els_count t.
Definition cpp_ixht_iter_advance : ixht slots El → cpp_ixht_iter → res cpp_ixht_iter := ixht_iter_advance.
Definition cpp_ixht_iter_begin : ixht slots El → res cpp_ixht_iter := ixht_iter_begin.
Definition cpp_ixht_iter_valid : cpp_ixht_iter → bool := ixht_iter_valid.
Definition cpp_ixht_iter_next : ixht slots El → cpp_ixht_iter → res cpp_ixht_iter := ixht_iter_next.

(** ** The forward iterator; [t] is the table it points to *)

(** The outer loop of [advance], over the bins; the inner one is that of the
    C iterator ([ixht_iter_bin]). *)
Fixpoint cpp_ixht_advance_loop (fuel : nat) t (bi ei : Z) : res (Z * Z) :=
  if bi <? bins_num t then
    match fuel with
    | O => Timeout
    | S fuel =>
        eb ← arr_get (bins t) bi;
        '(found, ei) ← ixht_iter_bin (Z.to_nat (els_bound (hb eb) - ei)) (hb eb) ei;
        if (found : bool) then Ok (bi, ei)
        else
          let bi := u32 (bi + 1) in
          ei ← (if bi <? bins_num t then eb ← arr_get (bins t) bi; Ok (els_start eb) else Ok 0);
          cpp_ixht_advance_loop fuel t bi ei
    end
  else Ok (bi, ei).

Definition cpp_ixht_advance t it : res cpp_ixht_iterator :=
  '(bi, ei) ← cpp_ixht_advance_loop (Z.to_nat (bins_num t - it_bin it)) t (it_bin it) (it_el it);
  Ok (mk_ixht_iterator (tab it) bi ei).

(** [operator*], [operator->] *)
Definition cpp_ixht_deref t it : res El :=
  eb ← arr_get (bins t) (it_bin it); arr_get (els (hb eb)) (it_el it).
Definition cpp_ixht_arrow it : Z * Z := (it_bin it, it_el it).

(** [operator++ ()], [operator++ (int)] with the iterator it returns *)
Definition cpp_ixht_incr t it : res cpp_ixht_iterator :=
  cpp_ixht_advance t (mk_ixht_iterator (tab it) (it_bin it) (u32 (it_el it + 1))).
Definition cpp_ixht_post_incr t it : res (cpp_ixht_iterator * cpp_ixht_iterator) :=
  it' ← cpp_ixht_incr t it; Ok (it, it').

Definition cpp_ixht_eq it o : bool :=
  (tab it =? tab o) && (it_bin it =? it_bin o) && (it_el it =? it_el o).
Definition cpp_ixht_neq it o : bool := negb (cpp_ixht_eq it o).

Definition cpp_ixht_begin (this : Z) t : res cpp_ixht_iterator :=
  ei ← (if 0 <? bins_num t then eb ← arr_get (bins t) 0; Ok (els_start eb) else Ok 0);
  cpp_ixht_advance t (mk_ixht_iterator this 0 ei).
Definition cpp_ixht_end (this : Z) t : cpp_ixht_iterator := mk_ixht_iterator this (bins_num t) 0.

(** [for (El &e : t)], collecting the elements. *)
Fixpoint cpp_ixht_for (fuel : nat) t it last : res (list El) :=
  if cpp_ixht_neq it last then
    match fuel with
    | O => Timeout
    | S fuel =>
        e ← cpp_ixht_deref t it;
        it' ← cpp_ixht_incr t it;
        rest ← cpp_ixht_for fuel t it' last;
        Ok (e :: rest)
    end
  else Ok [].

Definition cpp_ixht_range (this : Z) t : res (list El) :=
  it ← cpp_ixht_begin this t;
  cpp_ixht_for (Z.to_nat (els_num t)) t it (cpp_ixht_end this t).
End ixhtab_hpp.

(** The public members of the class and of its iterator. *)
Record ixht_class (S El : Type) := mk_ixht_class {
  mx_ctor : Z → res (ixht S El);
  mx_dtor : ixht S El → res (ixht S El);
  mx_perform : ixht S El → El → action → res (bool * option (Z * Z) * ixht S El);
  mx_els_count : ixht S El → Z;
  mx_iter_begin : ixht S El → res cpp_ixht_iter;
  mx_iter_valid : cpp_ixht_iter → bool;
  mx_iter_next : ixht S El → cpp_ixht_iter → res cpp_ixht_iter;
  mx_begin : Z → ixht S El → res cpp_ixht_iterator;
  mx_end : Z → ixht S El → cpp_ixht_iterator;
  mx_incr : ixht S El → cpp_ixht_iterator → res cpp_ixht_iterator;
  mx_post_incr : ixht S El → cpp_ixht_iterator → res (cpp_ixht_iterator * cpp_ixht_iterator);
  mx_deref : ixht S El → cpp_ixht_iterator → res El;
  mx_arrow : cpp_ixht_iterator → Z * Z;
  mx_eq : cpp_ixht_iterator → cpp_ixht_iterator → bool;
  mx_neq : cpp_ixht_iterator → cpp_ixht_iterator → bool
}.

(** The class over a slot store: ixhtab.hpp, and ixhtab-v0.hpp with separate
    tag and index arrays. *)
Definition ixht_class_of (K : SlotStore) {El : Type} (Hash : El → Z) (Eq : El → El → bool) :
    ixht_class slots El :=
  mk_ixht_class slots El cpp_ixht_ctor cpp_ixht_dtor (cpp_ixht_perform Hash Eq) cpp_ixht_els_count
    cpp_ixht_iter_begin cpp_ixht_iter_valid cpp_ixht_iter_next cpp_ixht_begin cpp_ixht_end
    cpp_ixht_incr cpp_ixht_post_incr cpp_ixht_deref cpp_ixht_arrow cpp_ixht_eq cpp_ixht_neq.
Definition ixhtab_hpp (G : GroupOps) {El : Type} (Hash : El → Z) (Eq : El → El → bool) :=
  ixht_class_of (packed (C := ixht_config) G) Hash Eq.
Definition ixhtab_v0_hpp (G : GroupOps) {El : Type} (Hash : El → Z) (Eq : El → El → bool) :=
  ixht_class_of (apart (C := ixht_config) G) Hash Eq.
