(* ===== verification/HppV0.v ===== *)
(** ihtab-v0.hpp and ixhtab-v0.hpp: the methods of the first versions of the
    C++ classes.  They are those of the current classes ([IhtabHpp],
    [IxhtabHpp]) over the slot store with separate tag and index arrays
    ([CoreV0]), on any of the platforms of [HppGroups]. *)

From S2P Require Import Prelude Bits Groups GroupsV0 IxGroups HppGroups Probe Spec Store Core CoreV0.
From S2P Require Import Ihtab IhtabV0 IhtabHpp Ixhtab IxhtabV0 IxhtabHpp.

(** * ihtab-v0.hpp *)

(** [struct hbin_t] with [h7] and [indexes], and the fields of the class. *)
Definition v0_cpp_hbin (El : Type) : Type := hbin v0_slots El.
Definition v0_cpp_iht (El : Type) : Type := iht v0_slots El.
Definition v0_cpp_iht_iter : Type := iht_iter.
Definition v0_cpp_iht_iterator : Type := cpp_iht_iterator.

Section ihtab.
Context {G : GroupOps} {El : Type} (Hash : El → Z) (Eq : El → El → bool).
#[local] Instance v0_cpp_iht_store : SlotStore := apart (C := iht_config) G.

Definition v0_cpp_iht_ctor : Z → res (v0_cpp_iht El) := cpp_iht_ctor.
Definition v0_cpp_iht_dtor : v0_cpp_iht El → res (v0_cpp_iht El) := cpp_iht_dtor.
Definition v0_cpp_iht_destroy_bin : v0_cpp_hbin El → res (v0_cpp_hbin El) := cpp_iht_destroy_bin.
Definition v0_cpp_iht_do_1 : Z → v0_cpp_hbin El → El → action → res (do_result v0_slots El) :=
  cpp_iht_do_1 Hash Eq.
Definition v0_cpp_iht_rebuild : v0_cpp_iht El → res (v0_cpp_iht El) := cpp_iht_rebuild Hash Eq.
Definition v0_cpp_iht_perform : v0_cpp_iht El → El → action → res (bool * option Z * v0_cpp_iht El) :=
  cpp_iht_perform Hash Eq.
Definition v0_cpp_iht_els_count : v0_cpp_iht El → Z := cpp_iht_els_count.
Definition v0_cpp_iht_size : v0_cpp_iht El → Z := cpp_iht_size.
Definition v0_cpp_iht_iter_advance : v0_cpp_iht El → v0_cpp_iht_iter → res v0_cpp_iht_iter :=
  cpp_iht_iter_advance.
Definition v0_cpp_iht_iter_begin : v0_cpp_iht El → res v0_cpp_iht_iter := cpp_iht_iter_begin.
Definition v0_cpp_iht_iter_valid : v0_cpp_iht_iter → bool := cpp_iht_iter_valid.
Definition v0_cpp_iht_iter_next : v0_cpp_iht El → v0_cpp_iht_iter → res v0_cpp_iht_iter :=
  cpp_iht_iter_next.

(** The forward iterator. *)
Definition v0_cpp_iht_advance : v0_cpp_iht El → v0_cpp_iht_iterator → res v0_cpp_iht_iterator :=
  cpp_iht_advance.
Definition v0_cpp_iht_deref : v0_cpp_iht El → v0_cpp_iht_iterator → res El := cpp_iht_deref.
Definition v0_cpp_iht_arrow : v0_cpp_iht_iterator → Z := cpp_iht_arrow.
Definition v0_cpp_iht_incr : v0_cpp_iht El → v0_cpp_iht_iterator → res v0_cpp_iht_iterator :=
  cpp_iht_incr.
Definition v0_cpp_iht_post_incr :
    v0_cpp_iht El → v0_cpp_iht_iterator → res (v0_cpp_iht_iterator * v0_cpp_iht_iterator) :=
  cpp_iht_post_incr.
Definition v0_cpp_iht_eq : v0_cpp_iht_iterator → v0_cpp_iht_iterator → bool := cpp_iht_eq.
Definition v0_cpp_iht_neq : v0_cpp_iht_iterator → v0_cpp_iht_iterator → bool := cpp_iht_neq.
Definition v0_cpp_iht_begin : Z → v0_cpp_iht El → res v0_cpp_iht_iterator := cpp_iht_begin.
Definition v0_cpp_iht_end : Z → v0_cpp_iht El → v0_cpp_iht_iterator := cpp_iht_end.
End ihtab.

(** * ixhtab-v0.hpp *)

(** [struct ebin_t] with [h7] and [indexes], and the fields of the class. *)
Definition v0_cpp_ebin (El : Type) : Type := ebin v0_slots El.
Definition v0_cpp_ixht (El : Type) : Type := ixht v0_slots El.
Definition v0_cpp_ixht_iter : Type := ixht_iter.
Definition v0_cpp_ixht_iterator : Type := cpp_ixht_iterator.
Definition v0_cpp_ixht_get_params : Z → res (Z * Z * Z) := cpp_ixht_get_params.

Section ixhtab.
Context {G : GroupOps} {El : Type} (Hash : El → Z) (Eq : El → El → bool).
#[local] Instance v0_cpp_ixht_store : SlotStore := apart (C := ixht_config) G.

Definition v0_cpp_ixht_create_bin : v0_cpp_ixht El → Z → res (Z * v0_cpp_ixht El) :=
  cpp_ixht_create_bin.
Definition v0_cpp_ixht_destroy_bin : v0_cpp_ebin El → res (v0_cpp_ebin El) := cpp_ixht_destroy_bin.
Definition v0_cpp_ixht_ctor : Z → res (v0_cpp_ixht El) := cpp_ixht_ctor.
Definition v0_cpp_ixht_dtor : v0_cpp_ixht El → res (v0_cpp_ixht El) := cpp_ixht_dtor.
Definition v0_cpp_ixht_do_1 : Z → hbin v0_slots El → Z → El → action → res (do_result v0_slots El) :=
  cpp_ixht_do_1 Eq.
Definition v0_cpp_ixht_split_bin : v0_cpp_ixht El → Z → res (v0_cpp_ixht El) :=
  cpp_ixht_split_bin Hash Eq.
Definition v0_cpp_ixht_perform :
    v0_cpp_ixht El → El → action → res (bool * option (Z * Z) * v0_cpp_ixht El) :=
  cpp_ixht_perform Hash Eq.
Definition v0_cpp_ixht_els_count : v0_cpp_ixht El → Z := cpp_ixht_els_count.
Definition v0_cpp_ixht_iter_advance : v0_cpp_ixht El → v0_cpp_ixht_iter → res v0_cpp_ixht_iter :=
  cpp_ixht_iter_advance.
Definition v0_cpp_ixht_iter_begin : v0_cpp_ixht El → res v0_cpp_ixht_iter := cpp_ixht_iter_begin.
Definition v0_cpp_ixht_iter_valid : v0_cpp_ixht_iter → bool := cpp_ixht_iter_valid.
Definition v0_cpp_ixht_iter_next : v0_cpp_ixht El → v0_cpp_ixht_iter → res v0_cpp_ixht_iter :=
  cpp_ixht_iter_next.

(** The forward iterator. *)
Definition v0_cpp_ixht_advance : v0_cpp_ixht El → v0_cpp_ixht_iterator → res v0_cpp_ixht_iterator :=
  cpp_ixht_advance.
Definition v0_cpp_ixht_deref : v0_cpp_ixht El → v0_cpp_ixht_iterator → res El := cpp_ixht_deref.
Definition v0_cpp_ixht_arrow : v0_cpp_ixht_iterator → Z * Z := cpp_ixht_arrow.
Definition v0_cpp_ixht_incr : v0_cpp_ixht El → v0_cpp_ixht_iterator → res v0_cpp_ixht_iterator :=
  cpp_ixht_incr.
Definition v0_cpp_ixht_post_incr :
    v0_cpp_ixht El → v0_cpp_ixht_iterator → res (v0_cpp_ixht_iterator * v0_cpp_ixht_iterator) :=
  cpp_ixht_post_incr.
Definition v0_cpp_ixht_eq : v0_cpp_ixht_iterator → v0_cpp_ixht_iterator → bool := cpp_ixht_eq.
Definition v0_cpp_ixht_neq : v0_cpp_ixht_iterator → v0_cpp_ixht_iterator → bool := cpp_ixht_neq.
Definition v0_cpp_ixht_begin : Z → v0_cpp_ixht El → res v0_cpp_ixht_iterator := cpp_ixht_begin.
Definition v0_cpp_ixht_end : Z → v0_cpp_ixht El → v0_cpp_ixht_iterator := cpp_ixht_end.
End ixhtab.

(** * The constants *)

(** The four headers use the constants of the C headers. *)
Lemma hpp_constants :
  (IhtHpp.GROUP_SIZE = IHT_GROUP_SIZE ∧ IhtHpp.GROUP_BYTES = GROUP_BYTES (C := iht_config) ∧
    IhtHpp.EMPTY_H7 = IHT_EMPTY_H7 ∧ IhtHpp.DELETED_H7 = IHT_DELETED_H7 ∧
    IhtHpp.LF_FACTOR = IHT_LF_FACTOR ∧ IhtHpp.LF_DIVISOR = IHT_LF_DIVISOR) ∧
  (IxhtHpp.GROUP_SIZE = IXHT_GROUP_SIZE ∧ IxhtHpp.GROUP_BYTES = GROUP_BYTES (C := ixht_config) ∧
    IxhtHpp.EMPTY_H7 = IXHT_EMPTY_H7 ∧ IxhtHpp.DELETED_H7 = IXHT_DELETED_H7 ∧
    IxhtHpp.MAX_BIN_SIZE_POWER = IXHT_MAX_BIN_SIZE_POWER) ∧
  (IhtV0Hpp.GROUP_SIZE = IHT_GROUP_SIZE ∧ IhtV0Hpp.EMPTY_H7 = V0_EMPTY_H7 ∧
    IhtV0Hpp.INDEX_DELETED = INDEX_DELETED (C := iht_config) ∧
    IhtV0Hpp.LF_FACTOR = IHT_LF_FACTOR ∧ IhtV0Hpp.LF_DIVISOR = IHT_LF_DIVISOR) ∧
  (IxhtV0Hpp.GROUP_SIZE = IXHT_GROUP_SIZE ∧ IxhtV0Hpp.EMPTY_H7 = V0_EMPTY_H7 ∧
    IxhtV0Hpp.INDEX_DELETED = INDEX_DELETED (C := ixht_config) ∧
    IxhtV0Hpp.MAX_BIN_SIZE_POWER = IXHT_MAX_BIN_SIZE_POWER).
Proof. by split_and!. Qed.
