(* ===== verification/HppProps.v ===== *)
(** The forward iterators of the C++ classes: range-based [for] visits what the
    C iterator visits, in the same order, and stops at [end ()]. *)

From S2P Require Import Prelude Bits Groups IxGroups GroupsV0 HppGroups Probe Spec Store Core CoreV0.
From S2P Require Import Ihtab IhtabCorrect IhtabHpp Ixhtab IxhtabCorrect IxhtabHpp Entry.

(** * ihtab.hpp *)

Section iht.
Context {K : SlotStore} {El : Type}.
Implicit Types (t : iht slots El).

(** The position where the C iterator and the C++ iterator stand. *)
Definition iht_same t (it : iht_iter) (idx : Z) : Prop :=
  match Ihtab.ptr it with
  | Some p => idx = p ∧ p = Ihtab.el_idx it ∧ idx < els_bound (bin t)
  | None => idx = els_bound (bin t)
  end.

Lemma cpp_iht_advance_sim n t i it :
  els_bound (bin t) < 2 ^ 64 → 0 ≤ i ≤ els_bound (bin t) → iht_iter_loop n t i = Ok it →
  ∃ idx, cpp_iht_advance_loop n t i = Ok idx ∧ 0 ≤ idx ∧ iht_same t it idx.
Proof.
  intros Hb. revert i. induction n as [|n IH]; intros i Hi;
    cbn [iht_iter_loop cpp_iht_advance_loop];
    destruct (Z.ltb_spec i (els_bound (bin t))); try done.
  - intros [= <-]. exists i. unfold iht_same. cbn. split_and!; [done|lia|lia].
  - intros (del & -> & E)%bind_Ok. step_ok. destruct (negb del).
    + injection E as <-. exists i. unfold iht_same. cbn. split_and!; [done|lia|done|done|done].
    + apply IH; [|done]. unfold u64. rewrite Z.mod_small by lia. lia.
  - intros [= <-]. exists i. unfold iht_same. cbn. split_and!; [done|lia|lia].
Qed.

Lemma cpp_iht_for_sim fuel this t it idx l :
  els_bound (bin t) < 2 ^ 64 → 0 ≤ idx → iht_same t it idx → iht_collect fuel t it = Ok l →
  cpp_iht_for fuel t (mk_iht_iterator this idx) (cpp_iht_end this t) = Ok l.
Proof.
  intros Hb. revert it idx l. induction fuel as [|fuel IH]; intros it idx l H0 Hs;
    cbn [iht_collect cpp_iht_for]; unfold iht_same in Hs; unfold cpp_iht_neq, cpp_iht_end;
    cbn [htab it_idx]; rewrite Z.eqb_refl; cbn [negb orb];
    destruct (Ihtab.ptr it) as [p|]; try (subst idx; rewrite Z.eqb_refl; intros [= <-]; done).
  - done.
  - destruct Hs as (-> & Ep & Hlt). rewrite (proj2 (Z.eqb_neq p _)) by lia. cbn [negb].
    intros (e & Ee & E)%bind_Ok. apply bind_Ok in E as (it' & En & E).
    apply bind_Ok in E as (rest & Er & [= <-]).
    unfold cpp_iht_deref. cbn [it_idx]. rewrite Ee. step_ok.
    unfold iht_iter_next, iht_iter_advance in En. cbn [Ihtab.el_idx] in En. rewrite <-Ep in En.
    unfold cpp_iht_incr, cpp_iht_advance. cbn [htab it_idx].
    unfold u64 in *. rewrite Z.mod_small in * by lia.
    destruct (cpp_iht_advance_sim _ t (p + 1) it' Hb ltac:(lia) En) as (idx' & -> & H0' & Hs').
    repeat step_ok. pose proof (IH it' idx' rest H0' Hs' Er) as Efor.
    unfold cpp_iht_end in Efor. by rewrite Efor.
Qed.

(** Range-based [for] computes what the loop over the C iterator does. *)
Lemma cpp_iht_range_sim this t l :
  0 ≤ els_bound (bin t) < 2 ^ 64 → iht_elements t = Ok l → cpp_iht_range this t = Ok l.
Proof.
  intros Hb. unfold iht_elements, iht_iter_begin, iht_iter_advance. cbn [Ihtab.el_idx].
  intros (it & Ei & E)%bind_Ok.
  unfold cpp_iht_range, cpp_iht_begin, cpp_iht_advance. cbn [it_idx htab].
  destruct (cpp_iht_advance_sim _ t 0 it ltac:(lia) ltac:(lia) Ei) as (idx & -> & H0 & Hs).
  repeat step_ok. apply (cpp_iht_for_sim _ this t it idx l); [lia|done|done|done].
Qed.
End iht.

(** * ixhtab.hpp *)

Section ixht.
Context {K : SlotStore} {El : Type}.
Implicit Types (t : ixht slots El).

Definition ixht_same t (it : ixht_iter) (bi ei : Z) : Prop :=
  match ptr it with
  | Some p => p = (bi, ei) ∧ bin_idx it = bi ∧ el_idx it = ei ∧ bi < bins_num t
  | None => bi = bins_num t ∧ ei = 0
  end.

Lemma cpp_ixht_advance_sim n t bi ei it :
  bins_num t < 2 ^ 32 → 0 ≤ bi < bins_num t → ixht_iter_loop n t bi ei = Ok it →
  ∃ bi' ei', cpp_ixht_advance_loop n t bi ei = Ok (bi', ei') ∧ 0 ≤ bi' ∧ ixht_same t it bi' ei'.
Proof.
  intros Hn. revert bi ei. induction n as [|n IH]; intros bi ei Hbi;
    cbn [ixht_iter_loop cpp_ixht_advance_loop];
    rewrite (proj2 (Z.ltb_lt _ _)) by lia; [done|].
  intros (eb & -> & E)%bind_Ok. step_ok. apply bind_Ok in E as ([[] ei1] & -> & E); step_ok.
  - injection E as <-. exists bi, ei1. unfold ixht_same. cbn. split_and!; [done|lia|done..|lia].
  - unfold u32 in *. rewrite Z.mod_small in * by lia. cbv zeta in *.
    destruct (Z.ltb_spec (bi + 1) (bins_num t)) as [Hlt|Hge].
    + apply bind_Ok in E as (ei2 & -> & E). step_ok. apply IH; [lia|done].
    + repeat step_ok. rewrite ok_bind in E. exists (bi + 1), 0.
      assert ((bi + 1 <? bins_num t) = false) as Hf by (apply Z.ltb_ge; lia).
      destruct n; cbn [ixht_iter_loop cpp_ixht_advance_loop] in *; rewrite Hf in *;
        injection E as <-; unfold ixht_same; cbn; split_and!; (done || lia).
Qed.

Lemma cpp_ixht_for_sim fuel this t it bi ei l :
  bins_num t < 2 ^ 32 → 0 ≤ bi → ixht_same t it bi ei → ixht_collect fuel t it = Ok l →
  cpp_ixht_for fuel t (mk_ixht_iterator this bi ei) (cpp_ixht_end this t) = Ok l.
Proof.
  intros Hn. revert it bi ei l. induction fuel as [|fuel IH]; intros it bi ei l H0 Hs;
    cbn [ixht_collect cpp_ixht_for]; unfold ixht_same in Hs;
    unfold cpp_ixht_neq, cpp_ixht_eq, cpp_ixht_end; cbn [tab it_bin it_el];
    rewrite Z.eqb_refl; cbn [andb];
    destruct (ptr it) as [p|]; try (destruct Hs as [-> ->]; rewrite !Z.eqb_refl; by intros [= <-]).
  - done.
  - destruct Hs as (-> & Eb & Ee & Hlt). rewrite (proj2 (Z.eqb_neq bi _)) by lia. cbn [negb andb].
    intros (e & Er & E)%bind_Ok. apply bind_Ok in E as (it' & En & E).
    apply bind_Ok in E as (rest & Erest & [= <-]).
    unfold ixht_read in Er. cbn [fst snd] in Er.
    unfold cpp_ixht_deref. cbn [it_bin it_el]. rewrite Er. step_ok.
    unfold ixht_iter_next, ixht_iter_advance in En. cbn [bin_idx el_idx] in En.
    rewrite Eb, Ee in En. unfold cpp_ixht_incr, cpp_ixht_advance. cbn [tab it_bin it_el].
    destruct (cpp_ixht_advance_sim _ t bi (u32 (ei + 1)) it' Hn ltac:(lia) En)
      as (bi' & ei' & -> & H0' & Hs').
    repeat step_ok. pose proof (IH it' bi' ei' rest H0' Hs' Erest) as Efor.
    unfold cpp_ixht_end in Efor. by rewrite Efor.
Qed.

(** Range-based [for] computes what the loop over the C iterator does. *)
Lemma cpp_ixht_range_sim this t l :
  0 < bins_num t < 2 ^ 32 → ixht_elements t = Ok l → cpp_ixht_range this t = Ok l.
Proof.
  intros Hn. unfold ixht_elements, ixht_iter_begin, cpp_ixht_range, cpp_ixht_begin.
  rewrite (proj2 (Z.ltb_lt 0 _)) by lia.
  intros (it & E0 & E)%bind_Ok. apply bind_Ok in E0 as (ei & -> & Ei). step_ok.
  unfold ixht_iter_advance in Ei. cbn [bin_idx el_idx] in Ei.
  unfold cpp_ixht_advance. cbn [tab it_bin it_el].
  destruct (cpp_ixht_advance_sim _ t 0 ei it ltac:(lia) ltac:(lia) Ei) as (bi' & ei' & -> & H0 & Hs).
  repeat step_ok. apply (cpp_ixht_for_sim _ this t it bi' ei' l); [lia|done|done|done].
Qed.
End ixht.

(** * Properties *)

Section properties.
Context {K : SlotStore} {V : SlotView K}.
Context {El : Type} (Hash : El → Z) (Eq : El → El → bool) `{!KeyLaws Hash Eq}.

(** C19: The loop over the C iterator of ihtab.h, and [for (El &e : t)] over a
    table of the C++ class ihtab, visit every element once, in insertion
    order, and end; [begin ()] equals [end ()] exactly when the table is
    empty. *)
Theorem iht_iteration `{!SlotLaws iht_config K V} (this : Z) (t : iht slots El) l :
  iht_rep Hash Eq t l →
  iht_elements t = Ok l ∧ cpp_iht_range this t = Ok l ∧
  ∃ it, cpp_iht_begin this t = Ok it ∧ (cpp_iht_eq it (cpp_iht_end this t) = true ↔ l = []).
Proof.
  intros Ht. pose proof (iht_elements_rep Hash Eq t l Ht) as E.
  assert (0 ≤ els_bound (bin t) < 2 ^ 64) as Hb.
  { destruct Ht as (ng & Hb & _). apply bin_rep_facts in Hb. lia. }
  pose proof (cpp_iht_range_sim this t l Hb E) as Er. split; [done|]. split; [done|].
  unfold cpp_iht_range in Er. apply bind_Ok in Er as (it & Eb & Er). exists it. split; [done|].
  assert (cpp_iht_neq it (cpp_iht_end this t) = negb (cpp_iht_eq it (cpp_iht_end this t))) as Hneq
    by (unfold cpp_iht_neq, cpp_iht_eq; by destruct (_ =? _), (_ =? _)).
  destruct (cpp_iht_eq it _); destruct (Z.to_nat (els_bound (bin t)));
    cbn [cpp_iht_for] in Er; rewrite Hneq in Er; cbn [negb] in Er; try done.
  - by injection Er as <-.
  - by injection Er as <-.
  - split; [done|]. intros ->. apply bind_Ok in Er as (? & _ & Er).
    apply bind_Ok in Er as (? & _ & Er). by apply bind_Ok in Er as (? & _ & Er).
Qed.

(** C20: The loop over the C iterator of ixhtab.h, and [for (El &e : t)] over a
    table of the C++ class ixhtab, visit every element exactly once, bin by bin
    in the same order, and end: advancing the C++ iterator past the last bin
    gives exactly the value of [end ()]. *)
Theorem ixht_iteration `{!SlotLaws ixht_config K V} (this : Z) (t : ixht slots El) l :
  ixht_rep Hash Eq t l →
  ∃ l', ixht_elements t = Ok l' ∧ cpp_ixht_range this t = Ok l' ∧ l' ≡ₚ l.
Proof.
  intros Ht. destruct (ixht_elements_rep Hash Eq t l Ht) as (l' & E & Hp).
  exists l'. split; [done|]. split; [|done]. apply cpp_ixht_range_sim; [|done].
  destruct Ht as (bc & dc & ls & Hok & _). pose proof (xo_bins_num Hok). pose proof (xo_few Hok).
  pose proof (xo_fit Hok). destruct (xo_dir_ok Hok 0) as (k & _ & Hk); [|lia].
  pose proof (xo_depth Hok). split; [done|]. apply Z.pow_pos_nonneg; lia.
Qed.
End properties.

(** * Instances on concrete tables *)

Definition h1 : entry := mk_entry 42 100.
Definition h2 : entry := mk_entry 7 200.

(** The class of ihtab-v0.hpp on the NEON platform. *)
Lemma iht_iteration_witness :
  ∃ t t' rs, m_ctor _ _ (ihtab_v0_hpp IhtV0HppNEON.ops entry_hash entry_eq) 8 = Ok t ∧
    run (I := iht_table (K := apart (C := iht_config) IhtV0HppNEON.ops) entry_hash entry_eq)
      [OpInsert h1; OpInsert h2; OpDelete h1; OpInsert h1] t = Ok (rs, t') ∧
    cpp_iht_range (K := apart (C := iht_config) IhtV0HppNEON.ops) 0 t' = Ok [h2; h1].
Proof.
  destruct (iht_create_Ok (K := apart (C := iht_config) IhtV0HppNEON.ops) entry_hash entry_eq 8)
    as (t & E & Ht & _); [lia|].
  destruct (run_refines
    (TableLaws0 := iht_table_laws (K := apart (C := iht_config) IhtV0HppNEON.ops) entry_hash entry_eq)
    [OpInsert h1; OpInsert h2; OpDelete h1; OpInsert h1] t [] Ht) as (rs & t' & Er & _ & Ht');
    [cbn; lia|].
  exists t, t', rs. split; [exact E|]. split; [exact Er|].
  destruct (iht_iteration (K := apart (C := iht_config) IhtV0HppNEON.ops) entry_hash entry_eq 0 t'
    [h2; h1] Ht') as (_ & Hr & _). exact Hr.
Defined.

(** The class of ixhtab.hpp on the SSE2 platform. *)
Lemma ixht_iteration_witness :
  ∃ t t' rs l', mx_ctor _ _ (ixhtab_hpp IxhtHppSSE2.ops entry_hash entry_eq) 8 = Ok t ∧
    run (I := ixht_table (K := packed (C := ixht_config) IxhtHppSSE2.ops) entry_hash entry_eq)
      [OpInsert h1; OpInsert h2; OpDelete h1] t = Ok (rs, t') ∧
    cpp_ixht_range (K := packed (C := ixht_config) IxhtHppSSE2.ops) 0 t' = Ok l' ∧ l' ≡ₚ [h2].
Proof.
  destruct (ixht_create_Ok (K := packed (C := ixht_config) IxhtHppSSE2.ops) entry_hash entry_eq 8)
    as (t & n & ng & E & Ht & _); [lia|].
  destruct (run_refines
    (TableLaws0 := ixht_table_laws (K := packed (C := ixht_config) IxhtHppSSE2.ops) entry_hash entry_eq)
    [OpInsert h1; OpInsert h2; OpDelete h1] t [] Ht) as (rs & t' & Er & _ & Ht'); [cbn; lia|].
  destruct (ixht_iteration (K := packed (C := ixht_config) IxhtHppSSE2.ops) entry_hash entry_eq 0 t'
    [h2] Ht') as (l' & _ & Hr & Hp).
  exists t, t', rs, l'. split; [exact E|]. split; [exact Er|]. split; [exact Hr|exact Hp].
Defined.
