(* ===== verification/HppCopies.v ===== *)
(** Objects of the C++ classes on a heap.  An object holds numbers and pointers;
    the class templates declare no copy constructor or assignment, so a copy
    has the numbers and the pointers of the original.  The blocks of an [ihtab]
    are one entry of the heap here, since it allocates and frees them together;
    freed blocks stay entries. *)

From stdpp Require Import gmap.
From S2P Require Import Prelude Bits Groups IxGroups Probe Spec Store Core Ihtab IhtabCorrect Entry.
From S2P Require Ixhtab IxhtabCorrect.

(** The numbers [F] and the blocks [M] of a table [T]. *)
Class Object (T F M : Type) := {
  ob_fields : T → F;
  ob_blocks : T → M;
  ob_table : F → M → T;
  ob_eta t : ob_table (ob_fields t) (ob_blocks t) = t
}.

Record object (F : Type) := mk_object { fields : F; addr : nat }.
Arguments mk_object {F} _ _.
Arguments fields {F} _.
Arguments addr {F} _.

Section objects.
Context {T F M : Type} {O : Object T F M}.
Implicit Types (h : gmap nat M) (o : object F) (t : T).

(** The table that an object is in the heap. *)
Definition this_table h o : res T :=
  match h !! addr o with Some m => Ok (ob_table (fields o) m) | None => UB OutOfBounds end.

(** The table changed in place. *)
Definition put_table h o t : gmap nat M * object F :=
  (<[addr o := ob_blocks t]> h, mk_object (ob_fields t) (addr o)).

(** New blocks. *)
Definition new_table h t : gmap nat M * object F :=
  let a := fresh (dom h) in
  (<[a := ob_blocks t]> h, mk_object (ob_fields t) a).

(** The copy constructor and the copy assignment that the compiler declares:
    member by member. *)
Definition cpp_copy o : object F := mk_object (fields o) (addr o).

Lemma this_table_put h o t h' o' : put_table h o t = (h', o') → this_table h' o' = Ok t.
Proof. intros [= <- <-]. unfold this_table. cbn. by rewrite lookup_insert_eq, ob_eta. Qed.

Lemma this_table_new h o t h' o' : new_table h t = (h', o') → this_table h' o' = Ok t ∧ addr o' ∉ dom h.
Proof.
  intros [= <- <-]. unfold this_table. cbn. rewrite lookup_insert_eq, ob_eta. split; [done|]. apply is_fresh.
Qed.
End objects.

(** * ihtab.hpp *)

Section iht.
Context {K : SlotStore} {El : Type} (Hash : El → Z) (Eq : El → El → bool).

Record iht_fields := mk_iht_fields { f_els_num : Z; f_els_bound : Z; f_groups_mask : Z }.
Record iht_blocks := mk_iht_blocks { f_els : arr El; f_deleted : arr Z; f_groups : slots }.

#[export, refine] Instance iht_object : Object (iht slots El) iht_fields iht_blocks := {
  ob_fields t := mk_iht_fields (els_num t) (els_bound (bin t)) (groups_mask (bin t));
  ob_blocks t := mk_iht_blocks (els (bin t)) (deleted (bin t)) (groups (bin t));
  ob_table f m := mk_iht (f_els_num f) (mk_hbin (f_els_bound f) (f_els m) (f_deleted m) (f_groups m) (f_groups_mask f))
}.
Proof. by intros [? []]. Defined.

Implicit Types (h : gmap nat iht_blocks) (o : object iht_fields).

Definition cpp_iht_new h (min_size : Z) : res (gmap nat iht_blocks * object iht_fields) :=
  t ← iht_create min_size; Ok (new_table h t).

(** [~ihtab ()]: the blocks are freed where they are. *)
Definition cpp_iht_del h o : res (gmap nat iht_blocks) :=
  t ← this_table h o;
  t' ← iht_destroy t;
  Ok (put_table h o t').1.

(** The capacity check of [perform]: a rebuild makes new blocks and frees the
    old ones. *)
Definition cpp_iht_full (t : iht slots El) : bool :=
  let indexes_size := u64 (u64 (groups_mask (bin t) + 1) * IHT_GROUP_SIZE) in
  u64 (u64 (indexes_size * IHT_LF_FACTOR) / IHT_LF_DIVISOR - 1) <=? els_bound (bin t).

Definition cpp_iht_room h o : res (gmap nat iht_blocks * object iht_fields) :=
  t ← this_table h o;
  if cpp_iht_full t then
    t' ← iht_rebuild Hash Eq t;
    h ← cpp_iht_del h o;
    Ok (new_table h t')
  else Ok (h, o).

Definition cpp_iht_call h o (el : El) (act : action) : res (bool * option Z * gmap nat iht_blocks * object iht_fields) :=
  '(h, o) ← (if action_code INSERT <=? action_code act then cpp_iht_room h o else Ok (h, o));
  t ← this_table h o;
  '(found, r, num, b) ← iht_do_1 Hash Eq (els_num t) (bin t) el act;
  let '(h, o) := put_table h o (mk_iht num b) in
  Ok (found, r, h, o).

(** [*res = el] *)
Definition cpp_iht_store h o (slot : Z) (el : El) : res (gmap nat iht_blocks) :=
  t ← this_table h o;
  t' ← iht_write t slot el;
  Ok (put_table h o t').1.
End iht.
Arguments iht_blocks {K} El.

(** * ixhtab.hpp *)

(** The directory and the array of bins are reallocated separately, each when
    its capacity changes, so they have entries of their own; the blocks of a
    bin are named by the array only. *)
Section ixht.
Import Ixhtab.
Context {K : SlotStore} {El : Type} (Hash : El → Z) (Eq : El → El → bool).

Record ixht_object := mk_ixht_object {
  g_els_num : Z; g_max_depth : Z; g_bin_mask : Z;
  g_dir : nat; g_dir_capacity : Z;
  g_bins : nat; g_bins_num : Z; g_bins_capacity : Z
}.
Record ixht_heap := mk_ixht_heap { dirs : gmap nat (arr Z); bin_arrays : gmap nat (arr (ebin slots El)) }.
Implicit Types (h : ixht_heap) (o : ixht_object) (t : ixht slots El).

Definition ixht_this h o : res (ixht slots El) :=
  match dirs h !! g_dir o, bin_arrays h !! g_bins o with
  | Some d, Some b => Ok (mk_ixht (g_els_num o) (g_max_depth o) (g_bin_mask o) d (g_dir_capacity o) b
      (g_bins_num o) (g_bins_capacity o))
  | _, _ => UB OutOfBounds
  end.

(** A block that is changed in place, or moved by [realloc], which frees the
    old one. *)
Definition put_block {B} (m : gmap nat (arr B)) (a : nat) (moved : bool) (x : arr B) : gmap nat (arr B) * nat :=
  if moved then let a' := fresh (dom m) in (<[a' := x]> (<[a := Freed]> m), a') else (<[a := x]> m, a).

Definition ixht_put h o t : ixht_heap * ixht_object :=
  let '(ds, d) := put_block (dirs h) (g_dir o) (negb (dir_capacity t =? g_dir_capacity o)) (dir t) in
  let '(bs, b) := put_block (bin_arrays h) (g_bins o) (negb (bins_capacity t =? g_bins_capacity o)) (bins t) in
  (mk_ixht_heap ds bs,
   mk_ixht_object (els_num t) (max_depth t) (bin_mask t) d (dir_capacity t) b (bins_num t) (bins_capacity t)).

Definition cpp_ixht_new h (min_size : Z) : res (ixht_heap * ixht_object) :=
  t ← ixht_create min_size;
  let d := fresh (dom (dirs h)) in
  let b := fresh (dom (bin_arrays h)) in
  Ok (mk_ixht_heap (<[d := dir t]> (dirs h)) (<[b := bins t]> (bin_arrays h)),
      mk_ixht_object (els_num t) (max_depth t) (bin_mask t) d (dir_capacity t) b (bins_num t) (bins_capacity t)).

(** The copy that the compiler declares. *)
Definition cpp_ixht_copy o : ixht_object :=
  mk_ixht_object (g_els_num o) (g_max_depth o) (g_bin_mask o) (g_dir o) (g_dir_capacity o) (g_bins o)
    (g_bins_num o) (g_bins_capacity o).

(** [~ixhtab ()] *)
Definition cpp_ixht_del h o : res ixht_heap :=
  t ← ixht_this h o;
  t' ← ixht_destroy t;
  Ok (ixht_put h o t').1.

Definition cpp_ixht_call h o (el : El) (act : action) : res (bool * option (Z * Z) * ixht_heap * ixht_object) :=
  t ← ixht_this h o;
  '(found, r, t') ← ixht_perform Hash Eq t el act;
  let '(h, o) := ixht_put h o t' in
  Ok (found, r, h, o).
End ixht.
Arguments ixht_heap {K} El.

(** * Objects with blocks of their own *)

Section own.
Context {K : SlotStore} {V : SlotView K} `{!SlotLaws iht_config K V}.
Context {El : Type} (Hash : El → Z) (Eq : El → El → bool) `{!KeyLaws Hash Eq}.
Implicit Types (h : gmap nat (iht_blocks El)) (o : object iht_fields) (t : iht slots El) (l : list El) (el : El).

(** The other entries of the heap are as they were, and none of them has
    become the object's. *)
Definition others_kept h o h' o' : Prop :=
  ∀ a, a ∈ dom h → a ≠ addr o → h' !! a = h !! a ∧ a ≠ addr o'.

Lemma this_table_dom h o t : this_table h o = Ok t → addr o ∈ dom h.
Proof. unfold this_table. rewrite elem_of_dom. by destruct (h !! addr o) eqn:E. Qed.

Lemma cpp_iht_del_others h o h' a : cpp_iht_del h o = Ok h' → a ≠ addr o → h' !! a = h !! a.
Proof.
  unfold cpp_iht_del. intros (t & _ & (t' & _ & [= <-])%bind_Ok)%bind_Ok Ha. cbn. by rewrite lookup_insert_ne.
Qed.

Lemma cpp_iht_del_dom h o h' : cpp_iht_del h o = Ok h' → dom h' = dom h.
Proof.
  unfold cpp_iht_del. intros (t & Et & (t' & _ & [= <-])%bind_Ok)%bind_Ok. cbn.
  apply this_table_dom in Et. rewrite dom_insert_L. set_solver.
Qed.

(** After a rebuild the blocks that the object had are freed. *)
Definition old_freed h o h' : Prop := ∃ hd, cpp_iht_del h o = Ok hd ∧ h' !! addr o = hd !! addr o.

(** The rebuild that the capacity test asks for, on the heap. *)
Lemma cpp_iht_room_ok h o t t1 :
  this_table h o = Ok t → iht_make_room Hash Eq t = Ok t1 →
  ∃ h1 o1, cpp_iht_room Hash Eq h o = Ok (h1, o1) ∧ this_table h1 o1 = Ok t1 ∧ others_kept h o h1 o1 ∧
    (cpp_iht_full t = true → old_freed h o h1 ∧ addr o1 ≠ addr o).
Proof.
  intros Et Hr. unfold cpp_iht_room. rewrite Et. step_ok. change (iht_make_room Hash Eq t) with (if cpp_iht_full t then iht_rebuild Hash Eq t else Ok t) in Hr.
  destruct (cpp_iht_full t); [|injection Hr as <-; exists h, o; by split_and!].
  rewrite Hr. step_ok. assert (∃ h1, cpp_iht_del h o = Ok h1) as (h1 & Ed).
  { unfold cpp_iht_del, iht_destroy. rewrite Et. step_ok. unfold iht_rebuild in Hr.
    destruct (iht_rebuild_sizes t) as [isz esz]. apply bind_Ok in Hr as (rb & _ & Hr).
    apply bind_Ok in Hr as ([num rb'] & _ & Hr). apply bind_Ok in Hr as (b & -> & _). by eexists. }
  rewrite Ed. step_ok. destruct (new_table h1 t1) as [h2 o2] eqn:En.
  destruct (this_table_new h1 o t1 h2 o2 En) as [Et2 Hfresh]. rewrite (cpp_iht_del_dom h o h1 Ed) in Hfresh.
  pose proof (this_table_dom h o t Et) as Hdom. injection En as <- <-. cbn in Hfresh.
  eexists _, _. split; [done|]. split; [done|]. split.
  - intros a Ha Hne. split; [|cbn; congruence]. rewrite lookup_insert_ne by congruence. by eapply cpp_iht_del_others.
  - intros _. split; [|cbn; congruence]. exists h1. split; [done|]. by rewrite lookup_insert_ne by congruence.
Qed.

(** A call acts on the object as [iht_perform] does on its table. *)
Lemma cpp_iht_call_ok h o t el act found r t' :
  this_table h o = Ok t → iht_perform Hash Eq t el act = Ok (found, r, t') →
  ∃ h' o', cpp_iht_call Hash Eq h o el act = Ok (found, r, h', o') ∧ this_table h' o' = Ok t' ∧ others_kept h o h' o' ∧
    (act = INSERT → cpp_iht_full t = true → old_freed h o h').
Proof.
  intros Et Hp. unfold iht_perform in Hp. apply bind_Ok in Hp as (t1 & E1 & Hp).
  assert (∃ h1 o1, (if action_code INSERT <=? action_code act then cpp_iht_room Hash Eq h o else Ok (h, o)) = Ok (h1, o1) ∧
    this_table h1 o1 = Ok t1 ∧ others_kept h o h1 o1 ∧
    (act = INSERT → cpp_iht_full t = true → old_freed h o h1 ∧ addr o1 ≠ addr o)) as (h1 & o1 & Er & Et1 & Ho & Hf).
  { destruct act; cbn in E1 |- *; try (injection E1 as <-; exists h, o; by split_and!).
    destruct (cpp_iht_room_ok h o t t1 Et E1) as (h1 & o1 & ? & ? & ? & ?). by exists h1, o1; split_and!. }
  apply bind_Ok in Hp as ([[[f1 r1] n1] b1] & Ed & Hp). injection Hp as <- <- <-.
  unfold cpp_iht_call. rewrite Er. step_ok. rewrite Et1. step_ok. rewrite Ed. step_ok.
  destruct (put_table h1 o1 (mk_iht n1 b1)) as [h' o'] eqn:Ep. exists h', o'. split; [done|].
  split; [by eapply this_table_put|]. injection Ep as <- <-. split.
  - intros a Ha Hne. destruct (Ho a Ha Hne) as [<- Hne']. cbn. by rewrite lookup_insert_ne.
  - intros Hact Hfull. destruct (Hf Hact Hfull) as [(hd & Ed' & Eh) Hne]. exists hd. by rewrite lookup_insert_ne.
Qed.

Lemma cpp_iht_del_ok h o t l :
  this_table h o = Ok t → iht_rep Hash Eq t l →
  ∃ h' t', cpp_iht_del h o = Ok h' ∧ this_table h' o = Ok t' ∧
    iht_destroy t' = UB DoubleFree ∧ ∀ el, iht_perform Hash Eq t' el FIND = UB UseAfterFree.
Proof.
  intros Et (ng & Hb & _). pose proof (bin_rep_facts Hash Eq _ _ _ Hb) as (Hng & Hmask & _).
  unfold cpp_iht_del, iht_destroy. rewrite Et. step_ok.
  destruct (iht_destroy_bin_Ok Hash Eq ng _ l Hb) as (s & -> & Hs). do 2 step_ok.
  eexists _, (mk_iht (els_num t) (mk_hbin (els_bound (bin t)) Freed Freed s (groups_mask (bin t)))).
  split; [done|]. split.
  - unfold this_table in *. cbn. rewrite lookup_insert_eq. destruct (h !! addr o) as [m|]; [|done].
    injection Et as <-. done.
  - split; [done|]. intros el. rewrite iht_perform_nop by done. unfold iht_do_1.
    rewrite bin_do_1_freed; [done|exact Hs|]. cbn [groups_mask bin]. lia.
Qed.

(** A heap on which the blocks of an object have been freed. *)
Definition dangling h o : Prop :=
  cpp_iht_del h o = UB DoubleFree ∧ ∀ el, cpp_iht_call Hash Eq h o el FIND = UB UseAfterFree.

Lemma dangling_table h o t :
  this_table h o = Ok t → iht_destroy t = UB DoubleFree → (∀ el, iht_perform Hash Eq t el FIND = UB UseAfterFree) →
  dangling h o.
Proof.
  intros Et Hd Hf. split; [unfold cpp_iht_del; rewrite Et; step_ok; by rewrite Hd|].
  intros el. specialize (Hf el). rewrite iht_perform_nop in Hf by done. unfold cpp_iht_call. cbn. rewrite Et. step_ok.
  destruct (iht_do_1 _ _ _ _ _ _) as [[[[? ?] ?] ?]| |]; [done|by injection Hf as ->|done].
Qed.

Lemma this_table_same h h' o : h' !! addr o = h !! addr o → this_table h' o = this_table h o.
Proof. unfold this_table. by intros ->. Qed.

(** A rebuild frees the blocks that a copy of the object names. *)
Lemma cpp_iht_rebuild_dangling h o t l el :
  this_table h o = Ok t → iht_rep Hash Eq t l → Z.of_nat (length l) < 2 ^ 31 → cpp_iht_full t = true →
  ∃ found r h' o', cpp_iht_call Hash Eq h o el INSERT = Ok (found, r, h', o') ∧ dangling h' o.
Proof.
  intros Et Ht Hl Hfull. destruct (cpp_iht_del_ok h o t l Et Ht) as (hd & td & Ed & Etd & Hdd & Huf).
  assert (∃ found r t', iht_perform Hash Eq t el INSERT = Ok (found, r, t')) as (found & r & t' & Hp).
  { destruct (lookup_key Eq el l) as [e|] eqn:El'.
    - destruct (iht_perform_insert_present Hash Eq t l el e Ht El' Hl) as (p & t' & Ep & _). by eexists _, _, _.
    - destruct (iht_perform_insert Hash Eq t l el Ht El' Hl) as (p & t' & Ep & _). by eexists _, _, _. }
  destruct (cpp_iht_call_ok h o t el INSERT found r t' Et Hp) as (h' & o' & Ec & _ & _ & Hfr).
  exists found, r, h', o'. split; [done|]. destruct (Hfr eq_refl Hfull) as (hd' & Ed' & Eh).
  rewrite Ed in Ed'. injection Ed' as <-. apply (dangling_table h' o td); [|done..].
  by rewrite (this_table_same hd h').
Qed.
End own.

Section ixht_own.
Import Ixhtab IxhtabCorrect.
Context {K : SlotStore} {V : SlotView K} `{!SlotLaws ixht_config K V}.
Context {El : Type} (Hash : El → Z) (Eq : El → El → bool) `{!KeyLaws Hash Eq}.
Implicit Types (h : ixht_heap El) (o : ixht_object) (t : ixht slots El) (el : El) (l : list El).

(** The entries of other objects are as they were, and stay theirs. *)
Definition ixht_others_kept h o h' o' : Prop :=
  (∀ a, a ∈ dom (dirs h) → a ≠ g_dir o → dirs h' !! a = dirs h !! a ∧ a ≠ g_dir o') ∧
  (∀ a, a ∈ dom (bin_arrays h) → a ≠ g_bins o → bin_arrays h' !! a = bin_arrays h !! a ∧ a ≠ g_bins o').

Lemma put_block_ok {B} (m m' : gmap nat (arr B)) a a' moved x :
  a ∈ dom m → put_block m a moved x = (m', a') →
  m' !! a' = Some x ∧ (∀ k, k ∈ dom m → k ≠ a → m' !! k = m !! k ∧ k ≠ a') ∧
  m' !! a = Some (if moved then Freed else x).
Proof.
  unfold put_block. intros Ha. pose proof (is_fresh (dom m)) as Hf. set (f := fresh (dom m)) in *. destruct moved; cbv zeta.
  - intros [= <- <-]. rewrite lookup_insert_eq. split; [done|]. split.
    + intros k Hk Hne. assert (k ≠ f) by congruence. split; [|done]. by rewrite !lookup_insert_ne.
    + assert (f ≠ a) by congruence. rewrite lookup_insert_ne by done. by rewrite lookup_insert_eq.
  - intros [= <- <-]. rewrite lookup_insert_eq. split; [done|]. split; [|done].
    intros k Hk Hne. by rewrite lookup_insert_ne.
Qed.

Lemma ixht_this_dom h o t :
  ixht_this h o = Ok t →
  g_dir o ∈ dom (dirs h) ∧ g_bins o ∈ dom (bin_arrays h) ∧ dir_capacity t = g_dir_capacity o ∧
  bins_capacity t = g_bins_capacity o.
Proof.
  unfold ixht_this. rewrite !elem_of_dom.
  destruct (dirs h !! g_dir o) eqn:E1, (bin_arrays h !! g_bins o) eqn:E2; try done. intros [= <-]. done.
Qed.

(** What a copy sees after the object has been given the table [t']. *)
Lemma ixht_put_ok h o t t' h' o' :
  ixht_this h o = Ok t → ixht_put h o t' = (h', o') →
  ixht_this h' o' = Ok t' ∧ ixht_others_kept h o h' o' ∧
  dirs h' !! g_dir o = Some (if dir_capacity t' =? dir_capacity t then dir t' else Freed) ∧
  bin_arrays h' !! g_bins o = Some (if bins_capacity t' =? bins_capacity t then bins t' else Freed).
Proof.
  intros Et Hp. destruct (ixht_this_dom h o t Et) as (Hd & Hb & Ed & Eb). unfold ixht_put in Hp.
  destruct (put_block (dirs h) _ _ _) as [ds d] eqn:E1. destruct (put_block (bin_arrays h) _ _ _) as [bs b] eqn:E2.
  injection Hp as <- <-. destruct (put_block_ok _ _ _ _ _ _ Hd E1) as (H1 & H2 & H3).
  destruct (put_block_ok _ _ _ _ _ _ Hb E2) as (H4 & H5 & H6). unfold ixht_this. cbn. rewrite H1, H4.
  split; [by destruct t'|]. split; [by split|]. rewrite Ed, Eb, H3, H6. by destruct (_ =? _), (_ =? _).
Qed.

(** The requests of an object whose directory has been freed. *)
Definition ixht_dangling h o : Prop := ∀ el act, cpp_ixht_call Hash Eq h o el act = UB UseAfterFree.

(** A call acts on the object as [ixht_perform] does on its table. *)
Lemma cpp_ixht_call_ok h o t el act found r t' :
  ixht_this h o = Ok t → ixht_perform Hash Eq t el act = Ok (found, r, t') →
  ∃ h' o', cpp_ixht_call Hash Eq h o el act = Ok (found, r, h', o') ∧ ixht_this h' o' = Ok t' ∧
    ixht_others_kept h o h' o' ∧ (dir_capacity t' ≠ dir_capacity t → ixht_dangling h' (cpp_ixht_copy o)).
Proof.
  intros Et Hp. unfold cpp_ixht_call at 1. rewrite Et. step_ok. rewrite Hp. step_ok.
  destruct (ixht_put h o t') as [h' o'] eqn:E. exists h', o'. split; [done|].
  destruct (ixht_put_ok h o t t' h' o' Et E) as (Et' & Ho & Hd & Hb). split; [done|]. split; [done|].
  intros Hne el' act'. rewrite (proj2 (Z.eqb_neq _ _) Hne) in Hd. unfold cpp_ixht_call, ixht_this. cbn. by rewrite Hd, Hb.
Qed.

(** The destructor of a copy finds the array of bins freed. *)
Lemma cpp_ixht_del_twice h o t l :
  ixht_this h o = Ok t → ixht_rep Hash Eq t l →
  ∃ h', cpp_ixht_del h o = Ok h' ∧ cpp_ixht_del h' (cpp_ixht_copy o) = UB UseAfterFree ∧
    ixht_dangling h' (cpp_ixht_copy o).
Proof.
  intros Et (bc & dc & ls & Hok & _). destruct (ixht_destroy_bins_Ok Hash Eq bc dc ls t Hok) as (bc' & E & _).
  destruct (ixht_this_dom h o t Et) as (_ & _ & Ed & Eb).
  unfold cpp_ixht_del, ixht_destroy. rewrite Et. step_ok. rewrite E, (xo_dir Hok). repeat step_ok. cbn [arr_free].
  repeat step_ok. eexists. split; [done|].
  assert (0 < bins_num t) as Hn.
  { rewrite (xo_bins_num Hok). destruct (xo_dir_ok Hok 0) as (k & _ & Hk); [|lia].
    pose proof (xo_depth Hok). split; [done|]. apply Z.pow_pos_nonneg; lia. }
  assert (ixht_this (ixht_put h o (mk_ixht (els_num t) (max_depth t) (bin_mask t) Freed (dir_capacity t) Freed
    (bins_num t) (bins_capacity t))).1 (cpp_ixht_copy o) = Ok (mk_ixht (els_num t) (max_depth t) (bin_mask t) Freed
    (dir_capacity t) Freed (bins_num t) (bins_capacity t))) as Ec.
  { unfold ixht_put, put_block. cbn. rewrite Ed, Eb, !Z.eqb_refl. cbn. unfold ixht_this. cbn. rewrite !lookup_insert_eq.
    unfold ixht_this in Et. destruct (dirs h !! g_dir o), (bin_arrays h !! g_bins o); try done. by injection Et as <-. }
  rewrite Ec. split.
  - step_ok. unfold ixht_destroy_bins, for_res. cbn. by rewrite Z.sub_0_r, seqZ_cons by lia.
  - intros el act. unfold cpp_ixht_call. by rewrite Ec.
Qed.
End ixht_own.

(** * Properties *)

Section properties.
Context {K1 : SlotStore} {V1 : SlotView K1} `{!SlotLaws iht_config K1 V1}.
Context {K2 : SlotStore} {V2 : SlotView K2} `{!SlotLaws Ixhtab.ixht_config K2 V2}.
Context {El : Type} (Hash : El → Z) (Eq : El → El → bool) `{!KeyLaws Hash Eq}.

(** C21: An object of a C++ class acts on its own blocks only, exactly as the C
    functions do on a table, so objects that were constructed separately do not
    interfere.  A copy of an object shares its blocks.  Once an original [ihtab] is
    destroyed or an insertion has rebuilt it, FIND on the copy is a use after
    free and its destructor frees twice; once an original [ixhtab] is destroyed
    or an insertion has doubled its directory, any request to the copy is a use
    after free, and so is its destructor after that of the original. *)
Theorem cpp_copies (h1 : gmap nat (iht_blocks (K := K1) El)) o1 t1 l1 (h2 : ixht_heap (K := K2) El) o2 t2 l2 el act :
  this_table h1 o1 = Ok t1 → iht_rep Hash Eq t1 l1 → Z.of_nat (length l1) < 2 ^ 31 →
  ixht_this h2 o2 = Ok t2 → IxhtabCorrect.ixht_rep Hash Eq t2 l2 →
  (∀ found r t', iht_perform Hash Eq t1 el act = Ok (found, r, t') →
     ∃ h' o', cpp_iht_call Hash Eq h1 o1 el act = Ok (found, r, h', o') ∧ this_table h' o' = Ok t' ∧
       others_kept h1 o1 h' o') ∧
  (∃ h', cpp_iht_del h1 o1 = Ok h' ∧ dangling Hash Eq h' (cpp_copy o1)) ∧
  (cpp_iht_full t1 = true →
     ∃ found r h' o', cpp_iht_call Hash Eq h1 o1 el INSERT = Ok (found, r, h', o') ∧ dangling Hash Eq h' (cpp_copy o1)) ∧
  (∀ found r t', Ixhtab.ixht_perform Hash Eq t2 el act = Ok (found, r, t') →
     ∃ h' o', cpp_ixht_call Hash Eq h2 o2 el act = Ok (found, r, h', o') ∧ ixht_this h' o' = Ok t' ∧
       ixht_others_kept h2 o2 h' o' ∧
       (Ixhtab.dir_capacity t' ≠ Ixhtab.dir_capacity t2 → ixht_dangling Hash Eq h' (cpp_ixht_copy o2))) ∧
  ∃ h', cpp_ixht_del h2 o2 = Ok h' ∧ cpp_ixht_del h' (cpp_ixht_copy o2) = UB UseAfterFree ∧
    ixht_dangling Hash Eq h' (cpp_ixht_copy o2).
Proof.
  intros E1 Ht1 Hl1 E2 Ht2. split_and!.
  - intros found r t' Hp. destruct (cpp_iht_call_ok Hash Eq h1 o1 t1 el act found r t' E1 Hp)
      as (h' & o' & Ec & Et' & Ho & _). by exists h', o'.
  - destruct (cpp_iht_del_ok Hash Eq h1 o1 t1 l1 E1 Ht1) as (h' & t' & Ed & Et' & Hdd & Huf).
    exists h'. split; [done|]. destruct o1. by apply (dangling_table Hash Eq h' _ t').
  - intros Hfull. destruct o1. by apply (cpp_iht_rebuild_dangling Hash Eq h1 _ t1 l1).
  - intros found r t' Hp. by apply (cpp_ixht_call_ok Hash Eq h2 o2 t2).
  - by apply (cpp_ixht_del_twice Hash Eq h2 o2 t2 l2).
Qed.
End properties.

Import IxhtabCorrect.

Abbreviation swar := (packed (C := iht_config) SWAR.ops).
Abbreviation xswar := (packed (C := Ixhtab.ixht_config) IxSWAR.ops).

Lemma cpp_copies_witness :
  (∃ (h h' : gmap nat (iht_blocks (K := swar) entry)) o, cpp_iht_new ∅ 8 = Ok (h, o) ∧ cpp_iht_del h o = Ok h' ∧
     cpp_iht_del h' (cpp_copy o) = UB DoubleFree) ∧
  ∃ (h h' : ixht_heap (K := xswar) entry) o, cpp_ixht_new (mk_ixht_heap ∅ ∅) 8 = Ok (h, o) ∧ cpp_ixht_del h o = Ok h' ∧
    cpp_ixht_del h' (cpp_ixht_copy o) = UB UseAfterFree.
Proof.
  destruct (iht_create_Ok (K := swar) entry_hash entry_eq 8) as (t1 & E1 & Ht1 & _); [lia|].
  destruct (IxhtabCorrect.ixht_create_Ok (K := xswar) entry_hash entry_eq 8) as (t2 & ? & ? & E2 & Ht2 & _); [lia|].
  destruct (new_table ∅ t1) as [h1 o1] eqn:N1.
  destruct (cpp_ixht_new (K := xswar) (mk_ixht_heap ∅ ∅) 8) as [[h2 o2]| |] eqn:N2;
    unfold cpp_ixht_new in N2; rewrite E2 in N2; [|discriminate N2|discriminate N2].
  destruct (cpp_copies (K1 := swar) (K2 := xswar) entry_hash entry_eq h1 o1 t1 [] h2 o2 t2 [] (mk_entry 1 1) INSERT)
    as (_ & (h1' & Ed1 & Hd1 & _) & _ & _ & h2' & Ed2 & Hd2 & _);
    [apply (this_table_new ∅ o1 t1 h1 o1 N1)|exact Ht1|cbn; lia| |exact Ht2|].
  - injection N2 as <- <-. unfold ixht_this. cbn. by destruct t2.
  - split; [exists h1, h1', o1|exists h2, h2', o2]; split.
    + unfold cpp_iht_new. rewrite E1, <-N1. reflexivity.
    + split; [exact Ed1|exact Hd1].
    + rewrite <-N2. reflexivity.
    + split; [exact Ed2|exact Hd2].
Defined.

(** Insertions into an object and into its copy take the same place in the
    array: the element of the first is overwritten. *)
Lemma cpp_iht_copy_overwrites :
  let insert h o e :=
    '(_, r, h, o) ← cpp_iht_call (K := swar) entry_hash entry_eq h o e INSERT;
    match r with Some p => h ← cpp_iht_store (K := swar) h o p e; Ok (h, o) | None => UB Uninitialised end in
  ('(h, o) ← cpp_iht_new (K := swar) ∅ 8;
   let o2 := cpp_copy o in
   '(h, o) ← insert h o (mk_entry 1 10);
   '(h, o2) ← insert h o2 (mk_entry 2 20);
   '(found, _, h, o) ← cpp_iht_call (K := swar) entry_hash entry_eq h o (mk_entry 1 0) FIND;
   Ok (found, f_els_num (fields o))) = Ok (false, 1).
Proof. by vm_compute. Qed.
