(* ===== verification/Vmum.v ===== *)
(** Model of vmum.h, the hash function the tables are used with.  The macros
    that select code are the fields of [VmumConfig]; the global factors, which
    [vmum_hash_randomize] changes, are the record [vmum_env].  A key is a block
    of bytes and a position in it; reading outside of it is undefined. *)

From S2P Require Import Prelude.

(** * Configuration and globals *)

Inductive vector_arch := AVX2 | ARM_NEON | ALTIVEC | SCALAR.

Class VmumConfig := {
  VMUM_USE_INT128 : bool;
  VMUM_TARGET_INDEPENDENT_HASH : bool;
  VMUM_V1 : bool;
  BYTE_ORDER : endian;
  VECTOR : vector_arch;
  VMUM_UNALIGNED_ACCESS : bool;
  VMUM_BLOCK_LEN : Z;
  SIZE_BITS : Z               (** width of [size_t] *)
}.

Record vmum_env := mk_env {
  _vmum_hash_step_factor : Z;
  _vmum_key_step_factor : Z;
  _vmum_block_start_factor : Z;
  _vmum_tail_factor : Z;
  _vmum_finish_factor1 : Z;
  _vmum_finish_factor2 : Z;
  _vmum_unroll_factors : list Z;
  _vmum_factors : list Z
}.

Definition vmum_default_env : vmum_env := {|
  _vmum_hash_step_factor := 0x7fc65e8a22c2f74b;
  _vmum_key_step_factor := 0x9b307d68270e94e5;
  _vmum_block_start_factor := 0x6608b54dafbc797c;
  _vmum_tail_factor := 0xc6f58747253b0e84;
  _vmum_finish_factor1 := 0xbc4bb29ce739b5d9;
  _vmum_finish_factor2 := 0x7007946aa4fdb987;
  _vmum_unroll_factors :=
    [0x191fb5fc4a9bf2de; 0xd9a09a0a2c4eb3eb; 0x90f15ee96deb1eec; 0x1a970df0a79d09ba];
  _vmum_factors := [
    0x0c3ec9639d3a203f; 0x898368b5fb060422; 0xfe3c08767c1e5068; 0x4535ac3cb182d3ca;
    0xba6ba8dcc8a2d978; 0x9f1221df37b27ca1; 0x57b1b40817cde05e; 0xadb5c6075e5dd1c3;
    0x0f91abf611686bc3; 0x72fc850fbe9023f4; 0x4922ec730400d7e1; 0x7452d927d9970eb2;
    0x607ad8c0dbe89ff9; 0x463bf8a99a222448; 0x6a0c8e5c2171d499; 0x88a9af1a70175e0f;
    0x50c07b9351011316; 0xce26a1f4e66e3d1f; 0x396d79c90c86b1ed; 0x3739b72e11fc4684;
    0x7fe4adc8400af08e; 0xfa2e47475b11a3ce; 0xd519635f1d7b9242; 0x866d04bd866130fc;
    0x6132e913fd0ae2c9; 0xaeacc8d99a02880d; 0xf196fbab2ef62dbb; 0x62a6a4ae6d3f5fdd;
    0x3147dbedb6618cf4; 0x18dc2a4e6e46b7f5; 0x98ce62d3e346f804; 0x3e507b6626b9c9c6;
    0x08d2d6aba49b53a7; 0x64f897cf54cc0984; 0xe6568e3081d4dc31; 0x936eff54d90e79bd;
    0x45ecee4cb55e5529; 0xe7729fe4b83bd1f0; 0x8ced03855b3a62ae; 0xc29ee17b601d5ea6;
    0xfadd87cd819b8b23; 0x5ff6b6787a02da34; 0xcc0f997728759ba9; 0x06a51956916c45ff;
    0xd31923282290a41f; 0x9e2fcda93feb36aa; 0xfdc11827f9bb4b63; 0xe11b2c099cf17325;
    0xd4efd1919316bb4e; 0x7749918c7756d897; 0x32eff42dc1c4f41e; 0x4171f5e422bdf4fa;
    0xdd5c7f50a7977e65; 0xc52dc937487cc197; 0xbff445a1c9b19184; 0xb2fd8206a0325cb9;
    0xbf32bb70e354a83c; 0x587313d37681ffc2; 0x687c0b98ef7ad731; 0x2c09a37608248f89;
    0x20c8d9b1b6e28faa; 0x747008703cbc9483; 0x0bdcacce877cb231; 0xf740c0ac1dc79a0c;
    0x8e843baef228089d; 0xc379d4c3b6e28c1b; 0xb5d44eee257f1206; 0xb5dfee44ef6b05ad;
    0xaab0edc0f566f359; 0x21883ede514d45dd; 0xcdaeea0482c73a46; 0xb3751631e5645c4f;
    0xd22ac81254aad1ac; 0x59c0f8f5c93121df; 0x3b343a848e3097c3; 0x87c65a3a866ed9ed;
    0xf112c880c63ddafd; 0xff98b9575bfce057; 0xd6e8f6ad6f4da8ae; 0xba0379ba20645a51]
|}.

(** A read of the static array [_vmum_factors]. *)
Definition factor_at (env : vmum_env) (i : Z) : res Z :=
  match zlookup (_vmum_factors env) i with Some f => Ok f | None => UB OutOfBounds end.

(** * Multiplication *)

Definition _vmum_int128 (v p : Z) : Z :=
  let r := v * p in
  let hi := u64 (Z.shiftr r 64) in
  let lo := u64 r in
  u64 (hi + lo).

(** Four multiplications of 32 bits; the carries are counted only with
    [VMUM_TARGET_INDEPENDENT_HASH]. *)
Definition _vmum_four (count_carry : bool) (v p : Z) : Z :=
  let hv := Z.shiftr v 32 in let hp := Z.shiftr p 32 in
  let lv := u32 v in let lp := u32 p in
  let rh := u64 (hv * hp) in
  let rm_0 := u64 (hv * lp) in
  let rm_1 := u64 (hp * lv) in
  let rl := u64 (lv * lp) in
  let t := u64 (rl + u64 (Z.shiftl rm_0 32)) in
  let carry := if count_carry then Z.b2z (t <? rl) else 0 in
  let lo := u64 (t + u64 (Z.shiftl rm_1 32)) in
  let carry := if count_carry then u64 (carry + Z.b2z (lo <? t)) else carry in
  let hi := u64 (rh + Z.shiftr rm_0 32 + Z.shiftr rm_1 32 + carry) in
  u64 (hi + lo).

Definition _vmum {c : VmumConfig} (v p : Z) : Z :=
  if VMUM_USE_INT128 then _vmum_int128 v p else _vmum_four VMUM_TARGET_INDEPENDENT_HASH v p.

(** * Byte order and mixing of words *)

Definition _vmum_bswap64 (v : Z) : Z := le_combine (rev (le_split 8 v)).
Definition _vmum_bswap32 (v : Z) : Z := le_combine (rev (le_split 4 v)).

Definition swaps {c : VmumConfig} : bool :=
  match BYTE_ORDER with LittleEndian => false | BigEndian => VMUM_TARGET_INDEPENDENT_HASH end.

Definition _vmum_le {c : VmumConfig} (v : Z) : Z :=
  if swaps then _vmum_bswap64 v else v.
Definition _vmum_le32 {c : VmumConfig} (v : Z) : Z :=
  if swaps then _vmum_bswap32 v else v.
Definition _vmum_le16 {c : VmumConfig} (v : Z) : Z :=
  if swaps then Z.lor (Z.shiftr v 8) (Z.shiftl (Z.land v 0xff) 8) else v.

Definition _vmum_xor {c : VmumConfig} (a b : Z) : Z :=
  if VMUM_V1 then Z.lxor a b
  else if negb (Z.lxor a b =? 0) then Z.lxor a b else b.
Definition _vmum_plus {c : VmumConfig} (a b : Z) : Z :=
  if VMUM_V1 then u64 (a + b)
  else if negb (u64 (a + b) =? 0) then u64 (a + b) else b.

(** * Vector blocks of 256 bits *)

Record _vmum_block_t := mk_block { v0 : Z; v1 : Z; v2 : Z; v3 : Z }.

Definition _vmum_zero_block : _vmum_block_t := mk_block 0 0 0 0.

Definition map_block (f : Z → Z) (a : _vmum_block_t) : _vmum_block_t :=
  mk_block (f (v0 a)) (f (v1 a)) (f (v2 a)) (f (v3 a)).
Definition zip_block (f : Z → Z → Z) (a b : _vmum_block_t) : _vmum_block_t :=
  mk_block (f (v0 a) (v0 b)) (f (v1 a) (v1 b)) (f (v2 a) (v2 b)) (f (v3 a) (v3 b)).

(** An element-wise xor of vectors. *)
Definition xor_block : _vmum_block_t → _vmum_block_t → _vmum_block_t := zip_block Z.lxor.

Module Avx2.
(** [v >> 32] on elements of the signed type [long long]. *)
Definition sar32 (x : Z) : Z :=
  u64 (Z.shiftr (if x <? 2 ^ 63 then x else x - 2 ^ 64) 32).
(** [__builtin_ia32_pmuludq256]: the low halves of the 64-bit elements. *)
Definition pmuludq256 : _vmum_block_t → _vmum_block_t → _vmum_block_t :=
  zip_block (λ a b, u32 a * u32 b).
Definition pcmpeqq256 : _vmum_block_t → _vmum_block_t → _vmum_block_t :=
  zip_block (λ a b, if a =? b then 2 ^ 64 - 1 else 0).
Definition _vmum_block (v p : _vmum_block_t) : _vmum_block_t :=
  let hv := map_block sar32 v in
  let hp := map_block sar32 p in
  zip_block (λ a b, u64 (a + b)) (pmuludq256 v p) (pmuludq256 hv hp).
Definition _vmum_nonzero (v : _vmum_block_t) : _vmum_block_t :=
  let r := pcmpeqq256 v (mk_block 0 0 0 0) in
  zip_block Z.lor v r.
Definition _vmum_update_block {c : VmumConfig} (s va vb pa pb : _vmum_block_t) : _vmum_block_t :=
  if VMUM_V1 then xor_block s (_vmum_block (xor_block va pa) (xor_block vb pb))
  else xor_block s (_vmum_block (_vmum_nonzero (xor_block va pa)) (_vmum_nonzero (xor_block vb pb))).
Definition _vmum_factor_block (s p : _vmum_block_t) : _vmum_block_t := _vmum_block s p.
Definition _vmum_fold_block (b : _vmum_block_t) : Z :=
  Z.lxor (Z.lxor (Z.lxor (v0 b) (v1 b)) (v2 b)) (v3 b).
End Avx2.

(** Pairs of 64-bit elements, the halves of a block on NEON and AltiVec. *)
Definition half0 (b : _vmum_block_t) : Z * Z := (v0 b, v1 b).
Definition half1 (b : _vmum_block_t) : Z * Z := (v2 b, v3 b).
Definition of_halves (a b : Z * Z) : _vmum_block_t := mk_block a.1 a.2 b.1 b.2.
Definition xor_pair (a b : Z * Z) : Z * Z := (Z.lxor a.1 b.1, Z.lxor a.2 b.2).

Module Neon.
(** [(uint32x4_t) v] *)
Definition as_u32x4 (v : Z * Z) : list Z :=
  [u32 v.1; Z.shiftr v.1 32; u32 v.2; Z.shiftr v.2 32].
Definition vmull_u32 (a b : list Z) : list Z := zip_with Z.mul a b.
Definition vpaddq_u64 (a b : list Z) : Z * Z :=
  (u64 (foldr Z.add 0 a), u64 (foldr Z.add 0 b)).
Definition _vmum_val (v p : Z * Z) : Z * Z :=
  let v32 := as_u32x4 v in
  let p32 := as_u32x4 p in
  let r := vmull_u32 (take 2 v32) (take 2 p32) in
  let r2 := vmull_u32 (drop 2 v32) (drop 2 p32) in
  vpaddq_u64 r r2.
Definition vceqzq_u64 (v : Z * Z) : Z * Z :=
  (if v.1 =? 0 then 2 ^ 64 - 1 else 0, if v.2 =? 0 then 2 ^ 64 - 1 else 0).
Definition _vmum_nonzero (v : Z * Z) : Z * Z :=
  let r := vceqzq_u64 v in (Z.lor r.1 v.1, Z.lor r.2 v.2).
Definition _vmum_update_block {c : VmumConfig} (s va vb pa pb : _vmum_block_t) : _vmum_block_t :=
  let upd half :=
    if VMUM_V1
    then xor_pair (half s) (_vmum_val (xor_pair (half va) (half pa)) (xor_pair (half vb) (half pb)))
    else xor_pair (half s) (_vmum_val (_vmum_nonzero (xor_pair (half va) (half pa)))
                                      (_vmum_nonzero (xor_pair (half vb) (half pb)))) in
  of_halves (upd half0) (upd half1).
Definition _vmum_factor_block (s p : _vmum_block_t) : _vmum_block_t :=
  of_halves (_vmum_val (half0 s) (half0 p)) (_vmum_val (half1 s) (half1 p)).
Definition _vmum_fold_block (b : _vmum_block_t) : Z :=
  Z.lxor (Z.lxor (Z.lxor (v0 b) (v1 b)) (v2 b)) (v3 b).
End Neon.

Module Altivec.
(** [(v4si) v]: four elements in memory order. *)
Definition as_v4si {c : VmumConfig} (v : Z * Z) : list Z :=
  match BYTE_ORDER with
  | LittleEndian => [u32 v.1; Z.shiftr v.1 32; u32 v.2; Z.shiftr v.2 32]
  | BigEndian => [Z.shiftr v.1 32; u32 v.1; Z.shiftr v.2 32; u32 v.2]
  end.
(** [vec_mule] and [vec_mulo]: the products of the even and the odd elements. *)
Definition vec_mule (a b : list Z) : Z * Z :=
  match a, b with
  | [a0; _; a2; _], [b0; _; b2; _] => (a0 * b0, a2 * b2)
  | _, _ => (0, 0)
  end.
Definition vec_mulo (a b : list Z) : Z * Z :=
  match a, b with
  | [_; a1; _; a3], [_; b1; _; b3] => (a1 * b1, a3 * b3)
  | _, _ => (0, 0)
  end.
Definition _vmum_val {c : VmumConfig} (v p : Z * Z) : Z * Z :=
  let e := vec_mule (as_v4si v) (as_v4si p) in
  let o := vec_mulo (as_v4si v) (as_v4si p) in
  (u64 (e.1 + o.1), u64 (e.2 + o.2)).
(** [vec_sel]: the element of [b] where the mask is set, else that of [a]. *)
Definition vec_sel (a b : Z * Z) (mask : bool * bool) : Z * Z :=
  (if mask.1 then b.1 else a.1, if mask.2 then b.2 else a.2).
Definition _vmum_nonzero (v : Z * Z) : Z * Z :=
  let mask := (negb (v.1 =? 0), negb (v.2 =? 0)) in
  vec_sel (0xffffffffffffffff, 0xffffffffffffffff) v mask.
Definition _vmum_update_block {c : VmumConfig} (s va vb pa pb : _vmum_block_t) : _vmum_block_t :=
  let upd half :=
    if VMUM_V1
    then xor_pair (half s) (_vmum_val (xor_pair (half va) (half pa)) (xor_pair (half vb) (half pb)))
    else xor_pair (half s) (_vmum_val (_vmum_nonzero (xor_pair (half va) (half pa)))
                                      (_vmum_nonzero (xor_pair (half vb) (half pb)))) in
  of_halves (upd half0) (upd half1).
Definition _vmum_factor_block {c : VmumConfig} (s p : _vmum_block_t) : _vmum_block_t :=
  of_halves (_vmum_val (half0 s) (half0 p)) (_vmum_val (half1 s) (half1 p)).
Definition _vmum_fold_block (b : _vmum_block_t) : Z :=
  Z.lxor (Z.lxor (Z.lxor (v0 b) (v1 b)) (v2 b)) (v3 b).
End Altivec.

Module Scalar.
Definition _vmum_val (v p : Z) : Z :=
  let lv := u32 v in let lp := u32 p in
  let hv := Z.shiftr v 32 in let hp := Z.shiftr p 32 in
  u64 (lv * lp + hv * hp).
Definition _vmum_update_block {c : VmumConfig} (s va vb pa pb : _vmum_block_t) : _vmum_block_t :=
  let upd elt :=
    Z.lxor (elt s) (_vmum_val (_vmum_xor (_vmum_le (elt va)) (elt pa))
                              (_vmum_xor (_vmum_le (elt vb)) (elt pb))) in
  mk_block (upd v0) (upd v1) (upd v2) (upd v3).
Definition _vmum_factor_block (s p : _vmum_block_t) : _vmum_block_t :=
  mk_block (_vmum_val (v0 s) (v0 p)) (_vmum_val (v1 s) (v1 p))
           (_vmum_val (v2 s) (v2 p)) (_vmum_val (v3 s) (v3 p)).
Definition _vmum_fold_block (b : _vmum_block_t) : Z :=
  Z.lxor (Z.lxor (Z.lxor (v0 b) (v1 b)) (v2 b)) (v3 b).
End Scalar.

(** The code the preprocessor selects. *)
Definition _vmum_update_block {c : VmumConfig} : _vmum_block_t → _vmum_block_t → _vmum_block_t →
    _vmum_block_t → _vmum_block_t → _vmum_block_t :=
  match VECTOR with
  | AVX2 => Avx2._vmum_update_block
  | ARM_NEON => Neon._vmum_update_block
  | ALTIVEC => Altivec._vmum_update_block
  | SCALAR => Scalar._vmum_update_block
  end.
Definition _vmum_factor_block {c : VmumConfig} : _vmum_block_t → _vmum_block_t → _vmum_block_t :=
  match VECTOR with
  | AVX2 => Avx2._vmum_factor_block
  | ARM_NEON => Neon._vmum_factor_block
  | ALTIVEC => Altivec._vmum_factor_block
  | SCALAR => Scalar._vmum_factor_block
  end.
Definition _vmum_fold_block {c : VmumConfig} : _vmum_block_t → Z :=
  match VECTOR with
  | AVX2 => Avx2._vmum_fold_block
  | ARM_NEON => Neon._vmum_fold_block
  | ALTIVEC => Altivec._vmum_fold_block
  | SCALAR => Scalar._vmum_fold_block
  end.

(** * Hashing a block of bytes *)

(** [for (j = 0; j < n; j += 2) s = f (j, s)] *)
Definition for2_res {S : Type} (n : Z) (f : Z → S → res S) (s : S) : res S :=
  for_res 0 ((n + 1) / 2) (λ k, f (2 * k)) s.

Definition _VMUM_UNROLL_BLOCK_FACTOR : Z := 16.
Definition _VMUM_UNROLL_FACTOR : Z := 16.
Definition sizeof_block : Z := 32.
Definition sizeof_u64 : Z := 8.

Section hashing.
Context {c : VmumConfig} (env : vmum_env) (key : arr Z).

(** Element [i] of [str] as an array of [uint64_t] or of [_vmum_block_t], and
    of [_vmum_factors] as an array of [_vmum_block_t]. *)
Definition word_at (str i : Z) : res Z := load_int BYTE_ORDER key (str + sizeof_u64 * i) 8.
Definition block_at (str i : Z) : res _vmum_block_t :=
  a ← word_at str (4 * i); b ← word_at str (4 * i + 1);
  d ← word_at str (4 * i + 2); e ← word_at str (4 * i + 3); Ok (mk_block a b d e).
Definition factor_block_at (i : Z) : res _vmum_block_t :=
  a ← factor_at env (4 * i); b ← factor_at env (4 * i + 1);
  d ← factor_at env (4 * i + 2); e ← factor_at env (4 * i + 3); Ok (mk_block a b d e).
Definition unroll_block : res _vmum_block_t :=
  match _vmum_unroll_factors env with
  | a :: b :: d :: e :: _ => Ok (mk_block a b d e)
  | _ => UB OutOfBounds
  end.

(** The body of the [do] loop: sixteen blocks and a randomization. *)
Definition block_round (str : Z) (block_state : _vmum_block_t) : res _vmum_block_t :=
  s ← for2_res _VMUM_UNROLL_BLOCK_FACTOR (λ i s,
        va ← block_at str i; vb ← block_at str (i + 1);
        pa ← factor_block_at i; pb ← factor_block_at (i + 1);
        Ok (_vmum_update_block s va vb pa pb)) block_state;
  p ← unroll_block;
  Ok (_vmum_factor_block s p).

(** [do { ... } while (len >= 16 * sizeof (_vmum_block_t));] *)
Fixpoint block_loop (fuel : nat) (str len : Z) (block_state : _vmum_block_t) :
    res (_vmum_block_t * Z * Z) :=
  match fuel with
  | O => Timeout
  | S fuel =>
      block_state ← block_round str block_state;
      let len := len - _VMUM_UNROLL_BLOCK_FACTOR * sizeof_block in
      let str := str + _VMUM_UNROLL_BLOCK_FACTOR * sizeof_block in
      if _VMUM_UNROLL_BLOCK_FACTOR * sizeof_block <=? len
      then block_loop fuel str len block_state
      else Ok (block_state, str, len)
  end.

(** The bodies of the two loops over pairs of words. *)
Definition pair_mix (mix : Z → Z → Z) (str i state : Z) : res Z :=
  a ← word_at str i; f ← factor_at env i;
  b ← word_at str (i + 1); g ← factor_at env (i + 1);
  Ok (Z.lxor state (_vmum (mix (_vmum_le a) f) (mix (_vmum_le b) g))).

(** [while (len >= 16 * sizeof (uint64_t)) { ... }] *)
Fixpoint word_loop (fuel : nat) (str i len state : Z) : res (Z * Z * Z) :=
  if _VMUM_UNROLL_FACTOR * sizeof_u64 <=? len then
    match fuel with
    | O => Timeout
    | S fuel =>
        state ← for2_res _VMUM_UNROLL_FACTOR (λ j, pair_mix _vmum_xor str (i + j)) state;
        word_loop fuel str (i + _VMUM_UNROLL_FACTOR) (len - _VMUM_UNROLL_FACTOR * sizeof_u64) state
    end
  else Ok (i, len, state).

(** [switch (len) { case 15: ... case 1: ... }]; [add_tail] is the common last
    two lines of the cases 9 to 15 and [add_short] that of 1 to 7. *)
Definition load64 (p : Z) : res Z := w ← load_int BYTE_ORDER key p 8; Ok (_vmum_le w).
Definition load32 (p : Z) : res Z := w ← load_int BYTE_ORDER key p 4; Ok (_vmum_le32 w).
Definition load16 (p : Z) : res Z := w ← load_int BYTE_ORDER key p 2; Ok (_vmum_le16 w).

Definition add_tail (str i state u : Z) : res Z :=
  d ← load64 str; f ← factor_at env i;
  let w := _vmum_plus d f in
  Ok (Z.lxor state (_vmum (Z.lxor u (_vmum_tail_factor env)) w)).
Definition add_short (state u : Z) : res Z :=
  Ok (Z.lxor state (_vmum u (_vmum_tail_factor env))).

(** The sum of a factor and the one to seven bytes from [p] on. *)
Definition tail_value (p i len : Z) : res Z :=
  match len with
  | 7 => f ← factor_at env (i + 1); a ← load32 p; b ← load16 (p + 4); d ← arr_get key (p + 6);
         let u := u64 (f + a) in
         Ok (u64 (u + u64 (u64 (Z.shiftl b 32) + u64 (Z.shiftl d 48))))
  | 6 => f ← factor_at env (i + 2); a ← load32 p; b ← load16 (p + 4);
         let u := u64 (f + a) in Ok (u64 (u + u64 (Z.shiftl b 32)))
  | 5 => f ← factor_at env (i + 3); a ← load32 p; d ← arr_get key (p + 4);
         let u := u64 (f + a) in Ok (u64 (u + u64 (Z.shiftl d 32)))
  | 4 => f ← factor_at env (i + 4); a ← load32 p; Ok (u64 (f + a))
  | 3 => f ← factor_at env (i + 5); b ← load16 p; d ← arr_get key (p + 2);
         let u := u64 (f + b) in Ok (u64 (u + u64 (Z.shiftl d 16)))
  | 2 => f ← factor_at env (i + 6); b ← load16 p; Ok (u64 (f + b))
  | 1 => f ← factor_at env (i + 7); d ← arr_get key p; Ok (u64 (f + d))
  | _ => Ok 0
  end.

Definition tail_switch (str i len state : Z) : res Z :=
  if (9 <=? len) && (len <=? 15) then
    u ← tail_value (str + 8) i (len - 8); add_tail str i state u
  else if len =? 8 then
    d ← load64 str; f ← factor_at env i;
    Ok (Z.lxor state (_vmum (u64 (d + f)) f))
  else if (1 <=? len) && (len <=? 7) then
    u ← tail_value str i len; add_short state u
  else Ok state.

Definition _vmum_hash_aligned (start str len : Z) : res Z :=
  let state := _vmum start (_vmum_block_start_factor env) in
  '(state, str, len) ←
    (if _VMUM_UNROLL_BLOCK_FACTOR * sizeof_block <=? len then
       '(block_state, str, len) ← block_loop (S (Z.to_nat (len / 512))) str len _vmum_zero_block;
       Ok (u64 (state + _vmum_fold_block block_state), str, len)
     else Ok (state, str, len));
  '(i, len, state) ← word_loop (Z.to_nat (len / 128)) str 0 len state;
  let n := Z.land (len / sizeof_u64) (Z.lnot 1) in
  state ← for2_res n (λ j, pair_mix _vmum_plus str (i + j)) state;
  let i := i + n in
  let len := len - n * sizeof_u64 in
  let str := str + i * sizeof_u64 in
  tail_switch str i len state.

Definition _vmum_final (h : Z) : Z := _vmum h h.
End hashing.

(** The loop of [_vmum_hash_default] for a key that is not aligned: pieces of
    at most [VMUM_BLOCK_LEN] bytes are copied to the aligned buffer. *)
Fixpoint unaligned_loop {c : VmumConfig} (env : vmum_env) (key : arr Z) (fuel : nat)
    (str len result : Z) : res Z :=
  if negb (len =? 0) then
    match fuel with
    | O => Timeout
    | S fuel =>
        let block_len := if len <? VMUM_BLOCK_LEN then len else VMUM_BLOCK_LEN in
        bytes ← arr_gets key str (Z.to_nat block_len);
        buf ← arr_sets (malloc (VMUM_BLOCK_LEN / sizeof_u64 * sizeof_u64)) 0 bytes;
        result ← _vmum_hash_aligned env buf result 0 block_len;
        unaligned_loop env key fuel (str + block_len) (len - block_len) result
    end
  else Ok result.

(** [addr] is the address of the key in memory. *)
Definition _vmum_hash_default {c : VmumConfig} (env : vmum_env) (key : arr Z)
    (addr str len seed : Z) : res Z :=
  let result := u64 (seed + len) in
  result ← (if Z.land addr 7 =? 0 then _vmum_hash_aligned env key result str len
            else unaligned_loop env key (Z.to_nat len) str len result);
  Ok (_vmum_final result).

(** * Interface functions *)

(** [_vmum_next_factor]: [rand] is the sequence of the results of [rand ()]
    since the last [srand], [k] the number of calls so far. *)
Definition _vmum_next_factor (rand : nat → Z) (k : nat) : Z * nat :=
  fold_left (λ s _, (Z.lor (u64 (Z.shiftl s.1 8)) (Z.rem (rand s.2) 256), S s.2))
    (seqZ 0 8) (0, k).

Fixpoint next_factors (rand : nat → Z) (n : nat) (k : nat) : list Z * nat :=
  match n with
  | O => ([], k)
  | S n =>
      let '(f, k) := _vmum_next_factor rand k in
      let '(fs, k) := next_factors rand n k in (f :: fs, k)
  end.

(** [srand seed] is the sequence that [rand] returns after [srand (seed)]. *)
Definition vmum_hash_randomize (srand : Z → nat → Z) (seed : Z) (env : vmum_env) : vmum_env :=
  let rand := srand (u32 seed) in
  let '(hash_step, k) := _vmum_next_factor rand 0 in
  let '(key_step, k) := _vmum_next_factor rand k in
  let '(finish1, k) := _vmum_next_factor rand k in
  let '(finish2, k) := _vmum_next_factor rand k in
  let '(block_start, k) := _vmum_next_factor rand k in
  let '(tail, k) := _vmum_next_factor rand k in
  let '(unroll, k) := next_factors rand (length (_vmum_unroll_factors env)) k in
  let '(factors, k) := next_factors rand (length (_vmum_factors env)) k in
  mk_env hash_step key_step block_start tail finish1 finish2 unroll factors.

Definition vmum_hash_init (seed : Z) : Z := seed.

Definition vmum_hash_step {c : VmumConfig} (env : vmum_env) (h key : Z) : Z :=
  Z.lxor (_vmum h (_vmum_hash_step_factor env)) (_vmum key (_vmum_key_step_factor env)).

Definition vmum_hash_finish {c : VmumConfig} (h : Z) : Z := _vmum_final h.

Definition vmum_hash64 {c : VmumConfig} (env : vmum_env) (key seed : Z) : Z :=
  (vmum_hash_finish (vmum_hash_step env (vmum_hash_init (u64 (seed + 8))) key)) mod 2 ^ SIZE_BITS.

Definition vmum_hash {c : VmumConfig} (env : vmum_env) (key : arr Z) (addr str len seed : Z) : res Z :=
  if VMUM_UNALIGNED_ACCESS then
    h ← _vmum_hash_aligned env key (u64 (seed + len)) str len; Ok (_vmum_final h)
  else _vmum_hash_default env key addr str len seed.
