(* ===== verification/VmumSpec.v ===== *)
(** What vmum.h computes, as functions on byte lists and words: one multiply
    and mix for all targets, one vector step for all vector units, one fold
    over the pairs of words, and the tail as a little-endian number. *)

From S2P Require Import Prelude Bits Vmum.

Definition word64 (x : Z) : Prop := 0 ≤ x < 2 ^ 64.

(** * Multiplication *)

Lemma shiftr_div x n : 0 ≤ n → Z.shiftr x n = x / 2 ^ n.
Proof. apply Z.shiftr_div_pow2. Qed.

Lemma shiftl_mul x n : 0 ≤ n → Z.shiftl x n = x * 2 ^ n.
Proof. apply Z.shiftl_mul_pow2. Qed.

(** The partial products of two 64-bit numbers. *)
Lemma mul_parts v p :
  word64 v → word64 p →
  ∃ a b d e, v / 2 ^ 32 * (p / 2 ^ 32) = a ∧ v / 2 ^ 32 * (p mod 2 ^ 32) = b ∧
    p / 2 ^ 32 * (v mod 2 ^ 32) = d ∧ v mod 2 ^ 32 * (p mod 2 ^ 32) = e ∧
    v * p = a * 2 ^ 64 + (b + d) * 2 ^ 32 + e ∧
    0 ≤ a ≤ (2 ^ 32 - 1) * (2 ^ 32 - 1) ∧ 0 ≤ b ≤ (2 ^ 32 - 1) * (2 ^ 32 - 1) ∧
    0 ≤ d ≤ (2 ^ 32 - 1) * (2 ^ 32 - 1) ∧ 0 ≤ e ≤ (2 ^ 32 - 1) * (2 ^ 32 - 1).
Proof.
  unfold word64. intros Hv Hp.
  assert (0 ≤ v / 2 ^ 32 ≤ 2 ^ 32 - 1 ∧ 0 ≤ p / 2 ^ 32 ≤ 2 ^ 32 - 1 ∧
    0 ≤ v mod 2 ^ 32 ≤ 2 ^ 32 - 1 ∧ 0 ≤ p mod 2 ^ 32 ≤ 2 ^ 32 - 1) as (?&?&?&?) by dlia.
  pose proof (Z.div_mod v (2 ^ 32)) as Ev. pose proof (Z.div_mod p (2 ^ 32)) as Ep.
  set (hv := v / 2 ^ 32) in *. set (hp := p / 2 ^ 32) in *.
  set (lv := v mod 2 ^ 32) in *. set (lp := p mod 2 ^ 32) in *.
  exists (hv * hp), (hv * lp), (hp * lv), (lv * lp).
  split_and!; try done; nia.
Qed.

Lemma vmum_int128_mod v p : word64 v → word64 p →
  _vmum_int128 v p = (v * p / 2 ^ 64 + v * p) mod 2 ^ 64.
Proof.
  unfold word64, _vmum_int128, u64. intros. rewrite shiftr_div by lia.
  rewrite (Z.mod_small (v * p / 2 ^ 64)); [apply Z.add_mod_idemp_r; lia|].
  split; [apply Z.div_pos; nia|apply Z.div_lt_upper_bound; nia].
Qed.

Lemma vmum_four_carry v p :
  word64 v → word64 p → _vmum_four true v p = _vmum_int128 v p.
Proof.
  intros Hv Hp. rewrite vmum_int128_mod by done. unfold _vmum_four, u32, u64.
  rewrite !shiftr_div, !shiftl_mul by lia.
  destruct (mul_parts v p Hv Hp) as (a & b & d & e & -> & -> & -> & -> & -> & Ha & Hb & Hd & He).
  rewrite !(Z.mod_small a), !(Z.mod_small b), !(Z.mod_small d), !(Z.mod_small e) by lia.
  pow_consts.
  destruct (Z.ltb_spec ((e + (b * 4294967296) mod 18446744073709551616) mod 18446744073709551616) e);
  match goal with |- context [?x <? ?y] => destruct (Z.ltb_spec x y) end; cbn [Z.b2z]; dlia.
Qed.

(** Without the carries at most two is missing from the result. *)
Lemma vmum_four_no_carry v p :
  word64 v → word64 p →
  ∃ k, 0 ≤ k ≤ 2 ∧ (_vmum_four false v p + k) mod 2 ^ 64 = _vmum_int128 v p.
Proof.
  intros Hv Hp. rewrite <-(vmum_four_carry v p Hv Hp). unfold _vmum_four, u64.
  set (rl := (u32 v * u32 p) mod 2 ^ 64).
  set (t := (rl + _) mod 2 ^ 64). set (lo := (t + _) mod 2 ^ 64).
  exists (Z.b2z (t <? rl) + Z.b2z (lo <? t)).
  split; [by destruct (t <? rl), (lo <? t)|].
  rewrite (Z.mod_small (Z.b2z (t <? rl) + Z.b2z (lo <? t)))
    by (by destruct (t <? rl), (lo <? t)).
  rewrite !Z.add_0_r, !Z.add_mod_idemp_l by lia.
  match goal with |- (?h mod ?m + lo + ?k) mod _ = _ =>
    rewrite <-(Z.add_assoc (h mod m) lo k), (Z.add_mod_idemp_l h) by lia end.
  f_equal. lia.
Qed.

Lemma vmum_range {c : VmumConfig} v p : word64 (_vmum v p).
Proof.
  unfold _vmum, _vmum_int128, _vmum_four, u64, word64.
  case_match; apply Z.mod_pos_bound; lia.
Qed.

Lemma u64_word64 x : word64 (u64 x).
Proof. unfold u64, word64. apply Z.mod_pos_bound. lia. Qed.

Lemma lxor_word64 a b : word64 a → word64 b → word64 (Z.lxor a b).
Proof.
  unfold word64. intros Ha Hb. split; [by apply Z.lxor_nonneg; lia|].
  destruct (decide (Z.lxor a b = 0)) as [->|]; [done|].
  apply (Z.log2_lt_cancel _ (2 ^ 64)). change (Z.log2 (2 ^ 64)) with 64.
  apply (Z.le_lt_trans _ (Z.max (Z.log2 a) (Z.log2 b))); [apply Z.log2_lxor; lia|].
  assert (∀ x, 0 ≤ x < 2 ^ 64 → Z.log2 x < 64) as Hl.
  { intros x Hx. destruct (decide (x = 0)) as [->|]; [done|]. by apply Z.log2_lt_pow2; lia. }
  apply Z.max_lub_lt; by apply Hl.
Qed.

(** * Words of a key *)

Create HintDb words.
#[export] Hint Resolve vmum_range u64_word64 lxor_word64 : words.

(** The number a target with byte-swapped or little-endian access reads. *)
Definition rd (bs : list Z) (off : Z) (n : nat) : Z := le_combine (take n (drop (Z.to_nat off) bs)).

(** The target reads words in little-endian order, and its vector unit too. *)
Definition reads_le {c : VmumConfig} : Prop :=
  BYTE_ORDER = LittleEndian ∨
  (BYTE_ORDER = BigEndian ∧ VMUM_TARGET_INDEPENDENT_HASH = true ∧ VECTOR = SCALAR).

(** * One vector step for all vector units *)

(** The word [v] of the key combined with the factor [p]. *)
#[export] Instance vector_arch_eq_dec : EqDecision vector_arch.
Proof. solve_decision. Defined.

Definition block_mix {c : VmumConfig} (v p : Z) : Z :=
  match VECTOR with
  | SCALAR => _vmum_xor v p
  | _ => if VMUM_V1 then Z.lxor v p
         else if Z.lxor v p =? 0 then 2 ^ 64 - 1 else Z.lxor v p
  end.

Definition update_spec {c : VmumConfig} (s va vb pa pb : _vmum_block_t) : _vmum_block_t :=
  zip_block Z.lxor s
    (zip_block Scalar._vmum_val (zip_block block_mix va pa) (zip_block block_mix vb pb)).

Definition block_words (b : _vmum_block_t) : Prop :=
  word64 (v0 b) ∧ word64 (v1 b) ∧ word64 (v2 b) ∧ word64 (v3 b).

Lemma block_mix_word {c : VmumConfig} v p : word64 v → word64 p → word64 (block_mix v p).
Proof.
  intros Hv Hp. pose proof (lxor_word64 v p Hv Hp). unfold block_mix, _vmum_xor.
  repeat case_match; try done; unfold word64 in *; lia.
Qed.

Lemma scalar_val_word v p : word64 (Scalar._vmum_val v p).
Proof. apply u64_word64. Qed.

(** The high halves: an arithmetic shift keeps the bits the multiplication reads. *)
Lemma sar32_low x : word64 x → u32 (Avx2.sar32 x) = Z.shiftr x 32.
Proof.
  unfold word64, Avx2.sar32, u32, u64. intros. rewrite !shiftr_div by lia.
  case_match eqn:E; [apply Z.ltb_lt in E|apply Z.ltb_ge in E]; dlia.
Qed.

Lemma avx2_block v p :
  block_words v → block_words p → Avx2._vmum_block v p = zip_block Scalar._vmum_val v p.
Proof.
  destruct v, p. unfold block_words. cbn. intros (?&?&?&?) (?&?&?&?).
  unfold Avx2._vmum_block, Avx2.pmuludq256, zip_block, map_block. cbn.
  by rewrite !sar32_low by done.
Qed.

Lemma neon_val v p :
  Neon._vmum_val v p = (Scalar._vmum_val v.1 p.1, Scalar._vmum_val v.2 p.2).
Proof.
  destruct v, p. unfold Neon._vmum_val, Scalar._vmum_val, Neon.vpaddq_u64, Neon.vmull_u32,
    Neon.as_u32x4.
  cbn [fst snd take drop zip_with foldr]. by rewrite !Z.add_0_r.
Qed.

Lemma altivec_val {c : VmumConfig} v p :
  Altivec._vmum_val v p = (Scalar._vmum_val v.1 p.1, Scalar._vmum_val v.2 p.2).
Proof.
  destruct v, p. unfold Altivec._vmum_val, Scalar._vmum_val, Altivec.as_v4si.
  destruct BYTE_ORDER; cbn; [done|]. f_equal; f_equal; lia.
Qed.

(** * The vector step, word by word *)

Lemma or_ones x : word64 x → Z.lor x (if x =? 0 then 2 ^ 64 - 1 else 0) =
  if x =? 0 then 2 ^ 64 - 1 else x.
Proof. intros. destruct (Z.eqb_spec x 0) as [->|]; [done|]. apply Z.lor_0_r. Qed.

(** The vector code of every target is the word-wise step on words in
    little-endian order. *)
Definition block_le {c : VmumConfig} : _vmum_block_t → _vmum_block_t := map_block _vmum_le.

Lemma block_le_id {c : VmumConfig} b : BYTE_ORDER = LittleEndian → block_le b = b.
Proof. intros E. destruct b. unfold block_le, map_block, _vmum_le, swaps. by rewrite E. Qed.

Lemma reads_le_vector {c : VmumConfig} :
  reads_le → VECTOR ≠ SCALAR → BYTE_ORDER = LittleEndian.
Proof. intros [?|(_&_&?)]; done. Qed.

Ltac solve_words :=
  repeat match goal with H : block_words (mk_block _ _ _ _) |- _ => destruct H as (?&?&?&?) end;
  cbn [v0 v1 v2 v3] in *; eauto using block_mix_word with words.

Lemma block_mix_vector {c : VmumConfig} v p :
  VECTOR ≠ SCALAR → word64 v → word64 p →
  (if VMUM_V1 then Z.lxor v p
   else Z.lor (Z.lxor v p) (if Z.lxor v p =? 0 then 2 ^ 64 - 1 else 0)) = block_mix v p.
Proof.
  intros Hv ? ?. unfold block_mix. destruct VECTOR; try done;
    destruct VMUM_V1; try done; apply or_ones; eauto with words.
Qed.

Lemma avx2_update {c : VmumConfig} s va vb pa pb :
  VECTOR ≠ SCALAR → block_words va → block_words vb → block_words pa → block_words pb →
  Avx2._vmum_update_block s va vb pa pb = update_spec s va vb pa pb.
Proof.
  intros HV. destruct va as [a0 a1 a2 a3], vb as [b0 b1 b2 b3], pa as [p0 p1 p2 p3],
    pb as [q0 q1 q2 q3]. intros. unfold Avx2._vmum_update_block, update_spec.
  assert (∀ a b, block_words a → block_words b →
    (if VMUM_V1 then xor_block a b else Avx2._vmum_nonzero (xor_block a b)) =
    zip_block block_mix a b) as E.
  { intros [x0 x1 x2 x3] [y0 y1 y2 y3] ? ?. unfold zip_block. rewrite <-!block_mix_vector by solve_words.
    by destruct VMUM_V1. }
  rewrite <-avx2_block by (unfold zip_block, block_words; split_and!; solve_words).
  rewrite <-!E by done. by destruct VMUM_V1.
Qed.

Lemma neon_update {c : VmumConfig} s va vb pa pb :
  VECTOR ≠ SCALAR → block_words va → block_words vb → block_words pa → block_words pb →
  Neon._vmum_update_block s va vb pa pb = update_spec s va vb pa pb.
Proof.
  intros HV. destruct va as [a0 a1 a2 a3], vb as [b0 b1 b2 b3], pa as [p0 p1 p2 p3],
    pb as [q0 q1 q2 q3]. intros. unfold update_spec, zip_block. cbn [v0 v1 v2 v3].
  rewrite <-!block_mix_vector by solve_words.
  unfold Neon._vmum_update_block, Neon._vmum_nonzero, xor_pair, of_halves, half0, half1,
    Neon.vceqzq_u64.
  rewrite !neon_val. destruct VMUM_V1; cbn [fst snd v0 v1 v2 v3]; [done|].
  assert (∀ x, Z.lor (if x =? 0 then 2 ^ 64 - 1 else 0) x =
    Z.lor x (if x =? 0 then 2 ^ 64 - 1 else 0)) as E by (intros; apply Z.lor_comm).
  by rewrite !E.
Qed.

Lemma altivec_update {c : VmumConfig} s va vb pa pb :
  VECTOR ≠ SCALAR → block_words va → block_words vb → block_words pa → block_words pb →
  Altivec._vmum_update_block s va vb pa pb = update_spec s va vb pa pb.
Proof.
  intros HV. destruct va as [a0 a1 a2 a3], vb as [b0 b1 b2 b3], pa as [p0 p1 p2 p3],
    pb as [q0 q1 q2 q3]. intros. unfold update_spec, zip_block. cbn [v0 v1 v2 v3].
  rewrite <-!block_mix_vector, !or_ones by solve_words.
  unfold Altivec._vmum_update_block, Altivec._vmum_nonzero, xor_pair, of_halves, half0, half1,
    Altivec.vec_sel.
  rewrite !altivec_val. destruct VMUM_V1; cbn [fst snd v0 v1 v2 v3]; [done|].
  assert (∀ x, (if negb (x =? 0) then x else 0xffffffffffffffff) =
    (if x =? 0 then 2 ^ 64 - 1 else x)) as E by (intros x; by destruct (x =? 0)).
  by rewrite !E.
Qed.

Lemma update_block_spec {c : VmumConfig} s va vb pa pb :
  reads_le → block_words va → block_words vb → block_words pa → block_words pb →
  _vmum_update_block s va vb pa pb = update_spec s (block_le va) (block_le vb) pa pb.
Proof.
  intros Hle ????. destruct (decide (VECTOR = SCALAR)) as [E|HV].
  - unfold _vmum_update_block, update_spec, block_mix. by rewrite E.
  - rewrite !block_le_id by (by apply reads_le_vector). unfold _vmum_update_block.
    destruct VECTOR eqn:E; try done.
    + apply avx2_update; congruence || done.
    + apply neon_update; congruence || done.
    + apply altivec_update; congruence || done.
Qed.

Lemma factor_block_spec {c : VmumConfig} s p :
  block_words s → block_words p →
  _vmum_factor_block s p = zip_block Scalar._vmum_val s p.
Proof.
  intros. unfold _vmum_factor_block. destruct VECTOR.
  - by apply avx2_block.
  - unfold Neon._vmum_factor_block. by rewrite !neon_val.
  - unfold Altivec._vmum_factor_block. by rewrite !altivec_val.
  - done.
Qed.

Lemma fold_block_spec {c : VmumConfig} b :
  _vmum_fold_block b = Z.lxor (Z.lxor (Z.lxor (v0 b) (v1 b)) (v2 b)) (v3 b).
Proof. unfold _vmum_fold_block. by destruct VECTOR. Qed.
