(* ===== verification/VmumHash.v ===== *)
(** The hash of a byte string as a reference function, and that
    [_vmum_hash_aligned] computes it: the reads stay inside the key and the
    factor tables and the loops end. *)

From S2P Require Import Prelude Bits Vmum VmumSpec.

(** * The reference function *)

Section reference.
Context {c : VmumConfig} (env : vmum_env).
Implicit Types (bs : list Z).

Definition fac (i : Z) : Z := default 0 (zlookup (_vmum_factors env) i).

Definition key_block bs (i : Z) : _vmum_block_t :=
  mk_block (rd bs (32 * i) 8) (rd bs (32 * i + 8) 8) (rd bs (32 * i + 16) 8) (rd bs (32 * i + 24) 8).
Definition fac_block (i : Z) : _vmum_block_t :=
  mk_block (fac (4 * i)) (fac (4 * i + 1)) (fac (4 * i + 2)) (fac (4 * i + 3)).
Definition unroll_fac : _vmum_block_t :=
  let u i := default 0 (zlookup (_vmum_unroll_factors env) i) in mk_block (u 0) (u 1) (u 2) (u 3).

(** The vector state after the first 512 bytes of [bs]. *)
Definition round_spec bs (s : _vmum_block_t) : _vmum_block_t :=
  zip_block Scalar._vmum_val
    (fold_left (λ s k, update_spec s (key_block bs (2 * k)) (key_block bs (2 * k + 1))
                         (fac_block (2 * k)) (fac_block (2 * k + 1))) (seqZ 0 8) s)
    unroll_fac.

Fixpoint rounds_spec (n : nat) bs (s : _vmum_block_t) : _vmum_block_t :=
  match n with
  | O => s
  | S n => rounds_spec n (drop 512 bs) (round_spec bs s)
  end.

(** The contribution of words [2 k] and [2 k + 1]. *)
Definition pair_spec (mix : Z → Z → Z) bs (k : Z) : Z :=
  _vmum (mix (rd bs (16 * k) 8) (fac (2 * k))) (mix (rd bs (16 * k + 8) 8) (fac (2 * k + 1))).

(** All whole pairs of fewer than 512 bytes: those in full groups of 128 bytes
    are mixed with the factors by xor, the others by addition. *)
Definition pairs_spec bs (state : Z) : Z :=
  let len := Z.of_nat (length bs) in
  fold_left (λ s k, Z.lxor s (pair_spec (if k <? 8 * (len / 128) then _vmum_xor else _vmum_plus) bs k))
    (seqZ 0 (len / 16)) state.

(** The last 0 to 15 bytes [t]; [i] is the index of the next factor. *)
Definition tail_spec (t : list Z) (i state : Z) : Z :=
  let r := Z.of_nat (length t) in
  if r =? 0 then state
  else if r <? 8 then
    Z.lxor state (_vmum (u64 (fac (i + (8 - r)) + le_combine t)) (_vmum_tail_factor env))
  else if r =? 8 then Z.lxor state (_vmum (u64 (le_combine t + fac i)) (fac i))
  else
    Z.lxor state (_vmum (Z.lxor (u64 (fac (i + (16 - r)) + le_combine (drop 8 t)))
                                (_vmum_tail_factor env))
                        (_vmum_plus (le_combine (take 8 t)) (fac i))).

Definition hash_spec (start : Z) bs : Z :=
  let len := Z.of_nat (length bs) in
  let state := _vmum start (_vmum_block_start_factor env) in
  let state :=
    if 512 <=? len
    then u64 (state + _vmum_fold_block (rounds_spec (Z.to_nat (len / 512)) bs _vmum_zero_block))
    else state in
  let rest := drop (Z.to_nat (512 * (len / 512))) bs in
  let state := pairs_spec rest state in
  let r := Z.of_nat (length rest) in
  tail_spec (drop (Z.to_nat (16 * (r / 16))) rest) (2 * (r / 16)) state.
End reference.

(** The factors are 64-bit numbers, four for the rounds and eighty for words. *)
Record env_ok (env : vmum_env) : Prop := {
  eo_unroll_len : length (_vmum_unroll_factors env) = 4%nat;
  eo_factors_len : length (_vmum_factors env) = 80%nat;
  eo_unroll : Forall word64 (_vmum_unroll_factors env);
  eo_factors : Forall word64 (_vmum_factors env);
  eo_start : word64 (_vmum_block_start_factor env);
  eo_tail : word64 (_vmum_tail_factor env);
  eo_hash : word64 (_vmum_hash_step_factor env);
  eo_key : word64 (_vmum_key_step_factor env)
}.

(** * Reads *)

(** The bytes [bs] are in memory at [str]. *)
Definition holds (cells : list (option Z)) (str : Z) (bs : list Z) : Prop :=
  cells_at cells str (length bs) = Some bs ∧ Forall byte bs.

Lemma zlookup_take_drop (bs : list Z) off (n : nat) k :
  0 ≤ off → 0 ≤ k < Z.of_nat n →
  zlookup (take n (drop (Z.to_nat off) bs)) k = zlookup bs (off + k).
Proof.
  intros. unfold zlookup. rewrite !decide_True by lia.
  rewrite lookup_take_lt by lia. rewrite lookup_drop. f_equal. lia.
Qed.

Lemma holds_sub cells str bs off (n : nat) :
  holds cells str bs → 0 ≤ off → off + Z.of_nat n ≤ Z.of_nat (length bs) →
  holds cells (str + off) (take n (drop (Z.to_nat off) bs)).
Proof.
  intros [Hc Hb] Ho Hn. assert (length (take n (drop (Z.to_nat off) bs)) = n) as Hlen
    by (rewrite length_take, length_drop; lia).
  split; [|by apply Forall_take, Forall_drop]. rewrite Hlen. apply cells_at_lookup; [done|].
  intros k Hk. rewrite zlookup_take_drop by lia.
  replace k with (str + (k - str)) at 1 by lia.
  rewrite (cells_at_Some _ _ _ _ (k - str) Hc) by lia. f_equal. lia.
Qed.

Lemma holds_drop cells str bs (n : nat) :
  holds cells str bs → (n ≤ length bs)%nat → holds cells (str + Z.of_nat n) (drop n bs).
Proof.
  intros Hh Hn. pose proof (holds_sub cells str bs (Z.of_nat n) (length bs - n) Hh) as H.
  rewrite Nat2Z.id in H. rewrite take_ge in H by (rewrite length_drop; lia). apply H; lia.
Qed.

Lemma holds_load cells str bs e : holds cells str bs →
  load_int e (Live cells) str (length bs) = Ok (int_of_bytes e bs).
Proof. intros [Hc _]. apply load_int_Ok. unfold int_at. by rewrite Hc. Qed.

(** ** Little-endian numbers *)

Lemma bswap_rev n bs :
  length bs = n → Forall byte bs → le_combine (rev (le_split n (le_combine (rev bs)))) = le_combine bs.
Proof.
  intros <- Hb. rewrite <-(length_rev bs), le_split_combine by (by apply Forall_rev).
  by rewrite rev_involutive.
Qed.

Lemma lor_high_byte a b : byte a → Z.lor a (Z.shiftl b 8) = a + 256 * b.
Proof.
  unfold byte. intros Ha. rewrite <-Z.add_nocarry_lor.
  - rewrite shiftl_mul by lia. change (2 ^ 8) with 256. lia.
  - apply Z.bits_inj'. intros k Hk. rewrite Z.land_spec, Z.bits_0.
    destruct (Z.ltb_spec k 8).
    + rewrite Z.shiftl_spec_low by lia. apply andb_false_r.
    + by rewrite testbit_byte_high by (unfold byte; lia).
Qed.

Section loads.
Context {c : VmumConfig} (Hle : reads_le).

Lemma swaps_cases :
  (BYTE_ORDER = LittleEndian ∧ swaps = false) ∨ (BYTE_ORDER = BigEndian ∧ swaps = true).
Proof.
  unfold swaps. destruct Hle as [->|(-> & -> & _)]; [by left|by right].
Qed.

Lemma le64 bs : length bs = 8%nat → Forall byte bs →
  _vmum_le (int_of_bytes BYTE_ORDER bs) = le_combine bs.
Proof.
  intros Hlen Hb. unfold _vmum_le. destruct swaps_cases as [[-> ->]|[-> ->]]; [done|].
  by apply (bswap_rev 8).
Qed.

Lemma le32 bs : length bs = 4%nat → Forall byte bs →
  _vmum_le32 (int_of_bytes BYTE_ORDER bs) = le_combine bs.
Proof.
  intros Hlen Hb. unfold _vmum_le32. destruct swaps_cases as [[-> ->]|[-> ->]]; [done|].
  by apply (bswap_rev 4).
Qed.

Lemma le16 bs : length bs = 2%nat → Forall byte bs →
  _vmum_le16 (int_of_bytes BYTE_ORDER bs) = le_combine bs.
Proof.
  intros Hlen Hb. unfold _vmum_le16. destruct swaps_cases as [[-> ->]|[-> ->]]; [done|].
  destruct bs as [|a [|b [|]]]; try done. rewrite !list.Forall_cons in Hb. destruct Hb as (Ha & Hb & _).
  unfold byte in *. cbn [int_of_bytes rev app le_combine].
  change 0xff with (Z.ones 8). rewrite Z.land_ones, shiftr_div by lia.
  replace ((b + 256 * (a + 256 * 0)) / 2 ^ 8) with a by dlia.
  replace ((b + 256 * (a + 256 * 0)) mod 2 ^ 8) with b by dlia.
  rewrite lor_high_byte by done. lia.
Qed.
End loads.

(** * The loops *)

Lemma fold_res_pure {S} (f : Z → S → res S) (g : S → Z → S) ks s :
  (∀ k s, k ∈ ks → f k s = Ok (g s k)) → fold_res f ks s = Ok (fold_left g ks s).
Proof.
  revert s. induction ks as [|k ks IH]; intros s Hf; [done|]. cbn [fold_res fold_left].
  rewrite Hf by set_solver. step_ok. apply IH. set_solver.
Qed.

Lemma fold_left_shift {S} (g : S → Z → S) m n s :
  fold_left (λ s k, g s (m + k)) (seqZ 0 n) s = fold_left g (seqZ m n) s.
Proof.
  pose proof (fmap_add_seqZ m 0 n) as E. rewrite Z.add_0_r in E. rewrite <-E.
  generalize (seqZ 0 n) as ks. intros ks. clear E. revert s.
  induction ks as [|k ks IH]; intros s; [done|]. apply IH.
Qed.

Section loops.
Context {c : VmumConfig} (Hle : reads_le) (env : vmum_env) (Henv : env_ok env).
Context (cells : list (option Z)).

Lemma factor_at_Ok i : 0 ≤ i < 80 → factor_at env i = Ok (fac env i).
Proof.
  intros Hi. unfold factor_at, fac. pose proof (eo_factors_len env Henv).
  destruct (zlookup_is_Some (_vmum_factors env) i) as [f ->]; [lia|done].
Qed.

Lemma fac_word i : word64 (fac env i).
Proof.
  unfold fac. destruct (zlookup _ i) as [f|] eqn:E; [|done]. cbn.
  apply zlookup_Some in E as [_ E]. by eapply Forall_lookup_1 in E; [|apply (eo_factors env Henv)].
Qed.

Lemma rd_word bs off : Forall byte bs → word64 (rd bs off 8).
Proof.
  intros Hb. unfold rd, word64. pose proof (le_combine_range (take 8 (drop (Z.to_nat off) bs))) as H.
  rewrite length_take in H.
  assert (256 ^ Z.of_nat (8 `min` length (drop (Z.to_nat off) bs)) ≤ 256 ^ 8)
    by (apply Z.pow_le_mono_r; lia).
  change (256 ^ 8) with (2 ^ 64) in *. specialize (H ltac:(by apply Forall_take, Forall_drop)). lia.
Qed.

(** A word of the key before the byte order is adjusted. *)
Definition raw (bs : list Z) (off : Z) : Z :=
  int_of_bytes BYTE_ORDER (take 8 (drop (Z.to_nat off) bs)).

Lemma word_at_raw str bs i :
  holds cells str bs → 0 ≤ i → 8 * i + 8 ≤ Z.of_nat (length bs) →
  word_at (Live cells) str i = Ok (raw bs (8 * i)).
Proof.
  intros Hh Hi Hlen. unfold word_at, sizeof_u64.
  pose proof (holds_sub cells str bs (8 * i) 8 Hh ltac:(lia) ltac:(lia)) as Hs.
  pose proof (holds_load _ _ _ BYTE_ORDER Hs) as E.
  rewrite length_take, length_drop in E.
  replace (8 `min` (length bs - Z.to_nat (8 * i)))%nat with 8%nat in E by lia. exact E.
Qed.

Lemma raw_le bs off :
  Forall byte bs → 0 ≤ off → off + 8 ≤ Z.of_nat (length bs) → _vmum_le (raw bs off) = rd bs off 8.
Proof.
  intros Hb Ho Hlen. apply (le64 Hle); [rewrite length_take, length_drop; lia|].
  by apply Forall_take, Forall_drop.
Qed.

Lemma raw_word bs off : Forall byte bs → word64 (raw bs off).
Proof.
  intros Hb. unfold raw. destruct BYTE_ORDER; [by apply rd_word|]. cbn.
  assert (Forall byte (rev (take 8 (drop (Z.to_nat off) bs)))) as Hr
    by (by apply Forall_rev, Forall_take, Forall_drop).
  pose proof (rd_word (rev (take 8 (drop (Z.to_nat off) bs))) 0 Hr) as H.
  unfold rd in H. rewrite drop_0, take_ge in H; [done|]. rewrite length_rev, length_take. lia.
Qed.

Lemma pair_mix_Ok mix str bs k state :
  holds cells str bs → 0 ≤ k → 16 * k + 16 ≤ Z.of_nat (length bs) → 2 * k + 1 < 80 →
  pair_mix env (Live cells) mix str (2 * k) state = Ok (Z.lxor state (pair_spec env mix bs k)).
Proof.
  intros Hh Hk Hlen Hf. destruct (Hh) as [_ Hb]. unfold pair_mix, pair_spec.
  rewrite !(word_at_raw str bs), !factor_at_Ok by (done || lia). repeat step_ok.
  rewrite !raw_le by (done || lia).
  by replace (8 * (2 * k)) with (16 * k) by lia; replace (8 * (2 * k + 1)) with (16 * k + 8) by lia.
Qed.

(** A loop over [n] pairs from pair [m] on. *)
Lemma pairs_loop_Ok mix str bs m n state :
  holds cells str bs → 0 ≤ m → 0 ≤ n → 16 * (m + n) ≤ Z.of_nat (length bs) → 2 * (m + n) ≤ 80 →
  for2_res (2 * n) (λ j, pair_mix env (Live cells) mix str (2 * m + j)) state =
  Ok (fold_left (λ s k, Z.lxor s (pair_spec env mix bs k)) (seqZ m n) state).
Proof.
  intros Hh Hm Hn Hlen Hf. unfold for2_res, for_res.
  replace ((2 * n + 1) / 2 - 0) with n by dlia. rewrite <-fold_left_shift.
  apply fold_res_pure. intros k s Hk%elem_of_seqZ.
  replace (2 * m + 2 * k) with (2 * (m + k)) by lia. apply pair_mix_Ok; done || lia.
Qed.

Lemma word_loop_Ok fuel str bs m len state :
  holds cells str bs → 0 ≤ m → 0 ≤ len → len / 128 ≤ Z.of_nat fuel →
  16 * m + len ≤ Z.of_nat (length bs) → 2 * (m + 8 * (len / 128)) ≤ 80 →
  word_loop env (Live cells) fuel str (2 * m) len state =
  Ok (2 * (m + 8 * (len / 128)), len mod 128,
      fold_left (λ s k, Z.lxor s (pair_spec env _vmum_xor bs k)) (seqZ m (8 * (len / 128))) state).
Proof.
  revert m len state. induction fuel as [|fuel IH]; intros m len state Hh Hm Hlen Hfuel Hbs Hf;
    cbn [word_loop]; unfold _VMUM_UNROLL_FACTOR, sizeof_u64;
    destruct (Z.leb_spec (16 * 8) len) as [Hge|Hlt]; try (dlia);
    try (rewrite Z.div_small, Z.mod_small by lia; rewrite seqZ_nil by lia; do 2 f_equal; f_equal; lia).
  assert (len / 128 = 1 + (len - 16 * 8) / 128) as Eq by dlia.
  assert ((len - 16 * 8) mod 128 = len mod 128) as Em by dlia.
  assert (0 ≤ (len - 16 * 8) / 128) by dlia.
  assert (for2_res 16 (λ j, pair_mix env (Live cells) _vmum_xor str (2 * m + j)) state = _) as ->
    by (apply (pairs_loop_Ok _vmum_xor str bs m 8); done || lia). step_ok.
  replace (2 * m + 16) with (2 * (m + 8)) by lia. rewrite IH by (done || lia).
  rewrite Em, Eq. replace (8 * (1 + (len - 16 * 8) / 128)) with (8 + 8 * ((len - 16 * 8) / 128)) by lia.
  rewrite (seqZ_app m 8), fold_left_app by lia. do 3 f_equal; lia.
Qed.

(** ** Vector rounds *)

Lemma block_at_Ok str bs i :
  holds cells str bs → 0 ≤ i → 32 * i + 32 ≤ Z.of_nat (length bs) →
  ∃ b, block_at (Live cells) str i = Ok b ∧ block_words b ∧ block_le b = key_block bs i.
Proof.
  intros Hh Hi Hlen. destruct (Hh) as [_ Hb]. unfold block_at.
  rewrite !(word_at_raw str bs) by (done || lia). repeat step_ok.
  eexists. split; [done|]. split; [split_and!; by apply raw_word|].
  unfold block_le, map_block, key_block. cbn [v0 v1 v2 v3]. rewrite !raw_le by (done || lia).
  f_equal; f_equal; lia.
Qed.

Lemma factor_block_at_Ok i : 0 ≤ i < 20 → factor_block_at env i = Ok (fac_block env i).
Proof. intros. unfold factor_block_at. by rewrite !factor_at_Ok by lia. Qed.

Lemma fac_block_words i : block_words (fac_block env i).
Proof. split_and!; apply fac_word. Qed.

Lemma unroll_block_Ok : unroll_block env = Ok (unroll_fac env) ∧ block_words (unroll_fac env).
Proof.
  pose proof (eo_unroll_len env Henv) as Hl. pose proof (eo_unroll env Henv) as Hw.
  unfold unroll_block, unroll_fac.
  destruct (_vmum_unroll_factors env) as [|a [|b [|d [|e [|]]]]]; try done.
  rewrite !list.Forall_cons in Hw. destruct Hw as (?&?&?&?&_). done.
Qed.

Lemma update_spec_words s va vb pa pb :
  block_words s → block_words (update_spec s va vb pa pb).
Proof.
  intros (?&?&?&?). unfold update_spec, zip_block. cbn [v0 v1 v2 v3].
  split_and!; apply lxor_word64; done || apply scalar_val_word.
Qed.

Lemma block_round_Ok str bs s :
  holds cells str bs → 512 ≤ Z.of_nat (length bs) → block_words s →
  block_round env (Live cells) str s = Ok (round_spec env bs s) ∧ block_words (round_spec env bs s).
Proof.
  intros Hh Hlen Hs. split; [|split_and!; apply scalar_val_word].
  unfold block_round, for2_res, for_res, _VMUM_UNROLL_BLOCK_FACTOR.
  change ((16 + 1) / 2 - 0) with 8.
  set (g := λ s k, update_spec s (key_block bs (2 * k)) (key_block bs (2 * k + 1))
                     (fac_block env (2 * k)) (fac_block env (2 * k + 1))).
  rewrite (fold_res_pure _ g).
  - step_ok. destruct unroll_block_Ok as [-> Hu]. step_ok. rewrite factor_block_spec; [done| |done].
    assert (∀ ks s, block_words s → block_words (fold_left g ks s)) as Hg.
    { intros ks. induction ks as [|k ks IH]; intros s0 Hs0; [done|].
      apply IH. by apply update_spec_words. }
    by apply Hg.
  - intros k s' Hk%elem_of_seqZ.
    destruct (block_at_Ok str bs (2 * k)) as (va & -> & Ha & Ea); [done|lia..|]. step_ok.
    destruct (block_at_Ok str bs (2 * k + 1)) as (vb & -> & Hb & Eb); [done|lia..|]. step_ok.
    rewrite !factor_block_at_Ok by lia. repeat step_ok.
    rewrite update_block_spec by (done || apply fac_block_words). by rewrite Ea, Eb.
Qed.

Lemma block_loop_Ok fuel str bs s :
  holds cells str bs → 512 ≤ Z.of_nat (length bs) → Z.of_nat (length bs) / 512 ≤ Z.of_nat fuel →
  block_words s →
  let q := Z.of_nat (length bs) / 512 in
  block_loop env (Live cells) fuel str (Z.of_nat (length bs)) s =
  Ok (rounds_spec env (Z.to_nat q) bs s, str + 512 * q, Z.of_nat (length bs) mod 512).
Proof.
  revert str bs s. induction fuel as [|fuel IH]; intros str bs s Hh Hlen Hfuel Hs q; [dlia|].
  cbn [block_loop]. unfold _VMUM_UNROLL_BLOCK_FACTOR, sizeof_block. change (16 * 32) with 512.
  destruct (block_round_Ok str bs s Hh Hlen Hs) as [-> Hs']. step_ok.
  pose proof (holds_drop cells str bs 512 Hh ltac:(lia)) as Hh'. change (Z.of_nat 512) with 512 in Hh'.
  assert (Z.of_nat (length (drop 512 bs)) = Z.of_nat (length bs) - 512) as Hl'
    by (rewrite length_drop; lia).
  destruct (Z.leb_spec 512 (Z.of_nat (length bs) - 512)) as [Hge|Hlt].
  - rewrite <-Hl'. rewrite IH by (done || lia || (rewrite Hl'; dlia)). cbv zeta. rewrite Hl'.
    assert ((Z.of_nat (length bs) - 512) / 512 = q - 1) as -> by (unfold q; dlia).
    assert ((Z.of_nat (length bs) - 512) mod 512 = Z.of_nat (length bs) mod 512) as -> by dlia.
    assert (0 < q) by (unfold q; dlia).
    replace (Z.to_nat q) with (S (Z.to_nat (q - 1))) by lia. cbn [rounds_spec].
    do 3 f_equal. lia.
  - assert (q = 1) as -> by (unfold q; dlia). cbn [rounds_spec Z.to_nat Pos.to_nat Pos.iter_op].
    change (Z.to_nat 1) with 1%nat. cbn [rounds_spec]. do 3 f_equal. dlia.
Qed.
End loops.

(** * The tail *)

Lemma u64_add_l a b : u64 (u64 a + b) = u64 (a + b).
Proof. apply Z.add_mod_idemp_l. lia. Qed.
Lemma u64_add_r a b : u64 (a + u64 b) = u64 (a + b).
Proof. apply Z.add_mod_idemp_r. lia. Qed.
Lemma u64_add_rl a b d : u64 (a + (u64 b + d)) = u64 (a + (b + d)).
Proof. by rewrite <-(u64_add_r a (u64 b + d)), u64_add_l, u64_add_r. Qed.
Lemma u64_add_rr a b d : u64 (a + (b + u64 d)) = u64 (a + (b + d)).
Proof. by rewrite <-(u64_add_r a (b + u64 d)), (u64_add_r b), u64_add_r. Qed.

Create Rewrite HintDb word_sums.
#[export] Hint Rewrite u64_add_l u64_add_r u64_add_rl u64_add_rr : word_sums.

Section tails.
Context {c : VmumConfig} (Hle : reads_le) (env : vmum_env) (Henv : env_ok env).
Context (cells : list (option Z)).

Lemma load_part p t off (n : nat) e :
  holds cells p t → 0 ≤ off → off + Z.of_nat n ≤ Z.of_nat (length t) →
  load_int e (Live cells) (p + off) n = Ok (int_of_bytes e (take n (drop (Z.to_nat off) t))) ∧
  length (take n (drop (Z.to_nat off) t)) = n ∧ Forall byte (take n (drop (Z.to_nat off) t)).
Proof.
  intros Hh Ho Hn. pose proof (holds_sub cells p t off n Hh Ho Hn) as Hs.
  assert (length (take n (drop (Z.to_nat off) t)) = n) as Hlen
    by (rewrite length_take, length_drop; lia).
  pose proof (holds_load _ _ _ e Hs) as E. rewrite Hlen in E.
  split_and!; [exact E|done|apply Hs].
Qed.

Lemma load64_Ok p t off :
  holds cells p t → 0 ≤ off → off + 8 ≤ Z.of_nat (length t) →
  load64 (Live cells) (p + off) = Ok (rd t off 8).
Proof.
  intros Hh Ho Hn. destruct (load_part p t off 8 BYTE_ORDER Hh Ho Hn) as (E & Hl & Hb).
  unfold load64. rewrite E. step_ok. by rewrite (le64 Hle).
Qed.

Lemma load32_Ok p t off :
  holds cells p t → 0 ≤ off → off + 4 ≤ Z.of_nat (length t) →
  load32 (Live cells) (p + off) = Ok (rd t off 4).
Proof.
  intros Hh Ho Hn. destruct (load_part p t off 4 BYTE_ORDER Hh Ho Hn) as (E & Hl & Hb).
  unfold load32. rewrite E. step_ok. by rewrite (le32 Hle).
Qed.

Lemma load16_Ok p t off :
  holds cells p t → 0 ≤ off → off + 2 ≤ Z.of_nat (length t) →
  load16 (Live cells) (p + off) = Ok (rd t off 2).
Proof.
  intros Hh Ho Hn. destruct (load_part p t off 2 BYTE_ORDER Hh Ho Hn) as (E & Hl & Hb).
  unfold load16. rewrite E. step_ok. by rewrite (le16 Hle).
Qed.

Lemma load8_Ok p t off :
  holds cells p t → 0 ≤ off → off + 1 ≤ Z.of_nat (length t) →
  arr_get (Live cells) (p + off) = Ok (rd t off 1).
Proof.
  intros [Hc _] Ho Hn. apply arr_get_Ok. rewrite (cells_at_Some _ _ _ _ off Hc) by lia.
  unfold rd. destruct (zlookup_is_Some t off) as [b Hb]; [lia|]. rewrite Hb.
  pose proof (zlookup_take_drop t off 1 0 ltac:(lia) ltac:(lia)) as H.
  rewrite Z.add_0_r, Hb in H. destruct (take 1 (drop (Z.to_nat off) t)) as [|x l] eqn:E; [done|].
  apply (f_equal length) in E. rewrite length_take in E. cbn [length] in E.
  destruct l; [|cbn [length] in E; lia]. injection H as ->. cbn. by rewrite Z.add_0_r.
Qed.

Lemma tail_value_Ok p t i :
  holds cells p t → (1 ≤ length t ≤ 7)%nat → 0 ≤ i → i + 7 < 80 →
  tail_value env (Live cells) p i (Z.of_nat (length t)) =
  Ok (u64 (fac env (i + (8 - Z.of_nat (length t))) + le_combine t)).
Proof.
  intros Hh Hlen Hi Hf.
  pose proof (load32_Ok p t 0 Hh) as L4. pose proof (load16_Ok p t 0 Hh) as L2.
  pose proof (load8_Ok p t 0 Hh) as L1. rewrite Z.add_0_r in L4, L2, L1.
  pose proof (λ off, load16_Ok p t off Hh) as L2'. pose proof (λ off, load8_Ok p t off Hh) as L1'.
  destruct t as [|b0 [|b1 [|b2 [|b3 [|b4 [|b5 [|b6 [|]]]]]]]]; cbn [length] in *; try lia;
    match goal with |- context [Z.of_nat ?n] =>
      let v := eval vm_compute in (Z.of_nat n) in change (Z.of_nat n) with v end;
    cbv beta match delta [tail_value];
    rewrite factor_at_Ok, ?L4, ?L2, ?L1, ?L2', ?L1' by (done || lia); repeat step_ok; cbv zeta;
    repeat rewrite ?L2', ?L1' by (done || lia); repeat step_ok;
    autorewrite with word_sums; rewrite ?shiftl_mul by lia; f_equal; f_equal; unfold rd;
    repeat match goal with |- context [Z.to_nat ?n] =>
      let v := eval vm_compute in (Z.to_nat n) in change (Z.to_nat n) with v end;
    match goal with |- context [8 - ?n] =>
      let v := eval vm_compute in (8 - n) in change (8 - n) with v end;
    cbn [take drop le_combine]; pow_consts; lia.
Qed.

Lemma tail_switch_Ok str t i state :
  holds cells str t → (length t ≤ 15)%nat → 0 ≤ i → i + 7 < 80 →
  tail_switch env (Live cells) str i (Z.of_nat (length t)) state = Ok (tail_spec env t i state).
Proof.
  intros Hh Hlen Hi Hf. unfold tail_switch, tail_spec. cbv zeta.
  set (r := Z.of_nat (length t)).
  destruct (Z.leb_spec 9 r), (Z.leb_spec r 15), (Z.eqb_spec r 8), (Z.leb_spec 1 r),
    (Z.leb_spec r 7), (Z.eqb_spec r 0), (Z.ltb_spec r 8); cbn [andb]; try lia; try done.
  - assert (length (drop 8 t) = length t - 8)%nat as Hd by apply length_drop.
    pose proof (holds_drop cells str t 8 Hh ltac:(lia)) as Hh8.
    pose proof (tail_value_Ok (str + 8) (drop 8 t) i Hh8 ltac:(lia) Hi Hf) as E.
    replace (Z.of_nat (length (drop 8 t))) with (r - 8) in E by lia. rewrite E. step_ok.
    unfold add_tail. pose proof (load64_Ok str t 0 Hh) as L. rewrite Z.add_0_r in L.
    rewrite L, factor_at_Ok by (done || lia). repeat step_ok. cbv zeta.
    by replace (8 - (r - 8)) with (16 - r) by lia.
  - pose proof (load64_Ok str t 0 Hh) as L. rewrite Z.add_0_r in L.
    rewrite L, factor_at_Ok by (done || lia). repeat step_ok.
    unfold rd. change (Z.to_nat 0) with 0%nat. by rewrite drop_0, take_ge by lia.
  - unfold r. rewrite tail_value_Ok by (done || lia). done.
Qed.
End tails.

(** * The whole function *)

Lemma fold_left_ext_in {S} (g h : S → Z → S) ks s :
  (∀ s k, k ∈ ks → g s k = h s k) → fold_left g ks s = fold_left h ks s.
Proof.
  revert s. induction ks as [|k ks IH]; intros s Hg; [done|]. cbn.
  rewrite Hg by set_solver. apply IH. set_solver.
Qed.

Section whole.
Context {c : VmumConfig} (Hle : reads_le) (env : vmum_env) (Henv : env_ok env).
Context (cells : list (option Z)).

(** The part after the vector rounds, on fewer than 512 bytes. *)
Lemma words_tail_Ok str bs state :
  holds cells str bs → (length bs < 512)%nat →
  let len := Z.of_nat (length bs) in
  ('(i, len, state) ← word_loop env (Live cells) (Z.to_nat (len / 128)) str 0 len state;
   let n := Z.land (len / sizeof_u64) (Z.lnot 1) in
   state ← for2_res n (λ j, pair_mix env (Live cells) _vmum_plus str (i + j)) state;
   let i := i + n in
   let len := len - n * sizeof_u64 in
   let str := str + i * sizeof_u64 in
   tail_switch env (Live cells) str i len state) =
  Ok (tail_spec env (drop (Z.to_nat (16 * (len / 16))) bs) (2 * (len / 16)) (pairs_spec env bs state)).
Proof.
  intros Hh Hlt len. unfold sizeof_u64.
  pose proof (word_loop_Ok Hle env Henv cells (Z.to_nat (len / 128)) str bs 0 len state Hh) as E.
  change (2 * 0) with 0 in E. rewrite E by (unfold len; dlia). clear E. step_ok. cbv beta match zeta.
  set (q := len / 128). set (r := len mod 128).
  assert (0 ≤ q ≤ 3 ∧ 0 ≤ r < 128 ∧ len = 128 * q + r) as (Hq & Hr & El) by (unfold q, r, len; dlia).
  assert (Z.land (r / 8) (Z.lnot 1) = 2 * (r / 16)) as ->.
  { rewrite <-Z.ldiff_land. change 1 with (Z.ones 1). rewrite Z.ldiff_ones_r by lia.
    rewrite shiftr_div, shiftl_mul by lia. dlia. }
  rewrite (pairs_loop_Ok Hle env Henv cells _ str bs) by (done || (unfold len in *; dlia)). step_ok.
  assert (len / 16 = 8 * q + r / 16) as E16 by (rewrite El; dlia).
  replace (2 * (0 + 8 * q) + 2 * (r / 16)) with (2 * (len / 16)) by lia.
  assert (Z.of_nat (length (drop (Z.to_nat (16 * (len / 16))) bs)) = len - 16 * (len / 16)) as Hd
    by (rewrite length_drop; unfold len; dlia).
  replace (r - 2 * (r / 16) * 8) with (Z.of_nat (length (drop (Z.to_nat (16 * (len / 16))) bs)))
    by lia.
  replace (2 * (len / 16) * 8) with (Z.of_nat (Z.to_nat (16 * (len / 16)))) by (unfold len; dlia).
  rewrite (tail_switch_Ok Hle env Henv); [| |unfold len in *; dlia..].
  - do 2 f_equal. unfold pairs_spec. fold len. rewrite E16, seqZ_app, fold_left_app by dlia.
    change (0 + 8 * q) with (8 * q).
    symmetry. etransitivity; [apply (fold_left_ext_in _ (λ s k, Z.lxor s (pair_spec env _vmum_plus bs k)))
      |f_equal; apply fold_left_ext_in]; intros s k Hk%elem_of_seqZ; fold q.
    + by rewrite (proj2 (Z.ltb_ge k (8 * q))) by lia.
    + by rewrite (proj2 (Z.ltb_lt k (8 * q))) by lia.
  - apply holds_drop; [done|]. unfold len. dlia.
Qed.

(** [_vmum_hash_aligned] returns the reference value. *)
Lemma hash_aligned_Ok start str bs :
  holds cells str bs →
  _vmum_hash_aligned env (Live cells) start str (Z.of_nat (length bs)) =
  Ok (hash_spec env start bs).
Proof.
  intros Hh. unfold _vmum_hash_aligned, hash_spec, _VMUM_UNROLL_BLOCK_FACTOR, sizeof_block.
  change (16 * 32) with 512. set (len := Z.of_nat (length bs)).
  set (s0 := _vmum start (_vmum_block_start_factor env)).
  assert (Z.of_nat (length (drop (Z.to_nat (512 * (len / 512))) bs)) = len mod 512) as Hd
    by (rewrite length_drop; unfold len; dlia).
  destruct (Z.leb_spec 512 len) as [Hge|Hlt].
  - unfold len at 2 3. rewrite (block_loop_Ok Hle env Henv cells _ str bs) by
      (done || (unfold len in *; dlia)).
    fold len. do 2 step_ok. cbv beta match. rewrite <-Hd.
    apply words_tail_Ok; [|dlia].
    pose proof (holds_drop cells str bs (Z.to_nat (512 * (len / 512))) Hh) as H.
    rewrite Z2Nat.id in H by (unfold len; dlia). apply H.
    pose proof (Z.mul_div_le len 512). unfold len in *. lia.
  - step_ok. cbv beta match. rewrite (Z.div_small len 512) by (unfold len in *; lia).
    change (Z.to_nat (512 * 0)) with 0%nat. rewrite drop_0. apply words_tail_Ok; [done|lia].
Qed.
End whole.
