(* ===== verification/VmumProps.v ===== *)
(** The properties of vmum.h: what its functions compute on every target, and
    where targets differ. *)

From S2P Require Import Prelude Bits Probe Vmum VmumSpec VmumHash.

(** * The same value on different targets *)

(** The multiplication keeps all carries. *)
Definition full_mul (c : VmumConfig) : Prop :=
  VMUM_USE_INT128 (VmumConfig := c) = true ∨ VMUM_TARGET_INDEPENDENT_HASH (VmumConfig := c) = true.

(** The vector code treats a key word equal to its factor alike. *)
Definition same_vector (c1 c2 : VmumConfig) : Prop :=
  VMUM_V1 (VmumConfig := c1) = VMUM_V1 (VmumConfig := c2) ∧
  (VMUM_V1 (VmumConfig := c1) = true ∨
   (VECTOR (VmumConfig := c1) = SCALAR ↔ VECTOR (VmumConfig := c2) = SCALAR)).

Lemma vmum_full c v p : full_mul c → word64 v → word64 p → _vmum (c := c) v p = _vmum_int128 v p.
Proof.
  intros [E|E] Hv Hp; unfold _vmum; rewrite E; [done|].
  destruct VMUM_USE_INT128; [done|]. by apply vmum_four_carry.
Qed.

Section targets.
Context (c1 c2 : VmumConfig) (Hf1 : full_mul c1) (Hf2 : full_mul c2) (Hs : same_vector c1 c2).
Context (env : vmum_env) (Henv : env_ok env).
Implicit Types (bs t : list Z).

Lemma vmum_same v p : word64 v → word64 p → _vmum (c := c1) v p = _vmum (c := c2) v p.
Proof. intros. by rewrite !vmum_full. Qed.

Lemma xor_same a b : _vmum_xor (c := c1) a b = _vmum_xor (c := c2) a b.
Proof. unfold _vmum_xor. by rewrite (proj1 Hs). Qed.
Lemma plus_same a b : _vmum_plus (c := c1) a b = _vmum_plus (c := c2) a b.
Proof. unfold _vmum_plus. by rewrite (proj1 Hs). Qed.

Lemma xor_word {c : VmumConfig} a b : word64 a → word64 b → word64 (_vmum_xor a b).
Proof. intros. unfold _vmum_xor. repeat case_match; eauto with words. Qed.
Lemma plus_word {c : VmumConfig} a b : word64 a → word64 b → word64 (_vmum_plus a b).
Proof. intros. unfold _vmum_plus. repeat case_match; eauto with words. Qed.

Lemma block_mix_same a b : block_mix (c := c1) a b = block_mix (c := c2) a b.
Proof.
  unfold block_mix. rewrite <-!xor_same. unfold _vmum_xor. destruct Hs as [Ev Hv]. rewrite <-Ev.
  destruct (VMUM_V1 (VmumConfig := c1)) eqn:E1.
  - destruct (VECTOR (VmumConfig := c1)), (VECTOR (VmumConfig := c2)); done.
  - destruct Hv as [?|Hv]; [done|].
    destruct (VECTOR (VmumConfig := c1)), (VECTOR (VmumConfig := c2)); try done;
      (destruct Hv as [H1 H2]; try specialize (H1 eq_refl); try specialize (H2 eq_refl); done).
Qed.

Lemma update_same s va vb pa pb : update_spec (c := c1) s va vb pa pb = update_spec (c := c2) s va vb pa pb.
Proof. unfold update_spec, zip_block. by rewrite !block_mix_same. Qed.

Lemma rounds_same n bs s :
  rounds_spec (c := c1) env n bs s = rounds_spec (c := c2) env n bs s.
Proof.
  revert bs s. induction n as [|n IH]; intros bs s; [done|]. cbn [rounds_spec]. rewrite IH. f_equal.
  unfold round_spec. f_equal. apply fold_left_ext_in. intros. apply update_same.
Qed.

Lemma pairs_same bs state : Forall byte bs →
  pairs_spec (c := c1) env bs state = pairs_spec (c := c2) env bs state.
Proof.
  intros Hb. apply fold_left_ext_in. intros s k _. f_equal. unfold pair_spec.
  assert (∀ i off, word64 (fac env i) ∧ word64 (rd bs off 8)) as Hw
    by (intros; split; [by apply fac_word|by apply rd_word]).
  case_match; rewrite vmum_same by (apply xor_word || apply plus_word; apply Hw; exact 0);
    by rewrite ?xor_same, ?plus_same.
Qed.

Lemma le_combine_8 t : Forall byte t → length t = 8%nat → word64 (le_combine t).
Proof. intros Hb Hl. pose proof (le_combine_range t Hb) as H. rewrite Hl in H. exact H. Qed.

Lemma tail_same t i state : Forall byte t → (length t ≤ 15)%nat →
  tail_spec (c := c1) env t i state = tail_spec (c := c2) env t i state.
Proof.
  intros Hb Hl. unfold tail_spec. cbv zeta.
  pose proof (fac_word env Henv) as Hfw. pose proof (eo_tail env Henv).
  repeat case_match; try done; f_equal; [by apply vmum_same; eauto with words..|].
  rewrite vmum_same; [by rewrite plus_same|by eauto with words|].
  assert (length (take 8 t) = 8%nat) by
    (rewrite length_take; repeat match goal with H : (_ =? _) = _ |- _ =>
       apply Z.eqb_neq in H | H : (_ <? _) = _ |- _ => apply Z.ltb_ge in H end; lia).
  apply plus_word; [|done]. apply le_combine_8; [by apply Forall_take|done].
Qed.

Lemma hash_spec_same start bs : word64 start → Forall byte bs →
  hash_spec (c := c1) env start bs = hash_spec (c := c2) env start bs.
Proof.
  intros Hst Hb. unfold hash_spec. cbv zeta. rewrite vmum_same by (done || apply (eo_start env Henv)).
  set (rest := drop _ bs). assert (Forall byte rest) by (by apply Forall_drop).
  rewrite tail_same; [|by apply Forall_drop|rewrite length_drop; dlia]. f_equal.
  rewrite pairs_same by done. f_equal. case_match; [|done].
  by rewrite !fold_block_spec, rounds_same.
Qed.
End targets.

Lemma hash_spec_word {c : VmumConfig} env start bs : word64 start → word64 (hash_spec env start bs).
Proof.
  intros Hst. unfold hash_spec. cbv zeta.
  set (s := if 512 <=? _ then _ else _).
  assert (word64 s) as Hs by (unfold s; case_match; eauto with words).
  assert (∀ (h : Z → Z) ks s, (∀ k, word64 (h k)) → word64 s →
    word64 (fold_left (λ s k, Z.lxor s (h k)) ks s)) as Hfold.
  { intros h ks. induction ks as [|k ks IH]; intros s' Hh Hs'; [done|].
    apply IH; [done|]. eauto with words. }
  assert (∀ bs, word64 (pairs_spec env bs s)) as Hp.
  { intros bs'. unfold pairs_spec. cbv zeta.
    apply (Hfold (λ k, pair_spec env _ bs' k)); [|done]. intros k. apply vmum_range. }
  unfold tail_spec. cbv zeta. repeat case_match; eauto with words.
Qed.

(** * Targets for the examples *)

Definition x86_64 : VmumConfig := {|
  VMUM_USE_INT128 := true; VMUM_TARGET_INDEPENDENT_HASH := false; VMUM_V1 := false;
  BYTE_ORDER := LittleEndian; VECTOR := SCALAR; VMUM_UNALIGNED_ACCESS := true;
  VMUM_BLOCK_LEN := 1024; SIZE_BITS := 64 |}.
Definition x86_64_avx2 : VmumConfig := {|
  VMUM_USE_INT128 := true; VMUM_TARGET_INDEPENDENT_HASH := false; VMUM_V1 := false;
  BYTE_ORDER := LittleEndian; VECTOR := AVX2; VMUM_UNALIGNED_ACCESS := true;
  VMUM_BLOCK_LEN := 1024; SIZE_BITS := 64 |}.
(** A 64-bit compiler without 128-bit integers. *)
Definition no_int128 : VmumConfig := {|
  VMUM_USE_INT128 := false; VMUM_TARGET_INDEPENDENT_HASH := false; VMUM_V1 := false;
  BYTE_ORDER := LittleEndian; VECTOR := SCALAR; VMUM_UNALIGNED_ACCESS := true;
  VMUM_BLOCK_LEN := 1024; SIZE_BITS := 64 |}.
(** A big-endian target of strict alignment with the portable options. *)
Definition portable_be : VmumConfig := {|
  VMUM_USE_INT128 := false; VMUM_TARGET_INDEPENDENT_HASH := true; VMUM_V1 := false;
  BYTE_ORDER := BigEndian; VECTOR := SCALAR; VMUM_UNALIGNED_ACCESS := false;
  VMUM_BLOCK_LEN := 1024; SIZE_BITS := 64 |}.
Definition portable_be_unaligned : VmumConfig := {|
  VMUM_USE_INT128 := false; VMUM_TARGET_INDEPENDENT_HASH := true; VMUM_V1 := false;
  BYTE_ORDER := BigEndian; VECTOR := SCALAR; VMUM_UNALIGNED_ACCESS := true;
  VMUM_BLOCK_LEN := 1024; SIZE_BITS := 64 |}.

Lemma default_env_ok : env_ok vmum_default_env.
Proof. split; try done; repeat constructor; done. Qed.

(** A key of [n] bytes, alone in memory. *)
Definition sample_key (n : Z) : list Z := (λ i, (7 * i + 3) mod 256) <$> seqZ 0 n.

Lemma sample_key_byte n : Forall byte (sample_key n).
Proof. apply Forall_fmap, Forall_true. intros i. apply Z.mod_pos_bound. lia. Qed.

Lemma holds_self bs : Forall byte bs → holds (Some <$> bs) 0 bs.
Proof.
  intros Hb. split; [|done]. apply cells_at_lookup; [done|]. intros k Hk.
  unfold cellv, zlookup. rewrite !decide_True, list_lookup_fmap by lia.
  rewrite Z.sub_0_r. by destruct (bs !! Z.to_nat k).
Qed.

(** * Properties *)

(** C26: The four 32-bit multiplications with carries give the value of the
    128-bit multiplication.  Without the carries the value is at most two
    less, and it does differ. *)
Theorem vmum_multiplications v p :
  word64 v → word64 p →
  _vmum_four true v p = _vmum_int128 v p ∧
  (∃ k, 0 ≤ k ≤ 2 ∧ (_vmum_four false v p + k) mod 2 ^ 64 = _vmum_int128 v p) ∧
  _vmum_four false (2 ^ 64 - 1) (2 ^ 64 - 1) ≠ _vmum_int128 (2 ^ 64 - 1) (2 ^ 64 - 1).
Proof.
  intros Hv Hp. split_and!; [by apply vmum_four_carry|by apply vmum_four_no_carry|].
  by vm_compute.
Qed.

Lemma vmum_multiplications_witness :
  word64 0xfedcba9876543210 ∧
  _vmum_four true 0xfedcba9876543210 0x7fc65e8a22c2f74b =
  _vmum_int128 0xfedcba9876543210 0x7fc65e8a22c2f74b.
Proof.
  split; [by vm_compute|].
  apply (vmum_multiplications 0xfedcba9876543210 0x7fc65e8a22c2f74b); by vm_compute.
Defined.

(** C14: On a target that reads words in little-endian order and allows
    unaligned access, [vmum_hash] of a key in readable memory returns the
    reference value: the loops end, no byte outside the key and no factor
    outside the tables is read, and the result is a 64-bit number that depends
    on the bytes of the key only, not on where they are. *)
Theorem vmum_hash_reference {c : VmumConfig} env cells str bs addr seed :
  reads_le → VMUM_UNALIGNED_ACCESS = true → env_ok env → holds cells str bs →
  vmum_hash env (Live cells) addr str (Z.of_nat (length bs)) seed =
    Ok (_vmum_final (hash_spec env (u64 (seed + Z.of_nat (length bs))) bs)) ∧
  word64 (_vmum_final (hash_spec env (u64 (seed + Z.of_nat (length bs))) bs)).
Proof.
  intros Hle Hu Henv Hh. unfold vmum_hash. rewrite Hu, hash_aligned_Ok by done.
  split; [done|]. apply vmum_range.
Qed.

Lemma vmum_hash_reference_witness :
  vmum_hash (c := x86_64) vmum_default_env (Live (Some <$> sample_key 1000)) 16 0 1000 7 =
  Ok (_vmum_final (c := x86_64) (hash_spec (c := x86_64) vmum_default_env 1007 (sample_key 1000))).
Proof.
  apply (vmum_hash_reference (c := x86_64) vmum_default_env (Some <$> sample_key 1000) 0
    (sample_key 1000) 16 7); [by left|reflexivity|apply default_env_ok|].
  apply holds_self, sample_key_byte.
Defined.

(** C27: Targets that allow unaligned access, keep the carries, read
    little-endian words and agree in [VMUM_V1] and in the treatment of key words equal to their factor compute
    the same hash of the same bytes, whatever their byte order, their
    multiplication and, among vector units, their vector unit. *)
Theorem vmum_hash_target_independent (c1 c2 : VmumConfig) env cells1 str1 cells2 str2 bs a1 a2 seed :
  full_mul c1 → full_mul c2 → same_vector c1 c2 →
  reads_le (c := c1) → reads_le (c := c2) →
  VMUM_UNALIGNED_ACCESS (VmumConfig := c1) = true →
  VMUM_UNALIGNED_ACCESS (VmumConfig := c2) = true →
  env_ok env → holds cells1 str1 bs → holds cells2 str2 bs →
  vmum_hash (c := c1) env (Live cells1) a1 str1 (Z.of_nat (length bs)) seed =
  vmum_hash (c := c2) env (Live cells2) a2 str2 (Z.of_nat (length bs)) seed.
Proof.
  intros Hf1 Hf2 Hs Hl1 Hl2 Hu1 Hu2 Henv Hh1 Hh2. unfold vmum_hash. rewrite Hu1, Hu2.
  rewrite (hash_aligned_Ok (c := c1)), (hash_aligned_Ok (c := c2)) by done. repeat step_ok.
  destruct Hh1 as [_ Hb].
  rewrite (hash_spec_same c1 c2) by eauto with words. unfold _vmum_final.
  by rewrite (vmum_same c1 c2) by (done || apply hash_spec_word, u64_word64).
Qed.

Lemma vmum_hash_target_independent_witness :
  vmum_hash (c := x86_64) vmum_default_env (Live (Some <$> sample_key 600)) 16 0 600 7 =
  vmum_hash (c := portable_be_unaligned) vmum_default_env (Live (Some <$> sample_key 600)) 3 0 600 7.
Proof.
  apply (vmum_hash_target_independent x86_64 portable_be_unaligned vmum_default_env
    (Some <$> sample_key 600) 0 (Some <$> sample_key 600) 0 (sample_key 600) 16 3 7);
    [by left|by right|split; [done|by right]|by left|by right|reflexivity|reflexivity
    |apply default_env_ok|apply holds_self, sample_key_byte|apply holds_self, sample_key_byte].
Defined.

(** ** Keys that are not aligned *)

(** The pieces of [n] bytes hashed one after the other. *)
Fixpoint pieces_hash {c : VmumConfig} (env : vmum_env) (fuel n : nat) (bs : list Z) (result : Z) : Z :=
  match fuel with
  | O => result
  | S fuel =>
      if decide (bs = []) then result
      else pieces_hash env fuel n (drop n bs) (hash_spec env result (take n bs))
  end.

Lemma holds_copy bs n :
  Forall byte bs → Z.of_nat (length bs) ≤ n →
  ∃ buf, arr_sets (malloc n) 0 bs = Ok (Live buf) ∧ holds buf 0 bs.
Proof.
  intros Hb Hn. destruct (arr_sets_Ok (replicate (Z.to_nat n) None) 0 bs) as (buf & E & _ & Hc);
    [lia|rewrite length_replicate; lia|].
  exists buf. split; [exact E|]. split; [|done]. apply cells_at_lookup; [done|].
  intros k Hk. by rewrite Hc, decide_True by lia.
Qed.

Lemma unaligned_loop_Ok {c : VmumConfig} env cells fuel str bs result :
  reads_le → env_ok env → VMUM_BLOCK_LEN mod 8 = 0 → 8 ≤ VMUM_BLOCK_LEN →
  holds cells str bs → (length bs ≤ fuel)%nat →
  unaligned_loop env (Live cells) fuel str (Z.of_nat (length bs)) result =
  Ok (pieces_hash env fuel (Z.to_nat VMUM_BLOCK_LEN) bs result).
Proof.
  intros Hle Henv Hm H8. revert str bs result.
  induction fuel as [|fuel IH]; intros str bs result Hh Hlen; cbn [unaligned_loop pieces_hash];
    [by destruct bs; [|cbn in Hlen; lia]|].
  destruct (decide (bs = [])) as [->|Hne]; [done|].
  assert (length bs ≠ 0%nat) by (by destruct bs).
  destruct (Z.eqb_spec (Z.of_nat (length bs)) 0) as [|_]; [lia|]. cbn [negb].
  set (n := if Z.of_nat (length bs) <? VMUM_BLOCK_LEN then _ else _).
  assert (0 < n ≤ Z.of_nat (length bs) ∧ n = Z.min (Z.of_nat (length bs)) VMUM_BLOCK_LEN) as [Hn En]
    by (unfold n; destruct (Z.ltb_spec (Z.of_nat (length bs)) VMUM_BLOCK_LEN); lia).
  assert (take (Z.to_nat VMUM_BLOCK_LEN) bs = take (Z.to_nat n) bs) as ->
    by (destruct (decide (Z.of_nat (length bs) < VMUM_BLOCK_LEN));
        [rewrite !take_ge by lia; done|f_equal; lia]).
  assert (drop (Z.to_nat VMUM_BLOCK_LEN) bs = drop (Z.to_nat n) bs) as ->
    by (destruct (decide (Z.of_nat (length bs) < VMUM_BLOCK_LEN));
        [rewrite !drop_ge by lia; done|f_equal; lia]).
  pose proof (holds_sub cells str bs 0 (Z.to_nat n) Hh ltac:(lia) ltac:(lia)) as [Hc Hb].
  rewrite Z.add_0_r in Hc. change (Z.to_nat 0) with 0%nat in Hc, Hb. rewrite drop_0 in Hc, Hb.
  assert (length (take (Z.to_nat n) bs) = Z.to_nat n) as Hl by (rewrite length_take; lia).
  rewrite Hl in Hc. rewrite (arr_gets_Ok _ _ _ _ Hc). step_ok.
  destruct (holds_copy (take (Z.to_nat n) bs) (VMUM_BLOCK_LEN / sizeof_u64 * sizeof_u64) Hb)
    as (buf & -> & Hbuf); [unfold sizeof_u64; rewrite Hl; dlia|]. step_ok.
  replace n with (Z.of_nat (length (take (Z.to_nat n) bs))) at 1 by lia.
  rewrite hash_aligned_Ok by done. step_ok.
  replace (Z.of_nat (length bs) - n) with (Z.of_nat (length (drop (Z.to_nat n) bs)))
    by (rewrite length_drop; lia).
  apply IH; [|rewrite length_drop; lia].
  pose proof (holds_drop cells str bs (Z.to_nat n) Hh ltac:(lia)) as H'.
  by rewrite Z2Nat.id in H' by lia.
Qed.

(** C28: On a target without unaligned access [vmum_hash] returns too.  An
    aligned key is hashed as a whole, another one in pieces of
    [VMUM_BLOCK_LEN] bytes; the two agree for keys of 1 to [VMUM_BLOCK_LEN]
    bytes.  They need not agree for other keys: with the default factors and
    blocks of 1024 bytes the hash of the empty key and that of a key of 1025
    bytes are not the same at an aligned and at another address. *)
Theorem vmum_hash_strict_alignment {c : VmumConfig} env cells str bs addr seed :
  reads_le → VMUM_UNALIGNED_ACCESS = false → VMUM_BLOCK_LEN mod 8 = 0 → 8 ≤ VMUM_BLOCK_LEN →
  env_ok env → holds cells str bs →
  let len := Z.of_nat (length bs) in
  let start := u64 (seed + len) in
  vmum_hash env (Live cells) addr str len seed =
    Ok (_vmum_final
      (if Z.land addr 7 =? 0 then hash_spec env start bs
       else pieces_hash env (length bs) (Z.to_nat VMUM_BLOCK_LEN) bs start)) ∧
  (0 < len ≤ VMUM_BLOCK_LEN →
    pieces_hash env (length bs) (Z.to_nat VMUM_BLOCK_LEN) bs start = hash_spec env start bs) ∧
  (∀ n, n = 0 ∨ n = 1025 →
    vmum_hash (c := portable_be) vmum_default_env (Live (Some <$> sample_key n)) 0 0 n 5 ≠
    vmum_hash (c := portable_be) vmum_default_env (Live (Some <$> sample_key n)) 1 0 n 5).
Proof.
  intros Hle Hu Hm H8 Henv Hh len start. split_and!.
  - unfold vmum_hash, _vmum_hash_default. rewrite Hu. cbv zeta. fold len start.
    destruct (Z.land addr 7 =? 0); [unfold len; by rewrite hash_aligned_Ok by done|].
    unfold len. by rewrite Nat2Z.id, unaligned_loop_Ok by (done || lia).
  - subst len start. intros Hlen. destruct bs as [|b bs]; [by cbn in Hlen; lia|].
    cbn [length pieces_hash] in *. rewrite decide_False by done.
    rewrite take_ge, drop_ge by (cbn [length]; lia). by destruct (length bs).
  - intros n [-> | ->]; by vm_compute.
Qed.

Lemma vmum_hash_strict_alignment_witness :
  let len := Z.of_nat (length (sample_key 100)) in
  vmum_hash (c := portable_be) vmum_default_env (Live (Some <$> sample_key 100)) 3 0 len 7 =
  Ok (_vmum_final (c := portable_be)
    (pieces_hash (c := portable_be) vmum_default_env (length (sample_key 100)) (Z.to_nat 1024)
       (sample_key 100) (u64 (7 + len)))).
Proof.
  exact (proj1 (vmum_hash_strict_alignment (c := portable_be) vmum_default_env
    (Some <$> sample_key 100) 0 (sample_key 100) 3 7 (or_intror (conj eq_refl (conj eq_refl eq_refl)))
    eq_refl eq_refl ltac:(vm_compute; discriminate) default_env_ok
    (holds_self (sample_key 100) (sample_key_byte 100)))).
Defined.

(** ** Vector units *)

(** No word of the block [v] equals the factor at its place. *)
Definition differ (v p : _vmum_block_t) : Prop :=
  v0 v ≠ v0 p ∧ v1 v ≠ v1 p ∧ v2 v ≠ v2 p ∧ v3 v ≠ v3 p.

Lemma block_mix_differ {c : VmumConfig} a b : a ≠ b → block_mix a b = Z.lxor a b.
Proof.
  intros Hne. unfold block_mix, _vmum_xor.
  destruct (Z.eqb_spec (Z.lxor a b) 0) as [E|]; [by apply Z.lxor_eq in E|].
  by destruct VECTOR, VMUM_V1.
Qed.

(** The same words, as positions in a block. *)
Definition block_elts : list (_vmum_block_t → Z) := [v0; v1; v2; v3].

(** By how much replacing the operand [p] of the multiplication by ones
    changes the sum of the products with [x]. *)
Definition ones_excess (p x : Z) : Z :=
  (2 ^ 32 - 1 - u32 p) * u32 x + (2 ^ 32 - 1 - Z.shiftr p 32) * Z.shiftr x 32.

Lemma ones_val p x : (Scalar._vmum_val (2 ^ 64 - 1) x - Scalar._vmum_val p x) mod 2 ^ 64 = ones_excess p x mod 2 ^ 64.
Proof.
  unfold Scalar._vmum_val, ones_excess, u64. cbv zeta.
  change (u32 (2 ^ 64 - 1)) with (2 ^ 32 - 1). change (Z.shiftr (2 ^ 64 - 1) 32) with (2 ^ 32 - 1).
  rewrite <-Zminus_mod. f_equal. lia.
Qed.

Lemma ones_val_same p x : Scalar._vmum_val (2 ^ 64 - 1) x = Scalar._vmum_val p x ↔ ones_excess p x mod 2 ^ 64 = 0.
Proof.
  rewrite <-ones_val. pose proof (scalar_val_word (2 ^ 64 - 1) x) as H1. pose proof (scalar_val_word p x) as H2.
  unfold word64 in *. split; [intros ->; by rewrite Z.sub_diag|]. intros E. dlia.
Qed.

Lemma lxor_cancel_l a x y : Z.lxor a x = Z.lxor a y ↔ x = y.
Proof.
  split; [|by intros ->]. intros E. assert (Z.lxor a (Z.lxor a x) = Z.lxor a (Z.lxor a y)) as E2 by (by rewrite E).
  by rewrite <-!Z.lxor_assoc, Z.lxor_nilpotent, !Z.lxor_0_l in E2.
Qed.

Lemma scalar_mix {c : VmumConfig} a b :
  BYTE_ORDER = LittleEndian → VMUM_V1 = true ∨ a ≠ b → _vmum_xor (_vmum_le a) b = Z.lxor a b.
Proof.
  intros Hle Hab. unfold _vmum_xor, _vmum_le, swaps. rewrite Hle.
  destruct VMUM_V1; [done|]. destruct Hab as [?|Hne]; [done|].
  by destruct (Z.eqb_spec (Z.lxor a b) 0) as [E|]; [apply Z.lxor_eq in E|].
Qed.

Lemma block_mix_xor {c : VmumConfig} a b : VMUM_V1 = true ∨ a ≠ b → block_mix a b = Z.lxor a b.
Proof.
  intros [E|Hne]; [|by apply block_mix_differ]. unfold block_mix, _vmum_xor. rewrite E. by destruct VECTOR.
Qed.

(** A key word equal to its factor: ones in the vector code, the factor in the
    scalar code. *)
Lemma equal_word_mix {c : VmumConfig} p :
  BYTE_ORDER = LittleEndian → VMUM_V1 = false → VECTOR ≠ SCALAR →
  block_mix p p = 2 ^ 64 - 1 ∧ _vmum_xor (_vmum_le p) p = p.
Proof.
  intros Hle Hv HV. unfold block_mix, _vmum_xor, _vmum_le, swaps. rewrite Hle, Hv, Z.lxor_nilpotent.
  by destruct VECTOR.
Qed.

(** A key of 512 bytes whose first word equals the first factor, and targets
    that differ in the vector unit. *)
Definition factor_key : list Z := bytes_of_int LittleEndian 8 0x0c3ec9639d3a203f ++ sample_key 504.
Definition le_target (unit : vector_arch) : VmumConfig := {|
  VMUM_USE_INT128 := true; VMUM_TARGET_INDEPENDENT_HASH := false; VMUM_V1 := false;
  BYTE_ORDER := LittleEndian; VECTOR := unit; VMUM_UNALIGNED_ACCESS := true;
  VMUM_BLOCK_LEN := 1024; SIZE_BITS := 64 |}.

(** C29: The vector code for AVX2, NEON and AltiVec on little-endian targets
    against the scalar code.  With [VMUM_V1], or as long as no key word equals
    its factor, a round step gives the same words; so do the randomization of
    the state and the final fold in any case.  Without [VMUM_V1], where a word
    of the first operand equals its factor [p] and that of the second one
    differs from its own by [x], the vector code multiplies ones instead of
    [p], and the resulting word is that of the scalar code exactly if
    [ones_excess p x] is a multiple of 2^64.  For each of the three units
    there is a key whose hash is not the scalar one. *)
Theorem vmum_vector_units {c : VmumConfig} s va vb pa pb :
  BYTE_ORDER = LittleEndian → block_words s →
  block_words va → block_words vb → block_words pa → block_words pb →
  (VMUM_V1 = true ∨ differ va pa ∧ differ vb pb →
    _vmum_update_block s va vb pa pb = Scalar._vmum_update_block s va vb pa pb) ∧
  _vmum_factor_block s pa = Scalar._vmum_factor_block s pa ∧
  _vmum_fold_block s = Scalar._vmum_fold_block s ∧
  (∀ elt, elt ∈ block_elts → VMUM_V1 = false → VECTOR ≠ SCALAR → elt va = elt pa → elt vb ≠ elt pb →
    elt (_vmum_update_block s va vb pa pb) = elt (Scalar._vmum_update_block s va vb pa pb) ↔
    ones_excess (elt pa) (Z.lxor (elt vb) (elt pb)) mod 2 ^ 64 = 0) ∧
  (∀ unit, unit ≠ SCALAR →
    vmum_hash (c := le_target unit) vmum_default_env (Live (Some <$> factor_key)) 0 0 512 0 ≠
    vmum_hash (c := le_target SCALAR) vmum_default_env (Live (Some <$> factor_key)) 0 0 512 0).
Proof.
  intros Hle Hs Ha Hb Hp Hq. split_and!.
  - intros Hd. rewrite update_block_spec by (done || by left).
    rewrite !block_le_id by done. unfold update_spec, Scalar._vmum_update_block, zip_block.
    cbn [v0 v1 v2 v3]. rewrite !block_mix_xor, !scalar_mix by (done || unfold differ in Hd; tauto). done.
  - rewrite factor_block_spec by done. done.
  - apply fold_block_spec.
  - intros elt Helt Hv HV Ea Eb. rewrite update_block_spec by (done || by left). rewrite !block_le_id by done.
    destruct (equal_word_mix (elt pa) Hle Hv HV) as [M1 M2]. rewrite <-ones_val_same.
    rewrite <-(lxor_cancel_l (elt s) (Scalar._vmum_val (2 ^ 64 - 1) _)).
    unfold update_spec, Scalar._vmum_update_block, zip_block, block_elts in *. rewrite !elem_of_cons, elem_of_nil in Helt.
    destruct Helt as [->|[->|[->|[->|[]]]]]; cbn [v0 v1 v2 v3];
      by rewrite Ea, M1, M2, block_mix_xor, scalar_mix by (done || by right).
  - intros unit Hu. destruct unit; [clear; by vm_compute..|by destruct Hu].
Qed.

(** A step with words that differ from their factors, and one with a first
    word that equals its factor. *)
Lemma vmum_vector_units_witness :
  let s := mk_block 1 2 3 4 in
  _vmum_update_block (c := x86_64_avx2) s (mk_block 5 6 7 8) (mk_block 9 10 11 12)
    (mk_block 13 14 15 16) (mk_block 17 18 19 20) =
  Scalar._vmum_update_block (c := x86_64_avx2) s (mk_block 5 6 7 8)
    (mk_block 9 10 11 12) (mk_block 13 14 15 16) (mk_block 17 18 19 20) ∧
  v0 (_vmum_update_block (c := le_target ARM_NEON) s (mk_block 13 6 7 8) (mk_block 9 10 11 12)
    (mk_block 13 14 15 16) (mk_block 17 18 19 20)) ≠
  v0 (Scalar._vmum_update_block (c := le_target ARM_NEON) s (mk_block 13 6 7 8)
    (mk_block 9 10 11 12) (mk_block 13 14 15 16) (mk_block 17 18 19 20)).
Proof.
  intros s. split.
  - apply (vmum_vector_units (c := x86_64_avx2) (mk_block 1 2 3 4) (mk_block 5 6 7 8)
      (mk_block 9 10 11 12) (mk_block 13 14 15 16) (mk_block 17 18 19 20)); try by vm_compute.
    right. by vm_compute.
  - destruct (vmum_vector_units (c := le_target ARM_NEON) s (mk_block 13 6 7 8)
      (mk_block 9 10 11 12) (mk_block 13 14 15 16) (mk_block 17 18 19 20)) as (_ & _ & _ & H & _); [by vm_compute..|].
    rewrite (H v0); [by vm_compute|left|done..].
Defined.

(** ** Single words *)

(** C37: [vmum_hash64] gives a 64-bit number that is the same on all targets
    with 64-bit [size_t] whose multiplication keeps the carries.  Without
    128-bit integers and [VMUM_TARGET_INDEPENDENT_HASH] it can be another one:
    it is for the key 1. *)
Theorem vmum_hash64_targets (c1 c2 : VmumConfig) env key seed :
  full_mul c1 → full_mul c2 →
  SIZE_BITS (VmumConfig := c1) = 64 → SIZE_BITS (VmumConfig := c2) = 64 →
  env_ok env → word64 key →
  vmum_hash64 (c := c1) env key seed = vmum_hash64 (c := c2) env key seed ∧
  word64 (vmum_hash64 (c := c1) env key seed) ∧
  vmum_hash64 (c := x86_64) vmum_default_env 1 0 ≠ vmum_hash64 (c := no_int128) vmum_default_env 1 0.
Proof.
  intros Hf1 Hf2 Hs1 Hs2 Henv Hk. unfold vmum_hash64. rewrite Hs1, Hs2. split_and!.
  - unfold vmum_hash_finish, vmum_hash_step, vmum_hash_init, _vmum_final.
    pose proof (eo_hash env Henv). pose proof (eo_key env Henv).
    by rewrite !(vmum_same c1 c2) by eauto with words.
  - apply Z.mod_pos_bound. lia.
  - by vm_compute.
Qed.

Lemma vmum_hash64_targets_witness :
  vmum_hash64 (c := x86_64) vmum_default_env 42 0 = vmum_hash64 (c := portable_be) vmum_default_env 42 0.
Proof.
  apply (vmum_hash64_targets x86_64 portable_be vmum_default_env 42 0);
    [by left|by right|reflexivity|reflexivity|apply default_env_ok|by vm_compute].
Defined.

(** ** Random factors *)

(** Eight results of [rand], the first one in the highest byte. *)
Definition rand_word (rand : nat → Z) (k : nat) : Z :=
  fold_left (λ s j, 256 * s + rand (k + j)%nat mod 256) (seq 0 8) 0.

Section randomize.
Context (rand : nat → Z) (Hrand : ∀ k, 0 ≤ rand k).

Lemma next_byte s k :
  0 ≤ s < 2 ^ 56 → Z.lor (u64 (Z.shiftl s 8)) (Z.rem (rand k) 256) = 256 * s + rand k mod 256.
Proof.
  intros Hs. rewrite Z.rem_mod_nonneg by (done || lia). unfold u64.
  rewrite Z.mod_small by (rewrite shiftl_mul; lia). rewrite Z.lor_comm, lor_high_byte; [lia|].
  apply Z.mod_pos_bound. lia.
Qed.

Lemma next_factor_Ok k : _vmum_next_factor rand k = (rand_word rand k, (k + 8)%nat).
Proof.
  unfold _vmum_next_factor, rand_word. change (seqZ 0 8) with [0; 1; 2; 3; 4; 5; 6; 7].
  cbn [seq fold_left fst snd].
  assert (∀ k, 0 ≤ rand k mod 256 < 256) as Hr by (intros; apply Z.mod_pos_bound; lia).
  pose proof (Hr k). pose proof (Hr (S k)). pose proof (Hr (S (S k))).
  pose proof (Hr (S (S (S k)))). pose proof (Hr (S (S (S (S k))))).
  pose proof (Hr (S (S (S (S (S k)))))). pose proof (Hr (S (S (S (S (S (S k))))))).
  replace (k + 0)%nat with k by lia. replace (k + 1)%nat with (S k) by lia.
  replace (k + 2)%nat with (S (S k)) by lia. replace (k + 3)%nat with (S (S (S k))) by lia.
  replace (k + 4)%nat with (S (S (S (S k)))) by lia.
  replace (k + 5)%nat with (S (S (S (S (S k))))) by lia.
  replace (k + 6)%nat with (S (S (S (S (S (S k)))))) by lia.
  replace (k + 7)%nat with (S (S (S (S (S (S (S k))))))) by lia.
  repeat match goal with |- context [Z.lor (u64 (Z.shiftl ?s 8)) (Z.rem (rand ?j) 256)] =>
    lazymatch s with context [Z.lor] => fail | _ => rewrite (next_byte s j) by lia end end.
  f_equal. lia.
Qed.

Lemma rand_word_range k : word64 (rand_word rand k).
Proof.
  unfold rand_word, word64. cbn [seq fold_left].
  assert (∀ k, 0 ≤ rand k mod 256 < 256) as Hr by (intros; apply Z.mod_pos_bound; lia).
  pose proof (λ j, Hr (k + j)%nat) as Hj.
  pose proof (Hj 0%nat). pose proof (Hj 1%nat). pose proof (Hj 2%nat). pose proof (Hj 3%nat).
  pose proof (Hj 4%nat). pose proof (Hj 5%nat). pose proof (Hj 6%nat). pose proof (Hj 7%nat). lia.
Qed.

Lemma next_factors_Ok n k :
  next_factors rand n k = ((λ i, rand_word rand (k + 8 * i)) <$> seq 0 n, (k + 8 * n)%nat).
Proof.
  revert k. induction n as [|n IH]; intros k; cbn [next_factors]; [f_equal; lia|].
  rewrite next_factor_Ok, IH. cbn [seq fmap list_fmap]. f_equal; [|lia]. f_equal; [f_equal; lia|].
  rewrite <-fmap_S_seq, <-list_fmap_compose. apply list_fmap_ext. intros i x _. unfold compose.
  f_equal. lia.
Qed.
End randomize.

(** C38: After [vmum_hash_randomize] the factors are again 64-bit numbers in
    tables of the same lengths, so that hashing works as before; word factor
    [i] is made of the results number 80 + 8 i to 87 + 8 i of [rand], which is
    only assumed not to return negative numbers. *)
Theorem vmum_randomize_ok (srand : Z → nat → Z) seed env :
  (∀ s k, 0 ≤ srand s k) → env_ok env →
  env_ok (vmum_hash_randomize srand seed env) ∧
  ∀ i, 0 ≤ i < 80 → fac (vmum_hash_randomize srand seed env) i =
    rand_word (srand (u32 seed)) (80 + 8 * Z.to_nat i).
Proof.
  intros Hr Henv. unfold vmum_hash_randomize. set (rand := srand (u32 seed)).
  assert (∀ k, 0 ≤ rand k) as Hr' by apply Hr.
  do 6 rewrite (next_factor_Ok rand Hr'). rewrite !(next_factors_Ok rand Hr').
  rewrite (eo_unroll_len env Henv), (eo_factors_len env Henv).
  pose proof (rand_word_range rand) as Hw. split.
  - split; cbn [_vmum_unroll_factors _vmum_factors _vmum_block_start_factor _vmum_tail_factor
      _vmum_hash_step_factor _vmum_key_step_factor]; rewrite ?length_fmap, ?length_seq;
      try reflexivity; try apply Hw; apply Forall_fmap, Forall_true; intros; apply Hw.
  - intros i Hi. unfold fac. cbn [_vmum_factors]. unfold zlookup. rewrite decide_True by lia.
    rewrite list_lookup_fmap, lookup_seq_lt by lia. reflexivity.
Qed.

Lemma vmum_randomize_ok_witness :
  env_ok (vmum_hash_randomize (λ s k, (1103515245 * (s + Z.of_nat k) + 12345) mod 2 ^ 31) 7
    vmum_default_env).
Proof.
  apply (vmum_randomize_ok (λ s k, (1103515245 * (s + Z.of_nat k) + 12345) mod 2 ^ 31) 7
    vmum_default_env); [|apply default_env_ok].
  intros s k. apply Z.mod_pos_bound. lia.
Defined.

(** The hash of integer keys is fit for the tables. *)
#[export] Instance vmum_hash64_laws {c : VmumConfig} env seed :
  SIZE_BITS = 64 → KeyLaws (λ k, vmum_hash64 env k seed) Z.eqb.
Proof.
  intros Hs. split; intros *; rewrite ?Z.eqb_eq; try congruence.
  unfold vmum_hash64. rewrite Hs. apply Z.mod_pos_bound. lia.
Qed.
