(* ===== verification/Api.v ===== *)
(** The tables as a C program sees them.  [Api] has the functions that both
    headers generate, with the element pointers and iterators of a table as
    abstract types, and [ApiLaws] what a program can rely on; the programs in
    [Tests] and [Bench] are written and verified against these. *)

From S2P Require Import Prelude Probe Spec Store.

(** [T]: tables, [P]: pointers to elements, [It]: iterators. *)
Class Api (El T P It : Type) := {
  api_create : Z → res T;
  api_destroy : T → res T;
  api_perform : T → El → action → res (bool * option P * T);
  api_els_count : T → Z;
  api_iter_begin : T → res It;
  api_iter_valid : It → bool;
  api_iter_next : T → It → res It;
  (** [it.ptr], [*p] and [*p = e] *)
  api_iter_ptr : It → option P;
  api_read : T → P → res El;
  api_write : T → P → El → res T
}.

(** [api_rep t l]: the table holds the elements [l]; [api_ready t el]: it can
    take the key of [el], which is sure below [api_limit] elements;
    [api_at t it l]: the iterator has the elements [l] to go. *)
Class ApiLaws {El T P It : Type} (Eq : El → El → bool) (A : Api El T P It) := {
  api_rep : T → list El → Prop;
  api_ready : T → El → Prop;
  api_limit : Z;
  api_at : T → It → list El → Prop;
  api_limit_pos : 2 ^ 14 ≤ api_limit;
  api_ready_below t l el : api_rep t l → Z.of_nat (length l) < api_limit → api_ready t el;
  api_create_ok n : 0 ≤ n ≤ 2 ^ 31 → ∃ t, api_create n = Ok t ∧ api_rep t [];
  api_destroy_ok t l : api_rep t l → ∃ t', api_destroy t = Ok t';
  api_find_ok t l el :
    api_rep t l →
    match lookup_key Eq el l with
    | Some e => ∃ p, api_perform t el FIND = Ok (true, Some p, t) ∧ api_read t p = Ok e
    | None => api_perform t el FIND = Ok (false, None, t)
    end;
  api_insert_ok t l el :
    api_rep t l → api_ready t el →
    match lookup_key Eq el l with
    | Some e => ∃ p t' t'', api_perform t el INSERT = Ok (true, Some p, t') ∧ api_rep t' l ∧
        api_read t' p = Ok e ∧ api_write t' p el = Ok t'' ∧ api_rep t'' (replace_key Eq el l)
    | None => ∃ p t' t'', api_perform t el INSERT = Ok (false, Some p, t') ∧
        api_write t' p el = Ok t'' ∧ api_rep t'' (l ++ [el])
    end;
  api_delete_ok t l el :
    api_rep t l →
    match lookup_key Eq el l with
    | Some e => ∃ t', api_perform t el DELETE = Ok (true, None, t') ∧ api_rep t' (remove_key Eq el l)
    | None => api_perform t el DELETE = Ok (false, None, t)
    end;
  api_count_ok t l : api_rep t l → api_els_count t = Z.of_nat (length l);
  api_begin_ok t l : api_rep t l → ∃ it l', api_iter_begin t = Ok it ∧ api_at t it l' ∧ l' ≡ₚ l;
  api_at_nil t it : api_at t it [] → api_iter_valid it = false;
  api_at_cons t it e l :
    api_at t it (e :: l) → api_iter_valid it = true ∧
    ∃ p it', api_iter_ptr it = Some p ∧ api_read t p = Ok e ∧ api_iter_next t it = Ok it' ∧ api_at t it' l
}.

(** * Pieces of C programs *)

(** [assert (b)] *)
Definition assert (b : bool) : res unit := if b then Ok () else UB AssertionFailed.

(** Arithmetic on [int]. *)
Definition to_int (x : Z) : res Z := if decide (- 2 ^ 31 ≤ x < 2 ^ 31) then Ok x else UB SignedOverflow.
Definition int_add (x y : Z) : res Z := to_int (x + y).
Definition int_mul (x y : Z) : res Z := to_int (x * y).

Lemma to_int_Ok x : - 2 ^ 31 ≤ x < 2 ^ 31 → to_int x = Ok x.
Proof. intros Hx. unfold to_int. by rewrite decide_True. Qed.

Section client.
Context {El T P It : Type} {A : Api El T P It}.

(** [perform (&t, &el, act, &res)]: [res] keeps its value unless it is set. *)
Definition call (t : T) (el : El) (act : action) (res0 : option P) : res (bool * option P * T) :=
  '(found, r, t') ← api_perform t el act;
  Ok (found, match r with Some p => Some p | None => res0 end, t').

(** A pointer variable that is read. *)
Definition deref {B} (p : option B) : res B := match p with Some p => Ok p | None => UB Uninitialised end.

(** [*res], [*res = el] *)
Definition load (t : T) (r : option P) : res El := p ← deref r; api_read t p.
Definition store (t : T) (r : option P) (el : El) : res T := p ← deref r; api_write t p el.

(** The insertions of [els], one after the other, find the table ready. *)
Fixpoint ready_for {Eq : El → El → bool} {L : ApiLaws Eq A} (els : list El) (t : T) : Prop :=
  match els with
  | [] => True
  | el :: els => api_ready t el ∧
      ∀ p t' t'', api_perform t el INSERT = Ok (false, Some p, t') → api_write t' p el = Ok t'' → ready_for els t''
  end.
End client.

Section laws.
Context {El T P It : Type} {Eq : El → El → bool} {A : Api El T P It} `{!ApiLaws Eq A}.
Implicit Types (t : T) (el : El) (l els : list El) (r : option P).

(** ** What the calls do, by cases on the key *)

Lemma call_find t l el e r :
  api_rep t l → lookup_key Eq el l = Some e →
  ∃ p, call t el FIND r = Ok (true, Some p, t) ∧ load t (Some p) = Ok e.
Proof.
  intros Ht Hl. pose proof (api_find_ok t l el Ht) as Hf. rewrite Hl in Hf.
  destruct Hf as (p & E & Er). exists p. unfold call, load, deref. rewrite E. by repeat step_ok.
Qed.

Lemma call_find_none t l el r :
  api_rep t l → lookup_key Eq el l = None → call t el FIND r = Ok (false, r, t).
Proof.
  intros Ht Hl. pose proof (api_find_ok t l el Ht) as Hf. rewrite Hl in Hf. unfold call. by rewrite Hf.
Qed.

Lemma call_insert_new t l el r :
  api_rep t l → api_ready t el → lookup_key Eq el l = None →
  ∃ p t' t'', api_perform t el INSERT = Ok (false, Some p, t') ∧ api_write t' p el = Ok t'' ∧
    call t el INSERT r = Ok (false, Some p, t') ∧ store t' (Some p) el = Ok t'' ∧ api_rep t'' (l ++ [el]).
Proof.
  intros Ht Hr Hl. pose proof (api_insert_ok t l el Ht Hr) as Hi. rewrite Hl in Hi.
  destruct Hi as (p & t' & t'' & E & Ew & Ht''). exists p, t', t''.
  unfold call, store, deref. rewrite E. by repeat step_ok.
Qed.

Lemma call_insert_old t l el e r :
  api_rep t l → api_ready t el → lookup_key Eq el l = Some e →
  ∃ p t' t'', call t el INSERT r = Ok (true, Some p, t') ∧ api_rep t' l ∧ load t' (Some p) = Ok e ∧
    store t' (Some p) el = Ok t'' ∧ api_rep t'' (replace_key Eq el l).
Proof.
  intros Ht Hr Hl. pose proof (api_insert_ok t l el Ht Hr) as Hi. rewrite Hl in Hi.
  destruct Hi as (p & t' & t'' & E & Ht' & Er & Ew & Ht''). exists p, t', t''.
  unfold call, load, store, deref. rewrite E. by repeat step_ok.
Qed.

Lemma call_delete t l el e r :
  api_rep t l → lookup_key Eq el l = Some e →
  ∃ t', call t el DELETE r = Ok (true, r, t') ∧ api_rep t' (remove_key Eq el l).
Proof.
  intros Ht Hl. pose proof (api_delete_ok t l el Ht) as Hd. rewrite Hl in Hd.
  destruct Hd as (t' & E & Ht'). exists t'. unfold call. rewrite E. by step_ok.
Qed.

Lemma call_delete_none t l el r :
  api_rep t l → lookup_key Eq el l = None → call t el DELETE r = Ok (false, r, t).
Proof.
  intros Ht Hl. pose proof (api_delete_ok t l el Ht) as Hd. rewrite Hl in Hd. unfold call. by rewrite Hd.
Qed.

(** Few enough insertions find the table ready. *)
Lemma ready_for_below els t l :
  api_rep t l → new_keys Eq l els → Z.of_nat (length l) + Z.of_nat (length els) ≤ api_limit → ready_for els t.
Proof.
  revert t l. induction els as [|el els IH]; intros t l Ht Hnew Hlen; [done|].
  cbn [ready_for new_keys length] in *. destruct Hnew as [Hl Hnew]. split.
  - eapply api_ready_below; [done|lia].
  - intros p t' t'' E Ew. assert (api_ready t el) as Hr by (eapply api_ready_below; [done|lia]).
    destruct (call_insert_new t l el None Ht Hr Hl) as (p0 & t0 & t1 & E0 & Ew0 & _ & _ & Ht1).
    rewrite E in E0. injection E0 as <- <-. rewrite Ew in Ew0. injection Ew0 as <-.
    apply (IH t'' (l ++ [el])); [done|done|]. rewrite length_app. cbn. lia.
Qed.
End laws.
