(* ===== verification/ApiTables.v ===== *)
(** Both tables, over any slot store, are implementations of the interface
    [Api] that meet its laws. *)

From S2P Require Import Prelude Bits Groups Probe Spec Store Core Api.
From S2P Require Import Ihtab IhtabCorrect.
From S2P Require Ixhtab IxhtabCorrect IxhtabRun IxhtabSpread.

(** * ihtab.h *)

Section iht.
Context {K : SlotStore} {El : Type} (Hash : El → Z) (Eq : El → El → bool).

Definition iht_api : Api El (iht slots El) Z iht_iter := {|
  api_create := iht_create;
  api_destroy := iht_destroy;
  api_perform := iht_perform Hash Eq;
  api_els_count := iht_els_count;
  api_iter_begin := iht_iter_begin;
  api_iter_valid := iht_iter_valid;
  api_iter_next := iht_iter_next;
  api_iter_ptr := ptr;
  api_read t p := arr_get (els (bin t)) p;
  api_write := iht_write
|}.

Context {V : SlotView K} `{!SlotLaws iht_config K V, !KeyLaws Hash Eq}.
Implicit Types (t : iht slots El) (it : iht_iter) (l : list El).

Definition iht_at t it l : Prop :=
  ∃ ng ec dc st, bin_ok (C := iht_config) Hash Eq ng ec dc st (bin t) ∧ at_elements t ec dc it l.

Lemma iht_find_law t l el :
  iht_rep Hash Eq t l →
  match lookup_key Eq el l with
  | Some e => ∃ p, iht_perform Hash Eq t el FIND = Ok (true, Some p, t) ∧ arr_get (els (bin t)) p = Ok e
  | None => iht_perform Hash Eq t el FIND = Ok (false, None, t)
  end.
Proof.
  intros Ht. destruct (lookup_key Eq el l) as [e|] eqn:E; [by apply iht_perform_present with l|].
  by apply (iht_perform_missing Hash Eq t l).
Qed.

Lemma iht_insert_law t l el :
  iht_rep Hash Eq t l → Z.of_nat (length l) < 2 ^ 31 →
  match lookup_key Eq el l with
  | Some e => ∃ p t' t'', iht_perform Hash Eq t el INSERT = Ok (true, Some p, t') ∧ iht_rep Hash Eq t' l ∧
      arr_get (els (bin t')) p = Ok e ∧ iht_write t' p el = Ok t'' ∧ iht_rep Hash Eq t'' (replace_key Eq el l)
  | None => ∃ p t' t'', iht_perform Hash Eq t el INSERT = Ok (false, Some p, t') ∧
      iht_write t' p el = Ok t'' ∧ iht_rep Hash Eq t'' (l ++ [el])
  end.
Proof.
  intros Ht Hl. destruct (lookup_key Eq el l) as [e|] eqn:E.
  - destruct (iht_perform_insert_present Hash Eq t l el e Ht E Hl) as (p & t' & Ep & Ht' & Er & t'' & Ew & Ht'').
    by exists p, t', t''.
  - destruct (iht_perform_insert Hash Eq t l el Ht E Hl) as (p & t' & Ep & _ & Hw).
    destruct (Hw el) as (t'' & Ew & Ht''); [apply (key_refl (Hash := Hash))|]. by exists p, t', t''.
Qed.

Lemma iht_delete_law t l el :
  iht_rep Hash Eq t l →
  match lookup_key Eq el l with
  | Some e => ∃ t', iht_perform Hash Eq t el DELETE = Ok (true, None, t') ∧ iht_rep Hash Eq t' (remove_key Eq el l)
  | None => iht_perform Hash Eq t el DELETE = Ok (false, None, t)
  end.
Proof.
  intros Ht. destruct (lookup_key Eq el l) as [e|] eqn:E; [by apply (iht_perform_delete Hash Eq t l el e)|].
  by apply (iht_perform_missing Hash Eq t l).
Qed.

#[export, refine] Instance iht_api_laws : ApiLaws Eq iht_api := {
  api_rep := iht_rep Hash Eq;
  api_ready t _ := els_num t < 2 ^ 31;
  api_limit := 2 ^ 31;
  api_at := iht_at
}.
Proof.
  - lia.
  - intros t l _ Ht Hl. fold (iht_els_count t). by rewrite (iht_count_rep Hash Eq t l Ht).
  - intros n Hn. destruct (iht_create_Ok Hash Eq n) as (t & E & Ht & _); [lia|]. by exists t.
  - intros t l (ng & Hb & _). cbn. unfold iht_destroy.
    destruct (iht_destroy_bin_Ok Hash Eq ng _ l Hb) as (s & -> & _). by eexists.
  - exact iht_find_law.
  - intros t l el Ht Hr. apply iht_insert_law; [done|]. by rewrite <-(iht_count_rep Hash Eq t l Ht).
  - exact iht_delete_law.
  - exact (iht_count_rep Hash Eq).
  - intros t l (ng & (ec & dc & st & Hok & ->) & _).
    destruct (iht_iter_begin_Ok Hash Eq t ng ec dc st Hok) as (it & E & Hit). eexists it, _.
    split; [exact E|]. split; [|done]. by exists ng, ec, dc, st.
  - intros t it (ng & ec & dc & st & _ & Hit). cbn. unfold iht_iter_valid.
    by rewrite (iht_at_elements_nil t ec dc it Hit).
  - intros t it e l (ng & ec & dc & st & Hok & Hit). cbn. unfold iht_iter_valid.
    destruct (iht_iter_next_Ok Hash Eq t ng ec dc st Hok it e l Hit) as (p & it' & -> & Er & En & Hit').
    split; [done|]. exists p, it'. split_and!; try done. by exists ng, ec, dc, st.
Defined.
End iht.

(** * ixhtab.h *)

Import Ixhtab IxhtabCorrect IxhtabRun IxhtabSpread.

Section ixht.
Context {K : SlotStore} {El : Type} (Hash : El → Z) (Eq : El → El → bool).

Definition ixht_api : Api El (ixht slots El) (Z * Z) ixht_iter := {|
  api_create := ixht_create;
  api_destroy := ixht_destroy;
  api_perform := ixht_perform Hash Eq;
  api_els_count := ixht_els_count;
  api_iter_begin := ixht_iter_begin;
  api_iter_valid := ixht_iter_valid;
  api_iter_next := ixht_iter_next;
  api_iter_ptr := ptr;
  api_read := ixht_read;
  api_write := ixht_write
|}.

Context {V : SlotView K} `{!SlotLaws ixht_config K V, !KeyLaws Hash Eq}.
Implicit Types (t : ixht slots El) (it : ixht_iter) (l : list El).

Definition ixht_at t it l : Prop :=
  ∃ bc dc ls, ixht_ok Hash Eq bc dc ls t ∧ at_elements Hash Eq bc ls t it l.

Lemma ixht_insert_law t l el :
  ixht_rep Hash Eq t l → split_safe Hash t el ∧ els_num t < 2 ^ 31 →
  match lookup_key Eq el l with
  | Some e => ∃ p t' t'', ixht_perform Hash Eq t el INSERT = Ok (true, Some p, t') ∧ ixht_rep Hash Eq t' l ∧
      ixht_read t' p = Ok e ∧ ixht_write t' p el = Ok t'' ∧ ixht_rep Hash Eq t'' (replace_key Eq el l)
  | None => ∃ p t' t'', ixht_perform Hash Eq t el INSERT = Ok (false, Some p, t') ∧
      ixht_write t' p el = Ok t'' ∧ ixht_rep Hash Eq t'' (l ++ [el])
  end.
Proof.
  intros Ht [Hs Hl]. pose proof (ixht_insert_safe Hash Eq t l el Ht) as Ho. unfold insert_outcome in Ho.
  fold (ixht_els_count t) in Hl. rewrite (ixht_count_rep Hash Eq t l Ht) in Hl. specialize (Ho Hl Hs).
  destruct (lookup_key Eq el l) as [e|]; [done|]. destruct Ho as (p & t' & E & _ & Hw).
  destruct (Hw el) as (t'' & Ew & Ht''); [apply (key_refl (Hash := Hash))|]. by exists p, t', t''.
Qed.

#[export, refine] Instance ixht_api_laws : ApiLaws Eq ixht_api := {
  api_rep := ixht_rep Hash Eq;
  api_ready t el := split_safe Hash t el ∧ els_num t < 2 ^ 31;
  api_limit := 2 ^ 14;
  api_at := ixht_at
}.
Proof.
  - lia.
  - intros t l el Ht Hl. split; [by eapply split_safe_small|].
    fold (ixht_els_count t). rewrite (ixht_count_rep Hash Eq t l Ht). lia.
  - intros n Hn. destruct (ixht_create_Ok Hash Eq n Hn) as (t & ? & ? & E & Ht & _). by exists t.
  - intros t l (bc & dc & ls & Hok & _). destruct (ixht_destroy_bins_Ok Hash Eq bc dc ls t Hok) as (bc' & E & _).
    cbn. unfold ixht_destroy. rewrite E, (xo_dir Hok). by eexists.
  - exact (ixht_perform_find_rep Hash Eq).
  - exact ixht_insert_law.
  - exact (ixht_perform_delete_rep Hash Eq).
  - exact (ixht_count_rep Hash Eq).
  - intros t l (bc & dc & ls & Hok & Hp). destruct (ixht_iter_begin_Ok Hash Eq bc dc ls t Hok) as (it & E & Hit).
    eexists it, _. split; [exact E|]. split; [|exact Hp]. by exists bc, dc, ls.
  - intros t it (bc & dc & ls & _ & Hit). cbn. unfold ixht_iter_valid.
    by rewrite (ixht_at_elements_nil Hash Eq bc ls t it Hit).
  - intros t it e l (bc & dc & ls & Hok & Hit). cbn. unfold ixht_iter_valid.
    destruct (ixht_iter_next_Ok Hash Eq bc dc ls t Hok it e l Hit) as (p & it' & -> & Er & En & Hit').
    split; [done|]. exists p, it'. split_and!; try done. by exists bc, dc, ls.
Defined.

(** Insertions with spread hashes find the table ready. *)
Lemma ready_for_tight m0 els t l bc dc ls :
  tight Hash Eq m0 t l bc dc ls → spread Hash l els → new_keys Eq l els →
  Z.of_nat (length l) + Z.of_nat (length els) ≤ 2 ^ 27 → ready_for (A := ixht_api) els t.
Proof.
  revert t l bc dc ls. induction els as [|el els IH]; intros t l bc dc ls Ht Hs Hnew Hlen; [done|].
  cbn [spread new_keys length ready_for] in *. destruct Hs as [Hs1 Hs2], Hnew as [Hn1 Hn2].
  destruct (tight_step Hash Eq m0 t l bc dc ls el) as [Hsafe Hadd]; [done..|lia|done|].
  pose proof (tight_num Hash Eq m0 t l bc dc ls Ht) as Hn. split; [split; [done|lia]|].
  destruct Hadd as (p & t1 & t2 & bc2 & dc2 & ls2 & E & Ew & Ht2). intros p' t' t'' E' Ew'. cbn in E', Ew'.
  rewrite E in E'. injection E' as <- <-. rewrite Ew in Ew'. injection Ew' as <-.
  eapply (IH t2); [done..|]. rewrite length_app. cbn. lia.
Qed.
End ixht.
