(* ===== verification/ApiCpp.v ===== *)
(** The C++ classes as implementations of the interface [Api]: with their
    [iter_begin] and [iter_next], which are those of the C tables, and with the
    iterators of range-based [for], for which a position is a pair of an
    iterator and the value of [end ()]. *)

From S2P Require Import Prelude Bits Groups Probe Spec Store Core Api ApiTables.
From S2P Require Import Ihtab IhtabCorrect IhtabHpp HppProps.
From S2P Require Ixhtab IxhtabCorrect IxhtabRun IxhtabHpp.

(** * ihtab.hpp *)

Section iht.
Context {K : SlotStore} {El : Type} (Hash : El → Z) (Eq : El → El → bool) (this : Z).

Definition cpp_iht_api : Api El (iht slots El) Z cpp_iht_iter := {|
  api_create := cpp_iht_ctor;
  api_destroy := cpp_iht_dtor;
  api_perform := cpp_iht_perform Hash Eq;
  api_els_count := cpp_iht_els_count;
  api_iter_begin := cpp_iht_iter_begin;
  api_iter_valid := cpp_iht_iter_valid;
  api_iter_next := cpp_iht_iter_next;
  api_iter_ptr := ptr;
  api_read t p := arr_get (els (bin t)) p;
  api_write := iht_write
|}.

(** [for (El &e : t)] *)
Definition cpp_iht_range_api : Api El (iht slots El) Z (cpp_iht_iterator * cpp_iht_iterator) := {|
  api_create := cpp_iht_ctor;
  api_destroy := cpp_iht_dtor;
  api_perform := cpp_iht_perform Hash Eq;
  api_els_count := cpp_iht_els_count;
  api_iter_begin t := it ← cpp_iht_begin this t; Ok (it, cpp_iht_end this t);
  api_iter_valid p := cpp_iht_neq p.1 p.2;
  api_iter_next t p := it ← cpp_iht_incr t p.1; Ok (it, p.2);
  api_iter_ptr p := Some (cpp_iht_arrow p.1);
  api_read t p := arr_get (els (bin t)) p;
  api_write := iht_write
|}.

Context {V : SlotView K} `{!SlotLaws iht_config K V, !KeyLaws Hash Eq}.
Implicit Types (t : iht slots El) (l : list El).

#[export] Instance cpp_iht_api_laws : ApiLaws Eq cpp_iht_api := iht_api_laws Hash Eq.

(** The C++ iterator stands where the C iterator does. *)
Definition cpp_iht_at t (p : cpp_iht_iterator * cpp_iht_iterator) l : Prop :=
  ∃ it idx, iht_at Hash Eq t it l ∧ iht_same t it idx ∧ 0 ≤ idx ∧ p = (mk_iht_iterator this idx, cpp_iht_end this t).

Lemma iht_at_bound t it l : iht_at Hash Eq t it l → 0 ≤ els_bound (bin t) < 2 ^ 64.
Proof.
  intros (ng & ec & dc & st & Hok & _).
  assert (bin_rep Hash Eq ng (bin t) (live_list ec dc (els_bound (bin t)))) as Hb by (by exists ec, dc, st).
  apply bin_rep_facts in Hb. lia.
Qed.

#[export, refine] Instance cpp_iht_range_laws : ApiLaws Eq cpp_iht_range_api := {
  api_rep := iht_rep Hash Eq;
  api_ready t _ := els_num t < 2 ^ 31;
  api_limit := 2 ^ 31;
  api_at := cpp_iht_at
}.
Proof.
  - lia.
  - exact (api_ready_below (A := iht_api Hash Eq)).
  - exact (api_create_ok (A := iht_api Hash Eq)).
  - exact (api_destroy_ok (A := iht_api Hash Eq)).
  - exact (api_find_ok (A := iht_api Hash Eq)).
  - exact (api_insert_ok (A := iht_api Hash Eq)).
  - exact (api_delete_ok (A := iht_api Hash Eq)).
  - exact (api_count_ok (A := iht_api Hash Eq)).
  - intros t l Ht. destruct (api_begin_ok (ApiLaws := iht_api_laws Hash Eq) t l Ht) as (it & l' & E & Hat & Hp).
    pose proof (iht_at_bound t it l' Hat) as Hb. cbn in E.
    unfold iht_iter_begin, iht_iter_advance in E. cbn [el_idx] in E.
    destruct (cpp_iht_advance_sim _ t 0 it ltac:(lia) ltac:(lia) E) as (idx & Ei & H0 & Hs).
    eexists _, l'. cbn. unfold cpp_iht_begin, cpp_iht_advance. cbn [it_idx htab]. rewrite Ei. repeat step_ok.
    split; [done|]. split; [by exists it, idx|done].
  - intros t p (it & idx & Hat & Hs & _ & ->). pose proof (api_at_nil (ApiLaws := iht_api_laws Hash Eq) t it Hat) as Hv.
    cbn in *. unfold iht_iter_valid, iht_same, cpp_iht_neq, cpp_iht_end in *. cbn. destruct (ptr it); [done|].
    subst idx. by rewrite !Z.eqb_refl.
  - intros t p e l (it & idx & Hat & Hs & H0 & ->). pose proof (iht_at_bound t it _ Hat) as Hb.
    destruct (api_at_cons (ApiLaws := iht_api_laws Hash Eq) t it e l Hat) as (_ & q & it' & Eq' & Er & En & Hat').
    cbn in *. unfold iht_same in Hs. rewrite Eq' in Hs. destruct Hs as (-> & Ei & Hlt). cbn.
    split; [unfold cpp_iht_neq, cpp_iht_end; cbn; by rewrite Z.eqb_refl, (proj2 (Z.eqb_neq _ _)) by lia|].
    unfold iht_iter_next, iht_iter_advance in En. cbn [el_idx] in En. rewrite <-Ei in En.
    unfold u64 in En. rewrite Z.mod_small in En by lia.
    destruct (cpp_iht_advance_sim _ t (q + 1) it' ltac:(lia) ltac:(lia) En) as (idx' & Ea & H0' & Hs').
    eexists q, _. split; [done|]. split; [done|]. unfold cpp_iht_incr, cpp_iht_advance. cbn [it_idx htab].
    unfold u64. rewrite Z.mod_small by lia. rewrite Ea. repeat step_ok. split; [done|]. by exists it', idx'.
Defined.
End iht.

(** * ixhtab.hpp *)

Import Ixhtab IxhtabCorrect IxhtabHpp.

Section ixht.
Context {K : SlotStore} {El : Type} (Hash : El → Z) (Eq : El → El → bool) (this : Z).

Definition cpp_ixht_api : Api El (ixht slots El) (Z * Z) cpp_ixht_iter := {|
  api_create := cpp_ixht_ctor;
  api_destroy := cpp_ixht_dtor;
  api_perform := cpp_ixht_perform Hash Eq;
  api_els_count := cpp_ixht_els_count;
  api_iter_begin := cpp_ixht_iter_begin;
  api_iter_valid := cpp_ixht_iter_valid;
  api_iter_next := cpp_ixht_iter_next;
  api_iter_ptr := ptr;
  api_read := ixht_read;
  api_write := ixht_write
|}.

(** [for (El &e : t)] *)
Definition cpp_ixht_range_api : Api El (ixht slots El) (Z * Z) (cpp_ixht_iterator * cpp_ixht_iterator) := {|
  api_create := cpp_ixht_ctor;
  api_destroy := cpp_ixht_dtor;
  api_perform := cpp_ixht_perform Hash Eq;
  api_els_count := cpp_ixht_els_count;
  api_iter_begin t := it ← cpp_ixht_begin this t; Ok (it, cpp_ixht_end this t);
  api_iter_valid p := cpp_ixht_neq p.1 p.2;
  api_iter_next t p := it ← cpp_ixht_incr t p.1; Ok (it, p.2);
  api_iter_ptr p := Some (cpp_ixht_arrow p.1);
  api_read := ixht_read;
  api_write := ixht_write
|}.

Context {V : SlotView K} `{!SlotLaws ixht_config K V, !KeyLaws Hash Eq}.
Implicit Types (t : ixht slots El) (l : list El).

#[export] Instance cpp_ixht_api_laws : ApiLaws Eq cpp_ixht_api := ixht_api_laws Hash Eq.

Definition cpp_ixht_at t (p : cpp_ixht_iterator * cpp_ixht_iterator) l : Prop :=
  ∃ it bi ei, ixht_at Hash Eq t it l ∧ ixht_same t it bi ei ∧ 0 ≤ bi ∧
    p = (mk_ixht_iterator this bi ei, cpp_ixht_end this t).

Lemma ixht_at_bins t it l : ixht_at Hash Eq t it l → 0 < bins_num t < 2 ^ 32.
Proof.
  intros (bc & dc & ls & Hok & _). pose proof (xo_bins_num Hok). pose proof (xo_few Hok).
  pose proof (xo_fit Hok). destruct (xo_dir_ok Hok 0) as (k & _ & Hk); [|lia].
  pose proof (xo_depth Hok). split; [done|]. apply Z.pow_pos_nonneg; lia.
Qed.

#[export, refine] Instance cpp_ixht_range_laws : ApiLaws Eq cpp_ixht_range_api := {
  api_rep := ixht_rep Hash Eq;
  api_ready t el := IxhtabRun.split_safe Hash t el ∧ els_num t < 2 ^ 31;
  api_limit := 2 ^ 14;
  api_at := cpp_ixht_at
}.
Proof.
  - lia.
  - exact (api_ready_below (A := ixht_api Hash Eq)).
  - exact (api_create_ok (A := ixht_api Hash Eq)).
  - exact (api_destroy_ok (A := ixht_api Hash Eq)).
  - exact (api_find_ok (A := ixht_api Hash Eq)).
  - exact (api_insert_ok (A := ixht_api Hash Eq)).
  - exact (api_delete_ok (A := ixht_api Hash Eq)).
  - exact (api_count_ok (A := ixht_api Hash Eq)).
  - intros t l Ht. destruct (api_begin_ok (ApiLaws := ixht_api_laws Hash Eq) t l Ht) as (it & l' & E & Hat & Hp).
    pose proof (ixht_at_bins t it l' Hat) as Hb. cbn in E. unfold ixht_iter_begin in E.
    rewrite (proj2 (Z.ltb_lt 0 _)) in E by lia. apply bind_Ok in E as (ei0 & Es & E).
    unfold ixht_iter_advance in E. cbn [bin_idx el_idx] in E.
    destruct (cpp_ixht_advance_sim _ t 0 ei0 it ltac:(lia) ltac:(lia) E) as (bi & ei & Ei & H0 & Hs).
    eexists _, l'. cbn. unfold cpp_ixht_begin. rewrite (proj2 (Z.ltb_lt 0 _)) by lia. rewrite Es. step_ok.
    unfold cpp_ixht_advance. cbn [tab it_bin it_el]. rewrite Ei. repeat step_ok.
    split; [done|]. split; [by exists it, bi, ei|done].
  - intros t p (it & bi & ei & Hat & Hs & _ & ->). pose proof (api_at_nil (ApiLaws := ixht_api_laws Hash Eq) t it Hat) as Hv.
    cbn in *. unfold ixht_iter_valid, ixht_same, cpp_ixht_neq, cpp_ixht_eq, cpp_ixht_end in *. cbn.
    destruct (ptr it); [done|]. destruct Hs as [-> ->]. by rewrite !Z.eqb_refl.
  - intros t p e l (it & bi & ei & Hat & Hs & H0 & ->). pose proof (ixht_at_bins t it _ Hat) as Hb.
    destruct (api_at_cons (ApiLaws := ixht_api_laws Hash Eq) t it e l Hat) as (_ & q & it' & Eq' & Er & En & Hat').
    cbn in *. unfold ixht_same in Hs. rewrite Eq' in Hs. destruct Hs as (-> & Ebi & Eei & Hlt). cbn.
    split; [unfold cpp_ixht_neq, cpp_ixht_eq, cpp_ixht_end; cbn; by rewrite Z.eqb_refl, (proj2 (Z.eqb_neq _ _)) by lia|].
    unfold ixht_iter_next, ixht_iter_advance in En. cbn [bin_idx el_idx] in En. rewrite Ebi, Eei in En.
    destruct (cpp_ixht_advance_sim _ t bi (u32 (ei + 1)) it' ltac:(lia) ltac:(lia) En) as (bi' & ei' & Ea & H0' & Hs').
    eexists (bi, ei), _. split; [done|]. split; [done|]. unfold cpp_ixht_incr, cpp_ixht_advance. cbn [tab it_bin it_el].
    rewrite Ea. repeat step_ok. split; [done|]. by exists it', bi', ei'.
Defined.
End ixht.
