(* ===== verification/Tests.v ===== *)
(** tests/test_c.c and tests/test.cpp: the test programs, whose functions
    [TEST_HTAB] generates for both tables, as clients of the interface [Api],
    with their assertions.  What they print is left out.  The tests of the two
    programs are the same requests, the end of a block that runs the destructor
    standing for the call of [destroy], except for iteration, where the C++
    program has a second loop. *)

From S2P Require Import Prelude Probe Spec Store Api Entry.

(** [(int) x] for an unsigned [x] *)
Definition cast_int (x : Z) : Z := let y := u32 x in if y <? 2 ^ 31 then y else y - 2 ^ 32.

Section tests.
Context {T P It : Type} {A : Api entry T P It}.

Definition test_insert_find : res () :=
  t ← api_create 8;
  let e := mk_entry 42 100 in
  '(found, r, t) ← call t e INSERT None;
  _ ← assert (negb found);
  t ← store t r e;
  _ ← assert (api_els_count t =? 1);
  let q := mk_entry 42 0 in
  '(found, r, t) ← call t q FIND r;
  _ ← assert found;
  x ← load t r;
  _ ← assert (value x =? 100);
  let q2 := mk_entry 99 0 in
  '(found, r, t) ← call t q2 FIND r;
  _ ← assert (negb found);
  _ ← api_destroy t;
  Ok ().

Definition test_replace : res () :=
  t ← api_create 8;
  let e := mk_entry 42 100 in
  '(found, r, t) ← call t e INSERT None;
  _ ← assert (negb found);
  t ← store t r e;
  _ ← assert (api_els_count t =? 1);
  let e2 := mk_entry 42 200 in
  '(found, r, t) ← call t e2 INSERT r;
  _ ← assert found;
  t ← store t r e2;
  let q := mk_entry 42 0 in
  '(found, r, t) ← call t q FIND r;
  _ ← assert found;
  x ← load t r;
  _ ← assert (value x =? 200);
  _ ← api_destroy t;
  Ok ().

Definition test_delete : res () :=
  t ← api_create 8;
  let e := mk_entry 42 100 in
  '(found, r, t) ← call t e INSERT None;
  _ ← assert (negb found);
  t ← store t r e;
  _ ← assert (api_els_count t =? 1);
  let q := mk_entry 42 0 in
  '(found, r, t) ← call t q DELETE r;
  _ ← assert found;
  _ ← assert (api_els_count t =? 0);
  '(found, r, t) ← call t q FIND r;
  _ ← assert (negb found);
  _ ← api_destroy t;
  Ok ().

Definition test_duplicate : res () :=
  t ← api_create 8;
  let e := mk_entry 42 100 in
  '(found, r, t) ← call t e INSERT None;
  _ ← assert (negb found);
  t ← store t r e;
  let e2 := mk_entry 42 200 in
  '(found, r, t) ← call t e2 INSERT r;
  _ ← assert found;
  x ← load t r;
  _ ← assert (value x =? 100);
  _ ← api_destroy t;
  Ok ().

(** The body of the loops that insert [{i, i * m}]; [r] is the result
    pointer. *)
Definition insert_body (m i : Z) (s : T * option P) : res (T * option P) :=
  let '(t, r) := s in
  v ← int_mul i m;
  let e := mk_entry (u32 i) (u32 v) in
  '(found, r, t) ← call t e INSERT r;
  _ ← assert (negb found);
  t ← store t r e;
  Ok (t, r).

(** The loop over the iterator, with [seen] and [count]; the fuel is the number
    of elements. *)
Fixpoint iterate_loop (fuel : nat) (t : T) (it : It) (seen : arr bool) (count : Z) : res Z :=
  if api_iter_valid it then
    match fuel with
    | O => Timeout
    | S fuel =>
        e ← load t (api_iter_ptr it);
        _ ← assert (key e <? u32 100);
        s ← arr_get seen (key e);
        _ ← assert (negb s);
        seen ← arr_set seen (key e) true;
        count ← int_add count 1;
        it ← api_iter_next t it;
        iterate_loop fuel t it seen count
    end
  else Ok count.

Definition test_iterate : res () :=
  let N := 100 in
  t ← api_create 8;
  t ← for_res 0 N (λ i t, '(t, _) ← insert_body 10 i (t, None); Ok t) t;
  _ ← assert (cast_int (api_els_count t) =? N);
  let seen := calloc false 100 in
  it ← api_iter_begin t;
  count ← iterate_loop (Z.to_nat (api_els_count t)) t it seen 0;
  _ ← assert (count =? N);
  _ ← api_destroy t;
  Ok ().

Definition find_body (i : Z) (s : T * option P) : res (T * option P) :=
  let '(t, r) := s in
  let q := mk_entry (u32 i) 0 in
  '(found, r, t) ← call t q FIND r;
  _ ← assert found;
  x ← load t r;
  v ← int_mul i 7;
  _ ← assert (value x =? u32 v);
  Ok (t, r).

Definition delete_body (i : Z) (s : T * option P) : res (T * option P) :=
  let '(t, r) := s in
  let q := mk_entry (u32 i) 0 in
  '(found, r, t) ← call t q DELETE r;
  _ ← assert found;
  Ok (t, r).

Definition absent_body (i : Z) (s : T * option P) : res (T * option P) :=
  let '(t, r) := s in
  let q := mk_entry (u32 i) 0 in
  '(found, r, t) ← call t q FIND r;
  _ ← assert (negb found);
  Ok (t, r).

Definition test_large_of (N : Z) : res () :=
  t ← api_create 8;
  '(t, r) ← for_res 0 N (insert_body 7) (t, None);
  _ ← assert (cast_int (api_els_count t) =? N);
  '(t, r) ← for_res 0 N find_body (t, r);
  '(t, r) ← for_res 0 (N / 2) delete_body (t, r);
  _ ← assert (cast_int (api_els_count t) =? N - N / 2);
  '(t, r) ← for_res 0 (N / 2) absent_body (t, r);
  '(t, r) ← for_res (N / 2) N find_body (t, r);
  _ ← api_destroy t;
  Ok ().

Definition test_large : res () := test_large_of 50000.

Definition test_all : res () :=
  _ ← test_insert_find;
  _ ← test_replace;
  _ ← test_delete;
  _ ← test_duplicate;
  _ ← test_iterate;
  _ ← test_large;
  Ok ().
End tests.

(** [main]: the tests on ihtab, then on ixhtab. *)
Definition main {T1 P1 It1 T2 P2 It2 : Type} (iht : Api entry T1 P1 It1) (ixht : Api entry T2 P2 It2) : res Z :=
  _ ← test_all (A := iht);
  _ ← test_all (A := ixht);
  Ok 0.

(** * tests/test.cpp *)

Section cpp.
(** The class with [iter_begin] and [iter_next], and with [begin ()] and
    [end ()]. *)
Context {T P It RIt : Type} (A : Api entry T P It) (R : Api entry T P RIt).

Definition cpp_test_iterate : res () :=
  let N := 100 in
  t ← api_create (Api := A) 8;
  t ← for_res 0 N (λ i t, '(t, _) ← insert_body (A := A) 10 i (t, None); Ok t) t;
  _ ← assert (cast_int (api_els_count (Api := A) t) =? N);
  let seen := calloc false 100 in
  it ← api_iter_begin (Api := R) t;
  count ← iterate_loop (A := R) (Z.to_nat (api_els_count (Api := A) t)) t it seen 0;
  _ ← assert (count =? N);
  let seen := calloc false 100 in
  it ← api_iter_begin (Api := A) t;
  count ← iterate_loop (A := A) (Z.to_nat (api_els_count (Api := A) t)) t it seen 0;
  _ ← assert (count =? N);
  _ ← api_destroy (Api := A) t;
  Ok ().

Definition cpp_test_all : res () :=
  _ ← test_insert_find (A := A);
  _ ← test_replace (A := A);
  _ ← test_delete (A := A);
  _ ← test_duplicate (A := A);
  _ ← cpp_test_iterate;
  _ ← test_large (A := A);
  Ok ().
End cpp.

(** [main] of tests/test.cpp. *)
Definition cpp_main {T1 P1 It1 RIt1 T2 P2 It2 RIt2 : Type}
    (iht : Api entry T1 P1 It1) (iht_range : Api entry T1 P1 RIt1)
    (ixht : Api entry T2 P2 It2) (ixht_range : Api entry T2 P2 RIt2) : res Z :=
  _ ← cpp_test_all iht iht_range;
  _ ← cpp_test_all ixht ixht_range;
  Ok 0.
