(* ===== verification/TestsProps.v ===== *)
(** All assertions of the test programs hold, for both tables on every
    platform; the large test for any number of keys up to 2^27. *)

From S2P Require Import Prelude Bits Groups IxGroups GroupsV0 Probe Spec Store Core CoreV0 Api ApiTables ApiCpp Entry EntrySpread Tests.
From S2P Require Import Ihtab IhtabCorrect.
From S2P Require Ixhtab IxhtabCorrect IxhtabRun IxhtabSpread.

(** A call whose result is known, in a program. *)
Ltac run_step E := rewrite E; clear E; repeat step_ok.

(** * Entries with consecutive keys *)

Definition mk_times (m i : Z) : entry := mk_entry i (i * m).

Section entries.
Context (m : Z).
Abbreviation ents lo n := (mk_times m <$> seqZ lo n).

Lemma lookup_ents lo n i v :
  lo ≤ i < lo + n → lookup_key entry_eq (mk_entry i v) (ents lo n) = Some (mk_times m i).
Proof.
  intros Hi. replace n with ((i - lo) + (n - (i - lo))) by lia. rewrite seqZ_app, fmap_app by lia.
  replace (lo + (i - lo)) with i by lia. rewrite lookup_key_app, lookup_key_None.
  - rewrite (seqZ_cons i) by lia. cbn. unfold entry_eq. cbn. by rewrite Z.eqb_refl.
  - intros e (j & -> & Hj%elem_of_seqZ)%list_elem_of_fmap. apply Z.eqb_neq. cbn. lia.
Qed.

Lemma lookup_ents_None lo n i v :
  i < lo ∨ lo + n ≤ i → lookup_key entry_eq (mk_entry i v) (ents lo n) = None.
Proof.
  intros Hi. apply lookup_key_None. intros e (j & -> & Hj%elem_of_seqZ)%list_elem_of_fmap.
  apply Z.eqb_neq. cbn. lia.
Qed.

(** Deleting the first entry. *)
Lemma remove_ents lo n v :
  0 < n → remove_key entry_eq (mk_entry lo v) (ents lo n) = ents (lo + 1) (n - 1).
Proof.
  intros Hn. rewrite (seqZ_cons lo) by lia. cbn [fmap list_fmap]. unfold remove_key. rewrite filter_cons_False.
  - change (Z.succ lo) with (lo + 1). change (Z.pred n) with (n - 1). apply filter_all_in.
    intros e (j & -> & Hj%elem_of_seqZ)%list_elem_of_fmap. apply Z.eqb_neq. cbn. lia.
  - unfold entry_eq. cbn. by rewrite Z.eqb_refl.
Qed.

Lemma length_ents lo n : 0 ≤ n → Z.of_nat (length (ents lo n)) = n.
Proof. intros Hn. rewrite length_fmap, length_seqZ. lia. Qed.
End entries.

Abbreviation ents m lo n := (mk_times m <$> seqZ lo n).

Lemma cast_int_small x : 0 ≤ x < 2 ^ 31 → cast_int x = x.
Proof.
  intros Hx. unfold cast_int, u32. rewrite Z.mod_small by lia. cbv zeta.
  by rewrite (proj2 (Z.ltb_lt _ _)) by lia.
Qed.

Section tests.
Context {T P It : Type} {A : Api entry T P It} `{!ApiLaws entry_eq A}.
Implicit Types (t : T) (r : option P).

(** ** The small tests *)

(** A new table with one entry. *)
Lemma start_with e r :
  ∃ t p t' t'', api_create 8 = Ok t ∧ call t e INSERT r = Ok (false, Some p, t') ∧
    store t' (Some p) e = Ok t'' ∧ api_rep t'' [e].
Proof.
  destruct (api_create_ok 8) as (t & E & Ht); [lia|].
  destruct (call_insert_new t [] e r Ht) as (p & t' & t'' & _ & _ & Ec & Es & Ht''); [|done|by exists t, p, t', t''].
  pose proof api_limit_pos. eapply api_ready_below; [done|cbn; lia].
Qed.

Lemma ready_one t e el : api_rep t [e] → api_ready t el.
Proof. intros Ht. pose proof api_limit_pos. eapply api_ready_below; [done|cbn; lia]. Qed.

Ltac find_key Ht v :=
  match goal with |- context [call ?t ?q FIND ?r] =>
    let p := fresh "p" in let E := fresh "E" in let El := fresh "El" in
    destruct (call_find t _ q v r Ht) as (p & E & El); [reflexivity|]; run_step E; cbn [assert negb]; repeat step_ok;
    run_step El
  end.
Ltac find_none Ht :=
  match goal with |- context [call ?t ?q FIND ?r] =>
    rewrite (call_find_none t _ q r Ht) by reflexivity; repeat step_ok; cbn [assert negb]; repeat step_ok
  end.
Ltac count_is Ht := rewrite (api_count_ok _ _ Ht); cbn; repeat step_ok.
Ltac finish Ht := let t := fresh in let E := fresh in destruct (api_destroy_ok _ _ Ht) as (t & E); by run_step E.

Lemma test_insert_find_ok : test_insert_find = Ok ().
Proof.
  unfold test_insert_find. destruct (start_with (mk_entry 42 100) None) as (t & p & t1 & t2 & E1 & E2 & E3 & Ht).
  run_step E1. run_step E2. cbn [assert negb]. repeat step_ok. run_step E3. count_is Ht.
  find_key Ht (mk_entry 42 100). cbn. find_none Ht. finish Ht.
Qed.

Lemma test_replace_ok : test_replace = Ok ().
Proof.
  unfold test_replace. destruct (start_with (mk_entry 42 100) None) as (t & p & t1 & t2 & E1 & E2 & E3 & Ht).
  run_step E1. run_step E2. cbn [assert negb]. repeat step_ok. run_step E3. count_is Ht.
  destruct (call_insert_old t2 _ (mk_entry 42 200) (mk_entry 42 100) (Some p) Ht)
    as (p2 & t3 & t4 & E4 & _ & _ & E5 & Ht4); [by eapply ready_one|done|].
  run_step E4. cbn [assert negb]. repeat step_ok. run_step E5. cbn in Ht4.
  find_key Ht4 (mk_entry 42 200). cbn. finish Ht4.
Qed.

Lemma test_delete_ok : test_delete = Ok ().
Proof.
  unfold test_delete. destruct (start_with (mk_entry 42 100) None) as (t & p & t1 & t2 & E1 & E2 & E3 & Ht).
  run_step E1. run_step E2. cbn [assert negb]. repeat step_ok. run_step E3. count_is Ht.
  destruct (call_delete t2 _ (mk_entry 42 0) (mk_entry 42 100) (Some p) Ht) as (t3 & E4 & Ht3); [done|].
  run_step E4. cbn [assert negb]. repeat step_ok. cbn in Ht3. count_is Ht3. find_none Ht3. finish Ht3.
Qed.

Lemma test_duplicate_ok : test_duplicate = Ok ().
Proof.
  unfold test_duplicate. destruct (start_with (mk_entry 42 100) None) as (t & p & t1 & t2 & E1 & E2 & E3 & Ht).
  run_step E1. run_step E2. cbn [assert negb]. repeat step_ok. run_step E3.
  destruct (call_insert_old t2 _ (mk_entry 42 200) (mk_entry 42 100) (Some p) Ht)
    as (p2 & t3 & t4 & E4 & Ht3 & E5 & _); [by eapply ready_one|done|].
  run_step E4. cbn [assert negb]. repeat step_ok. run_step E5. cbn. finish Ht3.
Qed.

(** ** The loops *)

Section loops.
Context (m N : Z) (Hm : 0 < m ≤ 10) (HN : 0 ≤ N ≤ 2 ^ 27).

Lemma times_Ok i : 0 ≤ i < N → int_mul i m = Ok (i * m) ∧ mk_entry (u32 i) (u32 (i * m)) = mk_times m i.
Proof.
  intros Hi. unfold int_mul. rewrite to_int_Ok by nia. split; [done|].
  unfold u32, mk_times. by rewrite !Z.mod_small by nia.
Qed.

Definition inserting (i : Z) t : Prop := api_rep t (ents m 0 i) ∧ ready_for (ents m i (N - i)) t.

Lemma insert_body_ok i t r :
  0 ≤ i < N → inserting i t → ∃ t' r', insert_body m i (t, r) = Ok (t', r') ∧ inserting (i + 1) t'.
Proof.
  intros Hi [Ht Hr]. destruct (times_Ok i Hi) as [Em Ee]. rewrite (seqZ_cons i) in Hr by lia.
  cbn [fmap list_fmap ready_for] in Hr. destruct Hr as [Hr Hrest].
  destruct (call_insert_new t _ (mk_times m i) r Ht Hr) as (p & t1 & t2 & Ep & Ew & Ec & Es & Ht2);
    [apply lookup_ents_None; lia|].
  unfold insert_body. rewrite Em. step_ok. rewrite Ee. cbv zeta. rewrite Ec. step_ok. cbn [assert negb]. step_ok.
  rewrite Es. step_ok. exists t2, (Some p). split; [done|]. split.
  - by rewrite seqZ_snoc, fmap_app by lia.
  - replace (N - (i + 1)) with (Z.pred (N - i)) by lia. by eapply Hrest.
Qed.

Lemma inserted t r :
  inserting 0 t → ∃ t' r', for_res 0 N (insert_body m) (t, r) = Ok (t', r') ∧ api_rep t' (ents m 0 N).
Proof.
  intros Ht. destruct (for_res_inv (λ i s, inserting i s.1) (insert_body m) 0 N (t, r)) as ([t' r'] & E & Ht' & _);
    [lia|done| |by exists t', r'].
  intros i [t1 r1] Hi Hs. destruct (insert_body_ok i t1 r1 Hi Hs) as (t2 & r2 & E & H2). by exists (t2, r2).
Qed.
End loops.

Lemma inserting_start m N t :
  0 < m ≤ 10 → 0 ≤ N ≤ 2 ^ 27 → N ≤ api_limit → api_rep t [] → inserting m N 0 t.
Proof.
  intros Hm HN Hlim Ht. split; [done|]. rewrite Z.sub_0_r. apply (ready_for_below _ t []); [done| |].
  - apply (entries_spread (mk_times m)); [done|lia].
  - rewrite length_ents by lia. cbn. lia.
Qed.

(** ** The iteration *)

(** The entries seen so far are those marked in the array. *)
Lemma iterate_loop_ok fuel t it l seen cs count :
  api_at t it l → (length l ≤ fuel)%nat → seen = Live cs → length cs = 100%nat →
  (∀ e, e ∈ l → 0 ≤ key e < 100 ∧ cellv cs (key e) = Some false) → NoDup (key <$> l) →
  0 ≤ count → count + Z.of_nat (length l) < 2 ^ 31 →
  iterate_loop fuel t it seen count = Ok (count + Z.of_nat (length l)).
Proof.
  revert it l seen cs count. induction fuel as [|fuel IH]; intros it [|e l] seen cs count Hat Hf -> Hlen Hl Hnd H0 Hc;
    cbn [iterate_loop length] in *; try lia; try (rewrite (api_at_nil t it Hat); f_equal; cbn; lia).
  destruct (api_at_cons t it e l Hat) as (-> & p & it' & -> & Er & En & Hat').
  unfold load, deref. step_ok. rewrite Er. step_ok. destruct (Hl e) as [Hk Hs]; [left|].
  change (u32 100) with 100. rewrite (proj2 (Z.ltb_lt _ _)) by lia. cbn [assert]. step_ok.
  rewrite (proj2 (arr_get_Ok _ _ _) Hs). step_ok. cbn [assert negb]. step_ok.
  rewrite arr_set_Ok by lia. step_ok. unfold int_add. rewrite to_int_Ok by lia. step_ok. rewrite En. step_ok.
  cbn [fmap list_fmap] in Hnd. apply list.NoDup_cons in Hnd as [Hnin Hnd].
  rewrite (IH it' l _ (<[Z.to_nat (key e):=Some true]> cs)); [f_equal; lia|done|lia|done|by rewrite length_insert| |done|lia|lia].
  intros e' He'. destruct (Hl e') as [Hk' Hs']; [by right|]. split; [done|].
  rewrite cellv_insert by lia. rewrite decide_False; [done|]. intros Ek. apply Hnin. rewrite <-Ek.
  by apply list_elem_of_fmap_2.
Qed.

(** The table the iteration test fills. *)
Lemma iterate_filled :
  ∃ t t1, api_create 8 = Ok t ∧
    for_res 0 100 (λ i t, '(t, _) ← insert_body 10 i (t, None); Ok t) t = Ok t1 ∧ api_rep t1 (ents 10 0 100).
Proof.
  pose proof api_limit_pos. destruct (api_create_ok 8) as (t & E & Ht); [lia|]. exists t.
  destruct (for_res_inv (inserting 10 100) (λ i t, '(t, _) ← insert_body 10 i (t, None); Ok t) 0 100 t)
    as (t1 & E1 & Ht1 & _); [lia|apply inserting_start; (done || lia)| |by exists t1].
  intros i t1 Hi Hs. destruct (insert_body_ok 10 100 ltac:(lia) ltac:(lia) i t1 None Hi Hs) as (t2 & r2 & E1 & H2).
  exists t2. by rewrite E1.
Qed.

(** The loop visits all entries of it. *)
Lemma iterate_visits t :
  api_rep t (ents 10 0 100) →
  ∃ it, api_iter_begin t = Ok it ∧ iterate_loop (Z.to_nat 100) t it (calloc false 100) 0 = Ok 100.
Proof.
  intros Ht. destruct (api_begin_ok _ _ Ht) as (it & l' & E & Hat & Hp). exists it. split; [done|].
  assert (Z.of_nat (length l') = 100) as Hl' by (rewrite Hp; by apply length_ents).
  rewrite (iterate_loop_ok _ t it l' (calloc false 100) (replicate 100 (Some false)) 0);
    [by rewrite Hl'|done|lia|done|done| | |lia|lia].
  - intros e He. rewrite Hp in He. apply list_elem_of_fmap in He as (i & -> & Hi%elem_of_seqZ). cbn [key mk_times]. split; [lia|].
    apply (cellv_calloc 100). lia.
  - rewrite Hp, <-list_fmap_compose. rewrite (list_fmap_ext _ id) by done. rewrite list_fmap_id. apply NoDup_seqZ.
Qed.

Lemma count_filled t : api_rep t (ents 10 0 100) → api_els_count t = 100.
Proof. intros Ht. rewrite (api_count_ok _ _ Ht). by apply length_ents. Qed.

Lemma test_iterate_ok : test_iterate = Ok ().
Proof.
  destruct iterate_filled as (t & t1 & E & E1 & Ht1). destruct (iterate_visits t1 Ht1) as (it & E2 & E3).
  unfold test_iterate. cbv zeta. run_step E. run_step E1. rewrite (count_filled t1 Ht1). cbn [assert]. 
  change (cast_int 100 =? 100) with true. cbn [assert]. step_ok. run_step E2. run_step E3. cbn. finish Ht1.
Qed.

(** ** The large test, for any number of keys *)

Lemma find_loop t r N lo hi :
  api_rep t (ents 7 lo (N - lo)) → 0 ≤ lo ≤ hi → hi ≤ N ≤ 2 ^ 27 →
  ∃ r', for_res lo hi find_body (t, r) = Ok (t, r').
Proof.
  intros Ht Hlo Hhi. destruct (for_res_inv (λ _ s, s.1 = t) find_body lo hi (t, r)) as ([t' r'] & E & Hs);
    [lia|done| |cbn in Hs; subst t'; by exists r'].
  intros i [t1 r1] Hi Hs. cbn in Hs. subst t1. destruct (times_Ok 7 N ltac:(lia) ltac:(lia) i) as [Em Ee]; [lia|].
  injection Ee as Ei Ev. destruct (call_find t _ (mk_entry (u32 i) 0) (mk_times 7 i) r1 Ht) as (p & Ec & El).
  { rewrite Ei. apply lookup_ents. lia. }
  exists (t, Some p). split; [|done]. unfold find_body. run_step Ec. cbn [assert]. step_ok. run_step El.
  rewrite Em. step_ok. cbn [value mk_times]. rewrite Ev, Z.eqb_refl. cbn [assert]. by step_ok.
Qed.

Lemma delete_loop t r N k :
  api_rep t (ents 7 0 N) → 0 ≤ k ≤ N → N ≤ 2 ^ 27 →
  ∃ t' r', for_res 0 k delete_body (t, r) = Ok (t', r') ∧ api_rep t' (ents 7 k (N - k)).
Proof.
  intros Ht Hk HN. destruct (for_res_inv (λ i s, api_rep s.1 (ents 7 i (N - i))) delete_body 0 k (t, r))
    as ([t' r'] & E & Hs); [lia|by rewrite Z.sub_0_r| |by exists t', r'].
  intros i [t1 r1] Hi Hs. cbn [fst] in *. assert (u32 i = i) as Ei by (unfold u32; apply Z.mod_small; lia).
  destruct (call_delete t1 _ (mk_entry (u32 i) 0) (mk_times 7 i) r1 Hs) as (t2 & Ec & Ht2).
  { rewrite Ei. apply lookup_ents. lia. }
  exists (t2, r1). split; [unfold delete_body; run_step Ec; cbn [assert]; by step_ok|].
  rewrite Ei, remove_ents in Ht2 by lia. by replace (N - (i + 1)) with (N - i - 1) by lia.
Qed.

Lemma absent_loop t r N k :
  api_rep t (ents 7 k (N - k)) → 0 ≤ k ≤ N → N ≤ 2 ^ 27 → for_res 0 k absent_body (t, r) = Ok (t, r).
Proof.
  intros Ht Hk HN. destruct (for_res_inv (λ _ s, s = (t, r)) absent_body 0 k (t, r)) as (s & E & ->); [lia|done| |done].
  intros i s Hi ->. exists (t, r). split; [|done]. unfold absent_body.
  rewrite (call_find_none t _ (mk_entry (u32 i) 0) r Ht); [by repeat step_ok|].
  apply lookup_ents_None. unfold u32. rewrite Z.mod_small by lia. lia.
Qed.

Lemma test_large_ok N t :
  0 ≤ N ≤ 2 ^ 27 → api_create 8 = Ok t → inserting 7 N 0 t → test_large_of N = Ok ().
Proof.
  intros HN E Hs. assert (0 ≤ N / 2 ≤ N) as Hh by dlia. unfold test_large_of. rewrite E. step_ok.
  destruct (inserted 7 N ltac:(lia) HN t None Hs) as (t1 & r1 & E1 & Ht1). run_step E1.
  rewrite (api_count_ok _ _ Ht1), length_ents, cast_int_small, Z.eqb_refl by lia. cbn [assert]. step_ok.
  destruct (find_loop t1 r1 N 0 N) as (r2 & E2); [by rewrite Z.sub_0_r|lia|lia|]. run_step E2.
  destruct (delete_loop t1 r2 N (N / 2) Ht1) as (t3 & r3 & E3 & Ht3); [lia..|]. run_step E3.
  rewrite (api_count_ok _ _ Ht3), length_ents, cast_int_small, Z.eqb_refl by lia. cbn [assert]. step_ok.
  rewrite (absent_loop t3 r3 N (N / 2) Ht3) by lia. step_ok.
  destruct (find_loop t3 r3 N (N / 2) N Ht3) as (r4 & E4); [lia..|]. run_step E4. finish Ht3.
Qed.

Lemma test_all_ok : test_large = Ok () → test_all = Ok ().
Proof.
  intros Hl. unfold test_all.
  by rewrite test_insert_find_ok, test_replace_ok, test_delete_ok, test_duplicate_ok, test_iterate_ok, Hl.
Qed.
End tests.

(** * The C++ program *)

Section cpp.
Context {T P It RIt : Type} {A : Api entry T P It} `{LA : !ApiLaws entry_eq A}.
Context {R : Api entry T P RIt} `{LR : !ApiLaws entry_eq R}.
Context (HR : ∀ t l, api_rep (ApiLaws := LA) t l → api_rep (ApiLaws := LR) t l).

Lemma cpp_test_iterate_ok : cpp_test_iterate A R = Ok ().
Proof.
  destruct (iterate_filled (A := A)) as (t & t1 & E & E1 & Ht1).
  destruct (iterate_visits (A := A) t1 Ht1) as (it & E2 & E3).
  destruct (iterate_visits (A := R) t1 (HR _ _ Ht1)) as (it' & E2' & E3').
  unfold cpp_test_iterate. cbv zeta. run_step E. run_step E1. rewrite (count_filled t1 Ht1).
  change (cast_int 100 =? 100) with true. cbn [assert]. step_ok. run_step E2'. run_step E3'. cbn. repeat step_ok.
  run_step E2. run_step E3. cbn. destruct (api_destroy_ok _ _ Ht1) as (t2 & E4). by run_step E4.
Qed.

Lemma cpp_test_all_ok : test_large (A := A) = Ok () → cpp_test_all A R = Ok ().
Proof.
  intros Hl. unfold cpp_test_all.
  by rewrite test_insert_find_ok, test_replace_ok, test_delete_ok, test_duplicate_ok, cpp_test_iterate_ok, Hl.
Qed.
End cpp.

(** * The tables *)

Section tables.
Context {K1 : SlotStore} {V1 : SlotView K1} `{!SlotLaws iht_config K1 V1}.
Context {K2 : SlotStore} {V2 : SlotView K2} `{!SlotLaws Ixhtab.ixht_config K2 V2}.

Lemma iht_large N : 0 ≤ N ≤ 2 ^ 27 → test_large_of (A := iht_api (K := K1) entry_hash entry_eq) N = Ok ().
Proof.
  intros HN. destruct (api_create_ok (A := iht_api (K := K1) entry_hash entry_eq) 8) as (t & E & Ht); [lia|].
  eapply test_large_ok; [done|exact E|]. apply inserting_start; [lia|done|cbn; lia|done].
Qed.

Lemma ixht_large N : 0 ≤ N ≤ 2 ^ 27 → test_large_of (A := ixht_api (K := K2) entry_hash entry_eq) N = Ok ().
Proof.
  intros HN. destruct (IxhtabSpread.ixht_create_tight (K := K2) entry_hash entry_eq 8) as (t & m0 & bc & dc & ls & E & Ht); [lia|].
  eapply (test_large_ok (A := ixht_api (K := K2) entry_hash entry_eq)); [done|exact E|]. split.
  - exists bc, dc, ls. split; apply Ht.
  - rewrite Z.sub_0_r. destruct (entries_spread (mk_times 7) (λ i _, eq_refl) N) as [Hs Hnew]; [lia|].
    eapply ready_for_tight; [exact Ht|exact Hs|exact Hnew|]. rewrite length_ents by lia. cbn. lia.
Qed.

(** C5: The test programs succeed: no assertion of the C program and of the
    C++ program, with its range-based [for], fails for either table, over any
    slot memory that meets the laws (the groups of all platforms do, the
    portable ones on little-endian targets), and the large test succeeds for any number of
    keys up to 2^27, not only the 50000 of the programs. *)
Theorem tests_pass N this1 this2 :
  0 ≤ N ≤ 2 ^ 27 →
  main (iht_api (K := K1) entry_hash entry_eq) (ixht_api (K := K2) entry_hash entry_eq) = Ok 0 ∧
  cpp_main (cpp_iht_api (K := K1) entry_hash entry_eq) (cpp_iht_range_api (K := K1) entry_hash entry_eq this1)
    (cpp_ixht_api (K := K2) entry_hash entry_eq) (cpp_ixht_range_api (K := K2) entry_hash entry_eq this2) = Ok 0 ∧
  test_large_of (A := iht_api (K := K1) entry_hash entry_eq) N = Ok () ∧
  test_large_of (A := ixht_api (K := K2) entry_hash entry_eq) N = Ok ().
Proof.
  intros HN. pose proof (iht_large 50000 ltac:(lia)) as H1. pose proof (ixht_large 50000 ltac:(lia)) as H2.
  split_and!; [..|by apply iht_large|by apply ixht_large].
  - unfold main. by rewrite !test_all_ok.
  - unfold cpp_main. rewrite !cpp_test_all_ok; [done|done|exact H1|done|exact H2].
Qed.
End tables.

Import IxhtabCorrect.

(** The first version of ihtab with SSE2, ixhtab with portable groups. *)
Lemma tests_pass_witness :
  main (iht_api (K := apart (C := iht_config) V0SSE2.ops) entry_hash entry_eq)
    (ixht_api (K := packed (C := Ixhtab.ixht_config) IxSWAR.ops) entry_hash entry_eq) = Ok 0.
Proof.
  destruct (tests_pass (K1 := apart (C := iht_config) V0SSE2.ops)
    (K2 := packed (C := Ixhtab.ixht_config) IxSWAR.ops) 1000000 0 0) as [H _]; [lia|]. exact H.
Defined.
