(* ===== verification/Bench.v ===== *)
(** benchmarks/bench_c.c: the functions that [GEN_INT], [GEN_STR] and [GEN_LV]
    generate for the benchmark driver, as clients of the interface [Api].  The
    functions of the macros have the same bodies up to the element type, so
    they are defined once, over the way an element is made of a key and a
    number; the instances are the macros, whose elements are hashed by vmum.h.
    A table that [build] allocates for its caller is the table itself. *)

From Stdlib Require Strings.Byte.
From stdpp Require Import strings pretty.
From S2P Require Import Prelude Probe Spec Store Api Vmum.

Definition byte_val (b : Byte.byte) : Z := Z.of_N (Byte.to_N b).

Section bench.
Context {K E T P It : Type} (mk : K → Z → E) (val : E → Z) {A : Api E T P It}.

(** [E e = {keys[i], i}; E *r; if (!perform (&t, &e, INSERT, &r)) *r = e;] *)
Definition insert_step (keys : arr K) (i : Z) (t : T) : res T :=
  k ← arr_get keys i;
  let e := mk k i in
  '(found, r, t) ← call t e INSERT None;
  if (found : bool) then Ok t else store t r e.

(** [E e = {keys[i], 0}; E *r; if (perform (t, &e, FIND, &r)) s += r->value;],
    where the element to look for is made by [probe] *)
Definition lookup_step (probe : K → E) (keys : arr K) (i : Z) (st : T * Z) : res (T * Z) :=
  let '(t, s) := st in
  k ← arr_get keys i;
  let e := probe k in
  '(found, r, t) ← call t e FIND None;
  if (found : bool) then x ← load t r; s ← int_add s (val x); Ok (t, s) else Ok (t, s).

(** [E e = {keys[i], 0}; E *r; perform (&t, &e, DELETE, &r);] *)
Definition delete_step (keys : arr K) (i : Z) (t : T) : res T :=
  k ← arr_get keys i;
  let e := mk k 0 in
  '(_, _, t) ← call t e DELETE None;
  Ok t.

(** [size_t c = els_count (&t); destroy (&t); return c;] *)
Definition count_and_destroy (t : T) : res Z :=
  let c := api_els_count t in
  _ ← api_destroy t;
  Ok c.

Definition bench_insert (keys : arr K) (n : Z) : res Z :=
  t ← api_create 8;
  t ← for_res 0 n (insert_step keys) t;
  count_and_destroy t.

Definition bench_build (keys : arr K) (n : Z) : res T :=
  t ← api_create 8;
  for_res 0 n (insert_step keys) t.

Definition bench_lookup (probe : K → E) (t : T) (keys : arr K) (n : Z) : res (T * Z) :=
  for_res 0 n (lookup_step probe keys) (t, 0).

Definition bench_delete (keys : arr K) (n : Z) : res Z :=
  t ← api_create 8;
  t ← for_res 0 n (insert_step keys) t;
  t ← for_res 0 n (delete_step keys) t;
  count_and_destroy t.

(** The fuel of the loop is the number of elements. *)
Fixpoint iterate_sum (fuel : nat) (t : T) (it : It) (s : Z) : res Z :=
  if api_iter_valid it then
    match fuel with
    | O => Timeout
    | S fuel =>
        e ← load t (api_iter_ptr it);
        s ← int_add s (val e);
        it ← api_iter_next t it;
        iterate_sum fuel t it s
    end
  else Ok s.

Definition bench_iterate (t : T) : res Z :=
  it ← api_iter_begin t;
  iterate_sum (Z.to_nat (api_els_count t)) t it 0.

Definition bench_free (t : T) : res T := api_destroy t.

(** Insertions, lookups and deletions in turn. *)
Definition mixed_step (keys : arr K) (j : Z) (t : T) : res T :=
  let op := j mod 10 in
  k ← arr_get keys j;
  let e := mk k j in
  if op <? 7 then
    '(found, r, t) ← call t e INSERT None;
    if (found : bool) then Ok t else store t r e
  else if op <? 9 then '(_, _, t) ← call t e FIND None; Ok t
  else '(_, _, t) ← call t e DELETE None; Ok t.

Definition bench_mixed (keys : arr K) (n : Z) : res Z :=
  t ← api_create 8;
  t ← for_res 0 n (mixed_step keys) t;
  count_and_destroy t.

Definition bench_collision (keys : arr K) (n : Z) : res Z :=
  t ← api_create 8;
  t ← for_res 0 n (insert_step keys) t;
  '(t, s) ← for_res 0 n (lookup_step (λ k, mk k 0) keys) (t, 0);
  _ ← api_destroy t;
  Ok s.

Definition bench_growth (keys : arr K) (n : Z) (prealloc : bool) : res Z :=
  t ← api_create (if prealloc then u32 n else 8);
  t ← for_res 0 n (insert_step keys) t;
  count_and_destroy t.
End bench.

(** * The elements *)

Record ci_int := mk_ci_int { ci_int_key : Z; ci_int_value : Z }.
Definition ci_int_h {c : VmumConfig} (env : vmum_env) (e : ci_int) : Z := vmum_hash64 env (ci_int_key e) 0.
Definition ci_int_e (a b : ci_int) : bool := ci_int_key a =? ci_int_key b.

(** A C string at an address: a block of bytes that ends in 0, which the
    string may do before. *)
Record c_string := mk_c_string { cs_addr : Z; cs_bytes : list Byte.byte }.
Definition cs_cells (s : c_string) : list (option Z) := ((λ b, Some (byte_val b)) <$> cs_bytes s) ++ [Some 0].

(** [strlen]: the position of the first 0 from [i] on. *)
Fixpoint strlen_from (fuel : nat) (s : arr Z) (i : Z) : res Z :=
  match fuel with
  | O => Timeout
  | S fuel => x ← arr_get s i; if x =? 0 then Ok i else strlen_from fuel s (i + 1)
  end.
Definition strlen (s : c_string) : res Z := strlen_from (length (cs_cells s)) (Live (cs_cells s)) 0.

(** [strcmp (a, b) == 0]: the first difference, or the end of both. *)
Fixpoint strcmp_from (fuel : nat) (a b : arr Z) (i : Z) : res bool :=
  match fuel with
  | O => Timeout
  | S fuel =>
      x ← arr_get a i;
      y ← arr_get b i;
      if negb (x =? y) then Ok false
      else if x =? 0 then Ok true
      else strcmp_from fuel a b (i + 1)
  end.
Definition strcmp_eq (a b : c_string) : res bool :=
  strcmp_from (length (cs_cells a)) (Live (cs_cells a)) (Live (cs_cells b)) 0.

Record ci_str := mk_ci_str { ci_str_key : c_string; ci_str_value : Z }.
Definition ci_str_h {c : VmumConfig} (env : vmum_env) (e : ci_str) : res Z :=
  let key := ci_str_key e in
  len ← strlen key;
  vmum_hash env (Live (cs_cells key)) (cs_addr key) 0 len 0.
Definition ci_str_e (a b : ci_str) : res bool := strcmp_eq (ci_str_key a) (ci_str_key b).

(** Large values: arrays of characters, of which those not written are not
    initialised. *)
Record lv_value := mk_lv_value {
  lv_data : list (option Z);
  lv_number : Z;
  lv_name : list (option Z);
  lv_active : bool
}.
Record ci_lv := mk_ci_lv { ci_lv_key : Z; ci_lv_value : lv_value }.
Definition ci_lv_h {c : VmumConfig} (env : vmum_env) (e : ci_lv) : Z := vmum_hash64 env (ci_lv_key e) 0.
Definition ci_lv_e (a b : ci_lv) : bool := ci_lv_key a =? ci_lv_key b.

(** [snprintf (buf, size, "%s", s)]: at most [size - 1] characters and a 0. *)
Definition snprintf_cells (size : nat) (s : string) : list (option Z) :=
  let codes := (λ a, Some (Z.of_N (Ascii.N_of_ascii a))) <$> take (size - 1) (String.list_ascii_of_string s) in
  codes ++ [Some 0] ++ replicate (size - 1 - length codes) None.

(** [memset (data, (char) (i % 256), 64)] stores the byte of the remainder. *)
Definition make_ci_lv (key i : Z) : ci_lv := {|
  ci_lv_key := key;
  ci_lv_value := {|
    lv_data := replicate 64 (Some (Z.rem i 256 mod 256));
    lv_number := i;
    lv_name := snprintf_cells 24 ("item_" +:+ pretty i);
    lv_active := Z.rem i 2 =? 0
  |}
|}.

(** [e.key = key; memset (&e.value, 0, sizeof e.value);] *)
Definition lv_probe (key : Z) : ci_lv := {|
  ci_lv_key := key;
  ci_lv_value := {|
    lv_data := replicate 64 (Some 0); lv_number := 0; lv_name := replicate 24 (Some 0); lv_active := false
  |}
|}.

(** * The functions of the macros *)

(** [GEN_INT] *)
Section gen_int.
Context {T P It : Type} {A : Api ci_int T P It}.
Definition int_insert : arr Z → Z → res Z := bench_insert mk_ci_int.
Definition int_build : arr Z → Z → res T := bench_build mk_ci_int.
Definition int_lookup : T → arr Z → Z → res (T * Z) := bench_lookup ci_int_value (λ k, mk_ci_int k 0).
Definition int_delete : arr Z → Z → res Z := bench_delete mk_ci_int.
Definition int_iterate : T → res Z := bench_iterate ci_int_value.
Definition int_free : T → res T := bench_free.
End gen_int.

(** [GEN_STR] *)
Section gen_str.
Context {T P It : Type} {A : Api ci_str T P It}.
Definition str_insert : arr c_string → Z → res Z := bench_insert mk_ci_str.
Definition str_build : arr c_string → Z → res T := bench_build mk_ci_str.
Definition str_lookup : T → arr c_string → Z → res (T * Z) := bench_lookup ci_str_value (λ k, mk_ci_str k 0).
Definition str_delete : arr c_string → Z → res Z := bench_delete mk_ci_str.
Definition str_iterate : T → res Z := bench_iterate ci_str_value.
Definition str_free : T → res T := bench_free.
Definition str_mixed : arr c_string → Z → res Z := bench_mixed mk_ci_str.
Definition str_collision : arr c_string → Z → res Z := bench_collision mk_ci_str ci_str_value.
Definition str_growth : arr c_string → Z → bool → res Z := bench_growth mk_ci_str.
End gen_str.

(** [GEN_LV] *)
Section gen_lv.
Context {T P It : Type} {A : Api ci_lv T P It}.
Definition lv_insert : arr Z → Z → res Z := bench_insert make_ci_lv.
Definition lv_build : arr Z → Z → res T := bench_build make_ci_lv.
Definition lv_lookup : T → arr Z → Z → res (T * Z) := bench_lookup (λ e, lv_number (ci_lv_value e)) lv_probe.
Definition lv_free : T → res T := bench_free.
End gen_lv.
