(* ===== verification/BenchSpec.v ===== *)
(** What the benchmark functions compute, from the laws of the tables and for
    any kind of elements: the number of different keys, sums of values as long
    as they fit into an [int], and tables that are empty after all keys are
    deleted. *)

From stdpp Require Import gmap.
From S2P Require Import Prelude Probe Spec Store Api Bench.

(** * The specification *)

(** Adding elements to a collection, unless their keys are present. *)
Definition add_key {E} (Eq : E → E → bool) (l : list E) (e : E) : list E :=
  match lookup_key Eq e l with Some _ => l | None => l ++ [e] end.
Definition add_keys {E} (Eq : E → E → bool) (l es : list E) : list E := foldl (add_key Eq) l es.

(** The sum of an [int] computation whose terms are not negative. *)
Definition int_sum (s : Z) : res Z := if s <? 2 ^ 31 then Ok s else UB SignedOverflow.

Definition sum_list_with {B} (f : B → Z) (l : list B) : Z := foldr (λ x s, f x + s) 0 l.

(** * Sums *)

Lemma int_sum_small s : s < 2 ^ 31 → int_sum s = Ok s.
Proof. intros Hs. unfold int_sum. by rewrite (proj2 (Z.ltb_lt _ _)). Qed.

Lemma int_sum_large s : 2 ^ 31 ≤ s → int_sum s = UB SignedOverflow.
Proof. intros Hs. unfold int_sum. by rewrite (proj2 (Z.ltb_ge _ _)). Qed.

Lemma sum_nonneg {B} (f : B → Z) l : (∀ x, x ∈ l → 0 ≤ f x) → 0 ≤ sum_list_with f l.
Proof.
  induction l as [|x l IH]; intros Hl; [done|]. cbn. pose proof (Hl x ltac:(left)).
  specialize (IH ltac:(intros; apply Hl; by right)). unfold sum_list_with in IH. lia.
Qed.

#[export] Instance sum_proper {B} (f : B → Z) : Proper ((≡ₚ) ==> (=)) (sum_list_with f).
Proof. unfold sum_list_with. intros l l'. induction 1; cbn; lia. Qed.

(** A loop that adds [v i] to an [int] in each round. *)
Lemma fold_sum {S : Type} (f : Z → S * Z → res (S * Z)) (v : Z → Z) x js s :
  (∀ i s, i ∈ js → 0 ≤ s < 2 ^ 31 → f i (x, s) = (s' ← to_int (s + v i); Ok (x, s'))) →
  (∀ i, i ∈ js → 0 ≤ v i) → 0 ≤ s < 2 ^ 31 →
  fold_res f js (x, s) = (s' ← int_sum (s + sum_list_with v js); Ok (x, s')).
Proof.
  revert s. induction js as [|i js IH]; intros s Hf Hv Hs.
  - cbn. by rewrite Z.add_0_r, int_sum_small by lia.
  - cbn [fold_res sum_list_with foldr]. rewrite Hf by (done || left). pose proof (Hv i ltac:(left)).
    assert (0 ≤ sum_list_with v js) by (apply sum_nonneg; intros; apply Hv; by right).
    fold (sum_list_with v js). destruct (decide (s + v i < 2 ^ 31)) as [Hlt|Hge].
    + rewrite to_int_Ok by lia. repeat step_ok. rewrite IH; [by rewrite Z.add_assoc| | |lia].
      * intros; apply Hf; [by right|done].
      * intros; apply Hv; by right.
    + unfold to_int. rewrite decide_False by lia. rewrite int_sum_large by lia. done.
Qed.
Section clients.
Context {K E T P It : Type} (mk : K → Z → E) (val : E → Z) {Eq : E → E → bool} {A : Api E T P It} `{!ApiLaws Eq A}.
Context (Hval : ∀ k i, val (mk k i) = i).
Implicit Types (t : T) (l : list E) (ks : list K).

(** The elements the loops insert. *)
Definition numbered (ks : list K) : list E := imap (λ i k, mk k (Z.of_nat i)) ks.

(** The keys in memory. *)
Definition key_array (ks : list K) : arr K := Live (Some <$> ks).

Lemma key_get ks (i : nat) k : ks !! i = Some k → arr_get (key_array ks) (Z.of_nat i) = Ok k.
Proof. intros Hk. apply live_get. by rewrite list_lookup_fmap, Hk. Qed.

Lemma numbered_snoc ks k : numbered (ks ++ [k]) = numbered ks ++ [mk k (Z.of_nat (length ks))].
Proof. unfold numbered. rewrite imap_app. cbn. do 3 f_equal. lia. Qed.

Lemma length_add_key l e : (length (add_key Eq l e) ≤ S (length l))%nat.
Proof. unfold add_key. destruct (lookup_key Eq e l); [lia|]. rewrite length_app. cbn. lia. Qed.

Lemma add_keys_snoc l es e : add_keys Eq l (es ++ [e]) = add_key Eq (add_keys Eq l es) e.
Proof. unfold add_keys. by rewrite foldl_app. Qed.

Lemma length_add_keys l es : (length (add_keys Eq l es) ≤ length l + length es)%nat.
Proof.
  induction es as [|e es IH] using rev_ind; [cbn; lia|].
  rewrite add_keys_snoc, length_app. pose proof (length_add_key (add_keys Eq l es) e). cbn. lia.
Qed.

(** ** The loop over a list of keys *)

(** A loop over [keys[0]], ..., [keys[n - 1]] with an invariant on the keys it
    has seen. *)
Lemma for_keys {B} (I : list K → B → Prop) (f : Z → B → res B) ks s :
  I [] s →
  (∀ pre k s, pre ++ [k] `prefix_of` ks → I pre s →
     ∃ s', f (Z.of_nat (length pre)) s = Ok s' ∧ I (pre ++ [k]) s') →
  ∃ s', for_res 0 (Z.of_nat (length ks)) f s = Ok s' ∧ I ks s'.
Proof.
  intros H0 Hstep.
  destruct (for_res_inv (λ i s, I (take (Z.to_nat i) ks) s) f 0 (Z.of_nat (length ks)) s) as (s' & Er & Hs');
    [lia|done| |exists s'; split; [done|]; by rewrite Nat2Z.id, firstn_all in Hs'].
  intros i s1 Hi Hs1. destruct (lookup_lt_is_Some_2 ks (Z.to_nat i)) as [k Hk]; [lia|].
  assert (take (Z.to_nat (i + 1)) ks = take (Z.to_nat i) ks ++ [k]) as Et.
  { replace (Z.to_nat (i + 1)) with (S (Z.to_nat i)) by lia. by apply take_S_r. }
  destruct (Hstep (take (Z.to_nat i) ks) k s1) as (s2 & Er & Hs2); [rewrite <-Et; apply prefix_take|done|].
  exists s2. rewrite Et. split; [|done]. rewrite <-Er. f_equal. rewrite length_take. lia.
Qed.

(** The next key of a prefix. *)
Lemma prefix_key ks pre k : pre ++ [k] `prefix_of` ks → ks !! length pre = Some k ∧ (length pre < length ks)%nat.
Proof.
  intros [post ->]. rewrite <-(assoc_L (++)). rewrite lookup_app_r, Nat.sub_diag by lia. cbn. split; [done|].
  rewrite length_app. cbn. lia.
Qed.

(** ** Insertion *)

(** The table can take the keys: they are few enough, or new keys that it is
    ready for. *)
Definition fillable ks : Prop :=
  Z.of_nat (length ks) ≤ api_limit ∨
  new_keys Eq [] (numbered ks) ∧ ∀ n t, 0 ≤ n ≤ 2 ^ 31 → api_create n = Ok t → ready_for (numbered ks) t.

Lemma insert_step_ok ks pre k t l :
  pre ++ [k] `prefix_of` ks → api_rep t l → api_ready t (mk k (Z.of_nat (length pre))) →
  ∃ t', insert_step mk (key_array ks) (Z.of_nat (length pre)) t = Ok t' ∧
    api_rep t' (add_key Eq l (mk k (Z.of_nat (length pre)))) ∧
    (lookup_key Eq (mk k (Z.of_nat (length pre))) l = None →
     ∃ p t1, api_perform t (mk k (Z.of_nat (length pre))) INSERT = Ok (false, Some p, t1) ∧
       api_write t1 p (mk k (Z.of_nat (length pre))) = Ok t').
Proof.
  intros Hpre Ht Hr. destruct (prefix_key _ _ _ Hpre) as [Hk Hlt].
  unfold insert_step. rewrite (key_get _ _ _ Hk). step_ok. cbv zeta.
  set (e := mk k (Z.of_nat (length pre))) in *. unfold add_key.
  destruct (lookup_key Eq e l) as [e0|] eqn:El.
  - destruct (call_insert_old t _ e e0 None Ht Hr El) as (p & t' & t'' & -> & Ht' & _). step_ok. by exists t'.
  - destruct (call_insert_new t _ e None Ht Hr El) as (p & t' & t'' & Ep & Ew & -> & Es & Ht''). step_ok.
    exists t''. split_and!; [done..|]. intros _. by exists p, t'.
Qed.

Lemma fill_few ks t :
  api_rep t [] → Z.of_nat (length ks) ≤ api_limit →
  ∃ t', for_res 0 (Z.of_nat (length ks)) (insert_step mk (key_array ks)) t = Ok t' ∧
    api_rep t' (add_keys Eq [] (numbered ks)).
Proof.
  intros Ht Hlim. apply (for_keys (λ pre t, api_rep t (add_keys Eq [] (numbered pre)))); [done|].
  intros pre k t1 Hpre Ht1. destruct (prefix_key _ _ _ Hpre) as [_ Hlt].
  destruct (insert_step_ok ks pre k t1 _ Hpre Ht1) as (t2 & Ei & Ht2 & _).
  - eapply api_ready_below; [done|]. pose proof (length_add_keys [] (numbered pre)).
    unfold numbered in *. rewrite length_imap in *. cbn in *. lia.
  - exists t2. by rewrite numbered_snoc, add_keys_snoc.
Qed.

(** New keys are added at the end. *)
Lemma add_keys_new l es : new_keys Eq l es → add_keys Eq l es = l ++ es.
Proof.
  revert l. induction es as [|e es IH]; intros l; cbn [new_keys]; [by rewrite app_nil_r|].
  intros [Hl Hnew]. change (add_keys Eq l (e :: es)) with (add_keys Eq (add_key Eq l e) es).
  unfold add_key. rewrite Hl, IH by done. by rewrite <-(assoc_L (++)).
Qed.

(** The elements that are still to be inserted. *)
Lemma numbered_rest ks pre k :
  pre ++ [k] `prefix_of` ks →
  drop (length pre) (numbered ks) = mk k (Z.of_nat (length pre)) :: drop (length (pre ++ [k])) (numbered ks).
Proof.
  intros [Hk _]%prefix_key. rewrite length_app, Nat.add_1_r. apply drop_S.
  unfold numbered. by rewrite list_lookup_imap, Hk.
Qed.

Lemma fill_ready ks t :
  api_rep t [] → new_keys Eq [] (numbered ks) → ready_for (numbered ks) t →
  ∃ t', for_res 0 (Z.of_nat (length ks)) (insert_step mk (key_array ks)) t = Ok t' ∧
    api_rep t' (add_keys Eq [] (numbered ks)).
Proof.
  intros Ht Hnew Hr. rewrite add_keys_new by done. edestruct (for_keys (λ pre t, api_rep t (numbered pre) ∧
    new_keys Eq (numbered pre) (drop (length pre) (numbered ks)) ∧ ready_for (drop (length pre) (numbered ks)) t)
    (insert_step mk (key_array ks)) ks t) as (t1 & Ei & Ht1 & _); [done| |by exists t1].
  intros pre k t1 Hpre (Ht1 & Hn1 & Hr1). rewrite (numbered_rest _ _ _ Hpre) in Hn1, Hr1.
  cbn [new_keys ready_for] in Hn1, Hr1. destruct Hn1 as [Hl Hn1], Hr1 as [Hrk Hr1].
  destruct (insert_step_ok ks pre k t1 _ Hpre Ht1 Hrk) as (t2 & Ei & Ht2 & Hw).
  destruct (Hw Hl) as (p & t' & Ep & Ew). unfold add_key in Ht2. rewrite Hl in Ht2.
  exists t2. rewrite numbered_snoc. split_and!; [done..|]. by eapply Hr1.
Qed.

Lemma fill_ok ks n t :
  0 ≤ n ≤ 2 ^ 31 → api_create n = Ok t → api_rep t [] → fillable ks →
  ∃ t', for_res 0 (Z.of_nat (length ks)) (insert_step mk (key_array ks)) t = Ok t' ∧
    api_rep t' (add_keys Eq [] (numbered ks)).
Proof. intros Hn Ec Ht [Hlim|[Hnew Hr]]; [by apply fill_few|]. apply fill_ready; [done..|by eapply Hr]. Qed.

Lemma count_and_destroy_ok t l : api_rep t l → count_and_destroy t = Ok (Z.of_nat (length l)).
Proof.
  intros Ht. unfold count_and_destroy. rewrite (api_count_ok t l Ht).
  destruct (api_destroy_ok t l Ht) as (t' & ->). done.
Qed.

Lemma bench_build_ok ks :
  fillable ks →
  ∃ t, bench_build mk (key_array ks) (Z.of_nat (length ks)) = Ok t ∧ api_rep t (add_keys Eq [] (numbered ks)).
Proof.
  intros Hlim. destruct (api_create_ok 8) as (t & Ec & Ht); [lia|]. unfold bench_build. rewrite Ec. step_ok.
  by apply (fill_ok ks 8).
Qed.

Lemma bench_insert_ok ks :
  fillable ks →
  bench_insert mk (key_array ks) (Z.of_nat (length ks)) = Ok (Z.of_nat (length (add_keys Eq [] (numbered ks)))).
Proof.
  intros Hlim. destruct (api_create_ok 8) as (t & Ec & Ht); [lia|]. unfold bench_insert. rewrite Ec. step_ok.
  destruct (fill_ok ks 8 t ltac:(lia) Ec Ht Hlim) as (t' & -> & Ht'). step_ok. by apply count_and_destroy_ok.
Qed.

(** ** Deletion *)

Context (Hkey : ∀ k i j, Eq (mk k i) (mk k j) = true).

Lemma remove_key_missing el l : lookup_key Eq el l = None → remove_key Eq el l = l.
Proof.
  intros Hl. apply filter_all_in. intros e He. unfold lookup_key in Hl.
  apply list_elem_of_In in He. by apply (find_none _ _ Hl).
Qed.

Definition remove_keys l ks : list E := foldl (λ l k, remove_key Eq (mk k 0) l) l ks.

Lemma delete_step_ok ks pre k t l :
  pre ++ [k] `prefix_of` ks → api_rep t (remove_keys l pre) →
  ∃ t', delete_step mk (key_array ks) (Z.of_nat (length pre)) t = Ok t' ∧ api_rep t' (remove_keys l (pre ++ [k])).
Proof.
  intros Hpre Ht. destruct (prefix_key _ _ _ Hpre) as [Hk _].
  unfold delete_step. rewrite (key_get _ _ _ Hk). step_ok. cbv zeta.
  assert (remove_keys l (pre ++ [k]) = remove_key Eq (mk k 0) (remove_keys l pre)) as ->
    by (unfold remove_keys; by rewrite foldl_app).
  destruct (lookup_key Eq (mk k 0) (remove_keys l pre)) as [e|] eqn:El.
  - destruct (call_delete t _ (mk k 0) e None Ht El) as (t' & -> & Ht'). step_ok. by exists t'.
  - rewrite (call_delete_none t _ (mk k 0) None Ht El). step_ok. exists t. by rewrite remove_key_missing.
Qed.

Lemma elem_of_remove_keys e l ks : e ∈ remove_keys l ks → e ∈ l ∧ ∀ k, k ∈ ks → Eq e (mk k 0) = false.
Proof.
  unfold remove_keys. revert l. induction ks as [|k ks IH]; intros l; cbn [foldl].
  - intros He. split; [done|]. by intros k ?%elem_of_nil.
  - intros [He Hks]%IH. apply list_elem_of_filter in He as [Hk He]. split; [done|].
    intros k' [->|Hk']%elem_of_cons; [done|by apply Hks].
Qed.

(** Every element that was added has one of the keys. *)
Lemma elem_of_add_keys e ks :
  e ∈ add_keys Eq [] (numbered ks) → ∃ (i : nat) k, ks !! i = Some k ∧ e = mk k (Z.of_nat i).
Proof.
  induction ks as [|k ks IH] using rev_ind; [by intros ?%elem_of_nil|].
  rewrite numbered_snoc, add_keys_snoc. unfold add_key.
  assert (e ∈ add_keys Eq [] (numbered ks) →
    ∃ (i : nat) k', (ks ++ [k]) !! i = Some k' ∧ e = mk k' (Z.of_nat i)) as Hold.
  { intros (i & k' & Hi & He)%IH. exists i, k'. split; [|done]. by apply lookup_app_l_Some. }
  destruct (lookup_key Eq _ _); [done|]. intros [He|He]%elem_of_app; [by apply Hold|].
  apply list_elem_of_singleton in He as ->. exists (length ks), k. by rewrite list_lookup_middle.
Qed.

Lemma remove_all_keys ks : remove_keys (add_keys Eq [] (numbered ks)) ks = [].
Proof.
  destruct (remove_keys _ ks) as [|e l] eqn:Er; [done|exfalso].
  assert (e ∈ remove_keys (add_keys Eq [] (numbered ks)) ks) as [He Hno]%elem_of_remove_keys by (rewrite Er; left).
  apply elem_of_add_keys in He as (i & k & Hi & ->). 
  specialize (Hno k ltac:(by eapply list_elem_of_lookup_2)). by rewrite Hkey in Hno.
Qed.

Lemma bench_delete_ok ks :
  fillable ks → bench_delete mk (key_array ks) (Z.of_nat (length ks)) = Ok 0.
Proof.
  intros Hlim. destruct (api_create_ok 8) as (t & Ec & Ht); [lia|]. unfold bench_delete. rewrite Ec. step_ok.
  destruct (fill_ok ks 8 t ltac:(lia) Ec Ht Hlim) as (t1 & -> & Ht1). step_ok.
  destruct (for_keys (λ pre t, api_rep t (remove_keys (add_keys Eq [] (numbered ks)) pre))
    (delete_step mk (key_array ks)) ks t1) as (t2 & -> & Ht2); [done| |].
  - intros pre k t2 Hpre Ht2. by apply delete_step_ok.
  - step_ok. rewrite remove_all_keys in Ht2. by apply (count_and_destroy_ok t2 []).
Qed.


(** ** Lookup and iteration *)

Implicit Types (k : K).

(** What a lookup of the key adds to the sum. *)
Definition found_value (probe : K → E) l k : Z := match lookup_key Eq (probe k) l with Some e => val e | None => 0 end.

Lemma found_value_nonneg probe ks k : 0 ≤ found_value probe (add_keys Eq [] (numbered ks)) k.
Proof.
  unfold found_value. destruct (lookup_key _ _ _) as [e|] eqn:El; [|done].
  apply find_some in El as [He _]. apply list_elem_of_In, elem_of_add_keys in He as (i & k' & _ & ->).
  rewrite Hval. lia.
Qed.

Lemma sum_seq {B} (f : B → Z) (g : Z → Z) (xs : list B) (n : nat) :
  (∀ (i : nat) x, xs !! i = Some x → g (Z.of_nat (n + i)) = f x) →
  sum_list_with g (seqZ (Z.of_nat n) (Z.of_nat (length xs))) = sum_list_with f xs.
Proof.
  revert n. induction xs as [|x xs IH]; intros n Hg; [done|].
  cbn [length]. rewrite Nat2Z.inj_succ, seqZ_cons by lia. rewrite Z.pred_succ, <-Nat2Z.inj_succ.
  cbn [sum_list_with foldr]. fold (sum_list_with g (seqZ (Z.of_nat (S n)) (Z.of_nat (length xs)))).
  rewrite (IH (S n)).
  - rewrite <-(Hg 0%nat x) by done. by rewrite Nat.add_0_r.
  - intros i y Hi. rewrite <-(Hg (S i) y) by done. f_equal. lia.
Qed.

Lemma lookup_loop_ok probe t ks js :
  api_rep t (add_keys Eq [] (numbered ks)) →
  for_res 0 (Z.of_nat (length js)) (lookup_step val probe (key_array js)) (t, 0) =
  (s ← int_sum (sum_list_with (found_value probe (add_keys Eq [] (numbered ks))) js); Ok (t, s)).
Proof.
  intros Ht. set (l := add_keys Eq [] (numbered ks)) in *. unfold for_res. rewrite Z.sub_0_r.
  set (v := λ i, match js !! Z.to_nat i with Some k => found_value probe l k | None => 0 end).
  rewrite (fold_sum _ v).
  - do 2 f_equal. rewrite Z.add_0_l. apply (sum_seq (found_value probe l) v js 0). intros i x Hx.
    unfold v. rewrite Nat.add_0_l, Nat2Z.id. by rewrite Hx.
  - intros i s Hi%elem_of_seqZ Hs. destruct (lookup_lt_is_Some_2 js (Z.to_nat i)) as [k Hk]; [lia|].
    unfold v, lookup_step. rewrite Hk. rewrite <-(Z2Nat.id i), (key_get _ _ _ Hk) by lia. step_ok. cbv zeta.
    unfold found_value. destruct (lookup_key Eq (probe k) l) as [e|] eqn:El.
    + destruct (call_find t l (probe k) e None Ht El) as (p & -> & Ep). step_ok. rewrite Ep. by step_ok.
    + rewrite (call_find_none t l (probe k) None Ht El). step_ok. by rewrite Z.add_0_r, to_int_Ok by lia.
  - intros i _. unfold v. destruct (js !! _); [apply found_value_nonneg|done].
  - lia.
Qed.

Lemma iterate_sum_ok fuel t it l s :
  api_at t it l → (length l ≤ fuel)%nat → (∀ e, e ∈ l → 0 ≤ val e) → 0 ≤ s < 2 ^ 31 →
  iterate_sum val fuel t it s = int_sum (s + sum_list_with val l).
Proof.
  revert it l s. induction fuel as [|fuel IH]; intros it [|e l] s Hat Hf Hv Hs; cbn [iterate_sum length] in *;
    try lia; try (rewrite (api_at_nil t it Hat); cbn; by rewrite Z.add_0_r, int_sum_small by lia).
  destruct (api_at_cons t it e l Hat) as (-> & p & it' & -> & Er & En & Hat').
  unfold load, deref. step_ok. rewrite Er. step_ok. pose proof (Hv e ltac:(left)).
  assert (0 ≤ sum_list_with val l) by (apply sum_nonneg; intros; apply Hv; by right).
  cbn [sum_list_with foldr]. fold (sum_list_with val l). unfold int_add.
  destruct (decide (s + val e < 2 ^ 31)) as [Hlt|Hge].
  - rewrite to_int_Ok by lia. step_ok. rewrite En. step_ok. rewrite (IH it' l); [by rewrite Z.add_assoc|done|lia| |lia].
    intros; apply Hv; by right.
  - unfold to_int. rewrite decide_False by lia. by rewrite int_sum_large by lia.
Qed.

Lemma bench_iterate_ok t ks :
  api_rep t (add_keys Eq [] (numbered ks)) →
  bench_iterate val t = int_sum (sum_list_with val (add_keys Eq [] (numbered ks))).
Proof.
  intros Ht. destruct (api_begin_ok _ _ Ht) as (it & l & Eb & Hat & Hp). unfold bench_iterate. rewrite Eb. step_ok.
  rewrite (api_count_ok _ _ Ht), <-Hp, Nat2Z.id, (iterate_sum_ok _ t it l 0); [|done|done| |lia].
  - by rewrite Z.add_0_l.
  - intros e He. rewrite Hp in He. apply elem_of_add_keys in He as (i & k & _ & ->). rewrite Hval. lia.
Qed.

Lemma bench_collision_ok ks :
  fillable ks →
  bench_collision mk val (key_array ks) (Z.of_nat (length ks)) =
  int_sum (sum_list_with (found_value (λ k, mk k 0) (add_keys Eq [] (numbered ks))) ks).
Proof.
  intros Hlim. destruct (api_create_ok 8) as (t & Ec & Ht); [lia|]. unfold bench_collision. rewrite Ec. step_ok.
  destruct (fill_ok ks 8 t ltac:(lia) Ec Ht Hlim) as (t1 & -> & Ht1). step_ok. rewrite (lookup_loop_ok _ t1 ks ks Ht1).
  destruct (int_sum _); [|done..]. repeat step_ok. destruct (api_destroy_ok _ _ Ht1) as (t2 & ->). done.
Qed.

(** Insertions, lookups and deletions in turn. *)
Definition mixed_key l (j : nat) k : list E :=
  if Z.of_nat j mod 10 <? 7 then add_key Eq l (mk k (Z.of_nat j))
  else if Z.of_nat j mod 10 <? 9 then l
  else remove_key Eq (mk k (Z.of_nat j)) l.

Fixpoint mixed_keys l (j : nat) ks : list E :=
  match ks with [] => l | k :: ks => mixed_keys (mixed_key l j k) (S j) ks end.

Lemma mixed_keys_snoc l j ks k : mixed_keys l j (ks ++ [k]) = mixed_key (mixed_keys l j ks) (j + length ks) k.
Proof.
  revert l j. induction ks as [|k' ks IH]; intros l j; cbn [mixed_keys app length]; [by rewrite Nat.add_0_r|].
  rewrite IH. f_equal. lia.
Qed.

Lemma length_mixed_key l j k : (length (mixed_key l j k) ≤ S (length l))%nat.
Proof.
  unfold mixed_key, remove_key. destruct (_ <? 7); [apply length_add_key|]. destruct (_ <? 9); [lia|].
  etransitivity; [apply length_filter|lia].
Qed.

Lemma length_mixed_keys l j ks : (length (mixed_keys l j ks) ≤ length l + length ks)%nat.
Proof.
  revert l j. induction ks as [|k ks IH]; intros l j; cbn [mixed_keys length]; [lia|].
  etransitivity; [apply IH|]. pose proof (length_mixed_key l j k). lia.
Qed.

Lemma mixed_step_ok ks pre k t :
  pre ++ [k] `prefix_of` ks → Z.of_nat (length ks) ≤ api_limit → api_rep t (mixed_keys [] 0 pre) →
  ∃ t', mixed_step mk (key_array ks) (Z.of_nat (length pre)) t = Ok t' ∧ api_rep t' (mixed_keys [] 0 (pre ++ [k])).
Proof.
  intros Hpre Hlim Ht. destruct (prefix_key _ _ _ Hpre) as [Hk Hlt].
  unfold mixed_step. rewrite (key_get _ _ _ Hk). step_ok. rewrite mixed_keys_snoc, Nat.add_0_l.
  unfold mixed_key, add_key. cbv zeta. set (e := mk k (Z.of_nat (length pre))). destruct (_ <? 7); [|destruct (_ <? 9)].
  - assert (api_ready t e) as Hr.
    { eapply api_ready_below; [done|]. pose proof (length_mixed_keys [] 0 pre). cbn in *. lia. }
    destruct (lookup_key Eq e _) as [e0|] eqn:El.
    + destruct (call_insert_old t _ e e0 None Ht Hr El) as (p & t' & t'' & -> & Ht' & _). step_ok. by exists t'.
    + destruct (call_insert_new t _ e None Ht Hr El) as (p & t' & t'' & _ & _ & -> & Es & Ht''). step_ok. by exists t''.
  - destruct (lookup_key Eq e (mixed_keys [] 0 pre)) as [e0|] eqn:El.
    + destruct (call_find t _ e e0 None Ht El) as (p & -> & _). step_ok. by exists t.
    + rewrite (call_find_none t _ e None Ht El). step_ok. by exists t.
  - destruct (lookup_key Eq e (mixed_keys [] 0 pre)) as [e0|] eqn:El.
    + destruct (call_delete t _ e e0 None Ht El) as (t' & -> & Ht'). step_ok. by exists t'.
    + rewrite (call_delete_none t _ e None Ht El). step_ok. exists t. by rewrite remove_key_missing.
Qed.

Lemma bench_mixed_ok ks :
  Z.of_nat (length ks) ≤ api_limit →
  bench_mixed mk (key_array ks) (Z.of_nat (length ks)) = Ok (Z.of_nat (length (mixed_keys [] 0 ks))).
Proof.
  intros Hlim. destruct (api_create_ok 8) as (t & Ec & Ht); [lia|]. unfold bench_mixed. rewrite Ec. step_ok.
  destruct (for_keys (λ pre t, api_rep t (mixed_keys [] 0 pre)) (mixed_step mk (key_array ks)) ks t)
    as (t1 & -> & Ht1); [done|intros; by apply mixed_step_ok|]. step_ok. by apply count_and_destroy_ok.
Qed.

Lemma bench_growth_ok ks prealloc :
  fillable ks → Z.of_nat (length ks) < 2 ^ 31 →
  bench_growth mk (key_array ks) (Z.of_nat (length ks)) prealloc =
  Ok (Z.of_nat (length (add_keys Eq [] (numbered ks)))).
Proof.
  intros Hlim Hlen. assert (u32 (Z.of_nat (length ks)) = Z.of_nat (length ks)) as Eu
    by (unfold u32; apply Z.mod_small; lia).
  destruct (api_create_ok (if prealloc then u32 (Z.of_nat (length ks)) else 8)) as (t & Ec & Ht).
  { rewrite Eu. destruct prealloc; lia. }
  unfold bench_growth. rewrite Ec. step_ok.
  destruct (fill_ok ks (if prealloc then u32 (Z.of_nat (length ks)) else 8) t)
    as (t1 & -> & Ht1); [rewrite Eu; destruct prealloc; lia|done..|]. step_ok.
  by apply count_and_destroy_ok.
Qed.
End clients.

(** * The results in terms of the keys *)

Lemma list_find_snoc {B} (Q : B → Prop) `{∀ x, Decision (Q x)} (l : list B) x :
  list_find Q (l ++ [x]) =
  match list_find Q l with Some y => Some y | None => if decide (Q x) then Some (length l, x) else None end.
Proof.
  induction l as [|y l IH]; cbn; [by case_decide|]. destruct (decide (Q y)); [done|]. rewrite IH.
  destruct (list_find Q l); [done|]. by destruct (decide (Q x)).
Qed.

Section keyed.
Context {K E J : Type} `{Countable J} (mk : K → Z → E) (val : E → Z) (Eq : E → E → bool).
Context (ident : E → J) (kid : K → J) (Hid : ∀ k i, ident (mk k i) = kid k) (Hval : ∀ k i, val (mk k i) = i).
Context (HEq : ∀ a b, Eq a b = bool_decide (ident a = ident b)).
Implicit Types (ks : list K) (k : K).

(** The position of the first key equal to [k]. *)
Definition first_index ks k : Z :=
  match list_find (λ k', kid k' = kid k) ks with Some (i, _) => Z.of_nat i | None => 0 end.

Lemma lookup_numbered_mk ks k :
  lookup_key Eq (mk k 0) (add_keys Eq [] (numbered mk ks)) =
  (λ p, mk p.2 (Z.of_nat p.1)) <$> list_find (λ k', kid k' = kid k) ks.
Proof.
  induction ks as [|k' ks IH] using rev_ind; [done|]. rewrite numbered_snoc, add_keys_snoc, list_find_snoc.
  set (l := add_keys Eq [] (numbered mk ks)) in *. unfold add_key.
  assert (∀ a, lookup_key Eq (mk k' a) l = lookup_key Eq (mk k' 0) l) as Hany.
  { intros a. unfold lookup_key. clear IH. induction l as [|e l IHl]; [done|]. cbn.
    by rewrite !HEq, !Hid, IHl. }
  rewrite Hany. destruct (decide (kid k' = kid k)) as [Ek|Hne].
  - assert (lookup_key Eq (mk k' 0) l = lookup_key Eq (mk k 0) l) as ->.
    { unfold lookup_key. clear IH Hany. induction l as [|e l IHl]; [done|]. cbn. by rewrite !HEq, !Hid, Ek, IHl. }
    destruct (lookup_key Eq (mk k 0) l) as [e|] eqn:El; rewrite ?El.
    + destruct (list_find _ ks) as [[i k0]|]; [|done]. done.
    + destruct (list_find _ ks) as [[i k0]|]; [done|]. rewrite lookup_key_app, El. cbn.
      by rewrite HEq, !Hid, bool_decide_true by done.
  - destruct (lookup_key Eq (mk k' 0) l) as [e|].
    + rewrite IH. by destruct (list_find _ ks) as [[i k0]|].
    + rewrite lookup_key_app, IH. destruct (list_find _ ks) as [[i k0]|]; [done|]. cbn.
      by rewrite HEq, !Hid, bool_decide_false by done.
Qed.

Lemma found_value_first probe ks k :
  (∀ k, ident (probe k) = kid k) →
  found_value val (Eq := Eq) probe (add_keys Eq [] (numbered mk ks)) k = first_index ks k.
Proof.
  intros Hp. unfold found_value, first_index.
  assert (∀ l, lookup_key Eq (probe k) l = lookup_key Eq (mk k 0) l) as ->.
  { intros l. unfold lookup_key. induction l as [|e l IHl]; [done|]. cbn. by rewrite !HEq, !Hid, Hp, IHl. }
  rewrite lookup_numbered_mk. destruct (list_find _ ks) as [[i k0]|]; [|done].
  cbn. apply Hval.
Qed.

(** The keys of the table are the different keys that were inserted. *)
Lemma numbered_keys ks :
  NoDup (ident <$> add_keys Eq [] (numbered mk ks)) ∧
  ∀ x, x ∈ ident <$> add_keys Eq [] (numbered mk ks) ↔ x ∈ kid <$> ks.
Proof.
  induction ks as [|k ks [IH1 IH2]] using rev_ind; [split; [constructor|done]|].
  rewrite numbered_snoc, add_keys_snoc, fmap_app. unfold add_key. set (e := mk k _).
  set (l := add_keys Eq [] (numbered mk ks)) in *.
  destruct (lookup_key Eq e l) as [e0|] eqn:El.
  - split; [done|]. intros x. rewrite elem_of_app, IH2. cbn. rewrite list_elem_of_singleton.
    split; [by left|]. intros [Hx| ->]; [done|]. apply IH2. unfold lookup_key in El. apply find_some in El as [He0 HE].
    rewrite HEq in HE. apply bool_decide_eq_true in HE. unfold e in HE. rewrite Hid in HE. rewrite <-HE.
    by apply list_elem_of_fmap_2, list_elem_of_In.
  - rewrite fmap_app. cbn. unfold e at 1 2. rewrite Hid. split.
    + apply list.NoDup_app. split; [done|]. split; [|apply NoDup_singleton].
      intros x Hx ->%list_elem_of_singleton. apply list_elem_of_fmap in Hx as (e1 & Ek & He1).
      unfold lookup_key in El. apply list_elem_of_In in He1. pose proof (find_none _ _ El e1 He1) as HE. cbn in HE.
      rewrite HEq, bool_decide_eq_false in HE. apply HE. unfold e. by rewrite Hid.
    + intros x. rewrite !elem_of_app, IH2. done.
Qed.

Lemma length_numbered_keys ks :
  Z.of_nat (length (add_keys Eq [] (numbered mk ks))) = Z.of_nat (size (list_to_set (kid <$> ks) : gset J)).
Proof.
  destruct (numbered_keys ks) as [Hnd Hel]. f_equal. rewrite <-(length_fmap ident), <-(size_list_to_set (C := gset J)) by done.
  f_equal. apply set_eq. intros x. by rewrite !elem_of_list_to_set, Hel.
Qed.

(** Different keys. *)
Lemma numbered_distinct ks : NoDup (kid <$> ks) → add_keys Eq [] (numbered mk ks) = numbered mk ks.
Proof.
  induction ks as [|k ks IH] using rev_ind; [done|]. rewrite fmap_app, numbered_snoc, add_keys_snoc.
  intros (Hnd & Hno & _)%list.NoDup_app. rewrite IH by done. unfold add_key. rewrite lookup_key_None; [done|].
  intros e He. rewrite HEq, Hid. apply bool_decide_eq_false. intros Ek. apply (Hno (kid k)); [|left].
  rewrite <-Ek. destruct (numbered_keys ks) as [_ Hel]. apply Hel. rewrite IH by done. by apply list_elem_of_fmap_2.
Qed.

Lemma sum_numbered ks : sum_list_with val (numbered mk ks) = Z.of_nat (length ks) * (Z.of_nat (length ks) - 1) / 2.
Proof.
  enough (2 * sum_list_with val (numbered mk ks) = Z.of_nat (length ks) * (Z.of_nat (length ks) - 1)) by dlia.
  induction ks as [|k ks IH] using rev_ind; [done|]. rewrite numbered_snoc, length_app.
  assert (∀ l l', sum_list_with val (l ++ l') = sum_list_with val l + sum_list_with val l') as ->.
  { intros l l'. unfold sum_list_with. induction l; cbn; lia. }
  cbn [length]. unfold sum_list_with at 2. cbn. rewrite Hval. nia.
Qed.

Lemma sum_first_index ks :
  NoDup (kid <$> ks) → sum_list_with (first_index ks) ks = Z.of_nat (length ks) * (Z.of_nat (length ks) - 1) / 2.
Proof.
  intros Hnd. rewrite <-(sum_numbered ks).
  assert (∀ i k, ks !! i = Some k → first_index ks k = Z.of_nat i) as Hf.
  { intros i k Hi. unfold first_index. destruct (list_find _ ks) as [[j k0]|] eqn:El.
    - apply list_find_Some in El as (Hj & Ek & _). f_equal.
      eapply NoDup_lookup; [exact Hnd|by rewrite list_lookup_fmap, Hj|]. rewrite list_lookup_fmap, Hi. cbn. by rewrite Ek.
    - exfalso. apply list_find_None in El. eapply Forall_lookup_1 in El; [|done]. done. }
  rewrite <-(sum_seq (first_index ks) id ks 0), <-(sum_seq val id (numbered mk ks) 0).
  - unfold numbered. by rewrite length_imap.
  - intros i e Hi. unfold numbered in Hi. rewrite list_lookup_imap in Hi.
    destruct (ks !! i) as [k|]; [|done]. cbn in Hi. injection Hi as <-. by rewrite Hval.
  - intros i k Hi. cbn. by rewrite (Hf i k Hi).
Qed.

Lemma new_keys_snoc l es e : new_keys Eq l es → lookup_key Eq e (l ++ es) = None → new_keys Eq l (es ++ [e]).
Proof.
  revert l. induction es as [|e' es IH]; intros l; cbn [new_keys app]; [by rewrite app_nil_r|].
  intros [Hl Hnew] He. split; [done|]. apply IH; [done|]. by rewrite <-(assoc_L (++)).
Qed.

Lemma numbered_new ks : NoDup (kid <$> ks) → new_keys Eq [] (numbered mk ks).
Proof.
  induction ks as [|k ks IH] using rev_ind; [done|]. rewrite fmap_app, numbered_snoc.
  intros (Hnd & Hno & _)%list.NoDup_app. apply new_keys_snoc; [by apply IH|]. cbn [app].
  apply lookup_key_None. intros e He. rewrite HEq, Hid. apply bool_decide_eq_false. intros Ek.
  apply (Hno (kid k)); [|left]. rewrite <-Ek. destruct (numbered_keys ks) as [_ Hel]. apply Hel.
  rewrite numbered_distinct by done. by apply list_elem_of_fmap_2.
Qed.

(** ** The functions *)

Context {T P It : Type} {A : Api E T P It} `{!ApiLaws Eq A}.

Lemma keys_insert ks :
  fillable mk (Eq := Eq) ks →
  bench_insert mk (key_array ks) (Z.of_nat (length ks)) = Ok (Z.of_nat (size (list_to_set (kid <$> ks) : gset J))).
Proof. intros Hlim. by rewrite (bench_insert_ok mk (Eq := Eq)), length_numbered_keys. Qed.

Lemma keys_growth ks prealloc :
  fillable mk (Eq := Eq) ks → Z.of_nat (length ks) < 2 ^ 31 →
  bench_growth mk (key_array ks) (Z.of_nat (length ks)) prealloc =
  Ok (Z.of_nat (size (list_to_set (kid <$> ks) : gset J))).
Proof. intros Hlim Hlen. by rewrite (bench_growth_ok mk (Eq := Eq)), length_numbered_keys. Qed.

Lemma keys_delete ks :
  fillable mk (Eq := Eq) ks → bench_delete mk (key_array ks) (Z.of_nat (length ks)) = Ok 0.
Proof.
  intros Hlim. apply (bench_delete_ok mk (Eq := Eq)); [|done]. intros k i j.
  by rewrite HEq, !Hid, bool_decide_true.
Qed.

(** The sum of the positions at which the keys [js] are first among [ks]. *)
Definition lookup_sum ks js : res Z := int_sum (sum_list_with (first_index ks) js).

(** The sum of the values of the elements that were inserted. *)
Definition iterate_total ks : res Z := int_sum (sum_list_with val (add_keys Eq [] (numbered mk ks))).

Lemma found_sum probe ks js :
  (∀ k, ident (probe k) = kid k) →
  sum_list_with (found_value val (Eq := Eq) probe (add_keys Eq [] (numbered mk ks))) js =
  sum_list_with (first_index ks) js.
Proof.
  intros Hp. unfold sum_list_with. induction js as [|k js IH]; [done|]. cbn. rewrite IH. f_equal.
  by apply found_value_first.
Qed.

Lemma keys_collision ks :
  fillable mk (Eq := Eq) ks →
  bench_collision mk val (key_array ks) (Z.of_nat (length ks)) = lookup_sum ks ks.
Proof. intros Hlim. by rewrite (bench_collision_ok mk val Hval (Eq := Eq)), found_sum. Qed.

Lemma keys_build probe ks :
  (∀ k, ident (probe k) = kid k) → fillable mk (Eq := Eq) ks →
  ∃ t, bench_build mk (key_array ks) (Z.of_nat (length ks)) = Ok t ∧
    (∀ js, bench_lookup val probe t (key_array js) (Z.of_nat (length js)) = (s ← lookup_sum ks js; Ok (t, s))) ∧
    bench_iterate val t = iterate_total ks ∧
    ∃ t', bench_free t = Ok t'.
Proof.
  intros Hp Hlim. destruct (bench_build_ok mk (A := A) (Eq := Eq) ks Hlim) as (t & Eb & Ht).
  exists t. split; [done|]. split_and!.
  - intros js. unfold bench_lookup, lookup_sum.
    by rewrite (lookup_loop_ok mk val Hval (Eq := Eq) probe t ks js Ht), found_sum.
  - by apply (bench_iterate_ok mk val Hval (Eq := Eq)).
  - apply (api_destroy_ok _ _ Ht).
Qed.

(** Sums over more than 2^16 different keys do not fit into an [int]. *)
Lemma sums_overflow ks :
  NoDup (kid <$> ks) → 2 ^ 16 < Z.of_nat (length ks) →
  lookup_sum ks ks = UB SignedOverflow ∧ iterate_total ks = UB SignedOverflow.
Proof.
  intros Hnd Hlen. unfold lookup_sum, iterate_total. rewrite sum_first_index, numbered_distinct, sum_numbered by done.
  rewrite int_sum_large; [done|]. apply Z.div_le_lower_bound; nia.
Qed.

(** Fewer than that do. *)
Lemma sums_fit ks :
  NoDup (kid <$> ks) → Z.of_nat (length ks) ≤ 2 ^ 16 →
  let total := Ok (Z.of_nat (length ks) * (Z.of_nat (length ks) - 1) / 2) in
  lookup_sum ks ks = total ∧ iterate_total ks = total.
Proof.
  intros Hnd Hlen. cbv zeta. unfold lookup_sum, iterate_total. rewrite sum_first_index, numbered_distinct, sum_numbered by done.
  rewrite int_sum_small; [done|]. apply Z.div_lt_upper_bound; nia.
Qed.
End keyed.
