(* ===== verification/BenchProps.v ===== *)
(** The benchmark functions for integer keys, string keys and large values:
    the elements with their hashes meet the laws of a key, [strlen] and
    [strcmp] work on the texts of the strings, and what the functions return
    over both tables. *)

From stdpp Require Import gmap.
From S2P Require Import Prelude Bits Groups IxGroups Probe Spec Store Core CoreV0 Api ApiTables.
From S2P Require Import Vmum VmumSpec VmumHash VmumProps Bench BenchSpec.
From S2P Require Import Ihtab IhtabCorrect.
From S2P Require Ixhtab IxhtabCorrect.
From S2P Require Import IxhtabSpread EntrySpread.

(** * Integer keys *)

Lemma ci_int_e_key a b : ci_int_e a b = bool_decide (ci_int_key a = ci_int_key b).
Proof.
  unfold ci_int_e. destruct (Z.eqb_spec (ci_int_key a) (ci_int_key b));
    [by rewrite bool_decide_true|by rewrite bool_decide_false].
Qed.

Lemma ci_lv_e_key a b : ci_lv_e a b = bool_decide (ci_lv_key a = ci_lv_key b).
Proof. apply (ci_int_e_key (mk_ci_int (ci_lv_key a) 0) (mk_ci_int (ci_lv_key b) 0)). Qed.

(** An equality by keys, with a hash of the key, meets the laws. *)
Lemma key_laws {E J} `{EqDecision J} (ident : E → J) Hash Eq :
  (∀ a b, Eq a b = bool_decide (ident a = ident b)) → (∀ e, 0 ≤ Hash e < 2 ^ 64) →
  (∀ a b, ident a = ident b → Hash a = Hash b) → KeyLaws Hash Eq.
Proof. intros HEq Hr Hh. split; intros *; rewrite ?HEq, ?bool_decide_eq_true; auto; congruence. Qed.

Lemma vmum_hash64_range {c : VmumConfig} env k : SIZE_BITS = 64 → 0 ≤ vmum_hash64 env k 0 < 2 ^ 64.
Proof. intros Hs. unfold vmum_hash64. rewrite Hs. apply Z.mod_pos_bound. lia. Qed.

Lemma ci_int_laws {c : VmumConfig} env : SIZE_BITS = 64 → KeyLaws (ci_int_h env) ci_int_e.
Proof.
  intros Hs. apply (key_laws ci_int_key); [apply ci_int_e_key|intros; by apply vmum_hash64_range|].
  unfold ci_int_h. congruence.
Qed.

Lemma ci_lv_laws {c : VmumConfig} env : SIZE_BITS = 64 → KeyLaws (ci_lv_h env) ci_lv_e.
Proof.
  intros Hs. apply (key_laws ci_lv_key); [apply ci_lv_e_key|intros; by apply vmum_hash64_range|].
  unfold ci_lv_h. congruence.
Qed.

(** [snprintf] writes "item_42" and a 0. *)
Example make_ci_lv_name :
  take 9 (lv_name (ci_lv_value (make_ci_lv 7 42))) =
  [Some 105; Some 116; Some 101; Some 109; Some 95; Some 52; Some 50; Some 0; None].
Proof. by vm_compute. Qed.

(** What the functions for integer keys return for the keys [ks]. *)
Record int_results {T P It} (A : Api ci_int T P It) (ks : list Z) : Prop := {
  ir_insert : int_insert (key_array ks) (Z.of_nat (length ks)) = Ok (Z.of_nat (size (list_to_set ks : gset Z)));
  ir_delete : int_delete (key_array ks) (Z.of_nat (length ks)) = Ok 0;
  ir_build : ∃ t, int_build (key_array ks) (Z.of_nat (length ks)) = Ok t ∧
    (∀ js, int_lookup t (key_array js) (Z.of_nat (length js)) = (s ← lookup_sum id ks js; Ok (t, s))) ∧
    int_iterate t = iterate_total mk_ci_int ci_int_value ci_int_e ks ∧
    ∃ t', int_free t = Ok t'
}.

(** What the functions for large values return. *)
Record lv_results {T P It} (A : Api ci_lv T P It) (ks : list Z) : Prop := {
  lr_insert : lv_insert (key_array ks) (Z.of_nat (length ks)) = Ok (Z.of_nat (size (list_to_set ks : gset Z)));
  lr_build : ∃ t, lv_build (key_array ks) (Z.of_nat (length ks)) = Ok t ∧
    (∀ js, lv_lookup t (key_array js) (Z.of_nat (length js)) = (s ← lookup_sum id ks js; Ok (t, s))) ∧
    ∃ t', lv_free t = Ok t'
}.

Lemma int_results_ok {T P It} (A : Api ci_int T P It) `{!ApiLaws ci_int_e A} ks :
  fillable mk_ci_int (Eq := ci_int_e) ks → int_results A ks.
Proof.
  intros Hlim. split.
  - unfold int_insert. rewrite (keys_insert mk_ci_int ci_int_e ci_int_key id (λ _ _, eq_refl) ci_int_e_key (A := A)) by done.
    by rewrite list_fmap_id.
  - by apply (keys_delete mk_ci_int ci_int_e ci_int_key id (λ _ _, eq_refl) ci_int_e_key (A := A)).
  - by apply (keys_build mk_ci_int ci_int_value ci_int_e ci_int_key id (λ _ _, eq_refl) (λ _ _, eq_refl) ci_int_e_key (A := A)).
Qed.

Lemma lv_results_ok {T P It} (A : Api ci_lv T P It) `{!ApiLaws ci_lv_e A} ks :
  fillable make_ci_lv (Eq := ci_lv_e) ks → lv_results A ks.
Proof.
  intros Hlim. split.
  - unfold lv_insert. rewrite (keys_insert make_ci_lv ci_lv_e ci_lv_key id (λ _ _, eq_refl) ci_lv_e_key (A := A)) by done.
    by rewrite list_fmap_id.
  - destruct (keys_build make_ci_lv (λ e, lv_number (ci_lv_value e)) ci_lv_e ci_lv_key id (λ _ _, eq_refl) (λ _ _, eq_refl)
      ci_lv_e_key (A := A) lv_probe ks) as (t & Eb & Hl & _ & Hf); [done..|]. by exists t.
Qed.

(** * String keys *)

(** The characters before the first 0. *)
Fixpoint text_of (bs : list Byte.byte) : list Z :=
  match bs with
  | [] => []
  | b :: bs => if byte_val b =? 0 then [] else byte_val b :: text_of bs
  end.
Definition cs_text (s : c_string) : list Z := text_of (cs_bytes s).
Definition ci_str_text (e : ci_str) : list Z := cs_text (ci_str_key e).

Lemma byte_val_byte b : byte (byte_val b).
Proof. unfold byte_val. pose proof (Byte.to_N_bounded b). split; lia. Qed.

Lemma cs_text_cells s :
  ∃ rest, cs_cells s = (Some <$> cs_text s) ++ Some 0 :: rest ∧
    Forall (λ x, byte x ∧ x ≠ 0) (cs_text s).
Proof.
  unfold cs_cells, cs_text. induction (cs_bytes s) as [|b bs (rest & IH & Hb)]; [by exists []|].
  cbn. destruct (Z.eqb_spec (byte_val b) 0) as [E|E].
  - rewrite E. by eexists.
  - exists rest. cbn. split; [by rewrite IH|]. constructor; [|done]. split; [apply byte_val_byte|done].
Qed.

Lemma get_middle (pre : list Z) x rest : arr_get (Live ((Some <$> pre) ++ Some x :: rest)) (Z.of_nat (length pre)) = Ok x.
Proof. apply live_get. rewrite lookup_app_r by (by rewrite length_fmap). by rewrite length_fmap, Nat.sub_diag. Qed.

Lemma snoc_cells {B} (pre : list Z) x (rest : list B) (f : Z → B) : (f <$> pre) ++ f x :: rest = (f <$> (pre ++ [x])) ++ rest.
Proof. by rewrite fmap_app, <-(assoc_L (++)). Qed.

Lemma strlen_from_Ok fuel pre t rest :
  Forall (λ x, byte x ∧ x ≠ 0) t → (length t < fuel)%nat →
  strlen_from fuel (Live ((Some <$> pre) ++ (Some <$> t) ++ Some 0 :: rest)) (Z.of_nat (length pre)) =
  Ok (Z.of_nat (length pre) + Z.of_nat (length t)).
Proof.
  revert pre t. induction fuel as [|fuel IH]; intros pre t Ht Hf; [lia|]. cbn [strlen_from].
  destruct t as [|x t]; cbn [fmap list_fmap app length] in *.
  - rewrite (get_middle pre 0). step_ok. rewrite Z.eqb_refl. f_equal. lia.
  - apply list.Forall_cons in Ht as [[_ Hx] Ht]. rewrite (get_middle pre x). step_ok. rewrite (proj2 (Z.eqb_neq _ _) Hx).
    rewrite (snoc_cells pre x). replace (Z.of_nat (length pre) + 1) with (Z.of_nat (length (pre ++ [x])))
      by (rewrite length_app; cbn; lia).
    rewrite IH by (done || lia). rewrite length_app. cbn. f_equal. lia.
Qed.

Lemma strlen_Ok s : strlen s = Ok (Z.of_nat (length (cs_text s))).
Proof.
  destruct (cs_text_cells s) as (rest & Ec & Ht). unfold strlen. rewrite Ec.
  apply (strlen_from_Ok _ [] _ rest Ht). rewrite length_app, length_fmap. cbn. lia.
Qed.

Lemma strcmp_from_Ok fuel pre t u rest rest' :
  Forall (λ x, byte x ∧ x ≠ 0) t → Forall (λ x, byte x ∧ x ≠ 0) u → (length t < fuel)%nat →
  strcmp_from fuel (Live ((Some <$> pre) ++ (Some <$> t) ++ Some 0 :: rest))
    (Live ((Some <$> pre) ++ (Some <$> u) ++ Some 0 :: rest')) (Z.of_nat (length pre)) = Ok (bool_decide (t = u)).
Proof.
  revert pre t u. induction fuel as [|fuel IH]; intros pre t u Ht Hu Hf; [lia|]. cbn [strcmp_from].
  destruct t as [|x t], u as [|y u]; cbn [fmap list_fmap app length] in *;
    rewrite !get_middle; repeat step_ok; rewrite ?list.Forall_cons in *.
  - done.
  - destruct Hu as [[_ Hy] _]. by rewrite (proj2 (Z.eqb_neq 0 y)) by done.
  - destruct Ht as [[_ Hx] _]. by rewrite (proj2 (Z.eqb_neq x 0)) by done.
  - destruct Ht as [[_ Hx] Ht], Hu as [[_ Hy] Hu]. destruct (Z.eqb_spec x y) as [<-|Hne]; cbn [negb].
    + rewrite (proj2 (Z.eqb_neq _ _) Hx). rewrite !(snoc_cells pre x).
      replace (Z.of_nat (length pre) + 1) with (Z.of_nat (length (pre ++ [x]))) by (rewrite length_app; cbn; lia).
      rewrite IH by (done || lia). f_equal. apply bool_decide_ext. naive_solver.
    + rewrite bool_decide_false; [done|]. congruence.
Qed.

Lemma ci_str_e_Ok a b : ci_str_e a b = Ok (bool_decide (ci_str_text a = ci_str_text b)).
Proof.
  unfold ci_str_e, strcmp_eq, ci_str_text. destruct (cs_text_cells (ci_str_key a)) as (r1 & E1 & H1).
  destruct (cs_text_cells (ci_str_key b)) as (r2 & E2 & H2). rewrite E1, E2.
  apply (strcmp_from_Ok _ []); [done..|]. rewrite length_app, length_fmap. cbn. lia.
Qed.

(** The hash of a text. *)
Definition text_hash {c : VmumConfig} (env : vmum_env) (t : list Z) : Z :=
  _vmum_final (hash_spec env (u64 (0 + Z.of_nat (length t))) t).

Lemma ci_str_h_Ok {c : VmumConfig} env e :
  reads_le → VMUM_UNALIGNED_ACCESS = true → env_ok env → ci_str_h env e = Ok (text_hash env (ci_str_text e)).
Proof.
  intros Hle Hu Henv. unfold ci_str_h. rewrite strlen_Ok. step_ok. fold (ci_str_text e).
  destruct (cs_text_cells (ci_str_key e)) as (rest & E & Ht). unfold vmum_hash. rewrite Hu, hash_aligned_Ok; [done..|].
  split; [|eapply list.Forall_impl; [exact Ht|]; by intros x [? _]].
  apply cells_at_lookup; [done|]. intros k Hk. rewrite E. unfold cellv, zlookup. rewrite !decide_True by lia.
  rewrite Z.sub_0_r. fold (ci_str_text e). rewrite lookup_app_l by (rewrite length_fmap; lia).
  rewrite list_lookup_fmap. by destruct (ci_str_text e !! Z.to_nat k).
Qed.

(** The hash and the equality as the tables call them. *)
Definition ok_or {B} (d : B) (r : res B) : B := match r with Ok x => x | _ => d end.
Definition str_hash {c : VmumConfig} (env : vmum_env) (e : ci_str) : Z := ok_or 0 (ci_str_h env e).
Definition str_eq (a b : ci_str) : bool := ok_or false (ci_str_e a b).

Lemma str_eq_text a b : str_eq a b = bool_decide (ci_str_text a = ci_str_text b).
Proof. unfold str_eq. by rewrite ci_str_e_Ok. Qed.

Lemma ci_str_laws {c : VmumConfig} env :
  reads_le → VMUM_UNALIGNED_ACCESS = true → env_ok env → KeyLaws (str_hash env) str_eq.
Proof.
  intros Hle Hu Henv. apply (key_laws ci_str_text); [apply str_eq_text|..].
  - intros e. unfold str_hash. rewrite ci_str_h_Ok by done. apply vmum_range.
  - intros a b E. unfold str_hash. rewrite !ci_str_h_Ok by done. cbn. by rewrite E.
Qed.

(** What the functions for string keys return for the keys [ks]. *)
Record str_results {T P It} (A : Api ci_str T P It) (ks : list c_string) : Prop := {
  sr_insert : str_insert (key_array ks) (Z.of_nat (length ks)) =
    Ok (Z.of_nat (size (list_to_set (cs_text <$> ks) : gset (list Z))));
  sr_delete : str_delete (key_array ks) (Z.of_nat (length ks)) = Ok 0;
  sr_build : ∃ t, str_build (key_array ks) (Z.of_nat (length ks)) = Ok t ∧
    (∀ js, str_lookup t (key_array js) (Z.of_nat (length js)) = (s ← lookup_sum cs_text ks js; Ok (t, s))) ∧
    str_iterate t = iterate_total mk_ci_str ci_str_value str_eq ks ∧
    ∃ t', str_free t = Ok t';
  sr_collision : str_collision (key_array ks) (Z.of_nat (length ks)) = lookup_sum cs_text ks ks;
  sr_growth prealloc : str_growth (key_array ks) (Z.of_nat (length ks)) prealloc =
    Ok (Z.of_nat (size (list_to_set (cs_text <$> ks) : gset (list Z))))
}.

(** Insertions, lookups and deletions in turn leave the elements that the
    specification leaves. *)
Definition str_mixed_result {T P It} (A : Api ci_str T P It) (ks : list c_string) : Prop :=
  str_mixed (key_array ks) (Z.of_nat (length ks)) =
  Ok (Z.of_nat (length (mixed_keys mk_ci_str (Eq := str_eq) [] 0 ks))).

Lemma str_results_ok {T P It} (A : Api ci_str T P It) `{!ApiLaws str_eq A} ks :
  fillable mk_ci_str (Eq := str_eq) ks → Z.of_nat (length ks) < 2 ^ 31 → str_results A ks.
Proof.
  intros Hlim Hlen. assert (∀ k i, ci_str_text (mk_ci_str k i) = cs_text k) as Hid by done. split.
  - by apply (keys_insert mk_ci_str str_eq ci_str_text cs_text Hid str_eq_text (A := A)).
  - by apply (keys_delete mk_ci_str str_eq ci_str_text cs_text Hid str_eq_text (A := A)).
  - by apply (keys_build mk_ci_str ci_str_value str_eq ci_str_text cs_text Hid (λ _ _, eq_refl) str_eq_text (A := A)).
  - by apply (keys_collision mk_ci_str ci_str_value str_eq ci_str_text cs_text Hid (λ _ _, eq_refl) str_eq_text (A := A)).
  - intros prealloc. by apply (keys_growth mk_ci_str str_eq ci_str_text cs_text Hid str_eq_text (A := A)).
Qed.

(** * The sums for different keys *)

(** The sums of the positions of the keys, or their overflow. *)
Definition int_sums {T P It} (A : Api ci_int T P It) (ks : list Z) : Prop :=
  let n := Z.of_nat (length ks) in
  ∃ t, int_build (key_array ks) n = Ok t ∧
    if decide (n ≤ 2 ^ 16)
    then int_lookup t (key_array ks) n = Ok (t, n * (n - 1) / 2) ∧ int_iterate t = Ok (n * (n - 1) / 2)
    else int_lookup t (key_array ks) n = UB SignedOverflow ∧ int_iterate t = UB SignedOverflow.

Lemma int_sums_ok {T P It} (A : Api ci_int T P It) ks : int_results A ks → NoDup ks → int_sums A ks.
Proof.
  intros [_ _ (t & Eb & Hl & Hi & _)] Hnd. exists t. split; [done|]. rewrite Hl, Hi.
  assert (NoDup (id <$> ks)) as Hnd' by (by rewrite list_fmap_id). case_decide.
  - destruct (sums_fit mk_ci_int ci_int_value ci_int_e ci_int_key id (λ _ _, eq_refl) (λ _ _, eq_refl)
      ci_int_e_key ks Hnd') as [-> ->]; [done|]. by step_ok.
  - destruct (sums_overflow mk_ci_int ci_int_value ci_int_e ci_int_key id (λ _ _, eq_refl) (λ _ _, eq_refl)
      ci_int_e_key ks Hnd') as [-> ->]; [lia|done].
Qed.

Lemma str_overflow {T P It} (A : Api ci_str T P It) ks :
  str_results A ks → NoDup (cs_text <$> ks) → 2 ^ 16 < Z.of_nat (length ks) →
  str_collision (key_array ks) (Z.of_nat (length ks)) = UB SignedOverflow.
Proof.
  intros Hr Hnd Hn. etransitivity; [exact (sr_collision _ _ Hr)|].
  by destruct (sums_overflow mk_ci_str ci_str_value str_eq ci_str_text cs_text (λ _ _, eq_refl) (λ _ _, eq_refl)
    str_eq_text ks Hnd) as [-> _].
Qed.

(** * Keys that ixhtab can take *)

(** At most 2^14 keys, or at most 2^27 different ones with spread hashes. *)
Definition few_or_spread {K J} (H : K → Z) (kid : K → J) (ks : list K) : Prop :=
  Z.of_nat (length ks) ≤ 2 ^ 14 ∨
  Z.of_nat (length ks) ≤ 2 ^ 27 ∧ NoDup (kid <$> ks) ∧ spread H [] ks.

Lemma few_or_spread_len {K J} (H : K → Z) (kid : K → J) ks :
  few_or_spread H kid ks → Z.of_nat (length ks) < 2 ^ 31.
Proof. unfold few_or_spread. lia. Qed.

Section ixht_keys.
Context {K : SlotStore} {V : SlotView K} `{!SlotLaws Ixhtab.ixht_config K V}.
Context {Ky E J : Type} `{Countable J} (mk : Ky → Z → E) (Hash : E → Z) (Eq : E → E → bool) `{!KeyLaws Hash Eq}.
Context (ident : E → J) (kid : Ky → J) (Hid : ∀ k i, ident (mk k i) = kid k).
Context (HEq : ∀ a b, Eq a b = bool_decide (ident a = ident b)).

Lemma numbered_same (h : Ky → Z) ks :
  (∀ k i, Hash (mk k i) = h k) → Forall2 (λ e k, Hash e = h k) (numbered mk ks) ks.
Proof.
  intros Hh. induction ks as [|k ks IH] using rev_ind; [constructor|]. rewrite numbered_snoc.
  apply Forall2_app; [done|]. repeat constructor. apply Hh.
Qed.

Lemma ixht_fillable (h : Ky → Z) ks :
  (∀ k i, Hash (mk k i) = h k) → few_or_spread h kid ks →
  fillable mk (Eq := Eq) (A := ixht_api (K := K) Hash Eq) ks.
Proof.
  intros Hh [Hlen|(Hlen & Hnd & Hs)]; [by left|right].
  assert (new_keys Eq [] (numbered mk ks)) as Hnew by (by apply (numbered_new mk Eq ident kid Hid HEq)).
  split; [done|]. intros n t Hn Ec.
  destruct (ixht_create_tight Hash Eq n Hn) as (t0 & m0 & bc & dc & ls & Ec0 & Ht).
  assert (t0 = t) as -> by (cbn [api_create ixht_api] in Ec; rewrite Ec in Ec0; by injection Ec0).
  eapply (ready_for_tight Hash Eq m0); [exact Ht| |done|].
  - eapply same_spread; [constructor|by apply (numbered_same h)|done].
  - unfold numbered. rewrite length_imap. cbn. lia.
Qed.
End ixht_keys.

(** * The tables *)

Section tables.
Context {c : VmumConfig} (env : vmum_env).
Context {K1 : SlotStore} {V1 : SlotView K1} `{!SlotLaws iht_config K1 V1}.
Context {K2 : SlotStore} {V2 : SlotView K2} `{!SlotLaws Ixhtab.ixht_config K2 V2}.

(** C15: The benchmark functions for integer keys and for large values, hashed
    by [vmum_hash64] with a 64-bit [size_t], over ihtab with fewer than 2^31
    keys and over ixhtab with at most 2^14 keys, or at most 2^27 different ones
    with spread hashes: they insert each key once, at its first position,
    delete everything again, and look up and iterate to the sums of the first
    positions, if those fit into an [int].  With different integer keys the
    sums are [n * (n - 1) / 2] up to 2^16 keys, and with more their
    computation overflows. *)
Theorem bench_integers ks :
  SIZE_BITS = 64 →
  let n := Z.of_nat (length ks) in
  let iht_int := iht_api (K := K1) (ci_int_h env) ci_int_e in
  let ixht_int := ixht_api (K := K2) (ci_int_h env) ci_int_e in
  let ixht_keys := few_or_spread (λ k, vmum_hash64 env k 0) id ks in
  (n < 2 ^ 31 → int_results iht_int ks ∧ lv_results (iht_api (K := K1) (ci_lv_h env) ci_lv_e) ks) ∧
  (ixht_keys → int_results ixht_int ks ∧ lv_results (ixht_api (K := K2) (ci_lv_h env) ci_lv_e) ks) ∧
  (NoDup ks → (n < 2 ^ 31 → int_sums iht_int ks) ∧ (ixht_keys → int_sums ixht_int ks)).
Proof.
  intros Hs n iht_int ixht_int ixht_keys. pose proof (ci_int_laws env Hs). pose proof (ci_lv_laws env Hs).
  assert (n < 2 ^ 31 → int_results iht_int ks) as Hint
    by (intros Hn; refine (int_results_ok (iht_api _ _) ks _); left; cbn; lia).
  assert (ixht_keys → int_results ixht_int ks) as Hxint.
  { intros Hk. refine (int_results_ok (ixht_api _ _) ks _).
    by apply (ixht_fillable mk_ci_int _ _ ci_int_key id (λ _ _, eq_refl) ci_int_e_key (λ k, vmum_hash64 env k 0)). }
  split_and!.
  - intros Hn. split; [by apply Hint|]. refine (lv_results_ok (iht_api _ _) ks _). left. cbn. lia.
  - intros Hk. split; [by apply Hxint|]. refine (lv_results_ok (ixht_api _ _) ks _).
    by apply (ixht_fillable make_ci_lv _ _ ci_lv_key id (λ _ _, eq_refl) ci_lv_e_key (λ k, vmum_hash64 env k 0)).
  - intros Hnd. split; intros Hk; apply int_sums_ok; auto.
Qed.

(** C16: The benchmark functions for string keys, on targets with unaligned
    access and for words read in little-endian order: [strlen], [vmum_hash]
    and [strcmp] stay within the strings, hash and compare the text before the
    first 0, wherever the string is.  Over ihtab with fewer than 2^31 keys and
    over ixhtab with at most 2^14, or at most 2^27 different texts with spread
    hashes, the functions return the number of different texts, 0 after all
    are deleted, and the sums of first positions if they fit into an [int];
    with more than 2^16 different texts the sum of [collision] overflows.
    [mixed] returns the count after insertions, lookups and deletions in turn,
    over ixhtab for at most 2^14 keys. *)
Theorem bench_strings ks :
  reads_le → VMUM_UNALIGNED_ACCESS = true → env_ok env →
  let n := Z.of_nat (length ks) in
  let iht_str := iht_api (K := K1) (str_hash env) str_eq in
  let ixht_str := ixht_api (K := K2) (str_hash env) str_eq in
  let ixht_keys := few_or_spread (λ s, text_hash env (cs_text s)) cs_text ks in
  (∀ e, ci_str_h env e = Ok (str_hash env e)) ∧ (∀ a b, ci_str_e a b = Ok (str_eq a b)) ∧
  (n < 2 ^ 31 → str_results iht_str ks ∧ str_mixed_result iht_str ks) ∧
  (ixht_keys → str_results ixht_str ks) ∧ (n ≤ 2 ^ 14 → str_mixed_result ixht_str ks) ∧
  (2 ^ 16 < n → NoDup (cs_text <$> ks) →
     (n < 2 ^ 31 → str_collision (A := iht_str) (key_array ks) n = UB SignedOverflow) ∧
     (ixht_keys → str_collision (A := ixht_str) (key_array ks) n = UB SignedOverflow)).
Proof.
  intros Hle Hu Henv n iht_str ixht_str ixht_keys. pose proof (ci_str_laws env Hle Hu Henv).
  assert (n < 2 ^ 31 → str_results iht_str ks) as Hiht
    by (intros Hn; refine (str_results_ok (iht_api _ _) ks _ _); [left; cbn; lia|done]).
  assert (ixht_keys → str_results ixht_str ks) as Hixht.
  { intros Hk. refine (str_results_ok (ixht_api _ _) ks _ _); [|by eapply few_or_spread_len].
    apply (ixht_fillable mk_ci_str _ _ ci_str_text cs_text (λ _ _, eq_refl) str_eq_text
      (λ s, text_hash env (cs_text s))); [|done].
    intros k i. unfold str_hash. by rewrite ci_str_h_Ok. }
  split_and!.
  - intros e. unfold str_hash. by rewrite ci_str_h_Ok.
  - intros a b. unfold str_eq. by rewrite ci_str_e_Ok.
  - intros Hn. split; [by apply Hiht|]. refine (bench_mixed_ok mk_ci_str (A := iht_api _ _) ks _). cbn. lia.
  - done.
  - intros Hn. refine (bench_mixed_ok mk_ci_str (A := ixht_api _ _) ks _). cbn. lia.
  - intros Hn Hnd. split; intros Hk; apply str_overflow; auto.
Qed.
End tables.

Import IxhtabCorrect.

(** ** Keys for which a bin of ixhtab is split *)

(** Factors of one make the hash of a small key a square. *)
Definition unit_env : vmum_env := mk_env 1 1 1 1 1 1 [] [].

Lemma vmum_unit_step v : 0 ≤ v < 2 ^ 64 → _vmum (c := x86_64) v 1 = v.
Proof.
  intros Hv. change (_vmum_int128 v 1 = v). unfold _vmum_int128. cbv zeta. rewrite Z.mul_1_r, Z.shiftr_div_pow2 by lia.
  unfold u64. rewrite (Z.div_small v), Z.mod_0_l, !(Z.mod_small v) by lia. done.
Qed.

Lemma unit_hash k : 0 ≤ k < 2 ^ 31 → vmum_hash64 (c := x86_64) unit_env k 0 = Z.lxor 8 k * Z.lxor 8 k.
Proof.
  intros Hk. assert (0 ≤ Z.lxor 8 k < 2 ^ 31) as Hx.
  { split; [apply Z.lxor_nonneg; lia|]. destruct (decide (0 < Z.lxor 8 k)) as [Hp|]; [|lia].
    apply Z.log2_lt_pow2; [done|]. eapply Z.le_lt_trans; [apply Z.log2_lxor; lia|].
    apply Z.max_lub_lt; [done|]. destruct (decide (k = 0)) as [->|]; [done|]. apply Z.log2_lt_pow2; lia. }
  unfold vmum_hash64, vmum_hash_step, vmum_hash_init. cbn [unit_env _vmum_hash_step_factor _vmum_key_step_factor].
  change (u64 (0 + 8)) with 8. rewrite !vmum_unit_step by lia. generalize dependent (Z.lxor 8 k). intros x Hx.
  change (_vmum_int128 x x mod 2 ^ 64 = x * x). unfold _vmum_int128. cbv zeta. rewrite Z.shiftr_div_pow2 by lia.
  unfold u64. rewrite (Z.div_small (x * x)) by nia. rewrite Z.mod_0_l, Z.add_0_l, !Z.mod_mod by lia.
  apply Z.mod_small. nia.
Qed.

Lemma unit_hash_odd k :
  16 ≤ k < 2 ^ 31 → Ixhtab.xhash (λ k, vmum_hash64 (c := x86_64) unit_env k 0) k mod 2 = k mod 2.
Proof.
  intros Hk. unfold Ixhtab.xhash. rewrite unit_hash by lia. destruct (Z.eqb_spec (Z.lxor 8 k * Z.lxor 8 k) 0) as [E|_].
  - assert (Z.lxor 8 k = 0) as E' by nia. apply Z.lxor_eq in E'. lia.
  - rewrite !Zmod_odd, Z.odd_mul, <-!Z.bit0_odd, Z.lxor_spec. cbn. by destruct (Z.odd k).
Qed.

Lemma length_filter_fmap {A B} (Q : B → Prop) `{∀ x, Decision (Q x)} (f : A → B) (l : list A) :
  length (filter Q (f <$> l)) = length (filter (λ x, Q (f x)) l).
Proof. induction l as [|x l IH]; [done|]. rewrite fmap_cons, !filter_cons. case_decide; cbn [length]; by rewrite IH. Qed.

Lemma unit_class_size h n :
  0 ≤ n ≤ 2 ^ 30 →
  class_size (λ k, vmum_hash64 (c := x86_64) unit_env k 0) 1 h (seqZ 16 n) = residues 2 (h mod 2) n.
Proof.
  intros Hn. unfold class_size, hash_class, residues. change 16 with (16 + 0). rewrite <-fmap_add_seqZ.
  rewrite length_filter_fmap. do 2 f_equal. apply filter_ext_in. intros i Hi%elem_of_seqZ. cbn.
  rewrite Z.pow_1_r, unit_hash_odd by lia. replace (16 + i) with (i + 8 * 2) by lia. by rewrite Z.mod_add.
Qed.

Lemma unit_spread n : 0 ≤ n ≤ 32000 → spread (λ k, vmum_hash64 (c := x86_64) unit_env k 0) [] (seqZ 16 n).
Proof.
  intros Hn. apply spread_halves; [rewrite length_seqZ; lia|]. intros h. rewrite unit_class_size by lia.
  pose proof (residues_range 2 (h mod 2) n ltac:(lia) ltac:(apply Z.mod_pos_bound; lia) ltac:(lia)) as [_ Hub]. dlia.
Qed.

(** ** Instances *)

(** The largest size of the benchmarks over ihtab, and more keys than one bin
    can hold over ixhtab. *)
Lemma bench_integers_witness :
  let api := iht_api (K := packed (C := iht_config) SSE2.ops) (ci_int_h (c := x86_64) vmum_default_env) ci_int_e in
  let xapi := ixht_api (K := packed (C := Ixhtab.ixht_config) IxSWAR.ops) (ci_int_h (c := x86_64) unit_env) ci_int_e in
  (∃ t, int_build (A := api) (key_array (seqZ 0 1000000)) 1000000 = Ok t ∧
    int_lookup (A := api) t (key_array (seqZ 0 1000000)) 1000000 = UB SignedOverflow) ∧
  ∃ t, int_build (A := xapi) (key_array (seqZ 16 20000)) 20000 = Ok t ∧
    int_iterate (A := xapi) t = Ok 199990000.
Proof.
  pose proof (length_seqZ 0 1000000) as Hl. pose proof (length_seqZ 16 20000) as Hx. split.
  - destruct (bench_integers (c := x86_64) vmum_default_env (K1 := packed (C := iht_config) SSE2.ops)
      (K2 := packed (C := Ixhtab.ixht_config) IxSWAR.ops) (seqZ 0 1000000) eq_refl) as (_ & _ & H).
    unfold int_sums in H. rewrite Hl, Z2Nat.id in H by lia. destruct H as [(t & Eb & H) _]; [apply NoDup_seqZ|lia|].
    rewrite decide_False in H by lia. exact (ex_intro _ t (conj Eb (proj1 H))).
  - destruct (bench_integers (c := x86_64) unit_env (K1 := packed (C := iht_config) SSE2.ops)
      (K2 := packed (C := Ixhtab.ixht_config) IxSWAR.ops) (seqZ 16 20000) eq_refl) as (_ & _ & H).
    unfold int_sums, few_or_spread in H. rewrite Hx, Z2Nat.id in H by lia.
    destruct H as [_ (t & Eb & H)]; [apply NoDup_seqZ| |].
    + right. split; [lia|]. split; [rewrite list_fmap_id; apply NoDup_seqZ|apply unit_spread; lia].
    + rewrite decide_True in H by lia. exact (ex_intro _ t (conj Eb (proj2 H))).
Defined.

(** Two strings with the same text at different addresses are one key. *)
Lemma bench_strings_witness :
  let abc := [Byte.x61; Byte.x62; Byte.x63] in
  let ks := [mk_c_string 16 abc; mk_c_string 19 (abc ++ [Byte.x00; Byte.x64]); mk_c_string 40 []] in
  str_insert (A := ixht_api (K := packed (C := Ixhtab.ixht_config) IxSWAR.ops)
    (str_hash (c := x86_64) vmum_default_env) str_eq) (key_array ks) 3 = Ok 2.
Proof.
  intros abc ks.
  destruct (bench_strings (c := x86_64) vmum_default_env (K1 := packed (C := iht_config) SSE2.ops)
    (K2 := packed (C := Ixhtab.ixht_config) IxSWAR.ops) ks) as (_ & _ & _ & H & _);
    [by left|reflexivity|apply default_env_ok|].
  specialize (H ltac:(left; cbn; lia)). etransitivity; [exact (sr_insert _ _ H)|by vm_compute].
Defined.
